(** * The Python binding of Brotli: output buffer and streaming drivers

    A shallow embedding of [python/_brotli.c]: the [BlocksOutputBuffer]
    (a list of byte blocks that grows without copying and is joined once),
    the argument convertors of [Compressor], and the loops that drive the
    encoder and the decoder ([compress_stream], [decompress_stream],
    [brotli_decompress]) together with the methods built on them.

    Conventions of the embedding.
    - Integers are [Z].  The platform is LP64: [size_t] is 64 bits wide,
      [Py_ssize_t] and [long] are its signed counterparts; conversions between
      them are written out ([to_size_t], [to_Py_ssize_t]).
    - A bytes object is the list of its payload bytes; the block list of the
      buffer is a list of such payloads, [None] when the pointer is [NULL].
    - The interpreter is an explicit state [PyInterp]: the outcomes of the
      coming allocation requests, the number of payload bytes held by live
      bytes objects, and the error indicator.
    - The codec engines of [<brotli/encode.h>] and [<brotli/decode.h>] are
      opaque: records of step functions ([Encoder], [Decoder]).
    - A C function whose loop may run forever takes a fuel argument; a [NULL]
      dereference is the outcome [Undefined].
    - The drivers run their loops with the interpreter lock released; what a
      call made there does when it has to set the error indicator is written
      out ([threads_allowed]). *)

From Stdlib Require Import String ZArith List Bool Lia.
From Stdlib Require DecimalString.
Import ListNotations.
Local Open Scope Z_scope.

(** ** Machine integers *)

Definition byte : Type := Byte.byte.

Definition SIZE_WIDTH : Z := 64.
Definition SIZE_MAX : Z := 2 ^ SIZE_WIDTH - 1.
Definition PY_SSIZE_T_MAX : Z := 2 ^ (SIZE_WIDTH - 1) - 1.
Definition LONG_MAX : Z := 2 ^ (SIZE_WIDTH - 1) - 1.
Definition LONG_MIN : Z := - 2 ^ (SIZE_WIDTH - 1).

(** Conversion to [size_t]: reduction modulo [2 ^ 64]. *)
Definition to_size_t (z : Z) : Z := z mod 2 ^ SIZE_WIDTH.

(** Conversion to [Py_ssize_t]: the two's complement reading. *)
Definition to_Py_ssize_t (z : Z) : Z :=
  (z + 2 ^ (SIZE_WIDTH - 1)) mod 2 ^ SIZE_WIDTH - 2 ^ (SIZE_WIDTH - 1).

(** ** Outcomes of a C function *)

Inductive outcome (A : Type) : Type :=
| Returns (a : A)
| Undefined      (* a NULL pointer was dereferenced *)
| OutOfFuel.     (* the loop did not end within the fuel given *)

Arguments Returns {A} a.
Arguments Undefined {A}.
Arguments OutOfFuel {A}.

(** ** The interpreter: allocation and the error indicator *)

Inductive exception : Type :=
| BrotliError (msg : string)
| PyExc_MemoryError
| PyExc_SystemError
| PyExc_TypeError
| PyExc_OverflowError.

Definition block : Type := list byte.

Definition Py_SIZE {A : Type} (o : list A) : Z := Z.of_nat (length o).

Record PyInterp : Type := mkPy {
  (* outcome of each coming allocation request, [true] for success; a request
     made after the list is used up succeeds *)
  alloc_outcomes : list bool;
  (* payload bytes of the bytes objects that are alive *)
  live_bytes : N;
  (* what freshly allocated, unwritten memory holds *)
  junk : byte;
  (* the error indicator *)
  err : option exception
}.

Definition PyErr_Set (e : exception) (py : PyInterp) : PyInterp :=
  mkPy (alloc_outcomes py) (live_bytes py) (junk py) (Some e).

(** One request to the allocator.  The objects alive at any moment fit in the
    address space, which is smaller than [PY_SSIZE_T_MAX] bytes: a request
    that would not fit is refused whatever the outcome list says. *)
Definition request (n : Z) (py : PyInterp) : bool * PyInterp :=
  let granted := match alloc_outcomes py with [] => true | b :: _ => b end in
  let ok := granted && (Z.of_N (live_bytes py) + n <=? PY_SSIZE_T_MAX) in
  (ok, mkPy (tl (alloc_outcomes py))
            (if ok then (live_bytes py + Z.to_N n)%N else live_bytes py)
            (junk py)
            (if ok then err py else Some PyExc_MemoryError)).

(** [PyBytes_FromStringAndSize(NULL, size)]: a bytes object of [size]
    uninitialised bytes, or [NULL] with the error indicator set. *)
Definition PyBytes_FromStringAndSize (size : Z) (py : PyInterp)
  : option block * PyInterp :=
  if size <? 0 then (None, PyErr_Set PyExc_SystemError py)
  else
    let '(ok, py1) := request size py in
    if ok then (Some (repeat (junk py) (Z.to_nat size)), py1) else (None, py1).

(** [PyList_New(1)] and [PyList_Append]: they allocate, so they may fail. *)
Definition PyList_New (py : PyInterp) : bool * PyInterp := request 0 py.
Definition PyList_Append (py : PyInterp) : bool * PyInterp := request 0 py.

(** The last reference to a bytes object is dropped. *)
Definition free_bytes (b : block) (py : PyInterp) : PyInterp :=
  mkPy (alloc_outcomes py) (live_bytes py - Z.to_N (Py_SIZE b))%N (junk py)
       (err py).

Definition total_size (l : list block) : Z :=
  fold_right (fun b acc => Py_SIZE b + acc) 0 l.

(** The last reference to a list that holds the only reference to each of
    its blocks is dropped. *)
Definition free_list (l : list block) (py : PyInterp) : PyInterp :=
  mkPy (alloc_outcomes py) (live_bytes py - Z.to_N (total_size l))%N (junk py)
       (err py).

(** ** BlocksOutputBuffer *)

Record BlocksOutputBuffer : Type := mkBuffer {
  (* List of blocks *)
  list_ : option (list block);
  (* Number of whole allocated size. *)
  allocated : Z
}.

(** Block size sequence. *)
Definition KB : Z := 1024.
Definition MB : Z := 1024 * 1024.
Definition BUFFER_BLOCK_SIZE : list Z :=
  [ 32*KB; 64*KB; 256*KB; 1*MB; 4*MB; 8*MB; 16*MB; 16*MB;
    32*MB; 32*MB; 32*MB; 32*MB; 64*MB; 64*MB; 128*MB; 128*MB;
    256*MB ].

Definition Py_ARRAY_LENGTH {A : Type} (a : list A) : Z := Z.of_nat (length a).

(** [a[i]] for an array of [int]. *)
Definition index (a : list Z) (i : Z) : Z := nth (Z.to_nat i) a 0.

(** A pointer into the payload of a block of the list. *)
Record pointer : Type := mkPtr { blk : nat; off : Z }.

(** The output window handed to the engine. *)
Record window : Type := mkWindow { avail_out : Z; next_out : pointer }.

(** [Py_CLEAR(buffer->list)] and [Py_XDECREF(buffer->list)]: nothing happens
    when the pointer is [NULL]. *)
Definition Py_CLEAR_list (buffer : BlocksOutputBuffer) (py : PyInterp)
  : BlocksOutputBuffer * PyInterp :=
  match list_ buffer with
  | None => (buffer, py)
  | Some l => (mkBuffer None (allocated buffer), free_list l py)
  end.

(** Initialize the buffer, and grow the buffer.
    Return 0 on success, -1 on failure. *)
Definition BlocksOutputBuffer_InitAndGrow
    (buffer : BlocksOutputBuffer) (w : window) (py : PyInterp)
  : Z * BlocksOutputBuffer * window * PyInterp :=
  let block_size := index BUFFER_BLOCK_SIZE 0 in
  (* The first block *)
  match PyBytes_FromStringAndSize block_size py with
  | (None, py1) => (-1, mkBuffer None (allocated buffer), w, py1)
  | (Some b, py1) =>
      (* Create list *)
      match PyList_New py1 with
      | (false, py2) =>
          (-1, mkBuffer None (allocated buffer), w, free_bytes b py2)
      | (true, py2) =>
          (0, mkBuffer (Some [b]) block_size,
           mkWindow (to_size_t block_size) (mkPtr 0 0), py2)
      end
  end.

(** Grow the buffer. The avail_out must be 0, please check it before calling.
    Return 0 on success, -1 on failure.  (The [assert] on [avail_out] is
    compiled out; the callers establish it.) *)
Definition BlocksOutputBuffer_Grow
    (buffer : BlocksOutputBuffer) (w : window) (py : PyInterp)
  : outcome (Z * BlocksOutputBuffer * window * PyInterp) :=
  match list_ buffer with
  | None => Undefined   (* Py_SIZE(buffer->list) *)
  | Some l =>
      let list_len := Py_SIZE l in
      (* Get block size *)
      let block_size :=
        if list_len <? Py_ARRAY_LENGTH BUFFER_BLOCK_SIZE
        then index BUFFER_BLOCK_SIZE list_len
        else index BUFFER_BLOCK_SIZE (Py_ARRAY_LENGTH BUFFER_BLOCK_SIZE - 1) in
      (* Create the block *)
      match PyBytes_FromStringAndSize block_size py with
      | (None, py1) =>
          let '(buffer1, py2) := Py_CLEAR_list buffer py1 in
          Returns (-1, buffer1, w, PyErr_Set PyExc_MemoryError py2)
      | (Some b, py1) =>
          match PyList_Append py1 with
          | (false, py2) =>
              let '(buffer1, py3) := Py_CLEAR_list buffer (free_bytes b py2) in
              Returns (-1, buffer1, w, py3)
          | (true, py2) =>
              Returns (0,
                       mkBuffer (Some (l ++ [b]))
                                (to_Py_ssize_t (allocated buffer + block_size)),
                       mkWindow (to_size_t block_size)
                                (mkPtr (length l) 0),
                       py2)
          end
      end
  end.

(** [memcpy(dst + offset, src, n)]; [None] when it would read or write out of
    bounds. *)
Definition memcpy (dst : block) (offset : Z) (src : block) (n : Z)
  : option block :=
  if (0 <=? offset) && (0 <=? n) && (offset + n <=? Py_SIZE dst)
     && (n <=? Py_SIZE src)
  then Some (firstn (Z.to_nat offset) dst ++ firstn (Z.to_nat n) src
             ++ skipn (Z.to_nat (offset + n)) dst)
  else None.

(** The copy of [BlocksOutputBuffer_Finish]: every block except the last one
    in full, then the last block without its unused tail. *)
Fixpoint Finish_copy (l : list block) (avail_out : Z) (offset : Z)
    (result : block) : option block :=
  match l with
  | [] => Some result
  | [last] => memcpy result offset last (to_size_t (Py_SIZE last - avail_out))
  | b :: rest =>
      match memcpy result offset b (Py_SIZE b) with
      | None => None
      | Some result1 => Finish_copy rest avail_out (offset + Py_SIZE b) result1
      end
  end.

(** Finish the buffer.
    Return a bytes object on success, NULL on failure. *)
Definition BlocksOutputBuffer_Finish
    (buffer : BlocksOutputBuffer) (avail_out : Z) (py : PyInterp)
  : outcome (option block * BlocksOutputBuffer * PyInterp) :=
  (* Final bytes object *)
  match PyBytes_FromStringAndSize
          (to_Py_ssize_t (to_size_t (allocated buffer - avail_out))) py with
  | (None, py1) =>
      let '(buffer1, py2) := Py_CLEAR_list buffer py1 in
      Returns (None, buffer1, PyErr_Set PyExc_MemoryError py2)
  | (Some result, py1) =>
      (* Memory copy *)
      match list_ buffer with
      | None => Undefined   (* Py_SIZE(buffer->list) *)
      | Some l =>
          match Finish_copy l avail_out 0 result with
          | None => Undefined
          | Some result1 =>
              let '(buffer1, py2) := Py_CLEAR_list buffer py1 in
              Returns (Some result1, buffer1, py2)
          end
      end
  end.

(** Clean up the buffer *)
Definition BlocksOutputBuffer_CleanUp
    (buffer : BlocksOutputBuffer) (py : PyInterp)
  : BlocksOutputBuffer * PyInterp :=
  match list_ buffer with
  | None => (buffer, py)
  | Some l => (buffer, free_list l py)
  end.

(** ** The codec engines *)

Inductive BrotliEncoderOperation : Type :=
| BROTLI_OPERATION_PROCESS
| BROTLI_OPERATION_FLUSH
| BROTLI_OPERATION_FINISH.

Inductive BrotliEncoderParameter : Type :=
| BROTLI_PARAM_MODE
| BROTLI_PARAM_QUALITY
| BROTLI_PARAM_LGWIN
| BROTLI_PARAM_LGBLOCK.

(** Modelled from the spec: the result type of [<brotli/decode.h>], which is
    not among the sources.  The spec lists the statuses of a step as CONTINUE,
    NEEDS_MORE_OUTPUT, FINISHED and ERROR; the code names three of them
    ([..._NEEDS_MORE_OUTPUT], [..._SUCCESS] for FINISHED, [..._ERROR]) and
    the fourth, CONTINUE, is the request for more input. *)
Inductive BrotliDecoderResult : Type :=
| BROTLI_DECODER_RESULT_ERROR
| BROTLI_DECODER_RESULT_SUCCESS
| BROTLI_DECODER_RESULT_NEEDS_MORE_INPUT
| BROTLI_DECODER_RESULT_NEEDS_MORE_OUTPUT.

Definition BrotliDecoderResult_eqb (a b : BrotliDecoderResult) : bool :=
  match a, b with
  | BROTLI_DECODER_RESULT_ERROR, BROTLI_DECODER_RESULT_ERROR
  | BROTLI_DECODER_RESULT_SUCCESS, BROTLI_DECODER_RESULT_SUCCESS
  | BROTLI_DECODER_RESULT_NEEDS_MORE_INPUT,
    BROTLI_DECODER_RESULT_NEEDS_MORE_INPUT
  | BROTLI_DECODER_RESULT_NEEDS_MORE_OUTPUT,
    BROTLI_DECODER_RESULT_NEEDS_MORE_OUTPUT => true
  | _, _ => false
  end.

(** What one step of an engine does: its return value, its next state, how
    many input bytes it read and the bytes it wrote. *)
Record step (St R : Type) : Type := mkStep {
  status : R;
  next_state : St;
  consumed : Z;
  written : list byte
}.

Arguments mkStep {St R}.
Arguments status {St R}.
Arguments next_state {St R}.
Arguments consumed {St R}.
Arguments written {St R}.

(** The encoder of [<brotli/encode.h>].  A step is given the unread input
    [[next_in, next_in + available_in)] and [available_out]. *)
Record Encoder : Type := mkEncoder {
  BrotliEncoderState : Type;
  BrotliEncoderCreateInstance : option BrotliEncoderState;
  BrotliEncoderSetParameter :
    BrotliEncoderState -> BrotliEncoderParameter -> Z -> BrotliEncoderState;
  BrotliEncoderCompressStream :
    BrotliEncoderState -> BrotliEncoderOperation -> list byte -> Z ->
    step BrotliEncoderState bool;
  BrotliEncoderHasMoreOutput : BrotliEncoderState -> bool;
  BrotliEncoderIsFinished : BrotliEncoderState -> bool;
  (* the values of enum BrotliEncoderMode *)
  BROTLI_MODE_GENERIC : Z;
  BROTLI_MODE_TEXT : Z;
  BROTLI_MODE_FONT : Z
}.

(** The decoder of [<brotli/decode.h>]. *)
Record Decoder : Type := mkDecoder {
  BrotliDecoderState : Type;
  BrotliDecoderCreateInstance : option BrotliDecoderState;
  BrotliDecoderDecompressStream :
    BrotliDecoderState -> list byte -> Z ->
    step BrotliDecoderState BrotliDecoderResult;
  BrotliDecoderIsFinished : BrotliDecoderState -> bool
}.

(** *** The windows after a step

    An engine reads no more than [available_in] bytes and writes no more than
    [available_out] bytes: what a step reports beyond its windows is cut. *)

Definition advance_in (next_in : list byte) (n : Z) : list byte :=
  skipn (Z.to_nat n) next_in.

(** [n] bytes are overwritten at offset [o] of a block. *)
Definition poke (b : block) (o : Z) (out : list byte) : block :=
  firstn (Z.to_nat o) b ++ out ++ skipn (Z.to_nat o + length out) b.

Fixpoint poke_nth (l : list block) (i : nat) (o : Z) (out : list byte)
  : list block :=
  match l, i with
  | [], _ => []
  | b :: l', O => poke b o out :: l'
  | b :: l', S i' => b :: poke_nth l' i' o out
  end.

(** The bytes the engine wrote land at [next_out]; the window shrinks. *)
Definition store (buffer : BlocksOutputBuffer) (w : window) (out : list byte)
  : BlocksOutputBuffer * window :=
  let out1 := firstn (Z.to_nat (avail_out w)) out in
  (mkBuffer
     (match list_ buffer with
      | None => None
      | Some l => Some (poke_nth l (blk (next_out w)) (off (next_out w)) out1)
      end)
     (allocated buffer),
   mkWindow (avail_out w - Py_SIZE out1)
            (mkPtr (blk (next_out w)) (off (next_out w) + Py_SIZE out1))).

(** ** Calls observed during a run *)

Inductive event : Type :=
| EvEncoderCreateInstance (created : bool)
| EvEncoderSetParameter (p : BrotliEncoderParameter) (v : Z)
| EvEncoderDestroyInstance
| EvEncoderCompressStream (op : BrotliEncoderOperation) (ok : bool)
    (available_in available_out : Z)   (* the windows left by the call *)
| EvEncoderHasMoreOutput (more : bool)
| EvEncoderIsFinished (finished : bool)
| EvDecoderCreateInstance (created : bool)
| EvDecoderDecompressStream (result : BrotliDecoderResult)
    (available_in available_out : Z)   (* the windows left by the call *)
| EvDecoderIsFinished (finished : bool)
| EvDecoderDestroyInstance
| EvInitAndGrow (rc : Z)
| EvGrow (rc : Z)
| EvFinish (avail_out : Z) (produced : bool)
| EvCleanUp.

(** The variables of a driver when its loop is left. *)
Record loop_end (St R : Type) : Type := mkLoopEnd {
  le_status : R;           (* [ok], respectively [result] *)
  le_state : St;
  le_next_in : list byte;
  le_buffer : BlocksOutputBuffer;
  le_window : window;
  le_py : PyInterp;
  le_trace : list event
}.

Arguments mkLoopEnd {St R}.
Arguments le_status {St R}.
Arguments le_state {St R}.
Arguments le_next_in {St R}.
Arguments le_buffer {St R}.
Arguments le_window {St R}.
Arguments le_py {St R}.
Arguments le_trace {St R}.

Definition before {St R : Type} (evs : list event)
    (o : outcome (loop_end St R)) : outcome (loop_end St R) :=
  match o with
  | Returns e =>
      Returns (mkLoopEnd (le_status e) (le_state e) (le_next_in e)
                 (le_buffer e) (le_window e) (le_py e) (evs ++ le_trace e))
  | Undefined => Undefined
  | OutOfFuel => OutOfFuel
  end.

(** What a driver hands back: [ok], [*output], the engine, the interpreter
    and the calls made. *)
Record stream_result (St : Type) : Type := mkResult {
  ok : bool;
  output : option block;
  engine : St;
  py_after : PyInterp;
  trace : list event
}.

Arguments mkResult {St}.
Arguments ok {St}.
Arguments output {St}.
Arguments engine {St}.
Arguments py_after {St}.
Arguments trace {St}.

(** The locals [buffer], [available_out] and [next_out] before
    [BlocksOutputBuffer_InitAndGrow] fills them in. *)
Definition fresh_buffer : BlocksOutputBuffer := mkBuffer None 0.
Definition fresh_window : window := mkWindow 0 (mkPtr 0 0).

Definition is_some {A : Type} (o : option A) : bool :=
  match o with Some _ => true | None => false end.

(** ** Calls made while the interpreter lock is released

    [Py_BEGIN_ALLOW_THREADS] saves the thread state and gives up the
    interpreter lock: until [Py_END_ALLOW_THREADS] the thread has no thread
    state.  The loops of the three drivers run in between, and so does every
    [BlocksOutputBuffer_Grow] they call.  A request that is granted does not
    touch the thread state.  A request that is refused makes the allocating
    function raise [MemoryError], and the error indicator is a field of the
    thread state: the [NULL] thread state is dereferenced.
    [BlocksOutputBuffer_Grow] reports a failure only after such a request, so
    with the lock released it never returns -1. *)
Definition threads_allowed
    (call : outcome (Z * BlocksOutputBuffer * window * PyInterp))
  : outcome (Z * BlocksOutputBuffer * window * PyInterp) :=
  match call with
  | Returns (rc, buffer, w, py) =>
      if rc <? 0 then Undefined   (* the thread state is NULL *)
      else Returns (rc, buffer, w, py)
  | Undefined => Undefined
  | OutOfFuel => OutOfFuel
  end.

Section Compress.

Variable E : Encoder.

  (** The [while (ok)] loop of [compress_stream], which runs between
      [Py_BEGIN_ALLOW_THREADS] and [Py_END_ALLOW_THREADS]. *)
Fixpoint compress_loop (fuel : nat) (enc : BrotliEncoderState E)
      (op : BrotliEncoderOperation) (next_in : list byte)
      (buffer : BlocksOutputBuffer) (w : window) (py : PyInterp)
    : outcome (loop_end (BrotliEncoderState E) bool) :=
    match fuel with
    | O => OutOfFuel
    | S fuel' =>
        let s := BrotliEncoderCompressStream E enc op next_in (avail_out w) in
        let enc1 := next_state s in
        let next_in1 := advance_in next_in (consumed s) in
        let '(buffer1, w1) := store buffer w (written s) in
        let ev := EvEncoderCompressStream op (status s)
                    (Py_SIZE next_in1) (avail_out w1) in
        if negb (status s) then
          Returns (mkLoopEnd false enc1 next_in1 buffer1 w1 py [ev])
        else
          let grown :=
            if avail_out w1 =? 0 then
              match threads_allowed
                      (BlocksOutputBuffer_Grow buffer1 w1 py) with
              | Returns (rc, buffer2, w2, py2) =>
                  Returns (rc, buffer2, w2, py2, [EvGrow rc])
              | Undefined => Undefined
              | OutOfFuel => OutOfFuel
              end
            else Returns (0, buffer1, w1, py, []) in
          match grown with
          | Returns (rc, buffer2, w2, py2, evg) =>
              if rc <? 0 then
                Returns (mkLoopEnd false enc1 next_in1 buffer2 w2 py2
                           (ev :: evg))
              else if negb (Py_SIZE next_in1 =? 0) then
                before (ev :: evg)
                  (compress_loop fuel' enc1 op next_in1 buffer2 w2 py2)
              else if BrotliEncoderHasMoreOutput E enc1 then
                before (ev :: evg ++ [EvEncoderHasMoreOutput true])
                  (compress_loop fuel' enc1 op next_in1 buffer2 w2 py2)
              else
                Returns (mkLoopEnd true enc1 next_in1 buffer2 w2 py2
                           (ev :: evg ++ [EvEncoderHasMoreOutput false]))
          | Undefined => Undefined
          | OutOfFuel => OutOfFuel
          end
    end.

Definition compress_stream (fuel : nat) (enc : BrotliEncoderState E)
      (op : BrotliEncoderOperation) (input : list byte) (py : PyInterp)
    : outcome (stream_result (BrotliEncoderState E)) :=
    let '(rc, buffer, w, py1) :=
      BlocksOutputBuffer_InitAndGrow fresh_buffer fresh_window py in
    if rc <? 0 then Returns (mkResult false None enc py1 [EvInitAndGrow rc])
    else
      match compress_loop fuel enc op input buffer w py1 with
      | Returns e =>
          if le_status e then
            match BlocksOutputBuffer_Finish (le_buffer e)
                    (avail_out (le_window e)) (le_py e) with
            | Returns (out, _, py2) =>
                Returns (mkResult (is_some out) out (le_state e) py2
                           (EvInitAndGrow rc :: le_trace e
                            ++ [EvFinish (avail_out (le_window e))
                                  (is_some out)]))
            | Undefined => Undefined
            | OutOfFuel => OutOfFuel
            end
          else
            let '(_, py2) := BlocksOutputBuffer_CleanUp (le_buffer e)
                               (le_py e) in
            Returns (mkResult false None (le_state e) py2
                       (EvInitAndGrow rc :: le_trace e ++ [EvCleanUp]))
      | Undefined => Undefined
      | OutOfFuel => OutOfFuel
      end.

End Compress.

Section Decompress.

Variable D : Decoder.

  (** The loop of [decompress_stream], which runs between
      [Py_BEGIN_ALLOW_THREADS] and [Py_END_ALLOW_THREADS]: a failed growth is
      to turn the result into an error. *)
Fixpoint decompress_stream_loop (fuel : nat) (dec : BrotliDecoderState D)
      (next_in : list byte) (buffer : BlocksOutputBuffer) (w : window)
      (py : PyInterp)
    : outcome (loop_end (BrotliDecoderState D) BrotliDecoderResult) :=
    match fuel with
    | O => OutOfFuel
    | S fuel' =>
        let s := BrotliDecoderDecompressStream D dec next_in (avail_out w) in
        let dec1 := next_state s in
        let next_in1 := advance_in next_in (consumed s) in
        let '(buffer1, w1) := store buffer w (written s) in
        let ev := EvDecoderDecompressStream (status s)
                    (Py_SIZE next_in1) (avail_out w1) in
        let again (buffer2 : BlocksOutputBuffer) (w2 : window)
                  (py2 : PyInterp) (evs : list event) :=
          if BrotliDecoderResult_eqb (status s)
               BROTLI_DECODER_RESULT_NEEDS_MORE_OUTPUT
          then before evs
                 (decompress_stream_loop fuel' dec1 next_in1 buffer2 w2 py2)
          else Returns (mkLoopEnd (status s) dec1 next_in1 buffer2 w2 py2
                          evs) in
        if avail_out w1 =? 0 then
          match threads_allowed (BlocksOutputBuffer_Grow buffer1 w1 py)
          with
          | Returns (rc, buffer2, w2, py2) =>
              if rc <? 0 then
                Returns (mkLoopEnd BROTLI_DECODER_RESULT_ERROR dec1 next_in1
                           buffer2 w2 py2 [ev; EvGrow rc])
              else again buffer2 w2 py2 [ev; EvGrow rc]
          | Undefined => Undefined
          | OutOfFuel => OutOfFuel
          end
        else again buffer1 w1 py [ev]
    end.

Definition decompress_stream (fuel : nat) (dec : BrotliDecoderState D)
      (input : list byte) (py : PyInterp)
    : outcome (stream_result (BrotliDecoderState D)) :=
    let '(rc, buffer, w, py1) :=
      BlocksOutputBuffer_InitAndGrow fresh_buffer fresh_window py in
    if rc <? 0 then Returns (mkResult false None dec py1 [EvInitAndGrow rc])
    else
      match decompress_stream_loop fuel dec input buffer w py1 with
      | Returns e =>
          if negb (BrotliDecoderResult_eqb (le_status e)
                     BROTLI_DECODER_RESULT_ERROR)
             && (Py_SIZE (le_next_in e) =? 0)
          then
            match BlocksOutputBuffer_Finish (le_buffer e)
                    (avail_out (le_window e)) (le_py e) with
            | Returns (out, _, py2) =>
                Returns (mkResult (is_some out) out (le_state e) py2
                           (EvInitAndGrow rc :: le_trace e
                            ++ [EvFinish (avail_out (le_window e))
                                  (is_some out)]))
            | Undefined => Undefined
            | OutOfFuel => OutOfFuel
            end
          else
            let '(_, py2) := BlocksOutputBuffer_CleanUp (le_buffer e)
                               (le_py e) in
            Returns (mkResult false None (le_state e) py2
                       (EvInitAndGrow rc :: le_trace e ++ [EvCleanUp]))
      | Undefined => Undefined
      | OutOfFuel => OutOfFuel
      end.

  (** The loop of [brotli_decompress], which runs between
      [Py_BEGIN_ALLOW_THREADS] and [Py_END_ALLOW_THREADS]: a failed growth
      only leaves the loop, with the result of the last step. *)
Fixpoint brotli_decompress_loop (fuel : nat) (state : BrotliDecoderState D)
      (next_in : list byte) (buffer : BlocksOutputBuffer) (w : window)
      (py : PyInterp)
    : outcome (loop_end (BrotliDecoderState D) BrotliDecoderResult) :=
    match fuel with
    | O => OutOfFuel
    | S fuel' =>
        let s := BrotliDecoderDecompressStream D state next_in (avail_out w) in
        let state1 := next_state s in
        let next_in1 := advance_in next_in (consumed s) in
        let '(buffer1, w1) := store buffer w (written s) in
        let ev := EvDecoderDecompressStream (status s)
                    (Py_SIZE next_in1) (avail_out w1) in
        let again (buffer2 : BlocksOutputBuffer) (w2 : window)
                  (py2 : PyInterp) (evs : list event) :=
          if BrotliDecoderResult_eqb (status s)
               BROTLI_DECODER_RESULT_NEEDS_MORE_OUTPUT
          then before evs
                 (brotli_decompress_loop fuel' state1 next_in1 buffer2 w2 py2)
          else Returns (mkLoopEnd (status s) state1 next_in1 buffer2 w2 py2
                          evs) in
        if avail_out w1 =? 0 then
          match threads_allowed (BlocksOutputBuffer_Grow buffer1 w1 py)
          with
          | Returns (rc, buffer2, w2, py2) =>
              if rc <? 0 then
                Returns (mkLoopEnd (status s) state1 next_in1 buffer2 w2 py2
                           [ev; EvGrow rc])
              else again buffer2 w2 py2 [ev; EvGrow rc]
          | Undefined => Undefined
          | OutOfFuel => OutOfFuel
          end
        else again buffer1 w1 py [ev]
    end.

End Decompress.

(** ** Python objects handed to the module *)

(** An argument: an [int] (a [bool] counts as the [int] 0 or 1), a bytes-like
    object, or an object of another type. *)
Inductive PyObject : Type :=
| PyLong (ob_ival : Z)
| PyBytes (ob_sval : list byte)
| PyOther.

(** What a method or function of the module returns: the object or [NULL]
    (with the error indicator set in the interpreter), and the calls made. *)
Record call_result (Self R : Type) : Type := mkCall {
  ret : option R;
  self_after : Self;
  interp : PyInterp;
  calls : list event
}.

Arguments mkCall {Self R}.
Arguments ret {Self R}.
Arguments self_after {Self R}.
Arguments interp {Self R}.
Arguments calls {Self R}.

Section DecompressFunction.

Variable D : Decoder.

  (** [brotli.decompress(string)] *)
Definition brotli_decompress (fuel : nat) (string : PyObject)
      (py : PyInterp) : outcome (call_result unit block) :=
    match string with
    | PyBytes input =>
        let '(rc, buffer, w, py1) :=
          BlocksOutputBuffer_InitAndGrow fresh_buffer fresh_window py in
        if rc <? 0 then Returns (mkCall None tt py1 [EvInitAndGrow rc])
        else
          match BrotliDecoderCreateInstance D with
          | None => Undefined   (* the first step is given a NULL state *)
          | Some state =>
              match brotli_decompress_loop D fuel state input buffer w py1
              with
              | Returns e =>
                  let evs := EvInitAndGrow rc :: EvDecoderCreateInstance true
                             :: le_trace e ++ [EvDecoderDestroyInstance] in
                  if BrotliDecoderResult_eqb (le_status e)
                       BROTLI_DECODER_RESULT_SUCCESS
                     && (Py_SIZE (le_next_in e) =? 0)
                  then
                    match BlocksOutputBuffer_Finish (le_buffer e)
                            (avail_out (le_window e)) (le_py e) with
                    | Returns (out, _, py2) =>
                        Returns (mkCall out tt py2
                                   (evs ++ [EvFinish (avail_out (le_window e))
                                              (is_some out)]))
                    | Undefined => Undefined
                    | OutOfFuel => OutOfFuel
                    end
                  else
                    let '(_, py2) := BlocksOutputBuffer_CleanUp (le_buffer e)
                                       (le_py e) in
                    Returns (mkCall None tt
                               (PyErr_Set
                                  (BrotliError "BrotliDecompress failed") py2)
                               (evs ++ [EvCleanUp]))
              | Undefined => Undefined
              | OutOfFuel => OutOfFuel
              end
          end
    | _ => Returns (mkCall None tt (PyErr_Set PyExc_TypeError py) [])
    end.

End DecompressFunction.

(** ** Argument convertors of [Compressor] *)

(** [PyInt_Check] *)
Definition PyInt_Check (o : PyObject) : bool :=
  match o with PyLong _ => true | _ => false end.

(** [PyInt_AsLong]: the value, or -1 with the error indicator set when the
    object is no [int] or its value does not fit a [long]. *)
Definition PyInt_AsLong (o : PyObject) (py : PyInterp) : Z * PyInterp :=
  match o with
  | PyLong v =>
      if (LONG_MIN <=? v) && (v <=? LONG_MAX) then (v, py)
      else (-1, PyErr_Set PyExc_OverflowError py)
  | _ => (-1, PyErr_Set PyExc_TypeError py)
  end.

Definition as_bounded_int (o : PyObject) (result : Z)
    (lower_bound upper_bound : Z) (py : PyInterp) : Z * Z * PyInterp :=
  let '(value, py1) := PyInt_AsLong o py in
  if (value <? lower_bound) || (value >? upper_bound) then (0, result, py1)
  else (1, value, py1).

Section Convertors.

Variable E : Encoder.

Definition mode_convertor (o : PyObject) (mode : Z) (py : PyInterp)
    : Z * Z * PyInterp :=
    if negb (PyInt_Check o) then
      (0, mode, PyErr_Set (BrotliError "Invalid mode") py)
    else
      let mode_value := -1 in
      let '(r, mode_value1, py1) := as_bounded_int o mode_value 0 255 py in
      if r =? 0 then (0, mode, PyErr_Set (BrotliError "Invalid mode") py1)
      else
        let mode1 := mode_value1 in
        if negb (mode1 =? BROTLI_MODE_GENERIC E)
           && negb (mode1 =? BROTLI_MODE_TEXT E)
           && negb (mode1 =? BROTLI_MODE_FONT E)
        then (0, mode1, PyErr_Set (BrotliError "Invalid mode") py1)
        else (1, mode1, py1).

End Convertors.

Definition quality_convertor (o : PyObject) (quality : Z) (py : PyInterp)
  : Z * Z * PyInterp :=
  if negb (PyInt_Check o) then
    (0, quality, PyErr_Set (BrotliError "Invalid quality") py)
  else
    let '(r, quality1, py1) := as_bounded_int o quality 0 11 py in
    if r =? 0 then
      (0, quality1,
       PyErr_Set (BrotliError "Invalid quality. Range is 0 to 11.") py1)
    else (1, quality1, py1).

Definition lgwin_convertor (o : PyObject) (lgwin : Z) (py : PyInterp)
  : Z * Z * PyInterp :=
  if negb (PyInt_Check o) then
    (0, lgwin, PyErr_Set (BrotliError "Invalid lgwin") py)
  else
    let '(r, lgwin1, py1) := as_bounded_int o lgwin 10 24 py in
    if r =? 0 then
      (0, lgwin1,
       PyErr_Set (BrotliError "Invalid lgwin. Range is 10 to 24.") py1)
    else (1, lgwin1, py1).

Definition lgblock_convertor (o : PyObject) (lgblock : Z) (py : PyInterp)
  : Z * Z * PyInterp :=
  if negb (PyInt_Check o) then
    (0, lgblock, PyErr_Set (BrotliError "Invalid lgblock") py)
  else
    let '(r, lgblock1, py1) := as_bounded_int o lgblock 0 24 py in
    if (r =? 0) || (negb (lgblock1 =? 0) && (lgblock1 <? 16)) then
      (0, lgblock1,
       PyErr_Set
         (BrotliError "Invalid lgblock. Can be 0 or in range 16 to 24.") py1)
    else (1, lgblock1, py1).

(** The arguments of [Compressor(mode, quality, lgwin, lgblock)], each of
    them optional. *)
Record Compressor_args : Type := mkArgs {
  arg_mode : option PyObject;
  arg_quality : option PyObject;
  arg_lgwin : option PyObject;
  arg_lgblock : option PyObject
}.

(** One ["O&"] unit of [PyArg_ParseTupleAndKeywords]: the convertor runs on
    an argument that was passed, and the variable keeps its value
    otherwise. *)
Definition convert (convertor : PyObject -> Z -> PyInterp -> Z * Z * PyInterp)
    (a : option PyObject) (var : Z) (py : PyInterp) : Z * Z * PyInterp :=
  match a with
  | None => (1, var, py)
  | Some o => convertor o var py
  end.

(** ** The Compressor object *)

Section CompressorObject.

Variable E : Encoder.

Record brotli_Compressor : Type := mkCompressor {
    enc : option (BrotliEncoderState E)
  }.

  (** [tp_new]: the object is allocated, then its encoder is created. *)
Definition brotli_Compressor_new (py : PyInterp)
    : option brotli_Compressor * PyInterp * list event :=
    match request 0 py with       (* type->tp_alloc(type, 0) *)
    | (false, py1) => (None, py1, [])
    | (true, py1) =>
        (Some (mkCompressor (BrotliEncoderCreateInstance E)), py1,
         [EvEncoderCreateInstance (is_some (BrotliEncoderCreateInstance E))])
    end.

  (** [tp_dealloc] *)
Definition brotli_Compressor_dealloc (self : brotli_Compressor)
    : list event := [EvEncoderDestroyInstance].

Definition set_if_given (p : BrotliEncoderParameter) (v : Z)
      (st : BrotliEncoderState E * list event)
    : BrotliEncoderState E * list event :=
    if negb (v =? -1) then
      (BrotliEncoderSetParameter E (fst st) p (v mod 2 ^ 32),
       snd st ++ [EvEncoderSetParameter p (v mod 2 ^ 32)])
    else st.

  (** [tp_init]: 0 on success, -1 on failure. *)
Definition brotli_Compressor_init (self : brotli_Compressor)
      (args : Compressor_args) (py : PyInterp)
    : Z * brotli_Compressor * PyInterp * list event :=
    let mode := -1 in
    let quality := -1 in
    let lgwin := -1 in
    let lgblock := -1 in
    let parsed :=
      let '(r1, mode1, py1) := convert (mode_convertor E) (arg_mode args)
                                 mode py in
      if r1 =? 0 then (0, mode1, quality, lgwin, lgblock, py1) else
      let '(r2, quality1, py2) := convert quality_convertor (arg_quality args)
                                    quality py1 in
      if r2 =? 0 then (0, mode1, quality1, lgwin, lgblock, py2) else
      let '(r3, lgwin1, py3) := convert lgwin_convertor (arg_lgwin args)
                                  lgwin py2 in
      if r3 =? 0 then (0, mode1, quality1, lgwin1, lgblock, py3) else
      let '(r4, lgblock1, py4) := convert lgblock_convertor (arg_lgblock args)
                                    lgblock py3 in
      (r4, mode1, quality1, lgwin1, lgblock1, py4) in
    let '(ok, mode1, quality1, lgwin1, lgblock1, py1) := parsed in
    if ok =? 0 then (-1, self, py1, [])
    else
      match enc self with
      | None => (-1, self, py1, [])
      | Some e =>
          let '(e1, evs) :=
            set_if_given BROTLI_PARAM_LGBLOCK lgblock1
              (set_if_given BROTLI_PARAM_LGWIN lgwin1
                 (set_if_given BROTLI_PARAM_QUALITY quality1
                    (set_if_given BROTLI_PARAM_MODE mode1 (e, [])))) in
          (0, mkCompressor (Some e1), py1, evs)
      end.

  (** Calling the type: the interpreter runs [tp_new], then [tp_init] on the
      new object, and when [tp_init] fails it drops the object, which runs
      [tp_dealloc]. *)
Definition Compressor (args : Compressor_args) (py : PyInterp)
    : option brotli_Compressor * PyInterp * list event :=
    match brotli_Compressor_new py with
    | (None, py1, evs) => (None, py1, evs)
    | (Some self, py1, evs) =>
        let '(rc, self1, py2, evs1) := brotli_Compressor_init self args py1 in
        if rc <? 0 then
          (None,
           match err py2 with
           | None => PyErr_Set PyExc_SystemError py2
           | Some _ => py2
           end,
           evs ++ evs1 ++ brotli_Compressor_dealloc self1)
        else (Some self1, py2, evs ++ evs1)
    end.

Definition failed (msg : string) (self : brotli_Compressor)
      (py : PyInterp) (evs : list event)
    : outcome (call_result brotli_Compressor block) :=
    Returns (mkCall None self (PyErr_Set (BrotliError msg) py) evs).

Definition brotli_Compressor_process (fuel : nat)
      (self : brotli_Compressor) (arg : PyObject) (py : PyInterp)
    : outcome (call_result brotli_Compressor block) :=
    match arg with
    | PyBytes input =>
        match enc self with
        | None =>
            failed "BrotliEncoderCompressStream failed while processing the stream"
              self py []
        | Some e =>
            match compress_stream E fuel e BROTLI_OPERATION_PROCESS input py
            with
            | Returns r =>
                if ok r then
                  Returns (mkCall (output r) (mkCompressor (Some (engine r)))
                             (py_after r) (trace r))
                else
                  failed "BrotliEncoderCompressStream failed while processing the stream"
                    (mkCompressor (Some (engine r))) (py_after r) (trace r)
            | Undefined => Undefined
            | OutOfFuel => OutOfFuel
            end
        end
    | _ => Returns (mkCall None self (PyErr_Set PyExc_TypeError py) [])
    end.

Definition brotli_Compressor_flush (fuel : nat)
      (self : brotli_Compressor) (py : PyInterp)
    : outcome (call_result brotli_Compressor block) :=
    match enc self with
    | None =>
        failed "BrotliEncoderCompressStream failed while flushing the stream"
          self py []
    | Some e =>
        match compress_stream E fuel e BROTLI_OPERATION_FLUSH [] py with
        | Returns r =>
            if ok r then
              Returns (mkCall (output r) (mkCompressor (Some (engine r)))
                         (py_after r) (trace r))
            else
              failed "BrotliEncoderCompressStream failed while flushing the stream"
                (mkCompressor (Some (engine r))) (py_after r) (trace r)
        | Undefined => Undefined
        | OutOfFuel => OutOfFuel
        end
    end.

Definition brotli_Compressor_finish (fuel : nat)
      (self : brotli_Compressor) (py : PyInterp)
    : outcome (call_result brotli_Compressor block) :=
    match enc self with
    | None =>
        failed "BrotliEncoderCompressStream failed while finishing the stream"
          self py []
    | Some e =>
        match compress_stream E fuel e BROTLI_OPERATION_FINISH [] py with
        | Returns r =>
            if ok r then
              let finished := BrotliEncoderIsFinished E (engine r) in
              let evs := trace r ++ [EvEncoderIsFinished finished] in
              if finished then
                Returns (mkCall (output r) (mkCompressor (Some (engine r)))
                           (py_after r) evs)
              else
                failed "BrotliEncoderCompressStream failed while finishing the stream"
                  (mkCompressor (Some (engine r))) (py_after r) evs
            else
              failed "BrotliEncoderCompressStream failed while finishing the stream"
                (mkCompressor (Some (engine r))) (py_after r) (trace r)
        | Undefined => Undefined
        | OutOfFuel => OutOfFuel
        end
    end.

End CompressorObject.

Arguments enc {E}.
Arguments mkCompressor {E}.

(** ** The Decompressor object *)

Section DecompressorObject.

Variable D : Decoder.

Record brotli_Decompressor : Type := mkDecompressor {
    dec : option (BrotliDecoderState D)
  }.

Definition brotli_Decompressor_new (py : PyInterp)
    : option brotli_Decompressor * PyInterp * list event :=
    match request 0 py with       (* type->tp_alloc(type, 0) *)
    | (false, py1) => (None, py1, [])
    | (true, py1) =>
        (Some (mkDecompressor (BrotliDecoderCreateInstance D)), py1,
         [EvDecoderCreateInstance (is_some (BrotliDecoderCreateInstance D))])
    end.

Definition brotli_Decompressor_process (fuel : nat)
      (self : brotli_Decompressor) (arg : PyObject) (py : PyInterp)
    : outcome (call_result brotli_Decompressor block) :=
    match arg with
    | PyBytes input =>
        match dec self with
        | None =>
            Returns (mkCall None self
                       (PyErr_Set
                          (BrotliError "BrotliDecoderDecompressStream failed while processing the stream")
                          py) [])
        | Some d =>
            match decompress_stream D fuel d input py with
            | Returns r =>
                if ok r then
                  Returns (mkCall (output r)
                             (mkDecompressor (Some (engine r)))
                             (py_after r) (trace r))
                else
                  Returns (mkCall None (mkDecompressor (Some (engine r)))
                             (PyErr_Set
                                (BrotliError "BrotliDecoderDecompressStream failed while processing the stream")
                                (py_after r))
                             (trace r))
            | Undefined => Undefined
            | OutOfFuel => OutOfFuel
            end
        end
    | _ => Returns (mkCall None self (PyErr_Set PyExc_TypeError py) [])
    end.

Definition brotli_Decompressor_is_finished (self : brotli_Decompressor)
      (py : PyInterp) : call_result brotli_Decompressor bool :=
    match dec self with
    | None =>
        mkCall None self
          (PyErr_Set
             (BrotliError "BrotliDecoderState is NULL while checking is_finished")
             py) []
    | Some d =>
        mkCall (Some (BrotliDecoderIsFinished D d)) self py
          [EvDecoderIsFinished (BrotliDecoderIsFinished D d)]
    end.

End DecompressorObject.

Arguments dec {D}.
Arguments mkDecompressor {D}.

(** * Specification vocabulary *)

(** ** The block size schedule *)

(** The capacity the schedule gives to the block of index [i]. *)
Definition scheduled_size (i : nat) : Z :=
  index BUFFER_BLOCK_SIZE
    (Z.min (Z.of_nat i) (Py_ARRAY_LENGTH BUFFER_BLOCK_SIZE - 1)).

Definition blocks_scheduled (l : list block) : Prop :=
  forall i : nat, (i < length l)%nat -> Py_SIZE (nth i l []) = scheduled_size i.

(** ** The invariant of the buffer

    [data] is the stream written through the window so far. *)

Definition buffer_inv (buffer : BlocksOutputBuffer) (w : window)
    (py : PyInterp) (data : list byte) : Prop :=
  exists (l0 : list block) (b : block),
    list_ buffer = Some (l0 ++ [b]) /\
    blocks_scheduled (l0 ++ [b]) /\
    allocated buffer = total_size (l0 ++ [b]) /\
    next_out w = mkPtr (length l0) (Py_SIZE b - avail_out w) /\
    0 <= avail_out w <= Py_SIZE b /\
    data = concat l0 ++ firstn (Z.to_nat (Py_SIZE b - avail_out w)) b /\
    total_size (l0 ++ [b]) <= Z.of_N (live_bytes py) <= PY_SSIZE_T_MAX.

(** ** Buffer states a driver can reach

    [reachable buffer w py data]: the buffer and its window were obtained from
    [BlocksOutputBuffer_InitAndGrow] by letting an engine write through the
    window and by growing the buffer once the window is used up; [data] is
    what was written. *)
Inductive reachable
  : BlocksOutputBuffer -> window -> PyInterp -> list byte -> Prop :=
| reach_init (buffer0 buffer : BlocksOutputBuffer) (w0 w : window)
    (py0 py : PyInterp) :
    BlocksOutputBuffer_InitAndGrow buffer0 w0 py0 = (0, buffer, w, py) ->
    reachable buffer w py []
| reach_store (buffer : BlocksOutputBuffer) (w : window) (py : PyInterp)
    (data out : list byte) :
    reachable buffer w py data ->
    reachable (fst (store buffer w out)) (snd (store buffer w out)) py
      (data ++ firstn (Z.to_nat (avail_out w)) out)
| reach_grow (buffer buffer' : BlocksOutputBuffer) (w w' : window)
    (py py' : PyInterp) (data : list byte) :
    reachable buffer w py data ->
    avail_out w = 0 ->
    BlocksOutputBuffer_Grow buffer w py = Returns (0, buffer', w', py') ->
    reachable buffer' w' py' data.

(** The capacities of the spec: the schedule in bytes. *)
Definition Ki : Z := 1024.
Definition Mi : Z := 1024 * 1024.
Definition SCHEDULE : list Z :=
  [ 32*Ki; 64*Ki; 256*Ki; 1*Mi; 4*Mi; 8*Mi; 16*Mi; 16*Mi; 32*Mi; 32*Mi;
    32*Mi; 32*Mi; 64*Mi; 64*Mi; 128*Mi; 128*Mi; 256*Mi ].

(** A fresh interpreter: every request is granted, nothing is allocated. *)
Definition idle_py : PyInterp := mkPy [] 0 Byte.x00 None.

(** The buffer right after [BlocksOutputBuffer_InitAndGrow]. *)
Definition first_block : block := repeat Byte.x00 (Z.to_nat 32768).
Definition first_buffer : BlocksOutputBuffer :=
  mkBuffer (Some [first_block]) 32768.
Definition first_window : window := mkWindow 32768 (mkPtr 0 0).
Definition first_py : PyInterp := mkPy [] 32768 Byte.x00 None.

(** ** The loops of the drivers in the words of the spec

    The algorithms of the spec, on what the spec calls the logical stream of
    the GrowableOutputBuffer: the bytes written so far in write order.  A run
    is told by the room [avail_out] left in the last chunk and the number of
    chunks; [grow] appends a chunk sized by the schedule indexed by the
    current chunk count and hands out the whole of it.  Every [grow] is
    taken to succeed here. *)

(** The capacity of chunk [i]: [SCHEDULE[min(i, len(SCHEDULE)-1)]]. *)
Definition capacity (i : nat) : Z :=
  nth (Nat.min i (length SCHEDULE - 1)) SCHEDULE 0.

(** What a loop leaves: the last status, the engine, the input left, the
    bytes written, the room left, the number of chunks and the calls made. *)
Record run_end (St R : Type) : Type := mkRunEnd {
  re_status : R;
  re_state : St;
  re_next_in : list byte;
  re_stream : list byte;
  re_avail_out : Z;
  re_chunks : nat;
  re_trace : list event
}.

Arguments mkRunEnd {St R}.
Arguments re_status {St R}.
Arguments re_state {St R}.
Arguments re_next_in {St R}.
Arguments re_stream {St R}.
Arguments re_avail_out {St R}.
Arguments re_chunks {St R}.
Arguments re_trace {St R}.

(** The rest of a run, after a step that wrote [out] and the calls [evs];
    [None] when the fuel does not suffice. *)
Definition after_step {St R : Type} (out : list byte) (evs : list event)
    (rest : option (run_end St R)) : option (run_end St R) :=
  match rest with
  | Some x =>
      Some (mkRunEnd (re_status x) (re_state x) (re_next_in x)
              (out ++ re_stream x) (re_avail_out x) (re_chunks x)
              (evs ++ re_trace x))
  | None => None
  end.

(** Algorithm (compression direction), steps 2 to 4: call the step, and leave
    with a failure if it fails; if [available_out == 0] after the step, call
    [grow]; go on while [available_in > 0] or the engine has more pending
    output, otherwise leave the loop. *)
Fixpoint StreamDriver_compress (E : Encoder) (fuel : nat)
    (e : BrotliEncoderState E) (op : BrotliEncoderOperation)
    (next_in : list byte) (available_out : Z) (chunks : nat)
  : option (run_end (BrotliEncoderState E) bool) :=
  match fuel with
  | O => None
  | S fuel' =>
      let s := BrotliEncoderCompressStream E e op next_in available_out in
      let out := firstn (Z.to_nat available_out) (written s) in
      let rest := advance_in next_in (consumed s) in
      let left := available_out - Py_SIZE out in
      let ev := EvEncoderCompressStream op (status s) (Py_SIZE rest) left in
      if negb (status s) then
        Some (mkRunEnd false (next_state s) rest out left chunks [ev])
      else
        let '(room, chunks1, evg) :=
          if left =? 0 then (capacity chunks, S chunks, [EvGrow 0])
          else (left, chunks, []) in
        if negb (Py_SIZE rest =? 0) then
          after_step out (ev :: evg)
            (StreamDriver_compress E fuel' (next_state s) op rest room
               chunks1)
        else if BrotliEncoderHasMoreOutput E (next_state s) then
          after_step out (ev :: evg ++ [EvEncoderHasMoreOutput true])
            (StreamDriver_compress E fuel' (next_state s) op rest room
               chunks1)
        else
          Some (mkRunEnd true (next_state s) rest out room chunks1
                  (ev :: evg ++ [EvEncoderHasMoreOutput false]))
  end.

(** Algorithm (decompression direction): it differs only in termination,
    the loop goes on while the status is NEEDS_MORE_OUTPUT and any other
    status ends it. *)
Fixpoint StreamDriver_decompress (D : Decoder) (fuel : nat)
    (d : BrotliDecoderState D) (next_in : list byte) (available_out : Z)
    (chunks : nat)
  : option (run_end (BrotliDecoderState D) BrotliDecoderResult) :=
  match fuel with
  | O => None
  | S fuel' =>
      let s := BrotliDecoderDecompressStream D d next_in available_out in
      let out := firstn (Z.to_nat available_out) (written s) in
      let rest := advance_in next_in (consumed s) in
      let left := available_out - Py_SIZE out in
      let ev := EvDecoderDecompressStream (status s) (Py_SIZE rest) left in
      let '(room, chunks1, evg) :=
        if left =? 0 then (capacity chunks, S chunks, [EvGrow 0])
        else (left, chunks, []) in
      if BrotliDecoderResult_eqb (status s)
           BROTLI_DECODER_RESULT_NEEDS_MORE_OUTPUT
      then after_step out (ev :: evg)
             (StreamDriver_decompress D fuel' (next_state s) rest room
                chunks1)
      else Some (mkRunEnd (status s) (next_state s) rest out room chunks1
                   (ev :: evg))
  end.

(** ** Interpreters that grant what a run asks

    [grants py room]: no refusal is left in the list of outcomes, and [room]
    more bytes fit in the address space. *)
Definition grants (py : PyInterp) (room : Z) : Prop :=
  forallb (fun granted : bool => granted) (alloc_outcomes py) = true /\
  Z.of_N (live_bytes py) + room <= PY_SSIZE_T_MAX.

(** Room enough for a run that writes [n] bytes: the blocks take the 32 KiB
    of the first one or at most four times the output, and the bytes object
    returned takes [n] more. *)
Definition room_for (n : Z) : Z := 32768 + 5 * n.

(** ** The methods of a compressor *)

(** The method of [Compressor] that runs [compress_stream] with the operation
    [op]. *)
Definition Compressor_method (E : Encoder) (op : BrotliEncoderOperation)
    (fuel : nat) (self : brotli_Compressor E) (input : list byte)
    (py : PyInterp) : outcome (call_result (brotli_Compressor E) block) :=
  match op with
  | BROTLI_OPERATION_PROCESS =>
      brotli_Compressor_process E fuel self (PyBytes input) py
  | BROTLI_OPERATION_FLUSH => brotli_Compressor_flush E fuel self py
  | BROTLI_OPERATION_FINISH => brotli_Compressor_finish E fuel self py
  end.

(** ** The ranges of the arguments of [Compressor], in the spec's words *)

Definition mode_in_range (E : Encoder) (v : Z) : bool :=
  (v =? BROTLI_MODE_GENERIC E) || (v =? BROTLI_MODE_TEXT E)
  || (v =? BROTLI_MODE_FONT E).

Definition quality_in_range (v : Z) : bool := (0 <=? v) && (v <=? 11).

Definition lgwin_in_range (v : Z) : bool := (10 <=? v) && (v <=? 24).

Definition lgblock_in_range (v : Z) : bool :=
  (v =? 0) || ((16 <=? v) && (v <=? 24)).

(** An argument is acceptable when it is left out, or is an [int] in
    range. *)
Definition acceptable (in_range : Z -> bool) (a : option PyObject) : bool :=
  match a with
  | None => true
  | Some (PyLong v) => in_range v
  | Some _ => false
  end.

Definition args_in_range (E : Encoder) (args : Compressor_args) : bool :=
  acceptable (mode_in_range E) (arg_mode args)
  && acceptable quality_in_range (arg_quality args)
  && acceptable lgwin_in_range (arg_lgwin args)
  && acceptable lgblock_in_range (arg_lgblock args).

(** The messages of the errors raised for an argument. *)
Definition invalid_argument_messages : list string :=
  [ "Invalid mode"; "Invalid quality"; "Invalid quality. Range is 0 to 11.";
    "Invalid lgwin"; "Invalid lgwin. Range is 10 to 24."; "Invalid lgblock";
    "Invalid lgblock. Can be 0 or in range 16 to 24." ]%string.

(** ** The contract of a codec

    What the round trip asks of the engines.  The encoder is described by an
    invariant [Enc_inv e I O f]: the encoder [e] has read the input [I] and
    written the output [O] so far, and [f] tells that the end of the stream
    was requested and all input read.  The decoder is described by
    [Dec_inv d rest em S]: the decoder [d], still offered the input [rest],
    has written [em] of the stream that decodes to [S]. *)
Record codec (E : Encoder) (D : Decoder) : Type := mkCodec {
  Encodes : list byte -> list byte -> Prop;
  Enc_inv : BrotliEncoderState E -> list byte -> list byte -> bool -> Prop;
  enc_measure : BrotliEncoderState E -> list byte -> nat;
  Dec_inv :
    BrotliDecoderState D -> list byte -> list byte -> list byte -> Prop
}.

Arguments mkCodec {E D}.
Arguments Encodes {E D}.
Arguments Enc_inv {E D}.
Arguments enc_measure {E D}.
Arguments Dec_inv {E D}.

Definition is_FINISH (op : BrotliEncoderOperation) : bool :=
  match op with BROTLI_OPERATION_FINISH => true | _ => false end.

Record step_contract (E : Encoder) (D : Decoder) (K : codec E D) : Prop := {
  (* a new encoder has read and written nothing; setting a parameter of a
     new encoder leaves it new *)
  enc_create :
    exists e0 : BrotliEncoderState E,
      BrotliEncoderCreateInstance E = Some e0 /\ Enc_inv K e0 [] [] false;
  enc_set_parameter :
    forall (e : BrotliEncoderState E) (p : BrotliEncoderParameter) (v : Z),
      Enc_inv K e [] [] false ->
      Enc_inv K (BrotliEncoderSetParameter E e p v) [] [] false;
  (* a step, given room, succeeds, stays within its windows, and accounts
     for what it read and wrote; once the end was requested the only step
     asked is FINISH without input *)
  enc_step :
    forall (e : BrotliEncoderState E) (I O : list byte) (f : bool)
           (op : BrotliEncoderOperation) (inp : list byte) (ao : Z),
      Enc_inv K e I O f ->
      (f = true -> op = BROTLI_OPERATION_FINISH /\ inp = []) ->
      0 < ao ->
      let s := BrotliEncoderCompressStream E e op inp ao in
      status s = true /\
      0 <= consumed s <= Py_SIZE inp /\
      Py_SIZE (written s) <= ao /\
      Enc_inv K (next_state s)
        (I ++ firstn (Z.to_nat (consumed s)) inp) (O ++ written s)
        (f || (is_FINISH op && (consumed s =? Py_SIZE inp)));
  (* a step that leaves input or pending output makes progress *)
  enc_progress :
    forall (e : BrotliEncoderState E) (I O : list byte) (f : bool)
           (op : BrotliEncoderOperation) (inp : list byte) (ao : Z),
      Enc_inv K e I O f ->
      (f = true -> op = BROTLI_OPERATION_FINISH /\ inp = []) ->
      0 < ao ->
      let s := BrotliEncoderCompressStream E e op inp ao in
      advance_in inp (consumed s) <> [] \/
      BrotliEncoderHasMoreOutput E (next_state s) = true ->
      (enc_measure K (next_state s) (advance_in inp (consumed s))
       < enc_measure K e inp)%nat;
  (* when the end was requested and nothing is pending, the encoder is
     finished and its output encodes its input *)
  enc_complete :
    forall (e : BrotliEncoderState E) (I O : list byte),
      Enc_inv K e I O true ->
      BrotliEncoderHasMoreOutput E e = false ->
      BrotliEncoderIsFinished E e = true /\ Encodes K I O;
  (* a new decoder offered an encoding of [S] *)
  dec_create :
    forall S C : list byte,
      Encodes K S C ->
      exists d0 : BrotliDecoderState D,
        BrotliDecoderCreateInstance D = Some d0 /\ Dec_inv K d0 C [] S;
  (* a step, given room, stays within its windows; it either fills its
     output window and asks for more, or has read all its input and written
     the whole of [S] *)
  dec_step :
    forall (d : BrotliDecoderState D) (rest em S : list byte) (ao : Z),
      Dec_inv K d rest em S ->
      0 < ao ->
      let s := BrotliDecoderDecompressStream D d rest ao in
      0 <= consumed s <= Py_SIZE rest /\
      Py_SIZE (written s) <= ao /\
      ((status s = BROTLI_DECODER_RESULT_NEEDS_MORE_OUTPUT /\
        Py_SIZE (written s) = ao /\
        Dec_inv K (next_state s) (advance_in rest (consumed s))
          (em ++ written s) S) \/
       (status s = BROTLI_DECODER_RESULT_SUCCESS /\
        consumed s = Py_SIZE rest /\
        em ++ written s = S));
  dec_bound :
    forall (d : BrotliDecoderState D) (rest em S : list byte),
      Dec_inv K d rest em S -> Py_SIZE em <= Py_SIZE S
}.

(** Modelled from the spec: the one-shot entry point
    [compress_one_shot(engine_config, input_bytes)], which is not among the
    sources.  The spec describes it as the caller that compresses its input to
    completion with one run of the driver: an engine is made from the
    configuration, and the driver is run on it with the operation FINISH and
    the whole input. *)
Definition compress_one_shot (E : Encoder) (fuel : nat)
    (engine_config : Compressor_args) (input_bytes : list byte)
    (py : PyInterp) : outcome (call_result unit block) :=
  match Compressor E engine_config py with
  | (Some self, py1, evs) =>
      match enc self with
      | Some e =>
          match compress_stream E fuel e BROTLI_OPERATION_FINISH input_bytes
                  py1 with
          | Returns r =>
              Returns (mkCall (if ok r then output r else None) tt
                         (py_after r)
                         (evs ++ trace r ++ [EvEncoderDestroyInstance]))
          | Undefined => Undefined
          | OutOfFuel => OutOfFuel
          end
      | None => Returns (mkCall None tt py1 evs)
      end
  | (None, py1, evs) => Returns (mkCall None tt py1 evs)
  end.

(** What a convertor answers: 1, leaving the interpreter as it was, or 0
    with an invalid-argument error set; and 0 on an argument that is not
    acceptable. *)
Definition convertor_sound
    (convertor : PyObject -> Z -> PyInterp -> Z * Z * PyInterp)
    (in_range : Z -> bool) : Prop :=
  forall (a : option PyObject) (var : Z) (py : PyInterp),
    ((exists v : Z, convert convertor a var py = (1, v, py)) \/
     (exists (v : Z) (py' : PyInterp) (msg : string),
        convert convertor a var py = (0, v, py') /\
        err py' = Some (BrotliError msg) /\
        In msg invalid_argument_messages /\
        live_bytes py' = live_bytes py)) /\
    (acceptable in_range a = false ->
     exists (v : Z) (py' : PyInterp), convert convertor a var py = (0, v, py')).

(** * A small codec to run the drivers on

    Each byte [b] of the input is sent as the pair [x01 b], and the byte [x00]
    ends the stream.  The encoder takes all the input it is offered and
    queues what does not fit the output window; once the stream is ended it
    refuses further input, and a step without input succeeds and emits
    nothing.  The decoder stops reading at the end of the stream. *)
Module Toy.

Definition is_nil {A : Type} (l : list A) : bool :=
  match l with [] => true | _ => false end.

Fixpoint escape (l : list byte) : list byte :=
  match l with
  | [] => []
  | b :: l' => Byte.x01 :: b :: escape l'
  end.

Record encoder_state : Type := mkEnc {
  pending : list byte;     (* output waiting for room *)
  closed : bool            (* the end of the stream was queued *)
}.

Definition is_finish (op : BrotliEncoderOperation) : bool :=
  match op with BROTLI_OPERATION_FINISH => true | _ => false end.

Definition encoder_step (e : encoder_state) (op : BrotliEncoderOperation)
    (input : list byte) (available_out : Z) : step encoder_state bool :=
  if closed e && negb (is_nil input) then mkStep false e 0 []
  else
    let queue :=
      pending e ++ escape input
      ++ (if is_finish op && negb (closed e) then [Byte.x00] else []) in
    mkStep true
      (mkEnc (skipn (Z.to_nat available_out) queue)
             (closed e || is_finish op))
      (Py_SIZE input)
      (firstn (Z.to_nat available_out) queue).

Definition encoder : Encoder :=
  mkEncoder encoder_state (Some (mkEnc [] false)) (fun e _ _ => e)
    encoder_step
    (fun e => negb (is_nil (pending e)))
    (fun e => closed e && is_nil (pending e))
    0 1 2.

(** What reading some input gives: how many bytes were read, the bytes
    decoded, whether the byte of a pair is awaited, whether the end of the
    stream was read, whether the input is malformed. *)
Record reading : Type := mkReading {
  r_consumed : Z;
  r_out : list byte;
  r_half : bool;
  r_done : bool;
  r_bad : bool
}.

Fixpoint read (half : bool) (input : list byte) : reading :=
  match input with
  | [] => mkReading 0 [] half false false
  | b :: rest =>
      if half then
        let r := read false rest in
        mkReading (1 + r_consumed r) (b :: r_out r) (r_half r) (r_done r)
          (r_bad r)
      else if Byte.eqb b Byte.x01 then
        let r := read true rest in
        mkReading (1 + r_consumed r) (r_out r) (r_half r) (r_done r) (r_bad r)
      else if Byte.eqb b Byte.x00 then mkReading 1 [] false true false
      else mkReading 0 [] false false true
  end.

Record decoder_state : Type := mkDec {
  decoded : list byte;     (* output waiting for room *)
  half : bool;
  done : bool;
  bad : bool
}.

Definition decoder_step (d : decoder_state) (input : list byte)
    (available_out : Z) : step decoder_state BrotliDecoderResult :=
  let r := if done d || bad d then mkReading 0 [] (half d) false false
           else read (half d) input in
  let queue := decoded d ++ r_out r in
  let rest := skipn (Z.to_nat available_out) queue in
  let d' := mkDec rest (r_half r) (done d || r_done r) (bad d || r_bad r) in
  mkStep
    (if bad d' then BROTLI_DECODER_RESULT_ERROR
     else if negb (is_nil rest) then BROTLI_DECODER_RESULT_NEEDS_MORE_OUTPUT
     else if done d' then BROTLI_DECODER_RESULT_SUCCESS
     else BROTLI_DECODER_RESULT_NEEDS_MORE_INPUT)
    d' (r_consumed r) (firstn (Z.to_nat available_out) queue).

Definition decoder : Decoder :=
  mkDecoder decoder_state (Some (mkDec [] false false false)) decoder_step
    (fun d => done d && is_nil (decoded d)).

End Toy.

(** The invariants of the small codec: the output written and the output
    pending make up the encoding of the input read; the decoder is either
    new and offered a whole encoding, or has read it all. *)
Definition toy_codec : codec Toy.encoder Toy.decoder :=
  @mkCodec Toy.encoder Toy.decoder
    (fun S C => C = Toy.escape S ++ [Byte.x00])
    (fun (e : Toy.encoder_state) I O f =>
       O ++ Toy.pending e
       = Toy.escape I ++ (if Toy.closed e then [Byte.x00] else []) /\
       Toy.closed e = f)
    (fun (e : Toy.encoder_state) inp =>
       (length (Toy.pending e) + 2 * length inp
        + (if Toy.closed e then 0 else 1))%nat)
    (fun (d : Toy.decoder_state) rest em S =>
       (d = Toy.mkDec [] false false false /\
        rest = Toy.escape S ++ [Byte.x00] /\ em = []) \/
       (Toy.done d = true /\ Toy.bad d = false /\ rest = [] /\
        em ++ Toy.decoded d = S)).

(** No argument is passed to [Compressor]. *)
Definition no_args : Compressor_args := mkArgs None None None None.

(** Engines whose instance cannot be created. *)
Definition no_encoder : Encoder :=
  mkEncoder Toy.encoder_state None (fun e _ _ => e) Toy.encoder_step
    (fun e => negb (Toy.is_nil (Toy.pending e)))
    (fun e => Toy.closed e && Toy.is_nil (Toy.pending e))
    0 1 2.

Definition no_decoder : Decoder :=
  mkDecoder Toy.decoder_state None Toy.decoder_step
    (fun d => Toy.done d && Toy.is_nil (Toy.decoded d)).

(** ** Inputs of the examples *)

(** A stream of 32768 bytes, which fill the first block exactly. *)
Definition full_block_stream : list byte :=
  Toy.escape (repeat Byte.x2a (Z.to_nat 32768)) ++ [Byte.x00].

(** An input of 16384 bytes: the small encoder turns it into 32768 bytes,
    which fill the first block exactly. *)
Definition half_block_input : list byte := repeat Byte.x2a (Z.to_nat 16384).

(** What the loop of the spec leaves on the stream [x01 x2a], which is not
    ended: one byte written, and the decoder asking for more input. *)
Definition unfinished_run
  : run_end Toy.decoder_state BrotliDecoderResult :=
  mkRunEnd BROTLI_DECODER_RESULT_NEEDS_MORE_INPUT
    (Toy.mkDec [] false false false) [] [Byte.x2a] 32767 1
    [EvDecoderDecompressStream BROTLI_DECODER_RESULT_NEEDS_MORE_INPUT 0
       32767].

(** What the loop of the spec leaves on [half_block_input]: the 32768 bytes
    the small encoder writes fill the first chunk, and a second chunk is
    asked for. *)
Definition half_block_run : run_end Toy.encoder_state bool :=
  match StreamDriver_compress Toy.encoder 1 (Toy.mkEnc [] false)
          BROTLI_OPERATION_PROCESS half_block_input 32768 1 with
  | Some x => x
  | None => mkRunEnd false (Toy.mkEnc [] false) [] [] 0 0 []
  end.

(** An interpreter in which the third allocation request fails: the block of
    [BlocksOutputBuffer_Grow], after the first block and the list. *)
Definition third_request_fails : PyInterp :=
  mkPy [true; true; false] 0 Byte.x00 None.

(** * The rest of the module *)

(** ** Construction of a Decompressor *)

Section DecompressorConstruction.

Variable D : Decoder.

(** [tp_dealloc] *)
Definition brotli_Decompressor_dealloc (self : brotli_Decompressor D)
  : list event := [EvDecoderDestroyInstance].

(** [tp_init]: the format ["|:Decompressor"] with an empty list of keywords
    takes no argument, positional or by keyword.  0 on success, -1 on
    failure. *)
Definition brotli_Decompressor_init (self : brotli_Decompressor D)
    (args : list PyObject) (keywds : list (string * PyObject))
    (py : PyInterp) : Z * PyInterp :=
  let '(ok, py1) :=
    if (length args + length keywds =? 0)%nat then (1, py)
    else (0, PyErr_Set PyExc_TypeError py) in
  if ok =? 0 then (-1, py1)
  else
    match dec self with
    | None => (-1, py1)
    | Some _ => (0, py1)
    end.

(** Calling the type: [tp_new], then [tp_init] on the new object, which is
    dropped when [tp_init] fails. *)
Definition Decompressor (args : list PyObject)
    (keywds : list (string * PyObject)) (py : PyInterp)
  : option (brotli_Decompressor D) * PyInterp * list event :=
  match brotli_Decompressor_new D py with
  | (None, py1, evs) => (None, py1, evs)
  | (Some self, py1, evs) =>
      let '(rc, py2) := brotli_Decompressor_init self args keywds py1 in
      if rc <? 0 then
        (None,
         match err py2 with
         | None => PyErr_Set PyExc_SystemError py2
         | Some _ => py2
         end,
         evs ++ brotli_Decompressor_dealloc self)
      else (Some self, py2, evs)
  end.

End DecompressorConstruction.

(** ** The version string of the module *)

(** The conversion ["%d"] of [snprintf]. *)
Definition decimal (z : Z) : string :=
  DecimalString.NilZero.string_of_int (Z.to_int z).

(** [snprintf(str, size, ...)] keeps the first [size - 1] characters of what
    the format gives. *)
Definition snprintf (size : nat) (formatted : string) : string :=
  substring 0 (size - 1) formatted.

(** The string [version] that the initialisation of the module exports as
    [__version__], for a value of the macro [BROTLI_VERSION] (an [int]). *)
Definition version (BROTLI_VERSION : Z) : string :=
  snprintf 16
    (decimal (Z.shiftr BROTLI_VERSION 24) ++ "."
     ++ decimal (Z.land (Z.shiftr BROTLI_VERSION 12) 0xFFF) ++ "."
     ++ decimal (Z.land BROTLI_VERSION 0xFFF))%string.

(** * Vocabulary of the further properties *)

(** ** The parameters a call of [Compressor] gives *)

Definition given (p : BrotliEncoderParameter) (a : option PyObject)
  : list (BrotliEncoderParameter * Z) :=
  match a with
  | Some (PyLong v) => [(p, v)]
  | _ => []
  end.

(** The value a convertor stores for an argument; the variable keeps its
    initial value -1 when the argument is left out. *)
Definition arg_value (a : option PyObject) : Z :=
  match a with
  | Some (PyLong v) => v
  | _ => -1
  end.

(** The arguments that were passed, in the order of the signature. *)
Definition given_parameters (args : Compressor_args)
  : list (BrotliEncoderParameter * Z) :=
  given BROTLI_PARAM_MODE (arg_mode args)
  ++ given BROTLI_PARAM_QUALITY (arg_quality args)
  ++ given BROTLI_PARAM_LGWIN (arg_lgwin args)
  ++ given BROTLI_PARAM_LGBLOCK (arg_lgblock args).

(** The encoder after the parameters [ps] were set one after the other. *)
Definition set_parameters (E : Encoder) (e : BrotliEncoderState E)
    (ps : list (BrotliEncoderParameter * Z)) : BrotliEncoderState E :=
  fold_left (fun e1 pv => BrotliEncoderSetParameter E e1 (fst pv) (snd pv))
    ps e.

Definition parameter_events (ps : list (BrotliEncoderParameter * Z))
  : list event :=
  map (fun pv => EvEncoderSetParameter (fst pv) (snd pv)) ps.

(** ** A compressor used on a stream given in pieces *)

(** A call made on a compressor before the stream is finished. *)
Inductive method_call : Type :=
| call_process (string : list byte)
| call_flush.

(** The input the calls hand over. *)
Definition processed (cs : list method_call) : list byte :=
  concat (map (fun c => match c with
                        | call_process s => s
                        | call_flush => []
                        end) cs).

(** The calls [cs] are made one after the other on the object, each on the
    state the one before left; the outputs are joined, as the documentation
    of [process] and [flush] says to do.  The first call that raises ends
    the sequence. *)
Fixpoint Compressor_calls (E : Encoder) (fuel : nat)
    (self : brotli_Compressor E) (cs : list method_call) (py : PyInterp)
  : outcome (call_result (brotli_Compressor E) block) :=
  match cs with
  | [] => Returns (mkCall (Some []) self py [])
  | c :: cs' =>
      match (match c with
             | call_process s =>
                 brotli_Compressor_process E fuel self (PyBytes s) py
             | call_flush => brotli_Compressor_flush E fuel self py
             end) with
      | Returns c1 =>
          match ret c1 with
          | Some out1 =>
              match Compressor_calls E fuel (self_after c1) cs' (interp c1)
              with
              | Returns c2 =>
                  Returns (mkCall
                             (match ret c2 with
                              | Some out2 => Some (out1 ++ out2)
                              | None => None
                              end)
                             (self_after c2) (interp c2)
                             (calls c1 ++ calls c2))
              | Undefined => Undefined
              | OutOfFuel => OutOfFuel
              end
          | None => Returns c1
          end
      | Undefined => Undefined
      | OutOfFuel => OutOfFuel
      end
  end.

(** A compressor is constructed, the calls [cs] are made on it, and [finish]
    ends the stream; the result is the whole compressed stream. *)
Definition compress_in_pieces (E : Encoder) (fuel : nat)
    (config : Compressor_args) (cs : list method_call) (py : PyInterp)
  : outcome (call_result unit block) :=
  match Compressor E config py with
  | (Some self, py1, evs) =>
      match Compressor_calls E fuel self cs py1 with
      | Returns c1 =>
          match ret c1 with
          | Some out1 =>
              match brotli_Compressor_finish E fuel (self_after c1)
                      (interp c1) with
              | Returns c2 =>
                  Returns
                    (mkCall
                       (match ret c2 with
                        | Some out2 => Some (out1 ++ out2)
                        | None => None
                        end)
                       tt (interp c2)
                       (evs ++ calls c1 ++ calls c2
                        ++ [EvEncoderDestroyInstance]))
              | Undefined => Undefined
              | OutOfFuel => OutOfFuel
              end
          | None =>
              Returns (mkCall None tt (interp c1)
                         (evs ++ calls c1 ++ [EvEncoderDestroyInstance]))
          end
      | Undefined => Undefined
      | OutOfFuel => OutOfFuel
      end
  | (None, py1, evs) => Returns (mkCall None tt py1 evs)
  end.

(** ** A decompressor used on a stream given in pieces *)

(** [process] is called on each piece in turn, each call on the state the
    one before left; the outputs are joined, as the documentation of
    [process] says to do.  The first call that raises ends the sequence. *)
Fixpoint Decompressor_calls (D : Decoder) (fuel : nat)
    (self : brotli_Decompressor D) (pieces : list (list byte))
    (py : PyInterp)
  : outcome (call_result (brotli_Decompressor D) block) :=
  match pieces with
  | [] => Returns (mkCall (Some []) self py [])
  | s :: pieces' =>
      match brotli_Decompressor_process D fuel self (PyBytes s) py with
      | Returns c1 =>
          match ret c1 with
          | Some out1 =>
              match Decompressor_calls D fuel (self_after c1) pieces'
                      (interp c1) with
              | Returns c2 =>
                  Returns (mkCall
                             (match ret c2 with
                              | Some out2 => Some (out1 ++ out2)
                              | None => None
                              end)
                             (self_after c2) (interp c2)
                             (calls c1 ++ calls c2))
              | Undefined => Undefined
              | OutOfFuel => OutOfFuel
              end
          | None => Returns c1
          end
      | Undefined => Undefined
      | OutOfFuel => OutOfFuel
      end
  end.

(** What decoding a stream given in pieces asks of the decoder.  The decoder
    is described by an invariant [Read_inv d R W S C]: of the stream [C],
    which encodes [S], the decoder [d] has read [R] and written [W]. *)
Record piecewise (E : Encoder) (D : Decoder) (K : codec E D) : Type :=
  mkPiecewise {
    Read_inv :
      BrotliDecoderState D -> list byte -> list byte -> list byte ->
      list byte -> Prop;
    read_measure : BrotliDecoderState D -> list byte -> nat
  }.

Arguments mkPiecewise {E D K}.
Arguments Read_inv {E D K}.
Arguments read_measure {E D K}.

Record piecewise_contract (E : Encoder) (D : Decoder) (K : codec E D)
    (P : piecewise E D K) : Prop := {
  (* a new decoder has read and written nothing *)
  pw_create :
    forall S C : list byte,
      Encodes K S C ->
      exists d0 : BrotliDecoderState D,
        BrotliDecoderCreateInstance D = Some d0 /\ Read_inv P d0 [] [] S C;
  (* a step on the next piece of the stream, given room, stays within its
     windows and accounts for what it read and wrote; it either asks for
     more output, having made progress, or has read the whole piece: then it
     asks for more input when the stream goes on, and otherwise has written
     the whole of [S] *)
  pw_step :
    forall (d : BrotliDecoderState D) (R W S C inp rest : list byte) (ao : Z),
      Read_inv P d R W S C ->
      C = R ++ inp ++ rest ->
      0 < ao ->
      let s := BrotliDecoderDecompressStream D d inp ao in
      0 <= consumed s <= Py_SIZE inp /\
      Py_SIZE (written s) <= ao /\
      Read_inv P (next_state s) (R ++ firstn (Z.to_nat (consumed s)) inp)
        (W ++ written s) S C /\
      ((status s = BROTLI_DECODER_RESULT_NEEDS_MORE_OUTPUT /\
        (read_measure P (next_state s) (advance_in inp (consumed s))
         < read_measure P d inp)%nat) \/
       (status s = BROTLI_DECODER_RESULT_NEEDS_MORE_INPUT /\
        consumed s = Py_SIZE inp /\ rest <> []) \/
       (status s = BROTLI_DECODER_RESULT_SUCCESS /\
        consumed s = Py_SIZE inp /\ rest = [] /\ W ++ written s = S));
  (* the decoder is finished when it has read the whole stream and written
     the whole of [S], and only then *)
  pw_finished :
    forall (d : BrotliDecoderState D) (R W S C : list byte),
      Read_inv P d R W S C ->
      (BrotliDecoderIsFinished D d = true <-> R = C /\ W = S)
}.

(** ** The memory the buffer takes *)

(** What the schedule gives to the first [n] blocks together. *)
Definition scheduled_total (n : nat) : Z :=
  fold_right Z.add 0 (map scheduled_size (seq 0 n)).

(** *** Buffers with many blocks

    The buffer after [n] growths, when every window was filled with the byte
    [x2a] before the growth that followed: [n] full blocks and a fresh one,
    in an interpreter that holds nothing else. *)
Definition full_block (i : nat) : block :=
  repeat Byte.x2a (Z.to_nat (scheduled_size i)).

Definition filled_blocks (n : nat) : list block := map full_block (seq 0 n).

Definition fresh_block (n : nat) : block :=
  repeat Byte.x00 (Z.to_nat (scheduled_size n)).

Definition grown_buffer (n : nat) : BlocksOutputBuffer :=
  mkBuffer (Some (filled_blocks n ++ [fresh_block n]))
    (scheduled_total (S n)).

Definition grown_window (n : nat) : window :=
  mkWindow (scheduled_size n) (mkPtr n 0).

Definition grown_py (n : nat) : PyInterp :=
  mkPy [] (Z.to_N (scheduled_total (S n))) Byte.x00 None.

(** The table in the comment on [BUFFER_BLOCK_SIZE]: the whole allocated
    size after 1, 2, ... 22 blocks.  The comment gives the sizes in MB to two
    decimals (1.34 MB for 1 MB + 352 KB); here they are in bytes. *)
Definition growth_table : list Z :=
  [ 32*KB; 96*KB; 352*KB; 1*MB + 352*KB; 5*MB + 352*KB; 13*MB + 352*KB;
    29*MB + 352*KB; 45*MB + 352*KB; 77*MB + 352*KB; 109*MB + 352*KB;
    141*MB + 352*KB; 173*MB + 352*KB; 237*MB + 352*KB; 301*MB + 352*KB;
    429*MB + 352*KB; 557*MB + 352*KB; 813*MB + 352*KB; 1069*MB + 352*KB;
    1325*MB + 352*KB; 1581*MB + 352*KB; 1837*MB + 352*KB;
    2093*MB + 352*KB ].

(** ** Engines that differ on an empty output window *)

(** The encoder [E] with [f] for [BrotliEncoderCompressStream]. *)
Definition with_encoder_step (E : Encoder)
    (f : BrotliEncoderState E -> BrotliEncoderOperation -> list byte -> Z ->
         step (BrotliEncoderState E) bool) : Encoder :=
  mkEncoder (BrotliEncoderState E) (BrotliEncoderCreateInstance E)
    (BrotliEncoderSetParameter E) f (BrotliEncoderHasMoreOutput E)
    (BrotliEncoderIsFinished E) (BROTLI_MODE_GENERIC E) (BROTLI_MODE_TEXT E)
    (BROTLI_MODE_FONT E).

(** The decoder [D] with [f] for [BrotliDecoderDecompressStream]. *)
Definition with_decoder_step (D : Decoder)
    (f : BrotliDecoderState D -> list byte -> Z ->
         step (BrotliDecoderState D) BrotliDecoderResult) : Decoder :=
  mkDecoder (BrotliDecoderState D) (BrotliDecoderCreateInstance D) f
    (BrotliDecoderIsFinished D).

(** ** Memory held after a call *)

(** The payload bytes of the object a call returned, 0 when it raised. *)
Definition returned_bytes (o : option block) : Z :=
  match o with
  | Some b => Py_SIZE b
  | None => 0
  end.

(** The bytes objects alive are those alive before the run, [base] bytes,
    and the blocks of the buffer. *)
Definition blocks_accounted (buffer : BlocksOutputBuffer) (py : PyInterp)
    (base : Z) : Prop :=
  Z.of_N (live_bytes py)
  = base + match list_ buffer with
           | Some l => total_size l
           | None => 0
           end.

(** ** Inputs of the further examples *)

(** An encoder that never reports that it is finished: the small encoder,
    with [BrotliEncoderIsFinished] answering no. *)
Definition unfinished_encoder : Encoder :=
  mkEncoder Toy.encoder_state (Some (Toy.mkEnc [] false)) (fun e _ _ => e)
    Toy.encoder_step
    (fun e => negb (Toy.is_nil (Toy.pending e)))
    (fun _ => false)
    0 1 2.

(** The small engines, made to fail when they are offered no room. *)
Definition encoder_step_needing_room (e : Toy.encoder_state)
    (op : BrotliEncoderOperation) (input : list byte) (available_out : Z)
  : step Toy.encoder_state bool :=
  if 0 <? available_out then Toy.encoder_step e op input available_out
  else mkStep false e 0 [].

Definition decoder_step_needing_room (d : Toy.decoder_state)
    (input : list byte) (available_out : Z)
  : step Toy.decoder_state BrotliDecoderResult :=
  if 0 <? available_out then Toy.decoder_step d input available_out
  else mkStep BROTLI_DECODER_RESULT_ERROR d 0 [].

(** The small decoder on a stream given in pieces: reading [R] from the
    start gives what was written and what waits for room. *)
Definition toy_piecewise : piecewise Toy.encoder Toy.decoder toy_codec :=
  @mkPiecewise Toy.encoder Toy.decoder toy_codec
    (fun (d : Toy.decoder_state) R W S C =>
       C = Toy.escape S ++ [Byte.x00] /\
       (exists rest : list byte, C = R ++ rest) /\
       Toy.read false R
       = Toy.mkReading (Py_SIZE R) (W ++ Toy.decoded d) (Toy.half d)
           (Toy.done d) false /\
       Toy.bad d = false)
    (fun (d : Toy.decoder_state) inp =>
       (length (Toy.decoded d) + length inp)%nat).

(** * Properties *)


(** ** Integers and lists *)

Lemma to_size_t_small (z : Z) : 0 <= z <= SIZE_MAX -> to_size_t z = z.
Proof.
  unfold to_size_t, SIZE_MAX. intros H. apply Z.mod_small. lia.
Qed.

Lemma to_Py_ssize_t_small (z : Z) :
  - PY_SSIZE_T_MAX - 1 <= z <= PY_SSIZE_T_MAX -> to_Py_ssize_t z = z.
Proof.
  unfold to_Py_ssize_t, PY_SSIZE_T_MAX, SIZE_WIDTH. intros H.
  change (64 - 1) with 63 in *.
  rewrite Z.mod_small; lia.
Qed.

Lemma PY_SSIZE_T_MAX_lt_SIZE_MAX : PY_SSIZE_T_MAX < SIZE_MAX.
Proof. reflexivity. Qed.

Lemma Py_SIZE_nonneg {A : Type} (l : list A) : 0 <= Py_SIZE l.
Proof. unfold Py_SIZE. lia. Qed.

Lemma Py_SIZE_app {A : Type} (l1 l2 : list A) :
  Py_SIZE (l1 ++ l2) = Py_SIZE l1 + Py_SIZE l2.
Proof. unfold Py_SIZE. rewrite length_app. lia. Qed.

Lemma Py_SIZE_repeat {A : Type} (x : A) (n : Z) :
  0 <= n -> Py_SIZE (repeat x (Z.to_nat n)) = n.
Proof. intros H. unfold Py_SIZE. rewrite repeat_length. lia. Qed.

Lemma Py_SIZE_firstn {A : Type} (l : list A) (n : Z) :
  0 <= n <= Py_SIZE l -> Py_SIZE (firstn (Z.to_nat n) l) = n.
Proof. unfold Py_SIZE. intros H. rewrite length_firstn. lia. Qed.

Lemma total_size_nonneg (l : list block) : 0 <= total_size l.
Proof.
  induction l as [|b l IH]; simpl; [lia|].
  pose proof (Py_SIZE_nonneg b). lia.
Qed.

Lemma total_size_app (l1 l2 : list block) :
  total_size (l1 ++ l2) = total_size l1 + total_size l2.
Proof.
  induction l1 as [|b l1 IH]; simpl; [reflexivity|]. rewrite IH. lia.
Qed.

Lemma total_size_last (l : list block) (b : block) :
  total_size (l ++ [b]) = total_size l + Py_SIZE b.
Proof. rewrite total_size_app. simpl. lia. Qed.

Lemma Py_SIZE_concat (l : list block) : Py_SIZE (concat l) = total_size l.
Proof.
  induction l as [|b l IH]; simpl; [reflexivity|].
  rewrite Py_SIZE_app, IH. reflexivity.
Qed.

(** ** The allocator *)

Lemma request_granted (n : Z) (py py1 : PyInterp) :
  request n py = (true, py1) ->
  Z.of_N (live_bytes py) + n <= PY_SSIZE_T_MAX /\
  live_bytes py1 = (live_bytes py + Z.to_N n)%N /\
  junk py1 = junk py /\ err py1 = err py /\
  alloc_outcomes py1 = tl (alloc_outcomes py).
Proof.
  unfold request. intros H.
  destruct (match alloc_outcomes py with [] => true | b :: _ => b end
            && (Z.of_N (live_bytes py) + n <=? PY_SSIZE_T_MAX)) eqn:Hok;
    inversion H; subst; clear H; simpl.
  apply andb_prop in Hok. destruct Hok as [_ Hfit].
  apply Z.leb_le in Hfit. repeat split; assumption.
Qed.

Lemma request_refused (n : Z) (py py1 : PyInterp) :
  request n py = (false, py1) ->
  live_bytes py1 = live_bytes py /\ junk py1 = junk py /\
  err py1 = Some PyExc_MemoryError.
Proof.
  unfold request. intros H.
  destruct (match alloc_outcomes py with [] => true | b :: _ => b end
            && (Z.of_N (live_bytes py) + n <=? PY_SSIZE_T_MAX)) eqn:Hok;
    inversion H; subst; clear H; simpl.
  repeat split.
Qed.

Lemma PyBytes_allocated (size : Z) (py py1 : PyInterp) (b : block) :
  PyBytes_FromStringAndSize size py = (Some b, py1) ->
  0 <= size /\ b = repeat (junk py) (Z.to_nat size) /\ Py_SIZE b = size /\
  request size py = (true, py1).
Proof.
  unfold PyBytes_FromStringAndSize. intros H.
  destruct (size <? 0) eqn:Hneg; [discriminate|].
  apply Z.ltb_ge in Hneg.
  destruct (request size py) as [granted py2] eqn:Hreq.
  destruct granted; inversion H; subst; clear H.
  repeat split; try assumption. apply Py_SIZE_repeat. assumption.
Qed.

Lemma PyBytes_failed (size : Z) (py py1 : PyInterp) :
  PyBytes_FromStringAndSize size py = (None, py1) ->
  live_bytes py1 = live_bytes py /\ junk py1 = junk py /\ err py1 <> None.
Proof.
  unfold PyBytes_FromStringAndSize. intros H.
  destruct (size <? 0) eqn:Hneg.
  - inversion H; subst; simpl. repeat split. discriminate.
  - destruct (request size py) as [granted py2] eqn:Hreq.
    destruct granted; inversion H; subst; clear H.
    apply request_refused in Hreq. destruct Hreq as (Hl & Hj & He).
    repeat split; try assumption. rewrite He. discriminate.
Qed.

(** ** The copy of [BlocksOutputBuffer_Finish] *)

Lemma memcpy_in_place (done rest tail src : block) (n : Z) :
  0 <= n <= Py_SIZE src -> Py_SIZE rest = n ->
  memcpy (done ++ rest ++ tail) (Py_SIZE done) src n
  = Some (done ++ firstn (Z.to_nat n) src ++ tail).
Proof.
  intros Hn Hrest. unfold memcpy.
  pose proof (Py_SIZE_nonneg done) as Hd.
  pose proof (Py_SIZE_nonneg tail) as Ht.
  rewrite !Py_SIZE_app.
  replace ((0 <=? Py_SIZE done) && (0 <=? n)
           && (Py_SIZE done + n <=? Py_SIZE done + (Py_SIZE rest + Py_SIZE tail))
           && (n <=? Py_SIZE src)) with true
    by (symmetry; rewrite !andb_true_iff, !Z.leb_le; lia).
  f_equal.
  replace (Z.to_nat (Py_SIZE done)) with (length done)
    by (unfold Py_SIZE; lia).
  rewrite firstn_app, firstn_all, Nat.sub_diag. simpl. rewrite app_nil_r.
  f_equal. f_equal.
  replace (Z.to_nat (Py_SIZE done + n)) with (length done + length rest)%nat
    by (unfold Py_SIZE in *; lia).
  rewrite skipn_app.
  rewrite (skipn_all2 done) by lia. simpl.
  replace (length done + length rest - length done)%nat with (length rest)
    by lia.
  rewrite skipn_app, skipn_all, Nat.sub_diag. reflexivity.
Qed.

Lemma Finish_copy_joins (l0 : list block) :
  forall (b done rest : block) (a : Z),
    0 <= a <= Py_SIZE b -> Py_SIZE b <= SIZE_MAX ->
    Py_SIZE rest = total_size l0 + (Py_SIZE b - a) ->
    Finish_copy (l0 ++ [b]) a (Py_SIZE done) (done ++ rest)
    = Some (done ++ concat l0 ++ firstn (Z.to_nat (Py_SIZE b - a)) b).
Proof.
  induction l0 as [|x l0 IH]; intros b done rest a Ha Hb Hrest.
  - simpl in *.
    rewrite to_size_t_small by lia.
    rewrite <- (app_nil_r rest).
    rewrite memcpy_in_place by lia. rewrite app_nil_r. reflexivity.
  - assert (Hsplit : rest = firstn (Z.to_nat (Py_SIZE x)) rest
                            ++ skipn (Z.to_nat (Py_SIZE x)) rest)
      by (symmetry; apply firstn_skipn).
    pose proof (Py_SIZE_nonneg x) as Hx.
    pose proof (total_size_nonneg l0) as Hl0.
    simpl in Hrest.
    assert (Hfirst : Py_SIZE (firstn (Z.to_nat (Py_SIZE x)) rest) = Py_SIZE x)
      by (apply Py_SIZE_firstn; lia).
    assert (Hskip : Py_SIZE (skipn (Z.to_nat (Py_SIZE x)) rest)
                    = total_size l0 + (Py_SIZE b - a)).
    { rewrite Hsplit in Hrest at 1. rewrite Py_SIZE_app in Hrest. lia. }
    change ((x :: l0) ++ [b]) with (x :: (l0 ++ [b])).
    assert (Hstep : Finish_copy (x :: (l0 ++ [b])) a (Py_SIZE done)
                      (done ++ rest)
                    = match memcpy (done ++ rest) (Py_SIZE done) x (Py_SIZE x)
                      with
                      | None => None
                      | Some r1 => Finish_copy (l0 ++ [b]) a
                                     (Py_SIZE done + Py_SIZE x) r1
                      end).
    { destruct l0; reflexivity. }
    rewrite Hstep. rewrite Hsplit at 1.
    rewrite memcpy_in_place by lia.
    replace (firstn (Z.to_nat (Py_SIZE x)) x) with x
      by (symmetry; apply firstn_all2; unfold Py_SIZE; lia).
    rewrite app_assoc. rewrite <- Py_SIZE_app.
    rewrite IH by assumption.
    simpl. rewrite <- !app_assoc. reflexivity.
Qed.

Lemma BUFFER_BLOCK_SIZE_values :
  BUFFER_BLOCK_SIZE =
  [ 32768; 65536; 262144; 1048576; 4194304; 8388608; 16777216; 16777216;
    33554432; 33554432; 33554432; 33554432; 67108864; 67108864;
    134217728; 134217728; 268435456 ].
Proof. reflexivity. Qed.

Lemma scheduled_size_flat (i : nat) :
  (16 <= i)%nat -> scheduled_size i = 268435456.
Proof.
  intros H. unfold scheduled_size.
  replace (Z.min (Z.of_nat i) (Py_ARRAY_LENGTH BUFFER_BLOCK_SIZE - 1))
    with 16 by (change (Py_ARRAY_LENGTH BUFFER_BLOCK_SIZE - 1) with 16; lia).
  reflexivity.
Qed.

Lemma scheduled_size_bounds (i : nat) :
  32768 <= scheduled_size i <= 268435456.
Proof.
  destruct (Nat.le_gt_cases 16 i) as [H|H].
  - rewrite scheduled_size_flat by assumption. lia.
  - do 16 (destruct i as [|i]; [vm_compute; split; discriminate|]). lia.
Qed.

(** The size [BlocksOutputBuffer_Grow] picks for a list of [n] blocks. *)
Lemma Grow_block_size (n : nat) :
  (if Z.of_nat n <? Py_ARRAY_LENGTH BUFFER_BLOCK_SIZE
   then index BUFFER_BLOCK_SIZE (Z.of_nat n)
   else index BUFFER_BLOCK_SIZE (Py_ARRAY_LENGTH BUFFER_BLOCK_SIZE - 1))
  = scheduled_size n.
Proof.
  unfold scheduled_size.
  destruct (Z.of_nat n <? Py_ARRAY_LENGTH BUFFER_BLOCK_SIZE) eqn:Hlt.
  - apply Z.ltb_lt in Hlt. rewrite Z.min_l by lia. reflexivity.
  - apply Z.ltb_ge in Hlt. rewrite Z.min_r by lia. reflexivity.
Qed.

Lemma blocks_scheduled_snoc (l : list block) (b : block) :
  blocks_scheduled l -> Py_SIZE b = scheduled_size (length l) ->
  blocks_scheduled (l ++ [b]).
Proof.
  intros Hl Hb i Hi. rewrite length_app in Hi. simpl in Hi.
  destruct (Nat.lt_ge_cases i (length l)) as [Hlt|Hge].
  - rewrite app_nth1 by assumption. apply Hl. assumption.
  - assert (i = length l) by lia. subst i.
    rewrite app_nth2, Nat.sub_diag by lia. simpl. assumption.
Qed.

Lemma blocks_scheduled_front (l : list block) (b : block) :
  blocks_scheduled (l ++ [b]) ->
  blocks_scheduled l /\ Py_SIZE b = scheduled_size (length l).
Proof.
  intros H. split.
  - intros i Hi. rewrite <- (app_nth1 l [b]) by assumption.
    apply H. rewrite length_app. simpl. lia.
  - specialize (H (length l)). rewrite app_nth2, Nat.sub_diag in H by lia.
    apply H. rewrite length_app. simpl. lia.
Qed.

(** ** Writing through the window *)

Lemma poke_nth_last (l0 : list block) (b : block) (o : Z) (out : list byte) :
  poke_nth (l0 ++ [b]) (length l0) o out = l0 ++ [poke b o out].
Proof.
  induction l0 as [|x l0 IH]; simpl; [reflexivity|]. rewrite IH. reflexivity.
Qed.

Lemma Py_SIZE_poke (b : block) (o : Z) (out : list byte) :
  0 <= o -> o + Py_SIZE out <= Py_SIZE b -> Py_SIZE (poke b o out) = Py_SIZE b.
Proof.
  unfold poke, Py_SIZE. intros Ho Hfit.
  rewrite !length_app, length_firstn, length_skipn. lia.
Qed.

Lemma firstn_poke (b : block) (o : Z) (out : list byte) :
  0 <= o -> o + Py_SIZE out <= Py_SIZE b ->
  firstn (Z.to_nat (o + Py_SIZE out)) (poke b o out)
  = firstn (Z.to_nat o) b ++ out.
Proof.
  unfold poke, Py_SIZE. intros Ho Hfit.
  rewrite app_assoc. rewrite firstn_app.
  rewrite length_app, length_firstn.
  replace (Z.to_nat (o + Z.of_nat (length out))
           - (Nat.min (Z.to_nat o) (length b) + length out))%nat with 0%nat
    by lia.
  simpl. rewrite app_nil_r. apply firstn_all2.
  rewrite length_app, length_firstn. lia.
Qed.

Lemma BUFFER_BLOCK_SIZE_0 : index BUFFER_BLOCK_SIZE 0 = 32768.
Proof. reflexivity. Qed.

Lemma InitAndGrow_success (buffer0 buffer : BlocksOutputBuffer)
    (w0 w : window) (py0 py : PyInterp) :
  BlocksOutputBuffer_InitAndGrow buffer0 w0 py0 = (0, buffer, w, py) ->
  exists b : block,
    Py_SIZE b = 32768 /\
    buffer = mkBuffer (Some [b]) 32768 /\
    w = mkWindow 32768 (mkPtr 0 0) /\
    Z.of_N (live_bytes py) = Z.of_N (live_bytes py0) + 32768 /\
    Z.of_N (live_bytes py) <= PY_SSIZE_T_MAX /\
    junk py = junk py0 /\ err py = err py0.
Proof.
  unfold BlocksOutputBuffer_InitAndGrow. rewrite BUFFER_BLOCK_SIZE_0.
  intros H.
  destruct (PyBytes_FromStringAndSize 32768 py0) as [[b|] py1] eqn:Hb;
    [|inversion H].
  unfold PyList_New in H.
  destruct (request 0 py1) as [[|] py2] eqn:Hl; inversion H; subst; clear H.
  apply PyBytes_allocated in Hb. destruct Hb as (_ & _ & Hsize & Hreq).
  apply request_granted in Hreq. destruct Hreq as (Hfit & Hlive & Hj & He & _).
  apply request_granted in Hl. destruct Hl as (Hfit2 & Hlive2 & Hj2 & He2 & _).
  exists b. rewrite to_size_t_small by (vm_compute; split; discriminate).
  repeat split; try congruence; lia.
Qed.

Lemma InitAndGrow_inv (buffer0 buffer : BlocksOutputBuffer)
    (w0 w : window) (py0 py : PyInterp) :
  BlocksOutputBuffer_InitAndGrow buffer0 w0 py0 = (0, buffer, w, py) ->
  buffer_inv buffer w py [].
Proof.
  intros H. apply InitAndGrow_success in H.
  destruct H as (b & Hsize & -> & -> & Hlive & Hfit & _).
  exists [], b. simpl. rewrite Hsize, Z.sub_diag. simpl.
  repeat split; try lia.
  intros i Hi. simpl in Hi. assert (i = 0%nat) by lia. subst i.
  simpl. rewrite Hsize. reflexivity.
Qed.

Lemma store_inv (buffer : BlocksOutputBuffer) (w : window) (py : PyInterp)
    (data out : list byte) :
  buffer_inv buffer w py data ->
  buffer_inv (fst (store buffer w out)) (snd (store buffer w out)) py
    (data ++ firstn (Z.to_nat (avail_out w)) out).
Proof.
  intros (l0 & b & Hlist & Hsched & Halloc & Hptr & Hwin & Hdata & Hlive).
  set (out1 := firstn (Z.to_nat (avail_out w)) out).
  assert (Hout1 : Py_SIZE out1 <= avail_out w).
  { unfold out1, Py_SIZE. rewrite length_firstn. lia. }
  pose proof (Py_SIZE_nonneg out1) as Hout0.
  unfold store. fold out1. rewrite Hlist, Hptr. simpl.
  rewrite poke_nth_last.
  assert (Hsize : Py_SIZE (poke b (Py_SIZE b - avail_out w) out1) = Py_SIZE b)
    by (apply Py_SIZE_poke; lia).
  exists l0, (poke b (Py_SIZE b - avail_out w) out1). simpl.
  rewrite Hsize, !total_size_last, Hsize.
  repeat split; try lia.
  - apply blocks_scheduled_front in Hsched. destruct Hsched as [Hl0 Hb].
    apply blocks_scheduled_snoc; [assumption|]. rewrite Hsize. assumption.
  - rewrite Halloc, total_size_last. reflexivity.
  - f_equal. lia.
  - rewrite Hdata, <- app_assoc. f_equal.
    replace (Py_SIZE b - (avail_out w - Py_SIZE out1))
      with (Py_SIZE b - avail_out w + Py_SIZE out1) by lia.
    rewrite firstn_poke by lia. reflexivity.
  - rewrite total_size_last in Hlive. lia.
Qed.

Lemma Grow_unfold (buffer : BlocksOutputBuffer) (w : window) (py : PyInterp)
    (l : list block) :
  list_ buffer = Some l ->
  BlocksOutputBuffer_Grow buffer w py =
  let block_size := scheduled_size (length l) in
  match PyBytes_FromStringAndSize block_size py with
  | (None, py1) =>
      let '(buffer1, py2) := Py_CLEAR_list buffer py1 in
      Returns (-1, buffer1, w, PyErr_Set PyExc_MemoryError py2)
  | (Some b, py1) =>
      match PyList_Append py1 with
      | (false, py2) =>
          let '(buffer1, py3) := Py_CLEAR_list buffer (free_bytes b py2) in
          Returns (-1, buffer1, w, py3)
      | (true, py2) =>
          Returns (0,
                   mkBuffer (Some (l ++ [b]))
                            (to_Py_ssize_t (allocated buffer + block_size)),
                   mkWindow (to_size_t block_size) (mkPtr (length l) 0),
                   py2)
      end
  end.
Proof.
  intros H. unfold BlocksOutputBuffer_Grow. rewrite H. unfold Py_SIZE.
  cbv zeta. rewrite Grow_block_size. reflexivity.
Qed.

Lemma Grow_cases (buffer : BlocksOutputBuffer) (w : window) (py : PyInterp)
    (data : list byte) :
  buffer_inv buffer w py data -> avail_out w = 0 ->
  exists (l : list block),
    list_ buffer = Some l /\
    ((exists (b : block) (py1 : PyInterp),
        Py_SIZE b = scheduled_size (length l) /\
        Z.of_N (live_bytes py1)
        = Z.of_N (live_bytes py) + scheduled_size (length l) /\
        junk py1 = junk py /\ err py1 = err py /\
        BlocksOutputBuffer_Grow buffer w py
        = Returns (0,
                   mkBuffer (Some (l ++ [b]))
                            (allocated buffer + scheduled_size (length l)),
                   mkWindow (scheduled_size (length l)) (mkPtr (length l) 0),
                   py1) /\
        buffer_inv
          (mkBuffer (Some (l ++ [b]))
                    (allocated buffer + scheduled_size (length l)))
          (mkWindow (scheduled_size (length l)) (mkPtr (length l) 0))
          py1 data)
     \/
     (exists py1 : PyInterp,
        Z.of_N (live_bytes py1) = Z.of_N (live_bytes py) - total_size l /\
        err py1 = Some PyExc_MemoryError /\
        BlocksOutputBuffer_Grow buffer w py
        = Returns (-1, mkBuffer None (allocated buffer), w, py1))).
Proof.
  intros (l0 & b & Hlist & Hsched & Halloc & Hptr & Hwin & Hdata & Hlive) Hzero.
  exists (l0 ++ [b]). split; [assumption|].
  pose proof (scheduled_size_bounds (length (l0 ++ [b]))) as Hbs.
  pose proof (total_size_nonneg (l0 ++ [b])) as Htot.
  rewrite (Grow_unfold _ _ _ _ Hlist). cbv zeta.
  set (bs := scheduled_size (length (l0 ++ [b]))) in *.
  destruct (PyBytes_FromStringAndSize bs py) as [[nb|] py1] eqn:Hnb.
  - apply PyBytes_allocated in Hnb. destruct Hnb as (_ & _ & Hsize & Hreq).
    apply request_granted in Hreq.
    destruct Hreq as (Hfit & Hlive1 & Hj1 & He1 & _).
    unfold PyList_Append.
    destruct (request 0 py1) as [[|] py2] eqn:Happ.
    + left. apply request_granted in Happ.
      destruct Happ as (_ & Hlive2 & Hj2 & He2 & _).
      exists nb, py2.
      rewrite to_size_t_small
        by (pose proof PY_SSIZE_T_MAX_lt_SIZE_MAX; lia).
      rewrite to_Py_ssize_t_small by (unfold PY_SSIZE_T_MAX in *; lia).
      repeat split; try congruence; try lia.
      exists (l0 ++ [b]), nb. simpl.
      rewrite Hsize, Z.sub_diag. simpl.
      rewrite app_nil_r, concat_app. simpl. rewrite app_nil_r.
      rewrite (total_size_last (l0 ++ [b])), Hsize.
      repeat split; try lia.
      * apply blocks_scheduled_snoc; assumption.
      * rewrite Hdata, Hzero, Z.sub_0_r. f_equal.
        apply firstn_all2. unfold Py_SIZE. lia.
    + right. apply request_refused in Happ.
      destruct Happ as (Hlive2 & Hj2 & He2).
      unfold Py_CLEAR_list. rewrite Hlist. simpl.
      eexists. split; [|split; [|reflexivity]]; simpl; [|assumption].
      rewrite Hlive2, Hlive1. lia.
  - right. apply PyBytes_failed in Hnb. destruct Hnb as (Hlive1 & Hj1 & He1).
    unfold Py_CLEAR_list. rewrite Hlist. simpl.
    eexists. split; [|split; [|reflexivity]]; simpl; [|reflexivity].
    rewrite Hlive1. lia.
Qed.

(** ** Joining the blocks *)

(** What [BlocksOutputBuffer_Finish] does on a buffer whose counter is the
    sum of its block sizes, for a window inside the last block. *)
Lemma Finish_unfold (buffer : BlocksOutputBuffer) (py : PyInterp)
    (l0 : list block) (b : block) (a : Z) :
  list_ buffer = Some (l0 ++ [b]) ->
  allocated buffer = total_size (l0 ++ [b]) ->
  total_size (l0 ++ [b]) <= PY_SSIZE_T_MAX ->
  0 <= a <= Py_SIZE b ->
  BlocksOutputBuffer_Finish buffer a py =
  match PyBytes_FromStringAndSize (allocated buffer - a) py with
  | (Some _, py1) =>
      Returns (Some (concat l0 ++ firstn (Z.to_nat (Py_SIZE b - a)) b),
               mkBuffer None (allocated buffer),
               free_list (l0 ++ [b]) py1)
  | (None, py1) =>
      Returns (None, mkBuffer None (allocated buffer),
               PyErr_Set PyExc_MemoryError (free_list (l0 ++ [b]) py1))
  end.
Proof.
  intros Hlist Halloc Hfit Ha.
  pose proof (total_size_nonneg l0) as Hl0.
  pose proof PY_SSIZE_T_MAX_lt_SIZE_MAX as Hmax.
  rewrite total_size_last in *.
  unfold BlocksOutputBuffer_Finish.
  rewrite to_size_t_small by lia.
  rewrite to_Py_ssize_t_small by lia.
  destruct (PyBytes_FromStringAndSize (allocated buffer - a) py)
    as [[res|] py1] eqn:Hres.
  - rewrite Hlist.
    apply PyBytes_allocated in Hres. destruct Hres as (_ & _ & Hsize & _).
    pose proof (Finish_copy_joins l0 b [] res a) as Hcopy.
    change (Py_SIZE (@nil byte)) with 0 in Hcopy. simpl in Hcopy.
    rewrite Hcopy by lia.
    unfold Py_CLEAR_list. rewrite Hlist. reflexivity.
  - unfold Py_CLEAR_list. rewrite Hlist. reflexivity.
Qed.

Lemma reachable_inv (buffer : BlocksOutputBuffer) (w : window)
    (py : PyInterp) (data : list byte) :
  reachable buffer w py data -> buffer_inv buffer w py data.
Proof.
  induction 1 as [buffer0 buffer w0 w py0 py Hinit
                 | buffer w py data out _ IH
                 | buffer buffer' w w' py py' data _ IH Hzero Hgrow].
  - eapply InitAndGrow_inv; eassumption.
  - apply store_inv; assumption.
  - destruct (Grow_cases _ _ _ _ IH Hzero) as (l & Hl & [Hok | Hfail]).
    + destruct Hok as (b & py1 & _ & _ & _ & _ & Heq & Hinv).
      rewrite Heq in Hgrow. inversion Hgrow; subst. assumption.
    + destruct Hfail as (py1 & _ & _ & Heq).
      rewrite Heq in Hgrow. inversion Hgrow.
Qed.

Lemma inv_shape (buffer : BlocksOutputBuffer) (w : window) (py : PyInterp)
    (data : list byte) (l : list block) :
  buffer_inv buffer w py data -> list_ buffer = Some l ->
  l = removelast l ++ [last l []] /\
  blocks_scheduled l /\
  allocated buffer = total_size l /\
  next_out w = mkPtr (length l - 1) (Py_SIZE (last l []) - avail_out w) /\
  0 <= avail_out w <= Py_SIZE (last l []) /\
  data = concat (removelast l)
         ++ firstn (Z.to_nat (Py_SIZE (last l []) - avail_out w)) (last l []) /\
  total_size l <= Z.of_N (live_bytes py) <= PY_SSIZE_T_MAX.
Proof.
  intros (l0 & b & Hlist & Hsched & Halloc & Hptr & Hwin & Hdata & Hlive) Hl.
  rewrite Hlist in Hl. inversion Hl; subst l; clear Hl.
  rewrite removelast_last, last_last, length_app. simpl.
  replace (length l0 + 1 - 1)%nat with (length l0) by lia.
  repeat split; assumption || lia.
Qed.

Lemma first_reachable : reachable first_buffer first_window first_py [].
Proof.
  apply (reach_init fresh_buffer first_buffer fresh_window first_window
           idle_py first_py).
  reflexivity.
Qed.

Lemma scheduled_total_S (n : nat) :
  scheduled_total (S n) = scheduled_total n + scheduled_size n.
Proof.
  unfold scheduled_total. rewrite seq_S, map_app, fold_right_app. cbn.
  generalize (map scheduled_size (seq 0 n)). intros l.
  induction l as [|x l IH]; cbn; lia.
Qed.

Lemma total_size_scheduled (l : list block) :
  blocks_scheduled l -> total_size l = scheduled_total (length l).
Proof.
  induction l as [|b l IH] using rev_ind; intros H; [reflexivity|].
  apply blocks_scheduled_front in H. destruct H as [Hl Hb].
  rewrite total_size_last, length_app, Nat.add_1_r, scheduled_total_S.
  rewrite IH, Hb by assumption. reflexivity.
Qed.

Lemma scheduled_total_17 : scheduled_total 17 = 852852736.
Proof. reflexivity. Qed.

Lemma scheduled_total_from_17 (n : nat) :
  (17 <= n)%nat -> 852852736 <= scheduled_total n.
Proof.
  induction 1 as [|n Hle IH].
  - rewrite scheduled_total_17. lia.
  - rewrite scheduled_total_S.
    pose proof (scheduled_size_bounds n). lia.
Qed.

(** From the second block on, a block is at most three times as large as the
    blocks before it together. *)
Lemma block_within_three_times_the_blocks_before (n : nat) :
  (1 <= n)%nat -> scheduled_size n <= 3 * scheduled_total n.
Proof.
  intros Hn. destruct (Nat.le_gt_cases 17 n) as [H|H].
  - pose proof (scheduled_total_from_17 n H).
    pose proof (scheduled_size_bounds n). lia.
  - destruct n as [|n]; [lia|].
    do 16 (destruct n as [|n]; [vm_compute; discriminate|]). lia.
Qed.

(** ** The capacities of the schedule *)

Lemma capacity_scheduled (i : nat) : capacity i = scheduled_size i.
Proof.
  unfold capacity, scheduled_size, index. f_equal.
  change (Py_ARRAY_LENGTH BUFFER_BLOCK_SIZE - 1) with 16.
  change (length SCHEDULE - 1)%nat with 16%nat. lia.
Qed.

Lemma capacity_flat (i : nat) : (16 <= i)%nat -> capacity i = 256 * Mi.
Proof.
  intros H. rewrite capacity_scheduled. apply scheduled_size_flat. assumption.
Qed.

Lemma scheduled_total_nonneg (n : nat) : 0 <= scheduled_total n.
Proof.
  induction n as [|n IH]; [discriminate|].
  rewrite scheduled_total_S. pose proof (scheduled_size_bounds n). lia.
Qed.

(** ** Buffers with many blocks *)

Lemma length_filled_blocks (n : nat) : length (filled_blocks n) = n.
Proof. unfold filled_blocks. rewrite length_map, length_seq. reflexivity. Qed.

Lemma filled_blocks_S (n : nat) :
  filled_blocks (S n)
  = filled_blocks n ++ [full_block n].
Proof. unfold filled_blocks. rewrite seq_S, map_app. reflexivity. Qed.

Lemma Py_SIZE_fresh_block (n : nat) :
  Py_SIZE (fresh_block n) = scheduled_size n.
Proof.
  unfold fresh_block. apply Py_SIZE_repeat.
  pose proof (scheduled_size_bounds n). lia.
Qed.

Lemma Py_SIZE_full_block (n : nat) : Py_SIZE (full_block n) = scheduled_size n.
Proof.
  unfold full_block. apply Py_SIZE_repeat.
  pose proof (scheduled_size_bounds n). lia.
Qed.

Lemma firstn_full_block (n : nat) :
  firstn (Z.to_nat (scheduled_size n)) (full_block n) = full_block n.
Proof.
  apply firstn_all2. pose proof (Py_SIZE_full_block n) as H.
  unfold Py_SIZE in H. lia.
Qed.

(** Filling the window of a grown buffer. *)
Lemma store_fills_the_block (n : nat) :
  store (grown_buffer n) (grown_window n)
    (full_block n)
  = (mkBuffer (Some (filled_blocks (S n))) (scheduled_total (S n)),
     mkWindow 0 (mkPtr n (scheduled_size n))).
Proof.
  pose proof (scheduled_size_bounds n) as Hbs.
  unfold store, grown_buffer, grown_window.
  cbn [list_ allocated avail_out next_out blk off].
  rewrite firstn_full_block, Py_SIZE_full_block.
  pose proof (poke_nth_last (filled_blocks n) (fresh_block n) 0
                (full_block n)) as Hpoke.
  rewrite length_filled_blocks in Hpoke. rewrite Hpoke.
  assert (Hfull : poke (fresh_block n) 0 (full_block n) = full_block n).
  { unfold poke, fresh_block.
    change (Z.to_nat 0) with 0%nat. cbn [firstn app Nat.add].
    rewrite skipn_all2
      by (unfold full_block; rewrite !repeat_length; apply Nat.le_refl).
    apply app_nil_r. }
  rewrite Hfull, filled_blocks_S, Z.sub_diag, Z.add_0_l. reflexivity.
Qed.

Lemma request_of_idle (n : Z) (live : N) (j : byte) (e : option exception) :
  Z.of_N live + n <= PY_SSIZE_T_MAX ->
  request n (mkPy [] live j e) = (true, mkPy [] (live + Z.to_N n) j e).
Proof.
  intros Hfit. unfold request. cbn [alloc_outcomes live_bytes junk err tl].
  replace (Z.of_N live + n <=? PY_SSIZE_T_MAX) with true
    by (symmetry; apply Z.leb_le; assumption).
  reflexivity.
Qed.

(** The growth that follows, in an interpreter that holds the blocks and
    nothing else. *)
Lemma Grow_after_filling (n : nat) :
  scheduled_total (S (S n)) <= PY_SSIZE_T_MAX ->
  BlocksOutputBuffer_Grow
    (mkBuffer (Some (filled_blocks (S n))) (scheduled_total (S n)))
    (mkWindow 0 (mkPtr n (scheduled_size n))) (grown_py n)
  = Returns (0, grown_buffer (S n), grown_window (S n), grown_py (S n)).
Proof.
  intros Hfit.
  pose proof (scheduled_size_bounds (S n)) as Hbs.
  pose proof (scheduled_total_nonneg (S n)) as Htot.
  pose proof PY_SSIZE_T_MAX_lt_SIZE_MAX as Hmax.
  rewrite (scheduled_total_S (S n)) in Hfit.
  rewrite (Grow_unfold
             (mkBuffer (Some (filled_blocks (S n))) (scheduled_total (S n)))
             _ _ (filled_blocks (S n)) eq_refl).
  rewrite length_filled_blocks. cbv zeta.
  unfold PyBytes_FromStringAndSize, PyList_Append, grown_py.
  replace (scheduled_size (S n) <? 0) with false
    by (symmetry; apply Z.ltb_ge; lia).
  rewrite request_of_idle by lia. cbn [junk].
  rewrite request_of_idle by lia. cbn [allocated].
  rewrite to_size_t_small by lia.
  rewrite to_Py_ssize_t_small by (unfold PY_SSIZE_T_MAX in *; lia).
  unfold grown_buffer, grown_window, fresh_block.
  rewrite (scheduled_total_S (S n)).
  repeat f_equal. lia.
Qed.

Lemma concat_filled_blocks_S (n : nat) :
  concat (filled_blocks (S n))
  = concat (filled_blocks n)
    ++ full_block n.
Proof.
  rewrite filled_blocks_S, concat_app. cbn [concat]. rewrite app_nil_r.
  reflexivity.
Qed.

(** The buffers with many blocks are reached by filling and growing. *)
Lemma grown_reachable (n : nat) :
  scheduled_total (S n) <= PY_SSIZE_T_MAX ->
  reachable (grown_buffer n) (grown_window n) (grown_py n)
    (concat (filled_blocks n)).
Proof.
  induction n as [|n IH]; intros Hfit.
  - exact first_reachable.
  - assert (Hfit' : scheduled_total (S n) <= PY_SSIZE_T_MAX).
    { rewrite (scheduled_total_S (S n)) in Hfit.
      pose proof (scheduled_size_bounds (S n)). lia. }
    pose proof (reach_store _ _ _ _
                  (full_block n)
                  (IH Hfit')) as Hstore.
    rewrite store_fills_the_block in Hstore. cbn [fst snd] in Hstore.
    cbn [grown_window avail_out] in Hstore.
    rewrite firstn_full_block in Hstore.
    rewrite <- concat_filled_blocks_S in Hstore.
    apply (reach_grow _ _ _ _ _ _ _ Hstore eq_refl).
    apply Grow_after_filling. assumption.
Qed.

Lemma largest_block_fits : 268435456 <= PY_SSIZE_T_MAX.
Proof. vm_compute. discriminate. Qed.

Lemma room_for_many_blocks : scheduled_total 19 <= PY_SSIZE_T_MAX.
Proof. vm_compute. discriminate. Qed.

(** C6: the chunk of index [i] has the capacity
    [SCHEDULE[min(i, len(SCHEDULE)-1)]] of the schedule 32Ki, 64Ki, 256Ki,
    1Mi, 4Mi, 8Mi, 16Mi, 16Mi, 32Mi, 32Mi, 32Mi, 32Mi, 64Mi, 64Mi, 128Mi,
    128Mi, 256Mi, and 256Mi from index 16 on.
    - [BlocksOutputBuffer_InitAndGrow], its two requests being granted,
      makes a list of one block of capacity [SCHEDULE[0]] and hands out the
      whole of it;
    - [BlocksOutputBuffer_Grow] on a list of [n] blocks, its two requests
      being granted, appends one block of capacity [SCHEDULE[min(n, 16)]] and
      hands out the whole of it;
    - hence in every buffer a driver can reach the block of index [i] has
      that capacity. *)
Theorem block_capacity_follows_schedule :
  (forall (buffer0 : BlocksOutputBuffer) (w0 : window)
          (py0 py1 py2 : PyInterp),
     request (capacity 0) py0 = (true, py1) ->
     request 0 py1 = (true, py2) ->
     exists (b : block) (buffer : BlocksOutputBuffer) (w : window),
       BlocksOutputBuffer_InitAndGrow buffer0 w0 py0 = (0, buffer, w, py2) /\
       list_ buffer = Some [b] /\
       Py_SIZE b = capacity 0 /\ avail_out w = capacity 0) /\
  (forall (buffer : BlocksOutputBuffer) (w : window) (py py1 py2 : PyInterp)
          (l : list block),
     list_ buffer = Some l ->
     request (capacity (length l)) py = (true, py1) ->
     request 0 py1 = (true, py2) ->
     exists (b : block) (buffer' : BlocksOutputBuffer) (w' : window),
       BlocksOutputBuffer_Grow buffer w py = Returns (0, buffer', w', py2) /\
       list_ buffer' = Some (l ++ [b]) /\
       Py_SIZE b = capacity (length l) /\ avail_out w' = capacity (length l) /\
       ((16 <= length l)%nat -> Py_SIZE b = 256 * Mi)) /\
  (forall (buffer : BlocksOutputBuffer) (w : window) (py : PyInterp)
          (data : list byte) (l : list block) (i : nat),
     reachable buffer w py data ->
     list_ buffer = Some l ->
     (i < length l)%nat ->
     Py_SIZE (nth i l []) = capacity i /\
     ((16 <= i)%nat -> Py_SIZE (nth i l []) = 256 * Mi)).
Proof.
  pose proof PY_SSIZE_T_MAX_lt_SIZE_MAX as Hmax.
  pose proof largest_block_fits as Hlarge.
  split; [|split].
  - intros buffer0 w0 py0 py1 py2 Hblock Hlist.
    unfold BlocksOutputBuffer_InitAndGrow, PyBytes_FromStringAndSize,
      PyList_New.
    change (capacity 0) with 32768 in *.
    rewrite BUFFER_BLOCK_SIZE_0. change (32768 <? 0) with false. cbv iota.
    rewrite Hblock, Hlist.
    do 3 eexists. split; [reflexivity|].
    split; [reflexivity|]. split; [|reflexivity].
    apply Py_SIZE_repeat. lia.
  - intros buffer w py py1 py2 l Hl Hblock Hlist.
    pose proof (scheduled_size_bounds (length l)) as Hbs.
    rewrite capacity_scheduled in *.
    rewrite (Grow_unfold buffer w py l Hl). cbv zeta.
    unfold PyBytes_FromStringAndSize, PyList_Append.
    replace (scheduled_size (length l) <? 0) with false
      by (symmetry; apply Z.ltb_ge; lia).
    rewrite Hblock, Hlist.
    do 3 eexists. split; [reflexivity|]. cbn [list_ avail_out].
    split; [reflexivity|].
    assert (Hsize : Py_SIZE (repeat (junk py)
                               (Z.to_nat (scheduled_size (length l))))
                    = scheduled_size (length l))
      by (apply Py_SIZE_repeat; lia).
    split; [exact Hsize|]. split; [apply to_size_t_small; lia|].
    intros H16. rewrite Hsize. apply scheduled_size_flat. assumption.
  - intros buffer w py data l i Hreach Hl Hi.
    apply reachable_inv in Hreach.
    destruct (inv_shape _ _ _ _ _ Hreach Hl) as (_ & Hsched & _).
    rewrite (Hsched i Hi), capacity_scheduled. split; [reflexivity|].
    intros H16. apply scheduled_size_flat. assumption.
Qed.

Lemma block_capacity_follows_schedule_witness :
  (exists (b : block) (buffer' : BlocksOutputBuffer) (w' : window),
     BlocksOutputBuffer_Grow
       (mkBuffer (Some (filled_blocks 17)) (scheduled_total 17))
       (mkWindow 0 (mkPtr 16 (scheduled_size 16))) (grown_py 16)
     = Returns (0, buffer', w', grown_py 17) /\
     list_ buffer' = Some (filled_blocks 17 ++ [b]) /\
     Py_SIZE b = capacity (length (filled_blocks 17)) /\
     avail_out w' = capacity (length (filled_blocks 17)) /\
     ((16 <= length (filled_blocks 17))%nat -> Py_SIZE b = 256 * Mi)) /\
  Py_SIZE (nth 2 (filled_blocks 17 ++ [fresh_block 17]) []) = capacity 2 /\
  Py_SIZE (nth 17 (filled_blocks 17 ++ [fresh_block 17]) []) = capacity 17 /\
  ((16 <= 17)%nat ->
   Py_SIZE (nth 17 (filled_blocks 17 ++ [fresh_block 17]) []) = 256 * Mi).
Proof.
  destruct block_capacity_follows_schedule as (_ & Hgrow & Hblocks).
  assert (Hreach : reachable (grown_buffer 17) (grown_window 17)
                     (grown_py 17) (concat (filled_blocks 17))).
  { apply grown_reachable.
    pose proof room_for_many_blocks as H.
    rewrite scheduled_total_S in H.
    pose proof (scheduled_size_bounds 18). lia. }
  split; [|split].
  - apply (Hgrow _ _ (grown_py 16)
             (mkPy [] (Z.to_N (scheduled_total 17) + Z.to_N 268435456)
                Byte.x00 None)).
    + reflexivity.
    + rewrite length_filled_blocks. vm_compute. reflexivity.
    + vm_compute. reflexivity.
  - apply (Hblocks (grown_buffer 17) (grown_window 17) (grown_py 17)
             (concat (filled_blocks 17)) _ 2%nat Hreach eq_refl).
    rewrite length_app, length_filled_blocks. cbn. lia.
  - apply (Hblocks (grown_buffer 17) (grown_window 17) (grown_py 17)
             (concat (filled_blocks 17)) _ 17%nat Hreach eq_refl).
    rewrite length_app, length_filled_blocks. cbn. lia.
Defined.

(** C1: on a reachable buffer with blocks [c0..ck] and a window of
    [avail_out] bytes left in [ck], when the final bytes object can be
    allocated, [BlocksOutputBuffer_Finish] returns the blocks before the last
    one in full followed by the last one cut to [capacity - avail_out]; its
    length is [allocated - avail_out]; the block list is released; and when
    the single block is wholly unused the result is the empty string. *)
Theorem Finish_joins_blocks
    (buffer : BlocksOutputBuffer) (w : window) (py py1 : PyInterp)
    (data : list byte) (l : list block) (avail : Z) (fresh : block) :
  reachable buffer w py data ->
  list_ buffer = Some l ->
  0 <= avail <= Py_SIZE (last l []) ->
  PyBytes_FromStringAndSize (allocated buffer - avail) py = (Some fresh, py1) ->
  let joined :=
    concat (removelast l)
    ++ firstn (Z.to_nat (Py_SIZE (last l []) - avail)) (last l []) in
  BlocksOutputBuffer_Finish buffer avail py
  = Returns (Some joined, mkBuffer None (allocated buffer), free_list l py1) /\
  Py_SIZE joined = allocated buffer - avail /\
  Z.of_N (live_bytes (free_list l py1))
  = Z.of_N (live_bytes py) - total_size l + Py_SIZE joined /\
  (removelast l = [] -> avail = Py_SIZE (last l []) -> joined = []).
Proof.
  intros Hreach Hl Havail Hfresh joined.
  apply reachable_inv in Hreach.
  destruct (inv_shape _ _ _ _ _ Hreach Hl)
    as (Hshape & _ & Halloc & _ & _ & _ & Hlive).
  pose proof (total_size_nonneg (removelast l)) as Hfront.
  assert (Hsize : Py_SIZE joined = allocated buffer - avail).
  { unfold joined. rewrite Py_SIZE_app, Py_SIZE_concat.
    rewrite Py_SIZE_firstn by lia.
    rewrite Halloc. rewrite Hshape at 3. rewrite total_size_last. lia. }
  repeat split.
  - rewrite Hshape in Hl, Halloc, Hlive.
    rewrite (Finish_unfold buffer py (removelast l) (last l []) avail)
      by (assumption || lia).
    rewrite Hfresh. rewrite <- Hshape. reflexivity.
  - assumption.
  - apply PyBytes_allocated in Hfresh. destruct Hfresh as (_ & _ & _ & Hreq).
    apply request_granted in Hreq. destruct Hreq as (_ & Hlive1 & _).
    pose proof (total_size_nonneg l).
    pose proof (Py_SIZE_nonneg joined).
    unfold free_list. simpl. rewrite Hlive1. lia.
  - intros Hsingle Hall. unfold joined.
    rewrite Hsingle, Hall, Z.sub_diag. reflexivity.
Qed.

Lemma Finish_joins_blocks_witness :
  BlocksOutputBuffer_Finish first_buffer 32768 first_py
  = Returns (Some (concat (removelast [first_block])
                   ++ firstn (Z.to_nat (Py_SIZE (last [first_block] [])
                                        - 32768))
                        (last [first_block] [])),
             mkBuffer None (allocated first_buffer),
             free_list [first_block] first_py) /\
  (removelast [first_block] = [] ->
   32768 = Py_SIZE (last [first_block] []) ->
   concat (removelast [first_block])
   ++ firstn (Z.to_nat (Py_SIZE (last [first_block] []) - 32768))
        (last [first_block] []) = []).
Proof.
  destruct (Finish_joins_blocks first_buffer first_window first_py first_py
              [] [first_block] 32768 [])
    as (Hfinish & _ & _ & Hempty).
  - exact first_reachable.
  - reflexivity.
  - change (last [first_block] []) with first_block.
    unfold first_block. rewrite Py_SIZE_repeat; lia.
  - reflexivity.
  - split; assumption.
Defined.

(** C7: after [BlocksOutputBuffer_InitAndGrow] and after every successful
    [BlocksOutputBuffer_Grow] the counter [allocated] is the sum of the block
    capacities, it never decreases, the window handed back is the whole new
    block, and the blocks before the last one are full: they hold, with the
    used part of the last block, the [allocated - avail_out] bytes of the
    stream. *)
Theorem buffer_invariant :
  (forall (buffer0 buffer : BlocksOutputBuffer) (w0 w : window)
          (py0 py : PyInterp),
     BlocksOutputBuffer_InitAndGrow buffer0 w0 py0 = (0, buffer, w, py) ->
     exists b : block,
       list_ buffer = Some [b] /\
       avail_out w = Py_SIZE b /\ next_out w = mkPtr 0 0) /\
  (forall (buffer : BlocksOutputBuffer) (w : window) (py : PyInterp)
          (data : list byte),
     reachable buffer w py data ->
     (exists l : list block,
        list_ buffer = Some l /\ l <> [] /\
        allocated buffer = total_size l /\
        data = concat (removelast l)
               ++ firstn (Z.to_nat (Py_SIZE (last l []) - avail_out w))
                         (last l []) /\
        Py_SIZE data = allocated buffer - avail_out w /\
        0 <= avail_out w <= Py_SIZE (last l [])) /\
     (forall out : list byte,
        allocated (fst (store buffer w out)) = allocated buffer) /\
     (forall (buffer' : BlocksOutputBuffer) (w' : window) (py' : PyInterp),
        avail_out w = 0 ->
        BlocksOutputBuffer_Grow buffer w py = Returns (0, buffer', w', py') ->
        allocated buffer <= allocated buffer' /\
        exists (l : list block) (b : block),
          list_ buffer = Some l /\ list_ buffer' = Some (l ++ [b]) /\
          data = concat l /\
          avail_out w' = Py_SIZE b /\ next_out w' = mkPtr (length l) 0)).
Proof.
  split.
  - intros buffer0 buffer w0 w py0 py Hinit.
    apply InitAndGrow_success in Hinit.
    destruct Hinit as (b & Hsize & -> & -> & _).
    exists b. simpl. rewrite Hsize. repeat split.
  - intros buffer w py data Hreach.
    apply reachable_inv in Hreach. pose proof Hreach as Hinv'.
    destruct Hreach as (l0 & b & Hlist & Hsched & Halloc & Hptr & Hwin
                        & Hdata & Hlive).
    split; [|split].
    + exists (l0 ++ [b]).
      rewrite removelast_last, last_last.
      repeat split; try assumption; try lia.
      * destruct l0; discriminate.
      * rewrite Hdata, Py_SIZE_app, Py_SIZE_concat, Py_SIZE_firstn by lia.
        rewrite Halloc, total_size_last. lia.
    + intros out. reflexivity.
    + intros buffer' w' py' Hzero Hgrow.
      destruct (Grow_cases _ _ _ _ Hinv' Hzero) as (l & Hl & [Hok | Hfail]).
      * destruct Hok as (nb & py1 & Hsize & _ & _ & _ & Heq & _).
        rewrite Heq in Hgrow. inversion Hgrow; subst buffer' w' py'.
        simpl.
        pose proof (scheduled_size_bounds (length l)) as Hbs.
        split; [lia|].
        exists l, nb. repeat split; try assumption; try congruence.
        rewrite Hlist in Hl. inversion Hl; subst l.
        rewrite Hdata, Hzero, Z.sub_0_r, concat_app. simpl.
        rewrite app_nil_r. f_equal.
        apply firstn_all2. unfold Py_SIZE. lia.
      * destruct Hfail as (py1 & _ & _ & Heq).
        rewrite Heq in Hgrow. inversion Hgrow.
Qed.

Lemma buffer_invariant_witness :
  (exists b : block,
     list_ first_buffer = Some [b] /\
     avail_out first_window = Py_SIZE b /\
     next_out first_window = mkPtr 0 0) /\
  (exists l : list block,
     list_ first_buffer = Some l /\ l <> [] /\
     allocated first_buffer = total_size l /\
     [] = concat (removelast l)
          ++ firstn (Z.to_nat (Py_SIZE (last l []) - avail_out first_window))
                    (last l []) /\
     Py_SIZE (@nil byte) = allocated first_buffer - avail_out first_window /\
     0 <= avail_out first_window <= Py_SIZE (last l [])).
Proof.
  split.
  - apply (proj1 buffer_invariant fresh_buffer first_buffer fresh_window
             first_window idle_py first_py).
    reflexivity.
  - apply (proj2 buffer_invariant first_buffer first_window first_py []
             first_reachable).
Defined.

Lemma InitAndGrow_cases (buffer0 : BlocksOutputBuffer) (w0 : window)
    (py0 : PyInterp) :
  (exists buffer w py,
     BlocksOutputBuffer_InitAndGrow buffer0 w0 py0 = (0, buffer, w, py) /\
     buffer_inv buffer w py [] /\ avail_out w = 32768 /\
     Z.of_N (live_bytes py) = Z.of_N (live_bytes py0) + 32768) \/
  (exists py,
     BlocksOutputBuffer_InitAndGrow buffer0 w0 py0
     = (-1, mkBuffer None (allocated buffer0), w0, py) /\
     live_bytes py = live_bytes py0 /\ err py <> None).
Proof.
  destruct (BlocksOutputBuffer_InitAndGrow buffer0 w0 py0)
    as [[[rc buffer] w] py] eqn:Hinit.
  pose proof Hinit as Hdef.
  unfold BlocksOutputBuffer_InitAndGrow in Hdef.
  rewrite BUFFER_BLOCK_SIZE_0 in Hdef.
  destruct (PyBytes_FromStringAndSize 32768 py0) as [[b|] py1] eqn:Hb.
  - unfold PyList_New in Hdef.
    destruct (request 0 py1) as [[|] py2] eqn:Hl;
      inversion Hdef; subst; clear Hdef.
    + left. do 3 eexists. split; [reflexivity|].
      split; [eapply InitAndGrow_inv; eassumption|].
      apply InitAndGrow_success in Hinit.
      destruct Hinit as (b' & _ & _ & Hw & Hlive & _).
      inversion Hw. split; [reflexivity | assumption].
    + right. eexists. split; [reflexivity|].
      apply PyBytes_allocated in Hb. destruct Hb as (_ & _ & Hsize & Hreq).
      apply request_granted in Hreq. destruct Hreq as (_ & Hlive & _).
      apply request_refused in Hl. destruct Hl as (Hlive2 & _ & He).
      unfold free_bytes. simpl. split.
      * rewrite Hlive2, Hlive, Hsize. lia.
      * rewrite He. discriminate.
  - inversion Hdef; subst; clear Hdef. right. eexists.
    split; [reflexivity|].
    apply PyBytes_failed in Hb. destruct Hb as (Hlive & _ & He).
    split; assumption.
Qed.

Lemma Finish_inv (buffer : BlocksOutputBuffer) (w : window) (py : PyInterp)
    (data : list byte) :
  buffer_inv buffer w py data ->
  exists l : list block,
    list_ buffer = Some l /\
    total_size l <= Z.of_N (live_bytes py) /\
    Py_SIZE data = allocated buffer - avail_out w /\
    BlocksOutputBuffer_Finish buffer (avail_out w) py =
    match PyBytes_FromStringAndSize (Py_SIZE data) py with
    | (Some _, py1) =>
        Returns (Some data, mkBuffer None (allocated buffer), free_list l py1)
    | (None, py1) =>
        Returns (None, mkBuffer None (allocated buffer),
                 PyErr_Set PyExc_MemoryError (free_list l py1))
    end.
Proof.
  intros (l0 & b & Hlist & Hsched & Halloc & Hptr & Hwin & Hdata & Hlive).
  exists (l0 ++ [b]).
  assert (Hsize : Py_SIZE data = allocated buffer - avail_out w).
  { rewrite Hdata, Py_SIZE_app, Py_SIZE_concat, Py_SIZE_firstn by lia.
    rewrite Halloc, total_size_last. lia. }
  repeat split; try assumption; try lia.
  rewrite (Finish_unfold buffer py l0 b (avail_out w)) by (assumption || lia).
  rewrite <- Hsize, <- Hdata. reflexivity.
Qed.

(** ** The decompression drivers *)

Lemma BrotliDecoderResult_eqb_eq (a b : BrotliDecoderResult) :
  BrotliDecoderResult_eqb a b = true <-> a = b.
Proof. destruct a, b; cbn; split; intros H; congruence. Qed.

Lemma BrotliDecoderResult_eqb_neq (a b : BrotliDecoderResult) :
  BrotliDecoderResult_eqb a b = false <-> a <> b.
Proof. destruct a, b; cbn; split; intros H; congruence. Qed.

(** ** Interpreters that grant what a run asks *)

Lemma request_under_grants (n room : Z) (py : PyInterp) :
  grants py room -> 0 <= n <= room ->
  exists py1 : PyInterp,
    request n py = (true, py1) /\ grants py1 (room - n) /\
    junk py1 = junk py /\ err py1 = err py /\
    Z.of_N (live_bytes py1) = Z.of_N (live_bytes py) + n.
Proof.
  intros [Hall Hfit] Hn. unfold request.
  assert (Hhead : match alloc_outcomes py with [] => true | b :: _ => b end
                  = true).
  { destruct (alloc_outcomes py) as [|b t]; [reflexivity|].
    cbn [forallb] in Hall. apply andb_prop in Hall. apply Hall. }
  assert (Htail : forallb (fun granted : bool => granted)
                    (tl (alloc_outcomes py)) = true).
  { destruct (alloc_outcomes py) as [|b t]; [reflexivity|].
    cbn [forallb] in Hall. apply andb_prop in Hall. apply Hall. }
  rewrite Hhead.
  replace (Z.of_N (live_bytes py) + n <=? PY_SSIZE_T_MAX) with true
    by (symmetry; apply Z.leb_le; lia).
  cbn [andb]. eexists. split; [reflexivity|].
  unfold grants. cbn [alloc_outcomes live_bytes junk err].
  repeat split; try assumption; lia.
Qed.

Lemma grants_less (py : PyInterp) (room room' : Z) :
  grants py room -> room' <= room -> grants py room'.
Proof. intros [Hall Hfit] Hle. split; [assumption | lia]. Qed.

Lemma grants_after_free (py py1 : PyInterp) (room freed : Z) :
  grants py room ->
  alloc_outcomes py1 = alloc_outcomes py ->
  Z.of_N (live_bytes py1) = Z.of_N (live_bytes py) - freed ->
  grants py1 (room + freed).
Proof.
  intros [Hall Hfit] Ha Hlive. split; [rewrite Ha; assumption | lia].
Qed.

Lemma grants_PyErr_Set (py : PyInterp) (room : Z) (e : exception) :
  grants py room -> grants (PyErr_Set e py) room.
Proof. intros H. exact H. Qed.

(** ** The buffer in an interpreter that grants its requests *)

Lemma inv_allocated (buffer : BlocksOutputBuffer) (w : window)
    (py : PyInterp) (data : list byte) (l : list block) :
  buffer_inv buffer w py data -> list_ buffer = Some l ->
  (1 <= length l)%nat /\
  allocated buffer = scheduled_total (length l) /\
  total_size l = allocated buffer /\
  Py_SIZE data = allocated buffer - avail_out w /\
  0 <= avail_out w /\
  allocated buffer <= Z.of_N (live_bytes py).
Proof.
  intros (l0 & b & Hlist & Hsched & Halloc & Hptr & Hwin & Hdata & Hlive) Hl.
  rewrite Hlist in Hl. inversion Hl; subst l; clear Hl.
  rewrite Halloc, (total_size_scheduled _ Hsched).
  rewrite (total_size_scheduled _ Hsched) in Hlive.
  repeat split; try lia.
  - rewrite length_app. cbn [length]. lia.
  - rewrite Hdata, Py_SIZE_app, Py_SIZE_concat, Py_SIZE_firstn by lia.
    rewrite <- (total_size_scheduled _ Hsched), total_size_last. lia.
Qed.

(** The memory the buffer takes is at most four times the output written so
    far, or the 32 KiB of the first block. *)
Lemma inv_four_times (buffer : BlocksOutputBuffer) (w : window)
    (py : PyInterp) (data : list byte) :
  buffer_inv buffer w py data ->
  allocated buffer <= Z.max 32768 (4 * Py_SIZE data).
Proof.
  intros (l0 & b & _ & Hsched & Halloc & _ & Hwin & Hdata & _).
  apply blocks_scheduled_front in Hsched. destruct Hsched as [Hl0 Hb].
  rewrite Halloc, total_size_last, Hb, (total_size_scheduled l0 Hl0).
  assert (Hlen : scheduled_total (length l0) <= Py_SIZE data).
  { rewrite Hdata, Py_SIZE_app, Py_SIZE_concat, (total_size_scheduled l0 Hl0).
    pose proof (Py_SIZE_nonneg
                  (firstn (Z.to_nat (Py_SIZE b - avail_out w)) b)). lia. }
  destruct (length l0) as [|n] eqn:Hn.
  - change (scheduled_total 0) with 0. change (scheduled_size 0) with 32768.
    lia.
  - pose proof (block_within_three_times_the_blocks_before (S n)
                  ltac:(lia)). lia.
Qed.

Lemma InitAndGrow_under_grants (py : PyInterp) (room : Z) :
  grants py room -> 32768 <= room ->
  exists (b : block) (py1 : PyInterp),
    BlocksOutputBuffer_InitAndGrow fresh_buffer fresh_window py
    = (0, mkBuffer (Some [b]) 32768, mkWindow 32768 (mkPtr 0 0), py1) /\
    buffer_inv (mkBuffer (Some [b]) 32768) (mkWindow 32768 (mkPtr 0 0)) py1
      [] /\
    grants py1 (room - 32768) /\ err py1 = err py.
Proof.
  intros Hgr Hroom.
  destruct (request_under_grants 32768 room py Hgr ltac:(lia))
    as (py1 & Hreq1 & Hgr1 & _ & Herr1 & _).
  destruct (request_under_grants 0 (room - 32768) py1 Hgr1 ltac:(lia))
    as (py2 & Hreq2 & Hgr2 & _ & Herr2 & _).
  assert (Heq : BlocksOutputBuffer_InitAndGrow fresh_buffer fresh_window py
                = (0, mkBuffer (Some [repeat (junk py) (Z.to_nat 32768)])
                        32768,
                   mkWindow 32768 (mkPtr 0 0), py2)).
  { unfold BlocksOutputBuffer_InitAndGrow, PyBytes_FromStringAndSize,
      PyList_New.
    rewrite BUFFER_BLOCK_SIZE_0. change (32768 <? 0) with false. cbv iota.
    rewrite Hreq1, Hreq2. reflexivity. }
  exists (repeat (junk py) (Z.to_nat 32768)), py2.
  split; [exact Heq|]. split; [eapply InitAndGrow_inv; exact Heq|].
  split; [|congruence].
  replace (room - 32768) with (room - 32768 - 0) by lia. assumption.
Qed.

Lemma growth_fits (buffer : BlocksOutputBuffer) (w : window) (py : PyInterp)
    (data : list byte) (l : list block) :
  buffer_inv buffer w py data -> list_ buffer = Some l -> avail_out w = 0 ->
  scheduled_size (length l) <= 3 * Py_SIZE data /\
  Py_SIZE data = allocated buffer.
Proof.
  intros Hinv Hl Hzero.
  destruct (inv_allocated _ _ _ _ _ Hinv Hl)
    as (Hlen & Halloc & _ & Hdata & _).
  pose proof (block_within_three_times_the_blocks_before (length l) Hlen).
  lia.
Qed.

Lemma Grow_under_grants (buffer : BlocksOutputBuffer) (w : window)
    (py : PyInterp) (data : list byte) (l : list block) (room : Z) :
  buffer_inv buffer w py data -> list_ buffer = Some l -> avail_out w = 0 ->
  grants py room -> scheduled_size (length l) <= room ->
  exists (b : block) (py1 : PyInterp),
    BlocksOutputBuffer_Grow buffer w py
    = Returns (0,
               mkBuffer (Some (l ++ [b]))
                 (allocated buffer + scheduled_size (length l)),
               mkWindow (scheduled_size (length l)) (mkPtr (length l) 0),
               py1) /\
    buffer_inv
      (mkBuffer (Some (l ++ [b]))
         (allocated buffer + scheduled_size (length l)))
      (mkWindow (scheduled_size (length l)) (mkPtr (length l) 0)) py1 data /\
    grants py1 (room - scheduled_size (length l)) /\
    err py1 = err py.
Proof.
  intros Hinv Hl Hzero Hgr Hroom.
  pose proof (scheduled_size_bounds (length l)) as Hbs.
  destruct (request_under_grants (scheduled_size (length l)) room py Hgr
              ltac:(lia))
    as (pyA & HreqA & HgrA & _ & HerrA & _).
  destruct (request_under_grants 0 _ pyA HgrA ltac:(lia))
    as (pyB & HreqB & HgrB & _ & HerrB & _).
  assert (Heq : exists (b : block) (alloc : Z) (size : Z),
            BlocksOutputBuffer_Grow buffer w py
            = Returns (0, mkBuffer (Some (l ++ [b])) alloc,
                       mkWindow size (mkPtr (length l) 0), pyB)).
  { rewrite (Grow_unfold buffer w py l Hl). cbv zeta.
    unfold PyBytes_FromStringAndSize, PyList_Append.
    replace (scheduled_size (length l) <? 0) with false
      by (symmetry; apply Z.ltb_ge; lia).
    rewrite HreqA, HreqB. do 3 eexists. reflexivity. }
  destruct Heq as (b0 & alloc & size & Heq).
  destruct (Grow_cases _ _ _ _ Hinv Hzero) as (l' & Hl' & [Hok | Hfail]).
  - rewrite Hl in Hl'. inversion Hl'; subst l'; clear Hl'.
    destruct Hok as (b & py1 & _ & _ & _ & _ & Heq' & Hinv').
    rewrite Heq' in Heq. inversion Heq; subst; clear Heq.
    exists b, pyB. rewrite Heq'.
    split; [reflexivity|]. split; [assumption|].
    split; [|congruence].
    replace (room - scheduled_size (length l))
      with (room - scheduled_size (length l) - 0) by lia.
    assumption.
  - destruct Hfail as (py1 & _ & _ & Heq'). rewrite Heq in Heq'.
    inversion Heq'.
Qed.

Lemma Finish_under_grants (buffer : BlocksOutputBuffer) (w : window)
    (py : PyInterp) (data : list byte) (room : Z) :
  buffer_inv buffer w py data -> grants py room -> Py_SIZE data <= room ->
  exists py1 : PyInterp,
    BlocksOutputBuffer_Finish buffer (avail_out w) py
    = Returns (Some data, mkBuffer None (allocated buffer), py1) /\
    grants py1 (room - Py_SIZE data + allocated buffer) /\
    err py1 = err py.
Proof.
  intros Hinv Hgr Hroom.
  destruct (Finish_inv _ _ _ _ Hinv) as (l & Hl & Hlive & Hsize & Hfinish).
  destruct (inv_allocated _ _ _ _ _ Hinv Hl) as (_ & _ & Htotal & _).
  pose proof (Py_SIZE_nonneg data) as Hnn.
  destruct (request_under_grants (Py_SIZE data) room py Hgr (conj Hnn Hroom))
    as (py1 & Hreq & Hgr1 & _ & Herr1 & Hlive1).
  rewrite Hfinish. unfold PyBytes_FromStringAndSize.
  replace (Py_SIZE data <? 0) with false by (symmetry; apply Z.ltb_ge; lia).
  rewrite Hreq.
  eexists. split; [reflexivity|]. split; [|exact Herr1].
  apply (grants_after_free py1); [assumption | reflexivity|].
  unfold free_list. cbn [live_bytes].
  pose proof (total_size_nonneg l). lia.
Qed.

Lemma CleanUp_under_grants (buffer : BlocksOutputBuffer) (w : window)
    (py : PyInterp) (data : list byte) (room : Z) :
  buffer_inv buffer w py data -> grants py room ->
  grants (snd (BlocksOutputBuffer_CleanUp buffer py))
    (room + allocated buffer) /\
  err (snd (BlocksOutputBuffer_CleanUp buffer py)) = err py.
Proof.
  intros Hinv Hgr.
  destruct (Finish_inv _ _ _ _ Hinv) as (l & Hl & Hlive & _).
  destruct (inv_allocated _ _ _ _ _ Hinv Hl) as (_ & _ & Htotal & _).
  unfold BlocksOutputBuffer_CleanUp. rewrite Hl. cbn [snd].
  split; [|reflexivity].
  apply (grants_after_free py); [assumption | reflexivity|].
  unfold free_list. cbn [live_bytes].
  pose proof (total_size_nonneg l). lia.
Qed.

(** ** Writing through the window, seen from the stream *)

Lemma length_poke_nth (l : list block) :
  forall (i : nat) (o : Z) (out : list byte),
    length (poke_nth l i o out) = length l.
Proof.
  induction l as [|b l IH]; intros i o out; [reflexivity|].
  destruct i; cbn [poke_nth length]; [reflexivity|]. rewrite IH. reflexivity.
Qed.

Lemma store_chunks (buffer : BlocksOutputBuffer) (w : window)
    (out : list byte) (l : list block) :
  list_ buffer = Some l ->
  exists l1 : list block,
    list_ (fst (store buffer w out)) = Some l1 /\ length l1 = length l.
Proof.
  intros Hl. unfold store. cbn [fst list_]. rewrite Hl.
  eexists. split; [reflexivity|]. apply length_poke_nth.
Qed.

Lemma after_step_Some {St R : Type} (out : list byte) (evs : list event)
    (o : option (run_end St R)) (x : run_end St R) :
  after_step out evs o = Some x ->
  exists x' : run_end St R,
    o = Some x' /\
    x = mkRunEnd (re_status x') (re_state x') (re_next_in x')
          (out ++ re_stream x') (re_avail_out x') (re_chunks x')
          (evs ++ re_trace x').
Proof.
  destruct o as [x'|]; cbn; intros H; inversion H.
  exists x'. split; reflexivity.
Qed.

(** ** The loops of the drivers and the loops of the spec *)

Lemma threads_allowed_granted (buffer : BlocksOutputBuffer) (w : window)
    (py : PyInterp) :
  threads_allowed (Returns (0, buffer, w, py)) = Returns (0, buffer, w, py).
Proof. reflexivity. Qed.

Ltac simpl_end :=
  cbn [le_status le_state le_next_in le_trace le_window le_buffer le_py
       re_status re_state re_next_in re_trace re_stream re_avail_out
       avail_out allocated].

Section CompressLoop.

Variable E : Encoder.

(** What the first step of a run wrote comes first in the stream of the
    run. *)
Lemma StreamDriver_compress_first (fuel : nat) (e : BrotliEncoderState E)
    (op : BrotliEncoderOperation) (inp : list byte) (ao : Z) (n : nat)
    (x : run_end (BrotliEncoderState E) bool) :
  StreamDriver_compress E (S fuel) e op inp ao n = Some x ->
  exists tail : list byte,
    re_stream x
    = firstn (Z.to_nat ao)
        (written (BrotliEncoderCompressStream E e op inp ao)) ++ tail.
Proof.
  cbn [StreamDriver_compress].
  remember (BrotliEncoderCompressStream E e op inp ao) as s eqn:Hs.
  destruct (status s); cbn [negb].
  2:{ intros H. inversion H; subst x. exists []. cbn. rewrite app_nil_r.
      reflexivity. }
  destruct (if ao - Py_SIZE (firstn (Z.to_nat ao) (written s)) =? 0
            then (capacity n, S n, [EvGrow 0])
            else (ao - Py_SIZE (firstn (Z.to_nat ao) (written s)), n, []))
    as [[room n1] evg].
  destruct (negb (Py_SIZE (advance_in inp (consumed s)) =? 0)).
  - intros H. apply after_step_Some in H. destruct H as (x' & _ & ->).
    eexists. reflexivity.
  - destruct (BrotliEncoderHasMoreOutput E (next_state s)).
    + intros H. apply after_step_Some in H. destruct H as (x' & _ & ->).
      eexists. reflexivity.
    + intros H. inversion H; subst x. exists []. cbn. rewrite app_nil_r.
      reflexivity.
Qed.

(** On an interpreter that grants the growths, the loop of
    [compress_stream] does what the loop of the spec does: the same steps
    with the same results, and the buffer holds the stream. *)
Lemma compress_loop_exact (fuel : nat) :
  forall (e : BrotliEncoderState E) (op : BrotliEncoderOperation)
         (inp : list byte) (buffer : BlocksOutputBuffer) (w : window)
         (py : PyInterp) (data : list byte) (l : list block)
         (x : run_end (BrotliEncoderState E) bool) (room : Z),
    buffer_inv buffer w py data ->
    list_ buffer = Some l ->
    StreamDriver_compress E fuel e op inp (avail_out w) (length l) = Some x ->
    grants py room ->
    4 * Py_SIZE (data ++ re_stream x) <= allocated buffer + room ->
    exists r : loop_end (BrotliEncoderState E) bool,
      compress_loop E fuel e op inp buffer w py = Returns r /\
      le_status r = re_status x /\ le_state r = re_state x /\
      le_next_in r = re_next_in x /\ le_trace r = re_trace x /\
      avail_out (le_window r) = re_avail_out x /\
      buffer_inv (le_buffer r) (le_window r) (le_py r)
        (data ++ re_stream x) /\
      grants (le_py r) (room + allocated buffer - allocated (le_buffer r)) /\
      err (le_py r) = err py.
Proof.
  induction fuel as [|fuel IH];
    intros e op inp buffer w py data l x room Hinv Hl Hrun Hgr Hroom;
    [discriminate|].
  destruct (StreamDriver_compress_first _ _ _ _ _ _ _ Hrun) as (tail & Htail).
  cbn [StreamDriver_compress] in Hrun. cbn [compress_loop].
  remember (BrotliEncoderCompressStream E e op inp (avail_out w)) as s eqn:Hs.
  pose proof (store_inv buffer w py data (written s) Hinv) as Hinv1.
  destruct (store_chunks buffer w (written s) l Hl) as (l1 & Hl1 & Hlen1).
  assert (Hw1 : avail_out (snd (store buffer w (written s)))
                = avail_out w
                  - Py_SIZE (firstn (Z.to_nat (avail_out w)) (written s)))
    by reflexivity.
  assert (Ha1 : allocated (fst (store buffer w (written s)))
                = allocated buffer) by reflexivity.
  destruct (store buffer w (written s)) as [buffer1 w1].
  cbn [fst snd] in Hinv1, Hl1, Hw1, Ha1.
  remember (firstn (Z.to_nat (avail_out w)) (written s)) as out eqn:Hout.
  rewrite <- Hw1 in Hrun.
  remember (advance_in inp (consumed s)) as inp1 eqn:Hinp1.
  destruct (status s) eqn:Hstatus; cbn [negb] in Hrun |- *.
  2:{ inversion Hrun; subst x; clear Hrun. cbn [re_stream] in *.
      eexists. split; [reflexivity|]. simpl_end.
      do 5 (split; [reflexivity|]). split; [assumption|].
      split; [|reflexivity].
      rewrite Ha1. replace (room + allocated buffer - allocated buffer)
        with room by lia. assumption. }
  assert (Hgrown :
    exists (buffer2 : BlocksOutputBuffer) (w2 : window) (py2 : PyInterp)
           (l2 : list block) (evg : list event),
      (if avail_out w1 =? 0
       then match threads_allowed (BlocksOutputBuffer_Grow buffer1 w1 py)
            with
            | Returns (rc, b2, w2', py2') =>
                Returns (rc, b2, w2', py2', [EvGrow rc])
            | Undefined => Undefined
            | OutOfFuel => OutOfFuel
            end
       else Returns (0, buffer1, w1, py, []))
      = Returns (0, buffer2, w2, py2, evg) /\
      (if avail_out w1 =? 0
       then (capacity (length l), S (length l), [EvGrow 0])
       else (avail_out w1, length l, []))
      = (avail_out w2, length l2, evg) /\
      buffer_inv buffer2 w2 py2 (data ++ out) /\
      list_ buffer2 = Some l2 /\
      grants py2 (room + allocated buffer - allocated buffer2) /\
      err py2 = err py).
  { destruct (avail_out w1 =? 0) eqn:Hzero.
    - apply Z.eqb_eq in Hzero.
      destruct (growth_fits _ _ _ _ _ Hinv1 Hl1 Hzero) as [Hfits Hfull].
      rewrite Htail, app_assoc, (Py_SIZE_app (data ++ out)) in Hroom.
      pose proof (Py_SIZE_nonneg tail) as Htl.
      destruct (Grow_under_grants _ _ _ _ _ room Hinv1 Hl1 Hzero Hgr
                  ltac:(lia)) as (b & py2 & Hgrow & Hinv2 & Hgr2 & Herr2).
      rewrite Hgrow. cbn [threads_allowed Z.ltb Z.compare].
      do 5 eexists. split; [reflexivity|].
      split; [|split; [exact Hinv2|split; [reflexivity|split;
                                                          [|exact Herr2]]]].
      + cbn [avail_out]. rewrite capacity_scheduled, length_app, Hlen1.
        cbn [length]. rewrite Nat.add_1_r. reflexivity.
      + cbn [allocated]. rewrite Ha1.
        replace (room + allocated buffer
                 - (allocated buffer + scheduled_size (length l1)))
          with (room - scheduled_size (length l1)) by lia.
        assumption.
    - do 5 eexists. split; [reflexivity|].
      split; [rewrite Hlen1; reflexivity|].
      split; [exact Hinv1|]. split; [exact Hl1|]. split; [|reflexivity].
      rewrite Ha1. replace (room + allocated buffer - allocated buffer)
        with room by lia. assumption. }
  destruct Hgrown as (buffer2 & w2 & py2 & l2 & evg & Hgrown & Hpure & Hinv2
                      & Hl2 & Hgr2 & Herr2).
  rewrite Hgrown. rewrite Hpure in Hrun. cbn [Z.ltb Z.compare].
  destruct (negb (Py_SIZE inp1 =? 0)) eqn:Hleft.
  - apply after_step_Some in Hrun. destruct Hrun as (x' & Hrun' & ->).
    cbn [re_stream re_status re_state re_next_in re_trace re_avail_out] in *.
    rewrite app_assoc in Hroom |- *.
    destruct (IH _ _ _ _ _ _ _ _ x'
                (room + allocated buffer - allocated buffer2)
                Hinv2 Hl2 Hrun' Hgr2 ltac:(lia))
      as (r & Hloop & Hst & Hstate & Hin & Htr & Hao & Hinv' & Hgr' & Herr').
    rewrite Hloop. cbn [before].
    eexists. split; [reflexivity|]. simpl_end.
    rewrite Htr. do 5 (split; [reflexivity || assumption|]).
    split; [assumption|]. split; [|congruence].
    replace (room + allocated buffer - allocated (le_buffer r))
      with (room + allocated buffer - allocated buffer2 + allocated buffer2
            - allocated (le_buffer r)) by lia.
    assumption.
  - destruct (BrotliEncoderHasMoreOutput E (next_state s)) eqn:Hmore.
    + apply after_step_Some in Hrun. destruct Hrun as (x' & Hrun' & ->).
      cbn [re_stream re_status re_state re_next_in re_trace re_avail_out]
        in *.
      rewrite app_assoc in Hroom |- *.
      destruct (IH _ _ _ _ _ _ _ _ x'
                  (room + allocated buffer - allocated buffer2)
                  Hinv2 Hl2 Hrun' Hgr2 ltac:(lia))
        as (r & Hloop & Hst & Hstate & Hin & Htr & Hao & Hinv' & Hgr'
            & Herr').
      rewrite Hloop. cbn [before].
      eexists. split; [reflexivity|]. simpl_end.
      rewrite Htr. do 5 (split; [reflexivity || assumption|]).
      split; [assumption|]. split; [|congruence].
      replace (room + allocated buffer - allocated (le_buffer r))
        with (room + allocated buffer - allocated buffer2
              + allocated buffer2 - allocated (le_buffer r)) by lia.
      assumption.
    + inversion Hrun; subst x; clear Hrun.
      eexists. split; [reflexivity|]. simpl_end.
      do 5 (split; [reflexivity|]). repeat (split; [assumption|]).
      assumption.
Qed.

End CompressLoop.

Section CompressDriver.

Variable E : Encoder.

(** [compress_stream] on an interpreter that grants its requests: the
    result is the stream of the run of the spec when the loop ends well, and
    nothing when a step fails. *)
Lemma compress_stream_exact (fuel : nat) (e : BrotliEncoderState E)
    (op : BrotliEncoderOperation) (inp : list byte) (py : PyInterp)
    (x : run_end (BrotliEncoderState E) bool) (room : Z) :
  StreamDriver_compress E fuel e op inp 32768 1 = Some x ->
  grants py room ->
  room_for (Py_SIZE (re_stream x)) <= room ->
  exists py' : PyInterp,
    compress_stream E fuel e op inp py
    = Returns
        (mkResult (re_status x)
           (if re_status x then Some (re_stream x) else None)
           (re_state x) py'
           (EvInitAndGrow 0
            :: re_trace x
               ++ [if re_status x then EvFinish (re_avail_out x) true
                   else EvCleanUp])) /\
    grants py'
      (room - (if re_status x then Py_SIZE (re_stream x) else 0)) /\
    err py' = err py.
Proof.
  intros Hrun Hgr Hroom. unfold room_for in Hroom.
  pose proof (Py_SIZE_nonneg (re_stream x)) as Hnn.
  destruct (InitAndGrow_under_grants py room Hgr ltac:(lia))
    as (b & py1 & Hinit & Hinv & Hgr1 & Herr1).
  destruct (compress_loop_exact E fuel e op inp _ _ py1 [] [b] x
              (room - 32768) Hinv eq_refl Hrun Hgr1)
    as (r & Hloop & Hst & Hstate & Hin & Htr & Hao & Hinv' & Hgr' & Herr').
  { cbn [app allocated]. lia. }
  cbn [app allocated] in Hinv', Hgr'.
  pose proof (inv_four_times _ _ _ _ Hinv') as Hfour.
  unfold compress_stream. rewrite Hinit. cbn [Z.ltb Z.compare].
  rewrite Hloop, Hst, Htr, Hstate, Hao.
  destruct (re_status x).
  - destruct (Finish_under_grants _ _ _ _ _ Hinv' Hgr' ltac:(lia))
      as (py2 & Hfinish & Hgr2 & Herr2).
    rewrite Hao in Hfinish. rewrite Hfinish. cbn [is_some].
    exists py2. split; [reflexivity|]. split; [|congruence].
    eapply grants_less; [exact Hgr2 | lia].
  - pose proof (CleanUp_under_grants _ _ _ _ _ Hinv' Hgr') as [Hgr2 Herr2].
    destruct (BlocksOutputBuffer_CleanUp (le_buffer r) (le_py r))
      as [buffer2 py2].
    cbn [snd] in Hgr2, Herr2.
    exists py2. split; [reflexivity|]. split; [|congruence].
    eapply grants_less; [exact Hgr2 | lia].
Qed.

End CompressDriver.

Section DecompressLoops.

Variable D : Decoder.

Lemma threads_allowed_Returns
    (call : outcome (Z * BlocksOutputBuffer * window * PyInterp))
    (rc : Z) (buffer : BlocksOutputBuffer) (w : window) (py : PyInterp) :
  threads_allowed call = Returns (rc, buffer, w, py) ->
  (rc <? 0) = false /\ call = Returns (rc, buffer, w, py).
Proof.
  destruct call as [[[[rc' b'] w'] py']| |]; cbn [threads_allowed];
    try discriminate.
  destruct (rc' <? 0) eqn:Hrc; [discriminate|].
  intros H. inversion H; subst. split; [assumption | reflexivity].
Qed.

(** With the lock released no growth reports a failure, so the loop of
    [decompress_stream] and the loop of [brotli_decompress] do the same. *)
Lemma decompress_loops_agree (fuel : nat) :
  forall (d : BrotliDecoderState D) (next_in : list byte)
         (buffer : BlocksOutputBuffer) (w : window) (py : PyInterp),
    decompress_stream_loop D fuel d next_in buffer w py
    = brotli_decompress_loop D fuel d next_in buffer w py.
Proof.
  induction fuel as [|fuel IH]; intros d next_in buffer w py; [reflexivity|].
  cbn [decompress_stream_loop brotli_decompress_loop].
  destruct (store buffer w
              (written (BrotliDecoderDecompressStream D d next_in
                          (avail_out w)))) as [buffer1 w1].
  destruct (avail_out w1 =? 0).
  - destruct (threads_allowed (BlocksOutputBuffer_Grow buffer1 w1 py))
      as [[[[rc b2] w2] py2]| |] eqn:Hgrow; try reflexivity.
    apply threads_allowed_Returns in Hgrow. destruct Hgrow as [Hrc _].
    rewrite Hrc. rewrite IH. reflexivity.
  - rewrite IH. reflexivity.
Qed.

(** On an interpreter that grants the growths, the loops of the
    decompression drivers do what the loop of the spec does. *)
Lemma brotli_decompress_loop_exact (fuel : nat) :
  forall (d : BrotliDecoderState D) (inp : list byte)
         (buffer : BlocksOutputBuffer) (w : window) (py : PyInterp)
         (data : list byte) (l : list block)
         (x : run_end (BrotliDecoderState D) BrotliDecoderResult) (room : Z),
    buffer_inv buffer w py data ->
    list_ buffer = Some l ->
    StreamDriver_decompress D fuel d inp (avail_out w) (length l) = Some x ->
    grants py room ->
    4 * Py_SIZE (data ++ re_stream x) <= allocated buffer + room ->
    exists r : loop_end (BrotliDecoderState D) BrotliDecoderResult,
      brotli_decompress_loop D fuel d inp buffer w py = Returns r /\
      le_status r = re_status x /\ le_state r = re_state x /\
      le_next_in r = re_next_in x /\ le_trace r = re_trace x /\
      avail_out (le_window r) = re_avail_out x /\
      buffer_inv (le_buffer r) (le_window r) (le_py r)
        (data ++ re_stream x) /\
      grants (le_py r) (room + allocated buffer - allocated (le_buffer r)) /\
      err (le_py r) = err py.
Proof.
  induction fuel as [|fuel IH];
    intros d inp buffer w py data l x room Hinv Hl Hrun Hgr Hroom;
    [discriminate|].
  cbn [StreamDriver_decompress] in Hrun. cbn [brotli_decompress_loop].
  remember (BrotliDecoderDecompressStream D d inp (avail_out w)) as s eqn:Hs.
  pose proof (store_inv buffer w py data (written s) Hinv) as Hinv1.
  destruct (store_chunks buffer w (written s) l Hl) as (l1 & Hl1 & Hlen1).
  assert (Hw1 : avail_out (snd (store buffer w (written s)))
                = avail_out w
                  - Py_SIZE (firstn (Z.to_nat (avail_out w)) (written s)))
    by reflexivity.
  assert (Ha1 : allocated (fst (store buffer w (written s)))
                = allocated buffer) by reflexivity.
  destruct (store buffer w (written s)) as [buffer1 w1].
  cbn [fst snd] in Hinv1, Hl1, Hw1, Ha1.
  remember (firstn (Z.to_nat (avail_out w)) (written s)) as out eqn:Hout.
  rewrite <- Hw1 in Hrun.
  remember (advance_in inp (consumed s)) as inp1 eqn:Hinp1.
  assert (Htail : exists tail : list byte, re_stream x = out ++ tail).
  { destruct (if avail_out w1 =? 0
              then (capacity (length l), S (length l), [EvGrow 0])
              else (avail_out w1, length l, [])) as [[ro n1] evg].
    destruct (BrotliDecoderResult_eqb (status s)
                BROTLI_DECODER_RESULT_NEEDS_MORE_OUTPUT).
    - apply after_step_Some in Hrun. destruct Hrun as (x' & _ & ->).
      eexists. reflexivity.
    - inversion Hrun; subst x. exists []. cbn. rewrite app_nil_r.
      reflexivity. }
  destruct Htail as (tail & Htail).
  destruct (avail_out w1 =? 0) eqn:Hzero.
  - apply Z.eqb_eq in Hzero.
    destruct (growth_fits _ _ _ _ _ Hinv1 Hl1 Hzero) as [Hfits Hfull].
    assert (Hfit : scheduled_size (length l1) <= room).
    { rewrite Htail, app_assoc, (Py_SIZE_app (data ++ out)) in Hroom.
      pose proof (Py_SIZE_nonneg tail). lia. }
    destruct (Grow_under_grants _ _ _ _ _ room Hinv1 Hl1 Hzero Hgr Hfit)
      as (b & py2 & Hgrow & Hinv2 & Hgr2 & Herr2).
    rewrite Hgrow. cbn [threads_allowed Z.ltb Z.compare].
    assert (Hl2 : length (l1 ++ [b]) = S (length l))
      by (rewrite length_app, Hlen1; cbn [length]; lia).
    rewrite <- Hl2, capacity_scheduled, <- Hlen1 in Hrun.
    destruct (BrotliDecoderResult_eqb (status s)
                BROTLI_DECODER_RESULT_NEEDS_MORE_OUTPUT).
    + apply after_step_Some in Hrun. destruct Hrun as (x' & Hrun' & ->).
      cbn [re_stream re_status re_state re_next_in re_trace re_avail_out]
        in *.
      rewrite app_assoc in Hroom |- *.
      destruct (IH _ _ _ _ _ _ _ x' (room - scheduled_size (length l1))
                  Hinv2 eq_refl Hrun' Hgr2
                  ltac:(cbn [allocated]; lia))
        as (r & Hloop & Hst & Hstate & Hin & Htr & Hao & Hinv' & Hgr' & Herr').
      rewrite Hloop. cbn [before].
      eexists. split; [reflexivity|]. simpl_end.
      rewrite Htr. do 5 (split; [reflexivity || assumption|]).
      split; [assumption|]. split; [|congruence].
      cbn [allocated] in Hgr'.
      eapply grants_less; [exact Hgr' | lia].
    + inversion Hrun; subst x; clear Hrun.
      eexists. split; [reflexivity|]. simpl_end.
      do 5 (split; [reflexivity|]). split; [assumption|].
      split; [|assumption].
      eapply grants_less; [exact Hgr2 | lia].
  - destruct (BrotliDecoderResult_eqb (status s)
                BROTLI_DECODER_RESULT_NEEDS_MORE_OUTPUT).
    + apply after_step_Some in Hrun. destruct Hrun as (x' & Hrun' & ->).
      cbn [re_stream re_status re_state re_next_in re_trace re_avail_out]
        in *.
      rewrite app_assoc in Hroom |- *.
      rewrite <- Hlen1 in Hrun'.
      destruct (IH _ _ _ _ _ _ _ x' room Hinv1 Hl1 Hrun' Hgr
                  ltac:(lia))
        as (r & Hloop & Hst & Hstate & Hin & Htr & Hao & Hinv' & Hgr' & Herr').
      rewrite Hloop. cbn [before].
      eexists. split; [reflexivity|]. simpl_end.
      rewrite Htr. do 5 (split; [reflexivity || assumption|]).
      split; [assumption|]. split; [|assumption].
      eapply grants_less; [exact Hgr' | lia].
    + inversion Hrun; subst x; clear Hrun.
      eexists. split; [reflexivity|]. simpl_end.
      do 5 (split; [reflexivity|]). split; [assumption|].
      split; [|reflexivity].
      eapply grants_less; [exact Hgr | lia].
Qed.

(** [decompress_stream] on an interpreter that grants its requests. *)
Lemma decompress_stream_exact (fuel : nat) (d : BrotliDecoderState D)
    (inp : list byte) (py : PyInterp)
    (x : run_end (BrotliDecoderState D) BrotliDecoderResult) (room : Z) :
  StreamDriver_decompress D fuel d inp 32768 1 = Some x ->
  grants py room ->
  room_for (Py_SIZE (re_stream x)) <= room ->
  let success :=
    negb (BrotliDecoderResult_eqb (re_status x) BROTLI_DECODER_RESULT_ERROR)
    && (Py_SIZE (re_next_in x) =? 0) in
  exists py' : PyInterp,
    decompress_stream D fuel d inp py
    = Returns
        (mkResult success (if success then Some (re_stream x) else None)
           (re_state x) py'
           (EvInitAndGrow 0
            :: re_trace x
               ++ [if success then EvFinish (re_avail_out x) true
                   else EvCleanUp])) /\
    grants py' (room - (if success then Py_SIZE (re_stream x) else 0)) /\
    err py' = err py.
Proof.
  intros Hrun Hgr Hroom success. unfold room_for in Hroom.
  pose proof (Py_SIZE_nonneg (re_stream x)) as Hnn.
  destruct (InitAndGrow_under_grants py room Hgr ltac:(lia))
    as (b & py1 & Hinit & Hinv & Hgr1 & Herr1).
  destruct (brotli_decompress_loop_exact fuel d inp _ _ py1 [] [b] x
              (room - 32768) Hinv eq_refl Hrun Hgr1)
    as (r & Hloop & Hst & Hstate & Hin & Htr & Hao & Hinv' & Hgr' & Herr').
  { cbn [app allocated]. lia. }
  cbn [app allocated] in Hinv', Hgr'.
  pose proof (inv_four_times _ _ _ _ Hinv') as Hfour.
  unfold decompress_stream. rewrite Hinit. cbn [Z.ltb Z.compare].
  rewrite decompress_loops_agree, Hloop, Hst, Htr, Hstate, Hao, Hin.
  fold success. destruct success.
  - destruct (Finish_under_grants _ _ _ _ _ Hinv' Hgr' ltac:(lia))
      as (py2 & Hfinish & Hgr2 & Herr2).
    rewrite Hao in Hfinish. rewrite Hfinish. cbn [is_some].
    exists py2. split; [reflexivity|]. split; [|congruence].
    eapply grants_less; [exact Hgr2 | lia].
  - pose proof (CleanUp_under_grants _ _ _ _ _ Hinv' Hgr') as [Hgr2 Herr2].
    destruct (BlocksOutputBuffer_CleanUp (le_buffer r) (le_py r))
      as [buffer2 py2].
    cbn [snd] in Hgr2, Herr2.
    exists py2. split; [reflexivity|]. split; [|congruence].
    eapply grants_less; [exact Hgr2 | lia].
Qed.

(** [brotli.decompress] on an interpreter that grants its requests. *)
Lemma brotli_decompress_exact (fuel : nat) (d0 : BrotliDecoderState D)
    (inp : list byte) (py : PyInterp)
    (x : run_end (BrotliDecoderState D) BrotliDecoderResult) (room : Z) :
  BrotliDecoderCreateInstance D = Some d0 ->
  StreamDriver_decompress D fuel d0 inp 32768 1 = Some x ->
  grants py room ->
  room_for (Py_SIZE (re_stream x)) <= room ->
  let success :=
    BrotliDecoderResult_eqb (re_status x) BROTLI_DECODER_RESULT_SUCCESS
    && (Py_SIZE (re_next_in x) =? 0) in
  exists py' : PyInterp,
    brotli_decompress D fuel (PyBytes inp) py
    = Returns
        (mkCall (if success then Some (re_stream x) else None) tt py'
           ((EvInitAndGrow 0 :: EvDecoderCreateInstance true
             :: re_trace x ++ [EvDecoderDestroyInstance])
            ++ [if success then EvFinish (re_avail_out x) true
                else EvCleanUp])) /\
    grants py' (room - (if success then Py_SIZE (re_stream x) else 0)) /\
    err py'
    = (if success then err py
       else Some (BrotliError "BrotliDecompress failed")).
Proof.
  intros Hcreate Hrun Hgr Hroom success. unfold room_for in Hroom.
  pose proof (Py_SIZE_nonneg (re_stream x)) as Hnn.
  destruct (InitAndGrow_under_grants py room Hgr ltac:(lia))
    as (b & py1 & Hinit & Hinv & Hgr1 & Herr1).
  destruct (brotli_decompress_loop_exact fuel d0 inp _ _ py1 [] [b] x
              (room - 32768) Hinv eq_refl Hrun Hgr1)
    as (r & Hloop & Hst & Hstate & Hin & Htr & Hao & Hinv' & Hgr' & Herr').
  { cbn [app allocated]. lia. }
  cbn [app allocated] in Hinv', Hgr'.
  pose proof (inv_four_times _ _ _ _ Hinv') as Hfour.
  unfold brotli_decompress. rewrite Hinit. cbn [Z.ltb Z.compare].
  rewrite Hcreate, Hloop, Hst, Htr, Hao, Hin.
  fold success. destruct success.
  - destruct (Finish_under_grants _ _ _ _ _ Hinv' Hgr' ltac:(lia))
      as (py2 & Hfinish & Hgr2 & Herr2).
    rewrite Hao in Hfinish. rewrite Hfinish. cbn [is_some].
    exists py2. split; [reflexivity|]. split; [|congruence].
    eapply grants_less; [exact Hgr2 | lia].
  - pose proof (CleanUp_under_grants _ _ _ _ _ Hinv' Hgr') as [Hgr2 Herr2].
    destruct (BlocksOutputBuffer_CleanUp (le_buffer r) (le_py r))
      as [buffer2 py2].
    cbn [snd] in Hgr2, Herr2.
    eexists. split; [reflexivity|]. split; [|reflexivity].
    apply grants_PyErr_Set.
    eapply grants_less; [exact Hgr2 | lia].
Qed.

End DecompressLoops.

(** ** The decompression drivers on any interpreter

    A run that returns has had every growth granted: its loop is the loop of
    the spec. *)

Lemma before_Returns {St R : Type} (evs : list event)
    (o : outcome (loop_end St R)) (r : loop_end St R) :
  before evs o = Returns r ->
  exists r' : loop_end St R,
    o = Returns r' /\
    r = mkLoopEnd (le_status r') (le_state r') (le_next_in r')
          (le_buffer r') (le_window r') (le_py r') (evs ++ le_trace r').
Proof.
  destruct o as [r'| |]; cbn [before]; intros H; inversion H.
  exists r'. split; reflexivity.
Qed.

Section DecompressSound.

Variable D : Decoder.

Lemma brotli_decompress_loop_sound (fuel : nat) :
  forall (d : BrotliDecoderState D) (inp : list byte)
         (buffer : BlocksOutputBuffer) (w : window) (py : PyInterp)
         (data : list byte) (l : list block)
         (r : loop_end (BrotliDecoderState D) BrotliDecoderResult),
    buffer_inv buffer w py data ->
    list_ buffer = Some l ->
    brotli_decompress_loop D fuel d inp buffer w py = Returns r ->
    exists x : run_end (BrotliDecoderState D) BrotliDecoderResult,
      StreamDriver_decompress D fuel d inp (avail_out w) (length l) = Some x /\
      le_status r = re_status x /\ le_state r = re_state x /\
      le_next_in r = re_next_in x /\ le_trace r = re_trace x /\
      avail_out (le_window r) = re_avail_out x /\
      buffer_inv (le_buffer r) (le_window r) (le_py r)
        (data ++ re_stream x).
Proof.
  induction fuel as [|fuel IH];
    intros d inp buffer w py data l r Hinv Hl Hloop; [discriminate|].
  cbn [brotli_decompress_loop] in Hloop. cbn [StreamDriver_decompress].
  remember (BrotliDecoderDecompressStream D d inp (avail_out w)) as s eqn:Hs.
  pose proof (store_inv buffer w py data (written s) Hinv) as Hinv1.
  destruct (store_chunks buffer w (written s) l Hl) as (l1 & Hl1 & Hlen1).
  assert (Hw1 : avail_out (snd (store buffer w (written s)))
                = avail_out w
                  - Py_SIZE (firstn (Z.to_nat (avail_out w)) (written s)))
    by reflexivity.
  destruct (store buffer w (written s)) as [buffer1 w1].
  cbn [fst snd] in Hinv1, Hl1, Hw1.
  remember (firstn (Z.to_nat (avail_out w)) (written s)) as out eqn:Hout.
  rewrite <- Hw1.
  remember (advance_in inp (consumed s)) as inp1 eqn:Hinp1.
  destruct (avail_out w1 =? 0) eqn:Hzero.
  - apply Z.eqb_eq in Hzero.
    destruct (Grow_cases _ _ _ _ Hinv1 Hzero) as (l' & Hl' & [Hok | Hfail]).
    2:{ destruct Hfail as (py1 & _ & _ & Heq). rewrite Heq in Hloop.
        cbn [threads_allowed Z.ltb Z.compare] in Hloop. discriminate. }
    rewrite Hl1 in Hl'. inversion Hl'; subst l'; clear Hl'.
    destruct Hok as (nb & py1 & _ & _ & _ & _ & Heq & Hinv2).
    rewrite Heq in Hloop. cbn [threads_allowed Z.ltb Z.compare] in Hloop.
    assert (Hl2 : length (l1 ++ [nb]) = S (length l))
      by (rewrite length_app, Hlen1; cbn [length]; lia).
    rewrite <- Hl2, capacity_scheduled, <- Hlen1.
    destruct (BrotliDecoderResult_eqb (status s)
                BROTLI_DECODER_RESULT_NEEDS_MORE_OUTPUT).
    + apply before_Returns in Hloop. destruct Hloop as (r' & Hloop & ->).
      destruct (IH _ _ _ _ _ _ _ r' Hinv2 eq_refl Hloop)
        as (x' & Hrun & Hst & Hstate & Hin & Htr & Hao & Hinv').
      cbn [avail_out] in Hrun. rewrite Hrun. cbn [after_step].
      eexists. split; [reflexivity|].
      cbn [le_status le_state le_next_in le_trace le_window le_buffer le_py
           re_status re_state re_next_in re_trace re_avail_out re_stream].
      rewrite Htr, app_assoc.
      repeat (split; [reflexivity || assumption|]). assumption.
    + inversion Hloop; subst r; clear Hloop.
      eexists. split; [reflexivity|].
      cbn [le_status le_state le_next_in le_trace le_window le_buffer le_py
           re_status re_state re_next_in re_trace re_avail_out re_stream
           avail_out].
      repeat (split; [reflexivity|]). assumption.
  - destruct (BrotliDecoderResult_eqb (status s)
                BROTLI_DECODER_RESULT_NEEDS_MORE_OUTPUT).
    + apply before_Returns in Hloop. destruct Hloop as (r' & Hloop & ->).
      destruct (IH _ _ _ _ _ _ _ r' Hinv1 Hl1 Hloop)
        as (x' & Hrun & Hst & Hstate & Hin & Htr & Hao & Hinv').
      rewrite Hlen1 in Hrun. rewrite Hrun. cbn [after_step].
      eexists. split; [reflexivity|].
      cbn [le_status le_state le_next_in le_trace le_window le_buffer le_py
           re_status re_state re_next_in re_trace re_avail_out re_stream].
      rewrite Htr, app_assoc.
      repeat (split; [reflexivity || assumption|]). assumption.
    + inversion Hloop; subst r; clear Hloop.
      eexists. split; [reflexivity|].
      cbn [le_status le_state le_next_in le_trace le_window le_buffer le_py
           re_status re_state re_next_in re_trace re_avail_out re_stream].
      repeat (split; [reflexivity|]). assumption.
Qed.

(** [Decompressor.process] on any interpreter: bytes are returned only after
    a loop that ended without an error of the decoder and with no input
    left, and they are all the bytes written; a call that returns no bytes
    has set an error. *)
Lemma Decompressor_process_sound (fuel : nat) (self : brotli_Decompressor D)
    (d : BrotliDecoderState D) (input : list byte) (py : PyInterp)
    (c : call_result (brotli_Decompressor D) block) :
  dec self = Some d ->
  brotli_Decompressor_process D fuel self (PyBytes input) py = Returns c ->
  match ret c with
  | Some out =>
      exists x : run_end (BrotliDecoderState D) BrotliDecoderResult,
        StreamDriver_decompress D fuel d input 32768 1 = Some x /\
        negb (BrotliDecoderResult_eqb (re_status x)
                BROTLI_DECODER_RESULT_ERROR)
        && (Py_SIZE (re_next_in x) =? 0) = true /\
        out = re_stream x
  | None => err (interp c) <> None
  end.
Proof.
  intros Hdec Hcall.
  unfold brotli_Decompressor_process in Hcall. rewrite Hdec in Hcall.
  unfold decompress_stream in Hcall.
  destruct (InitAndGrow_cases fresh_buffer fresh_window py)
    as [(buffer & w & py1 & Heq & Hinv & Hroom & _) | (py1 & Heq & _)];
    rewrite Heq in Hcall; cbn [Z.ltb Z.compare] in Hcall.
  2:{ cbn [ok] in Hcall. inversion Hcall; subst c. cbn. discriminate. }
  rewrite decompress_loops_agree in Hcall.
  destruct (brotli_decompress_loop D fuel d input buffer w py1)
    as [e| |] eqn:Hloop; try discriminate.
  pose proof (InitAndGrow_success _ _ _ _ _ _ Heq)
    as (b & _ & Hbuffer & _).
  destruct (brotli_decompress_loop_sound fuel d input buffer w py1 [] [b] e
              Hinv ltac:(rewrite Hbuffer; reflexivity) Hloop)
    as (x & Hrun & Hst & _ & Hin & _ & _ & Hinv').
  rewrite Hroom in Hrun. cbn [length app] in Hrun, Hinv'.
  rewrite Hst, Hin in Hcall.
  destruct (negb (BrotliDecoderResult_eqb (re_status x)
                    BROTLI_DECODER_RESULT_ERROR)
            && (Py_SIZE (re_next_in x) =? 0)) eqn:Hcond.
  - destruct (Finish_inv _ _ _ _ Hinv') as (l & _ & _ & _ & Hfinish).
    rewrite Hfinish in Hcall.
    destruct (PyBytes_FromStringAndSize (Py_SIZE (re_stream x)) (le_py e))
      as [[res|] py2]; cbn [is_some ok] in Hcall;
      inversion Hcall; subst c; cbn [ret interp output].
    + exists x. repeat split; assumption.
    + cbn. discriminate.
  - destruct (BlocksOutputBuffer_CleanUp (le_buffer e) (le_py e))
      as [buffer2 py2].
    cbn [ok] in Hcall. inversion Hcall; subst c. cbn. discriminate.
Qed.

(** [brotli.decompress] on any interpreter: bytes are returned only after a
    loop that ended in SUCCESS with no input left, and they are all the
    bytes written; a call that returns no bytes has set an error. *)
Lemma brotli_decompress_sound (fuel : nat) (d0 : BrotliDecoderState D)
    (input : list byte) (py : PyInterp) (c : call_result unit block) :
  BrotliDecoderCreateInstance D = Some d0 ->
  brotli_decompress D fuel (PyBytes input) py = Returns c ->
  match ret c with
  | Some out =>
      exists x : run_end (BrotliDecoderState D) BrotliDecoderResult,
        StreamDriver_decompress D fuel d0 input 32768 1 = Some x /\
        BrotliDecoderResult_eqb (re_status x) BROTLI_DECODER_RESULT_SUCCESS
        && (Py_SIZE (re_next_in x) =? 0) = true /\
        out = re_stream x
  | None => err (interp c) <> None
  end.
Proof.
  intros Hcreate Hcall. unfold brotli_decompress in Hcall.
  destruct (InitAndGrow_cases fresh_buffer fresh_window py)
    as [(buffer & w & py1 & Heq & Hinv & Hroom & _) | (py1 & Heq & _ & Herr)];
    rewrite Heq in Hcall; cbn [Z.ltb Z.compare] in Hcall.
  2:{ inversion Hcall; subst c. cbn. assumption. }
  rewrite Hcreate in Hcall.
  destruct (brotli_decompress_loop D fuel d0 input buffer w py1)
    as [e| |] eqn:Hloop; try discriminate.
  pose proof (InitAndGrow_success _ _ _ _ _ _ Heq)
    as (b & _ & Hbuffer & _).
  destruct (brotli_decompress_loop_sound fuel d0 input buffer w py1 [] [b] e
              Hinv ltac:(rewrite Hbuffer; reflexivity) Hloop)
    as (x & Hrun & Hst & _ & Hin & _ & _ & Hinv').
  rewrite Hroom in Hrun. cbn [length app] in Hrun, Hinv'.
  rewrite Hst, Hin in Hcall.
  destruct (BrotliDecoderResult_eqb (re_status x)
              BROTLI_DECODER_RESULT_SUCCESS
            && (Py_SIZE (re_next_in x) =? 0)) eqn:Hcond.
  - destruct (Finish_inv _ _ _ _ Hinv') as (l & _ & _ & _ & Hfinish).
    rewrite Hfinish in Hcall.
    destruct (PyBytes_FromStringAndSize (Py_SIZE (re_stream x)) (le_py e))
      as [[res|] py2]; inversion Hcall; subst c; cbn [ret interp].
    + exists x. repeat split; assumption.
    + cbn. discriminate.
  - destruct (BlocksOutputBuffer_CleanUp (le_buffer e) (le_py e))
      as [buffer2 py2].
    inversion Hcall; subst c. cbn. discriminate.
Qed.

End DecompressSound.

(** ** The compression driver on any interpreter *)

Section CompressSound.

Variable E : Encoder.

Lemma compress_loop_sound (fuel : nat) :
  forall (e : BrotliEncoderState E) (op : BrotliEncoderOperation)
         (inp : list byte) (buffer : BlocksOutputBuffer) (w : window)
         (py : PyInterp) (data : list byte) (l : list block)
         (r : loop_end (BrotliEncoderState E) bool),
    buffer_inv buffer w py data ->
    list_ buffer = Some l ->
    compress_loop E fuel e op inp buffer w py = Returns r ->
    exists x : run_end (BrotliEncoderState E) bool,
      StreamDriver_compress E fuel e op inp (avail_out w) (length l)
      = Some x /\
      le_status r = re_status x /\ le_state r = re_state x /\
      le_next_in r = re_next_in x /\ le_trace r = re_trace x /\
      avail_out (le_window r) = re_avail_out x /\
      buffer_inv (le_buffer r) (le_window r) (le_py r)
        (data ++ re_stream x).
Proof.
  induction fuel as [|fuel IH];
    intros e op inp buffer w py data l r Hinv Hl Hloop; [discriminate|].
  cbn [compress_loop] in Hloop. cbn [StreamDriver_compress].
  remember (BrotliEncoderCompressStream E e op inp (avail_out w)) as s eqn:Hs.
  pose proof (store_inv buffer w py data (written s) Hinv) as Hinv1.
  destruct (store_chunks buffer w (written s) l Hl) as (l1 & Hl1 & Hlen1).
  assert (Hw1 : avail_out (snd (store buffer w (written s)))
                = avail_out w
                  - Py_SIZE (firstn (Z.to_nat (avail_out w)) (written s)))
    by reflexivity.
  destruct (store buffer w (written s)) as [buffer1 w1].
  cbn [fst snd] in Hinv1, Hl1, Hw1.
  remember (firstn (Z.to_nat (avail_out w)) (written s)) as out eqn:Hout.
  rewrite <- Hw1.
  remember (advance_in inp (consumed s)) as inp1 eqn:Hinp1.
  destruct (status s) eqn:Hstatus; cbn [negb] in Hloop |- *.
  2:{ inversion Hloop; subst r; clear Hloop.
      eexists. split; [reflexivity|].
      cbn [le_status le_state le_next_in le_trace le_window le_buffer le_py
           re_status re_state re_next_in re_trace re_avail_out re_stream].
      repeat (split; [reflexivity|]). assumption. }
  assert (Hgrown :
    exists (buffer2 : BlocksOutputBuffer) (w2 : window) (py2 : PyInterp)
           (l2 : list block) (evg : list event),
      (if avail_out w1 =? 0
       then match threads_allowed (BlocksOutputBuffer_Grow buffer1 w1 py)
            with
            | Returns (rc, b2, w2', py2') =>
                Returns (rc, b2, w2', py2', [EvGrow rc])
            | Undefined => Undefined
            | OutOfFuel => OutOfFuel
            end
       else Returns (0, buffer1, w1, py, []))
      = Returns (0, buffer2, w2, py2, evg) /\
      (if avail_out w1 =? 0
       then (capacity (length l), S (length l), [EvGrow 0])
       else (avail_out w1, length l, []))
      = (avail_out w2, length l2, evg) /\
      list_ buffer2 = Some l2 /\
      buffer_inv buffer2 w2 py2 (data ++ out)).
  { destruct (avail_out w1 =? 0) eqn:Hzero.
    - apply Z.eqb_eq in Hzero.
      destruct (Grow_cases _ _ _ _ Hinv1 Hzero)
        as (l' & Hl' & [Hok | Hfail]).
      2:{ destruct Hfail as (py1 & _ & _ & Heq). rewrite Heq in Hloop.
          cbn [threads_allowed Z.ltb Z.compare] in Hloop. discriminate. }
      rewrite Hl1 in Hl'. inversion Hl'; subst l'; clear Hl'.
      destruct Hok as (nb & py1 & _ & _ & _ & _ & Heq & Hinv2).
      rewrite Heq. cbn [threads_allowed Z.ltb Z.compare].
      do 5 eexists. split; [reflexivity|].
      cbn [avail_out list_]. split; [|split; [reflexivity | exact Hinv2]].
      rewrite length_app, Hlen1, capacity_scheduled. cbn [length].
      rewrite Nat.add_1_r. reflexivity.
    - do 5 eexists. split; [reflexivity|].
      split; [|split; [exact Hl1 | exact Hinv1]].
      rewrite Hlen1. reflexivity. }
  destruct Hgrown as (buffer2 & w2 & py2 & l2 & evg & Hgrow & Hpure & Hl2
                      & Hinv2).
  rewrite Hgrow in Hloop. rewrite Hpure. cbn [Z.ltb Z.compare] in Hloop.
  destruct (negb (Py_SIZE inp1 =? 0)).
  - apply before_Returns in Hloop. destruct Hloop as (r' & Hloop & ->).
    destruct (IH _ _ _ _ _ _ _ _ r' Hinv2 Hl2 Hloop)
      as (x' & Hrun & Hst & Hstate & Hin & Htr & Hao & Hinv').
    rewrite Hrun. cbn [after_step].
    eexists. split; [reflexivity|].
    cbn [le_status le_state le_next_in le_trace le_window le_buffer le_py
         re_status re_state re_next_in re_trace re_avail_out re_stream].
    rewrite Htr, app_assoc.
    repeat (split; [reflexivity || assumption|]). assumption.
  - destruct (BrotliEncoderHasMoreOutput E (next_state s)).
    + apply before_Returns in Hloop. destruct Hloop as (r' & Hloop & ->).
      destruct (IH _ _ _ _ _ _ _ _ r' Hinv2 Hl2 Hloop)
        as (x' & Hrun & Hst & Hstate & Hin & Htr & Hao & Hinv').
      rewrite Hrun. cbn [after_step].
      eexists. split; [reflexivity|].
      cbn [le_status le_state le_next_in le_trace le_window le_buffer le_py
           re_status re_state re_next_in re_trace re_avail_out re_stream].
      rewrite Htr, app_assoc.
      repeat (split; [reflexivity || assumption|]). assumption.
    + inversion Hloop; subst r; clear Hloop.
      eexists. split; [reflexivity|].
      cbn [le_status le_state le_next_in le_trace le_window le_buffer le_py
           re_status re_state re_next_in re_trace re_avail_out re_stream].
      repeat (split; [reflexivity|]). assumption.
Qed.

(** [compress_stream] on any interpreter: an output is handed back only
    after a loop of the spec that ended with a true status, and it is the
    whole stream of that loop. *)
Lemma compress_stream_sound (fuel : nat) (e : BrotliEncoderState E)
    (op : BrotliEncoderOperation) (inp : list byte) (py : PyInterp)
    (r : stream_result (BrotliEncoderState E)) :
  compress_stream E fuel e op inp py = Returns r ->
  match output r with
  | Some out =>
      ok r = true /\
      exists x : run_end (BrotliEncoderState E) bool,
        StreamDriver_compress E fuel e op inp 32768 1 = Some x /\
        re_status x = true /\ out = re_stream x /\ engine r = re_state x
  | None => ok r = false
  end.
Proof.
  intros Hcall. unfold compress_stream in Hcall.
  destruct (InitAndGrow_cases fresh_buffer fresh_window py)
    as [(buffer & w & py1 & Heq & Hinv & Hroom & _) | (py1 & Heq & _)];
    rewrite Heq in Hcall; cbn [Z.ltb Z.compare] in Hcall.
  2:{ inversion Hcall; subst r. reflexivity. }
  destruct (compress_loop E fuel e op inp buffer w py1) as [le| |] eqn:Hloop;
    try discriminate.
  pose proof (InitAndGrow_success _ _ _ _ _ _ Heq)
    as (b & _ & Hbuffer & _).
  destruct (compress_loop_sound fuel e op inp buffer w py1 [] [b] le
              Hinv ltac:(rewrite Hbuffer; reflexivity) Hloop)
    as (x & Hrun & Hst & Hstate & _ & _ & _ & Hinv').
  rewrite Hroom in Hrun. cbn [length app] in Hrun, Hinv'.
  destruct (le_status le) eqn:Hstatus.
  - destruct (Finish_inv _ _ _ _ Hinv') as (l & _ & _ & _ & Hfinish).
    rewrite Hfinish in Hcall.
    destruct (PyBytes_FromStringAndSize (Py_SIZE (re_stream x)) (le_py le))
      as [[res|] py2]; inversion Hcall; subst r; cbn [output ok is_some].
    + split; [reflexivity|]. exists x. cbn [engine].
      repeat split; congruence.
    + reflexivity.
  - destruct (BlocksOutputBuffer_CleanUp (le_buffer le) (le_py le))
      as [buffer2 py2].
    inversion Hcall; subst r. reflexivity.
Qed.

End CompressSound.

(** ** A refused growth in [compress_stream] *)

(** C2: the loop of [compress_stream] is to step the encoder, to end the run
    with a clean-up and a failure when the step fails, to grow the buffer
    exactly when [available_out == 0] after a step and to end the run that
    way too when the growth fails, and to go on while input is left or the
    encoder has more output.  The growth is called between
    [Py_BEGIN_ALLOW_THREADS] and [Py_END_ALLOW_THREADS]: when its block is
    refused, the run does not end with a failure.  [process] is given 16384
    bytes, which the small encoder turns into the 32768 bytes that fill the
    first block, and the block of the growth that follows is refused:
    neither [compress_stream] nor the method returns. *)
Theorem compress_stream_after_refused_growth :
  compress_stream Toy.encoder 1 (Toy.mkEnc [] false) BROTLI_OPERATION_PROCESS
    half_block_input third_request_fails
  = Undefined /\
  brotli_Compressor_process Toy.encoder 1
    (@mkCompressor Toy.encoder (Some (Toy.mkEnc [] false)))
    (PyBytes half_block_input) third_request_fails
  = Undefined.
Proof. split; vm_compute; reflexivity. Qed.

(** The same growth, were it called with the thread state in place, would
    report the failure as the claim says: -1, the list released and
    [MemoryError] set. *)
Lemma the_growth_itself_fails_cleanly :
  exists py : PyInterp,
    BlocksOutputBuffer_Grow (mkBuffer (Some [full_block 0]) 32768)
      (mkWindow 0 (mkPtr 0 32768)) (mkPy [false] 32768 Byte.x00 None)
    = Returns (-1, mkBuffer None 32768, mkWindow 0 (mkPtr 0 32768), py) /\
    err py = Some PyExc_MemoryError /\ live_bytes py = 0%N.
Proof.
  eexists.
  rewrite (Grow_unfold (mkBuffer (Some [full_block 0]) 32768) _ _
             [full_block 0] eq_refl).
  split; [reflexivity|]. split; reflexivity.
Qed.

(** ** When a decompression succeeds *)

Section SuccessCondition.

Variable D : Decoder.

Lemma Decompressor_process_exact (fuel : nat) (self : brotli_Decompressor D)
    (d : BrotliDecoderState D) (input : list byte) (py : PyInterp)
    (x : run_end (BrotliDecoderState D) BrotliDecoderResult) (room : Z) :
  dec self = Some d ->
  StreamDriver_decompress D fuel d input 32768 1 = Some x ->
  grants py room ->
  room_for (Py_SIZE (re_stream x)) <= room ->
  let success :=
    negb (BrotliDecoderResult_eqb (re_status x) BROTLI_DECODER_RESULT_ERROR)
    && (Py_SIZE (re_next_in x) =? 0) in
  exists c : call_result (brotli_Decompressor D) block,
    brotli_Decompressor_process D fuel self (PyBytes input) py = Returns c /\
    self_after c = mkDecompressor (Some (re_state x)) /\
    ret c = (if success then Some (re_stream x) else None) /\
    err (interp c)
    = (if success then err py
       else Some (BrotliError "BrotliDecoderDecompressStream failed while processing the stream")) /\
    grants (interp c)
      (room - (if success then Py_SIZE (re_stream x) else 0)) /\
    calls c
    = EvInitAndGrow 0
      :: re_trace x
         ++ [if success then EvFinish (re_avail_out x) true else EvCleanUp].
Proof.
  intros Hdec Hrun Hgr Hroom success.
  destruct (decompress_stream_exact D fuel d input py x room Hrun Hgr Hroom)
    as (py' & Hstream & Hgr' & Herr').
  fold success in Hstream, Hgr'.
  unfold brotli_Decompressor_process. rewrite Hdec, Hstream.
  cbn [ok output engine py_after trace].
  destruct success; eexists; (split; [reflexivity|]);
    cbn [self_after ret interp calls];
    repeat (split; [reflexivity || assumption|]); try reflexivity.
Qed.

End SuccessCondition.

(** C3 (amended): when a decompression run succeeds.  The loop of the
    driver goes as the algorithm of the spec says, and is left with a
    status, an amount of input left and the bytes written.
    - On every interpreter, [Decompressor.process] returns bytes only when
      the status is not ERROR and [available_in == 0], and [brotli.decompress]
      only when the status is SUCCESS and [available_in == 0]; the bytes
      returned are all the bytes written, and a call that returns no bytes has
      set an error.
    - On an interpreter that grants the requests of the run the converse
      holds.  [Decompressor.process] returns the bytes written exactly when
      the status is not ERROR and [available_in == 0]; the status need not
      be SUCCESS.  [brotli.decompress] returns the bytes written exactly when
      the status is SUCCESS and [available_in == 0].  Otherwise they raise
      [brotli.error] and return nothing. *)
Theorem decompression_success_condition
    (D : Decoder) (fuel : nat) (input : list byte) (py : PyInterp) :
  (forall (self : brotli_Decompressor D) (d : BrotliDecoderState D),
     dec self = Some d ->
     (forall c : call_result (brotli_Decompressor D) block,
        brotli_Decompressor_process D fuel self (PyBytes input) py
        = Returns c ->
        match ret c with
        | Some out =>
            exists x : run_end (BrotliDecoderState D) BrotliDecoderResult,
              StreamDriver_decompress D fuel d input 32768 1 = Some x /\
              negb (BrotliDecoderResult_eqb (re_status x)
                      BROTLI_DECODER_RESULT_ERROR)
              && (Py_SIZE (re_next_in x) =? 0) = true /\
              out = re_stream x
        | None => err (interp c) <> None
        end) /\
     (forall (x : run_end (BrotliDecoderState D) BrotliDecoderResult)
             (room : Z),
        StreamDriver_decompress D fuel d input 32768 1 = Some x ->
        grants py room ->
        room_for (Py_SIZE (re_stream x)) <= room ->
        exists c : call_result (brotli_Decompressor D) block,
          brotli_Decompressor_process D fuel self (PyBytes input) py
          = Returns c /\
          self_after c = mkDecompressor (Some (re_state x)) /\
          if negb (BrotliDecoderResult_eqb (re_status x)
                     BROTLI_DECODER_RESULT_ERROR)
             && (Py_SIZE (re_next_in x) =? 0)
          then ret c = Some (re_stream x) /\ err (interp c) = err py
          else ret c = None /\
               err (interp c)
               = Some (BrotliError "BrotliDecoderDecompressStream failed while processing the stream"))) /\
  (forall d0 : BrotliDecoderState D,
     BrotliDecoderCreateInstance D = Some d0 ->
     (forall c : call_result unit block,
        brotli_decompress D fuel (PyBytes input) py = Returns c ->
        match ret c with
        | Some out =>
            exists x : run_end (BrotliDecoderState D) BrotliDecoderResult,
              StreamDriver_decompress D fuel d0 input 32768 1 = Some x /\
              BrotliDecoderResult_eqb (re_status x)
                BROTLI_DECODER_RESULT_SUCCESS
              && (Py_SIZE (re_next_in x) =? 0) = true /\
              out = re_stream x
        | None => err (interp c) <> None
        end) /\
     (forall (x : run_end (BrotliDecoderState D) BrotliDecoderResult)
             (room : Z),
        StreamDriver_decompress D fuel d0 input 32768 1 = Some x ->
        grants py room ->
        room_for (Py_SIZE (re_stream x)) <= room ->
        exists c : call_result unit block,
          brotli_decompress D fuel (PyBytes input) py = Returns c /\
          if BrotliDecoderResult_eqb (re_status x)
               BROTLI_DECODER_RESULT_SUCCESS
             && (Py_SIZE (re_next_in x) =? 0)
          then ret c = Some (re_stream x) /\ err (interp c) = err py
          else ret c = None /\
               err (interp c) = Some (BrotliError "BrotliDecompress failed"))).
Proof.
  split.
  - intros self d Hdec. split.
    + intros c Hcall.
      exact (Decompressor_process_sound D fuel self d input py c Hdec Hcall).
    + intros x room Hrun Hgr Hroom.
      destruct (Decompressor_process_exact D fuel self d input py x room
                  Hdec Hrun Hgr Hroom)
        as (c & Hcall & Hself & Hret & Herr & _).
      exists c. split; [assumption|]. split; [assumption|].
      destruct (negb (BrotliDecoderResult_eqb (re_status x)
                        BROTLI_DECODER_RESULT_ERROR)
                && (Py_SIZE (re_next_in x) =? 0)); split; assumption.
  - intros d0 Hcreate. split.
    + intros c Hcall.
      exact (brotli_decompress_sound D fuel d0 input py c Hcreate Hcall).
    + intros x room Hrun Hgr Hroom.
      destruct (brotli_decompress_exact D fuel d0 input py x room
                  Hcreate Hrun Hgr Hroom) as (py' & Hcall & _ & Herr).
      eexists. split; [exact Hcall|]. cbn [ret interp].
      destruct (BrotliDecoderResult_eqb (re_status x)
                  BROTLI_DECODER_RESULT_SUCCESS
                && (Py_SIZE (re_next_in x) =? 0));
        split; reflexivity || assumption.
Qed.

Lemma unfinished_stream_run :
  decompress_stream Toy.decoder 1 (Toy.mkDec [] false false false)
    [Byte.x01; Byte.x2a] idle_py
  = Returns
      (mkResult true (Some [Byte.x2a]) (Toy.mkDec [] false false false)
         (mkPy [] 1 Byte.x00 None)
         [EvInitAndGrow 0;
          EvDecoderDecompressStream BROTLI_DECODER_RESULT_NEEDS_MORE_INPUT
            0 32767;
          EvFinish 32767 true]).
Proof. vm_compute. reflexivity. Qed.

(** C3 as stated fails: [Decompressor.process] is given a stream that is not
    ended; the last status of the decoder is NEEDS_MORE_INPUT, not SUCCESS,
    and the call succeeds, returning the byte decoded so far. *)
Lemma process_succeeds_before_the_stream_ends :
  brotli_Decompressor_process Toy.decoder 1
    (@mkDecompressor Toy.decoder (Some (Toy.mkDec [] false false false)))
    (PyBytes [Byte.x01; Byte.x2a]) idle_py
  = Returns
      (mkCall (Some [Byte.x2a])
         (@mkDecompressor Toy.decoder
            (Some (Toy.mkDec [] false false false)))
         (mkPy [] 1 Byte.x00 None)
         [EvInitAndGrow 0;
          EvDecoderDecompressStream BROTLI_DECODER_RESULT_NEEDS_MORE_INPUT
            0 32767;
          EvFinish 32767 true]) /\
  BROTLI_DECODER_RESULT_NEEDS_MORE_INPUT <> BROTLI_DECODER_RESULT_SUCCESS.
Proof. split; [vm_compute; reflexivity | discriminate]. Qed.

Lemma decompression_success_condition_witness :
  (exists c : call_result (brotli_Decompressor Toy.decoder) block,
     brotli_Decompressor_process Toy.decoder 1
       (@mkDecompressor Toy.decoder (Some (Toy.mkDec [] false false false)))
       (PyBytes [Byte.x01; Byte.x2a]) idle_py = Returns c /\
     self_after c
     = @mkDecompressor Toy.decoder (Some (Toy.mkDec [] false false false)) /\
     ret c = Some [Byte.x2a] /\ err (interp c) = None) /\
  (exists c : call_result unit block,
     brotli_decompress Toy.decoder 1 (PyBytes [Byte.x01; Byte.x2a]) idle_py
     = Returns c /\
     ret c = None /\
     err (interp c) = Some (BrotliError "BrotliDecompress failed")) /\
  (exists x : run_end Toy.decoder_state BrotliDecoderResult,
     StreamDriver_decompress Toy.decoder 1 (Toy.mkDec [] false false false)
       [Byte.x01; Byte.x2a; Byte.x00] 32768 1 = Some x /\
     BrotliDecoderResult_eqb (re_status x) BROTLI_DECODER_RESULT_SUCCESS
     && (Py_SIZE (re_next_in x) =? 0) = true /\
     [Byte.x2a] = re_stream x) /\
  err (PyErr_Set (BrotliError "BrotliDecoderDecompressStream failed while processing the stream")
         (mkPy [] 0 Byte.x00 (Some PyExc_MemoryError))) <> None.
Proof.
  destruct (decompression_success_condition Toy.decoder 1
              [Byte.x01; Byte.x2a] idle_py)
    as [Hprocess Hdecompress].
  destruct (Hprocess
              (@mkDecompressor Toy.decoder
                 (Some (Toy.mkDec [] false false false)))
              (Toy.mkDec [] false false false) eq_refl)
    as [_ Hprocess'].
  destruct (Hdecompress (Toy.mkDec [] false false false) eq_refl)
    as [_ Hdecompress'].
  split; [|split; [|split]].
  - apply (Hprocess' unfinished_run 32773).
    + reflexivity.
    + split; [reflexivity | vm_compute; discriminate].
    + vm_compute. discriminate.
  - apply (Hdecompress' unfinished_run 32773).
    + reflexivity.
    + split; [reflexivity | vm_compute; discriminate].
    + vm_compute. discriminate.
  - destruct (decompression_success_condition Toy.decoder 1
                [Byte.x01; Byte.x2a; Byte.x00] idle_py) as [_ Hwhole].
    destruct (Hwhole (Toy.mkDec [] false false false) eq_refl)
      as [Hsound _].
    exact (Hsound
             (mkCall (Some [Byte.x2a]) tt (mkPy [] 1 Byte.x00 None)
                [EvInitAndGrow 0; EvDecoderCreateInstance true;
                 EvDecoderDecompressStream BROTLI_DECODER_RESULT_SUCCESS 0
                   32767;
                 EvDecoderDestroyInstance; EvFinish 32767 true])
             ltac:(vm_compute; reflexivity)).
  - destruct (decompression_success_condition Toy.decoder 1
                [Byte.x01; Byte.x2a] (mkPy [false] 0 Byte.x00 None))
      as [Hrefused _].
    destruct (Hrefused
                (@mkDecompressor Toy.decoder
                   (Some (Toy.mkDec [] false false false)))
                (Toy.mkDec [] false false false) eq_refl)
      as [Hsound _].
    exact (Hsound
             (mkCall None
                (@mkDecompressor Toy.decoder
                   (Some (Toy.mkDec [] false false false)))
                (PyErr_Set (BrotliError "BrotliDecoderDecompressStream failed while processing the stream")
                   (mkPy [] 0 Byte.x00 (Some PyExc_MemoryError)))
                [EvInitAndGrow (-1)])
             ltac:(vm_compute; reflexivity)).
Defined.

(** ** Allocation failures in the buffer *)

(** When the block of a growth or the final bytes object cannot be
    allocated, the function reports the failure (-1, respectively [NULL]),
    the error indicator is set, the list pointer is [NULL] and the bytes of
    all blocks are given back. *)
Lemma buffer_releases_blocks_on_failure
    (buffer : BlocksOutputBuffer) (w : window) (py : PyInterp)
    (data : list byte) :
  buffer_inv buffer w py data ->
  exists l : list block,
    list_ buffer = Some l /\
    (avail_out w = 0 ->
     forall (rc : Z) (buffer' : BlocksOutputBuffer) (w' : window)
            (py' : PyInterp),
       BlocksOutputBuffer_Grow buffer w py = Returns (rc, buffer', w', py') ->
       rc <> 0 ->
       rc = -1 /\ list_ buffer' = None /\ err py' <> None /\
       Z.of_N (live_bytes py') = Z.of_N (live_bytes py) - total_size l) /\
    (forall (out : option block) (buffer' : BlocksOutputBuffer)
            (py' : PyInterp),
       BlocksOutputBuffer_Finish buffer (avail_out w) py
       = Returns (out, buffer', py') ->
       list_ buffer' = None /\
       (out = None ->
        err py' = Some PyExc_MemoryError /\
        Z.of_N (live_bytes py') = Z.of_N (live_bytes py) - total_size l)).
Proof.
  intros Hinv.
  destruct (Finish_inv _ _ _ _ Hinv) as (l & Hl & Hlive & _ & Hfinish).
  exists l. split; [assumption|]. split.
  - intros Hzero rc buffer' w' py' Hgrow Hrc.
    destruct (Grow_cases _ _ _ _ Hinv Hzero) as (l' & Hl' & [Hok | Hfail]).
    + destruct Hok as (nb & py1 & _ & _ & _ & _ & Heq & _).
      rewrite Heq in Hgrow. inversion Hgrow; subst. contradiction.
    + destruct Hfail as (py1 & Hlive1 & Herr & Heq).
      rewrite Heq in Hgrow. inversion Hgrow; subst.
      rewrite Hl in Hl'. inversion Hl'; subst l'.
      repeat split; try assumption. rewrite Herr. discriminate.
  - intros out buffer' py' Hret. rewrite Hfinish in Hret.
    destruct (PyBytes_FromStringAndSize (Py_SIZE data) py)
      as [[res|] py1] eqn:Halloc; inversion Hret; subst; clear Hret.
    + split; [reflexivity | discriminate].
    + split; [reflexivity|]. intros _. split; [reflexivity|].
      apply PyBytes_failed in Halloc. destruct Halloc as (Hlive1 & _).
      pose proof (total_size_nonneg l).
      unfold PyErr_Set, free_list. cbn [live_bytes]. rewrite Hlive1. lia.
Qed.

(** ** A refused growth in [brotli.decompress] *)

(** C9: [brotli.decompress] is given a stream that fills the first block
    exactly, and the block of the growth that follows cannot be allocated.
    The growth is called between [Py_BEGIN_ALLOW_THREADS] and
    [Py_END_ALLOW_THREADS], so the refusal is not reported: the call does
    not return.  Were the failure reported, the loop would only be left,
    with the status SUCCESS of the last step, and
    [BlocksOutputBuffer_Finish] would be run on the released buffer, where
    it reads the size of the [NULL] list
    ([Finish_after_a_reported_failure]). *)
Theorem brotli_decompress_after_failed_growth :
  brotli_decompress Toy.decoder 1 (PyBytes full_block_stream)
    third_request_fails
  = Undefined.
Proof. vm_compute. reflexivity. Qed.

(** What [brotli_decompress] goes on with after a growth that reports its
    failure: the list is [NULL], the status of the last step stands, and
    [BlocksOutputBuffer_Finish], once its bytes object is allocated, reads
    the size of the list. *)
Lemma Finish_after_a_reported_failure (buffer : BlocksOutputBuffer)
    (w : window) (py pyf : PyInterp) (data : list byte) (a : Z)
    (rc : Z) (buffer' : BlocksOutputBuffer) (w' : window) (py' : PyInterp)
    (res : block) :
  buffer_inv buffer w py data -> avail_out w = 0 ->
  BlocksOutputBuffer_Grow buffer w py = Returns (rc, buffer', w', py') ->
  rc <> 0 ->
  PyBytes_FromStringAndSize
    (to_Py_ssize_t (to_size_t (allocated buffer' - a))) py' = (Some res, pyf) ->
  BlocksOutputBuffer_Finish buffer' a py' = Undefined.
Proof.
  intros Hinv Hzero Hgrow Hrc Hres.
  destruct (buffer_releases_blocks_on_failure _ _ _ _ Hinv)
    as (l & _ & Hfail & _).
  destruct (Hfail Hzero rc buffer' w' py' Hgrow Hrc) as (_ & Hnull & _).
  unfold BlocksOutputBuffer_Finish. rewrite Hres, Hnull. reflexivity.
Qed.

(** On the same input [Decompressor.process] does not return either. *)
Lemma process_after_refused_growth :
  brotli_Decompressor_process Toy.decoder 1
    (@mkDecompressor Toy.decoder (Some (Toy.mkDec [] false false false)))
    (PyBytes full_block_stream) third_request_fails
  = Undefined.
Proof. vm_compute. reflexivity. Qed.

(** ** Objects without an engine *)

(** C10: when the engine could not be created by [tp_new], the handle of the
    object is [NULL], and every method ([process], [flush], [finish] of a
    compressor; [process], [is_finished] of a decompressor) returns [NULL]
    with an error set, without any call to the engine. *)
Theorem methods_fail_without_engine
    (E : Encoder) (D : Decoder) (fuel : nat) (py0 py1 py2 : PyInterp)
    (c : brotli_Compressor E) (d : brotli_Decompressor D)
    (evc evd : list event) :
  BrotliEncoderCreateInstance E = None ->
  BrotliDecoderCreateInstance D = None ->
  brotli_Compressor_new E py0 = (Some c, py1, evc) ->
  brotli_Decompressor_new D py1 = (Some d, py2, evd) ->
  enc c = None /\ dec d = None /\
  forall (py : PyInterp) (arg : PyObject),
    (exists e : exception,
       brotli_Compressor_process E fuel c arg py
       = Returns (mkCall None c (PyErr_Set e py) [])) /\
    brotli_Compressor_flush E fuel c py
    = Returns (mkCall None c
                 (PyErr_Set
                    (BrotliError "BrotliEncoderCompressStream failed while flushing the stream")
                    py) []) /\
    brotli_Compressor_finish E fuel c py
    = Returns (mkCall None c
                 (PyErr_Set
                    (BrotliError "BrotliEncoderCompressStream failed while finishing the stream")
                    py) []) /\
    (exists e : exception,
       brotli_Decompressor_process D fuel d arg py
       = Returns (mkCall None d (PyErr_Set e py) [])) /\
    brotli_Decompressor_is_finished D d py
    = mkCall None d
        (PyErr_Set
           (BrotliError "BrotliDecoderState is NULL while checking is_finished")
           py) [].
Proof.
  intros HE HD Hc Hd.
  unfold brotli_Compressor_new in Hc. unfold brotli_Decompressor_new in Hd.
  destruct (request 0 py0) as [[|] py0']; inversion Hc; subst; clear Hc.
  destruct (request 0 py1) as [[|] py1']; inversion Hd; subst; clear Hd.
  rewrite HE, HD. cbn [enc dec].
  split; [reflexivity|]. split; [reflexivity|].
  intros py arg.
  unfold brotli_Compressor_process, brotli_Compressor_flush,
    brotli_Compressor_finish, brotli_Decompressor_process,
    brotli_Decompressor_is_finished, failed.
  cbn [enc dec].
  repeat split; destruct arg; eexists; reflexivity.
Qed.

Lemma methods_fail_without_engine_witness :
  brotli_Compressor_flush no_encoder 1 (@mkCompressor no_encoder None) idle_py
  = Returns (mkCall None (@mkCompressor no_encoder None)
               (PyErr_Set
                  (BrotliError "BrotliEncoderCompressStream failed while flushing the stream")
                  idle_py) []) /\
  brotli_Decompressor_is_finished no_decoder (@mkDecompressor no_decoder None)
    idle_py
  = mkCall None (@mkDecompressor no_decoder None)
      (PyErr_Set
         (BrotliError "BrotliDecoderState is NULL while checking is_finished")
         idle_py) [].
Proof.
  destruct (methods_fail_without_engine no_encoder no_decoder 1
              idle_py idle_py idle_py
              (@mkCompressor no_encoder None)
              (@mkDecompressor no_decoder None)
              [EvEncoderCreateInstance false] [EvDecoderCreateInstance false]
              eq_refl eq_refl eq_refl eq_refl)
    as (_ & _ & H).
  destruct (H idle_py PyOther) as (_ & Hflush & _ & _ & Hfin).
  split; assumption.
Defined.

(** ** Calls on a compressor after [finish] *)

Lemma compress_stream_refused (E : Encoder) (fuel : nat)
    (e : BrotliEncoderState E) (op : BrotliEncoderOperation)
    (input : list byte) (py : PyInterp) :
  (forall ao : Z,
     status (BrotliEncoderCompressStream E e op input ao) = false) ->
  exists r : stream_result (BrotliEncoderState E),
    compress_stream E (S fuel) e op input py = Returns r /\
    ok r = false /\ output r = None.
Proof.
  intros Hrefused. unfold compress_stream.
  destruct (BlocksOutputBuffer_InitAndGrow fresh_buffer fresh_window py)
    as [[[rc buffer] w] py1].
  destruct (rc <? 0).
  - eexists. split; [reflexivity | split; reflexivity].
  - cbn [compress_loop].
    destruct (store buffer w
                (written (BrotliEncoderCompressStream E e op input
                            (avail_out w)))) as [buffer1 w1].
    rewrite Hrefused. cbn [negb le_status le_buffer le_py].
    destruct (BlocksOutputBuffer_CleanUp buffer1 py1) as [buffer2 py2].
    eexists. split; [reflexivity | split; reflexivity].
Qed.

Lemma finish_leaves_encoder_finished (E : Encoder) (fuel : nat)
    (self : brotli_Compressor E) (py : PyInterp)
    (c : call_result (brotli_Compressor E) block) (out : block) :
  brotli_Compressor_finish E fuel self py = Returns c ->
  ret c = Some out ->
  exists e : BrotliEncoderState E,
    enc (self_after c) = Some e /\ BrotliEncoderIsFinished E e = true.
Proof.
  unfold brotli_Compressor_finish, failed. intros Hfinish Hret.
  destruct (enc self) as [e0|].
  2:{ inversion Hfinish; subst. discriminate. }
  destruct (compress_stream E fuel e0 BROTLI_OPERATION_FINISH [] py)
    as [r| |]; try discriminate.
  destruct (ok r).
  2:{ inversion Hfinish; subst. discriminate. }
  destruct (BrotliEncoderIsFinished E (engine r)) eqn:Hfin.
  2:{ inversion Hfinish; subst. discriminate. }
  inversion Hfinish; subst. exists (engine r). split; [reflexivity|assumption].
Qed.

(** C4 (amended): the wrapper keeps no record of [finish]; a later [process]
    or [flush] is passed to the encoder.  When the encoder refuses the steps
    it is asked once it is finished, the call raises [brotli.error] and
    returns nothing. *)
Theorem calls_after_finish_fail_when_encoder_refuses
    (E : Encoder) (refused : list byte -> Prop) (fuel : nat)
    (self : brotli_Compressor E) (py : PyInterp)
    (c : call_result (brotli_Compressor E) block) (out : block) :
  (forall (e : BrotliEncoderState E) (op : BrotliEncoderOperation)
          (input : list byte) (ao : Z),
     BrotliEncoderIsFinished E e = true -> refused input ->
     status (BrotliEncoderCompressStream E e op input ao) = false) ->
  brotli_Compressor_finish E fuel self py = Returns c ->
  ret c = Some out ->
  forall (fuel' : nat) (py' : PyInterp),
    (forall input : list byte,
       refused input ->
       exists c' : call_result (brotli_Compressor E) block,
         brotli_Compressor_process E (S fuel') (self_after c) (PyBytes input)
           py' = Returns c' /\
         ret c' = None /\
         err (interp c')
         = Some (BrotliError
                   "BrotliEncoderCompressStream failed while processing the stream")) /\
    (refused [] ->
     exists c' : call_result (brotli_Compressor E) block,
       brotli_Compressor_flush E (S fuel') (self_after c) py' = Returns c' /\
       ret c' = None /\
       err (interp c')
       = Some (BrotliError
                 "BrotliEncoderCompressStream failed while flushing the stream")).
Proof.
  intros Hrefuse Hfinish Hret fuel' py'.
  destruct (finish_leaves_encoder_finished E fuel self py c out Hfinish Hret)
    as (e & Henc & Hfin).
  split.
  - intros input Hin.
    destruct (compress_stream_refused E fuel' e BROTLI_OPERATION_PROCESS
                input py') as (r & Hrun & Hfail & _).
    { intros ao. apply Hrefuse; assumption. }
    unfold brotli_Compressor_process. rewrite Henc, Hrun, Hfail.
    eexists. split; [reflexivity | split; reflexivity].
  - intros Hnil.
    destruct (compress_stream_refused E fuel' e BROTLI_OPERATION_FLUSH
                [] py') as (r & Hrun & Hfail & _).
    { intros ao. apply Hrefuse; assumption. }
    unfold brotli_Compressor_flush. rewrite Henc, Hrun, Hfail.
    eexists. split; [reflexivity | split; reflexivity].
Qed.

Lemma finish_of_fresh_compressor :
  brotli_Compressor_finish Toy.encoder 1
    (@mkCompressor Toy.encoder (Some (Toy.mkEnc [] false))) idle_py
  = Returns
      (mkCall (Some [Byte.x00])
         (@mkCompressor Toy.encoder (Some (Toy.mkEnc [] true)))
         (mkPy [] 1 Byte.x00 None)
         [EvInitAndGrow 0;
          EvEncoderCompressStream BROTLI_OPERATION_FINISH true 0 32767;
          EvEncoderHasMoreOutput false; EvFinish 32767 true;
          EvEncoderIsFinished true]).
Proof. vm_compute. reflexivity. Qed.

(** C4 as stated fails: [finish] completes on a fresh compressor, and the
    [flush] and the empty [process] that follow succeed, each returning the
    empty string. *)
Lemma flush_after_finish_succeeds :
  brotli_Compressor_finish Toy.encoder 1
    (@mkCompressor Toy.encoder (Some (Toy.mkEnc [] false))) idle_py
  = Returns
      (mkCall (Some [Byte.x00])
         (@mkCompressor Toy.encoder (Some (Toy.mkEnc [] true)))
         (mkPy [] 1 Byte.x00 None)
         [EvInitAndGrow 0;
          EvEncoderCompressStream BROTLI_OPERATION_FINISH true 0 32767;
          EvEncoderHasMoreOutput false; EvFinish 32767 true;
          EvEncoderIsFinished true]) /\
  brotli_Compressor_flush Toy.encoder 1
    (@mkCompressor Toy.encoder (Some (Toy.mkEnc [] true)))
    (mkPy [] 1 Byte.x00 None)
  = Returns
      (mkCall (Some [])
         (@mkCompressor Toy.encoder (Some (Toy.mkEnc [] true)))
         (mkPy [] 1 Byte.x00 None)
         [EvInitAndGrow 0;
          EvEncoderCompressStream BROTLI_OPERATION_FLUSH true 0 32768;
          EvEncoderHasMoreOutput false; EvFinish 32768 true]) /\
  brotli_Compressor_process Toy.encoder 1
    (@mkCompressor Toy.encoder (Some (Toy.mkEnc [] true))) (PyBytes [])
    (mkPy [] 1 Byte.x00 None)
  = Returns
      (mkCall (Some [])
         (@mkCompressor Toy.encoder (Some (Toy.mkEnc [] true)))
         (mkPy [] 1 Byte.x00 None)
         [EvInitAndGrow 0;
          EvEncoderCompressStream BROTLI_OPERATION_PROCESS true 0 32768;
          EvEncoderHasMoreOutput false; EvFinish 32768 true]).
Proof. repeat split; vm_compute; reflexivity. Qed.

Lemma toy_encoder_refuses_input_when_finished
    (e : Toy.encoder_state) (op : BrotliEncoderOperation)
    (input : list byte) (ao : Z) :
  BrotliEncoderIsFinished Toy.encoder e = true -> input <> [] ->
  status (BrotliEncoderCompressStream Toy.encoder e op input ao) = false.
Proof.
  cbn. unfold Toy.encoder_step. intros Hfin Hin.
  apply andb_prop in Hfin. destruct Hfin as [Hclosed _]. rewrite Hclosed.
  destruct input; [contradiction|]. reflexivity.
Qed.

Lemma calls_after_finish_fail_when_encoder_refuses_witness :
  exists c' : call_result (brotli_Compressor Toy.encoder) block,
    brotli_Compressor_process Toy.encoder 1
      (@mkCompressor Toy.encoder (Some (Toy.mkEnc [] true)))
      (PyBytes [Byte.x2a]) idle_py = Returns c' /\
    ret c' = None /\
    err (interp c')
    = Some (BrotliError
              "BrotliEncoderCompressStream failed while processing the stream").
Proof.
  destruct (calls_after_finish_fail_when_encoder_refuses Toy.encoder
              (fun input => input <> []) 1
              (@mkCompressor Toy.encoder (Some (Toy.mkEnc [] false))) idle_py
              _ [Byte.x00]
              toy_encoder_refuses_input_when_finished
              finish_of_fresh_compressor eq_refl 0%nat idle_py)
    as [Hprocess _].
  apply (Hprocess [Byte.x2a]). discriminate.
Defined.

(** ** The arguments of [Compressor] *)

Lemma as_bounded_int_cases (o : PyObject) (result lo hi : Z) (py : PyInterp) :
  0 <= lo ->
  hi <= LONG_MAX ->
  (exists v : Z,
     o = PyLong v /\ lo <= v <= hi /\
     as_bounded_int o result lo hi py = (1, v, py)) \/
  (exists py' : PyInterp,
     as_bounded_int o result lo hi py = (0, result, py') /\
     live_bytes py' = live_bytes py /\
     forall v : Z, o = PyLong v -> ~ lo <= v <= hi).
Proof.
  intros Hlo Hhi. unfold as_bounded_int, PyInt_AsLong.
  destruct o as [v| |].
  - destruct ((LONG_MIN <=? v) && (v <=? LONG_MAX)) eqn:Hfit.
    + destruct ((v <? lo) || (v >? hi)) eqn:Hout.
      * right. eexists. split; [reflexivity|]. split; [reflexivity|].
        intros v' Hv. inversion Hv; subst v'.
        apply orb_prop in Hout. destruct Hout as [H|H]; lia.
      * left. exists v. apply orb_false_elim in Hout.
        destruct Hout as [H1 H2]. repeat split; try lia.
    + right.
      replace ((-1 <? lo) || (-1 >? hi)) with true
        by (symmetry; apply orb_true_intro; left; apply Z.ltb_lt; lia).
      eexists. split; [reflexivity|]. split; [reflexivity|].
      intros v' Hv. inversion Hv; subst v'.
      apply andb_false_elim in Hfit.
      unfold LONG_MIN, LONG_MAX, SIZE_WIDTH in *. change (64 - 1) with 63 in *.
      destruct Hfit as [H|H]; lia.
  - right.
    replace ((-1 <? lo) || (-1 >? hi)) with true
      by (symmetry; apply orb_true_intro; left; apply Z.ltb_lt; lia).
    eexists. split; [reflexivity|]. split; [reflexivity|]. discriminate.
  - right.
    replace ((-1 <? lo) || (-1 >? hi)) with true
      by (symmetry; apply orb_true_intro; left; apply Z.ltb_lt; lia).
    eexists. split; [reflexivity|]. split; [reflexivity|]. discriminate.
Qed.

Ltac invalid_argument :=
  right; do 3 eexists;
  (split; [reflexivity|]); (split; [reflexivity|]);
  (split; [cbn; tauto | assumption || reflexivity]).

Lemma quality_convertor_sound : convertor_sound quality_convertor quality_in_range.
Proof.
  intros a var py. destruct a as [o|]; cbn [convert acceptable].
  2:{ split; [left; eexists; reflexivity | discriminate]. }
  unfold quality_convertor.
  destruct (as_bounded_int_cases o var 0 11 py) as
    [(v & -> & Hv & Heq) | (py' & Heq & Hlive & Hout)];
    try lia; try (unfold LONG_MAX, SIZE_WIDTH; lia).
  - cbn [PyInt_Check negb]. rewrite Heq. cbn [Z.eqb].
    split; [left; eexists; reflexivity|].
    unfold quality_in_range. intros H. apply andb_false_elim in H.
    destruct H as [H|H]; lia.
  - destruct o as [v| |]; cbn [PyInt_Check negb].
    + rewrite Heq. cbn [Z.eqb].
      split; [invalid_argument | intros _; do 2 eexists; reflexivity].
    + split; [invalid_argument | intros _; do 2 eexists; reflexivity].
    + split; [invalid_argument | intros _; do 2 eexists; reflexivity].
Qed.

Lemma lgwin_convertor_sound : convertor_sound lgwin_convertor lgwin_in_range.
Proof.
  intros a var py. destruct a as [o|]; cbn [convert acceptable].
  2:{ split; [left; eexists; reflexivity | discriminate]. }
  unfold lgwin_convertor.
  destruct (as_bounded_int_cases o var 10 24 py) as
    [(v & -> & Hv & Heq) | (py' & Heq & Hlive & Hout)];
    try lia; try (unfold LONG_MAX, SIZE_WIDTH; lia).
  - cbn [PyInt_Check negb]. rewrite Heq. cbn [Z.eqb].
    split; [left; eexists; reflexivity|].
    unfold lgwin_in_range. intros H. apply andb_false_elim in H.
    destruct H as [H|H]; lia.
  - destruct o as [v| |]; cbn [PyInt_Check negb].
    + rewrite Heq. cbn [Z.eqb].
      split; [invalid_argument | intros _; do 2 eexists; reflexivity].
    + split; [invalid_argument | intros _; do 2 eexists; reflexivity].
    + split; [invalid_argument | intros _; do 2 eexists; reflexivity].
Qed.

Lemma lgblock_convertor_sound :
  convertor_sound lgblock_convertor lgblock_in_range.
Proof.
  intros a var py. destruct a as [o|]; cbn [convert acceptable].
  2:{ split; [left; eexists; reflexivity | discriminate]. }
  unfold lgblock_convertor.
  destruct (as_bounded_int_cases o var 0 24 py) as
    [(v & -> & Hv & Heq) | (py' & Heq & Hlive & Hout)];
    try lia; try (unfold LONG_MAX, SIZE_WIDTH; lia).
  - cbn [PyInt_Check negb]. rewrite Heq. cbn [Z.eqb orb].
    destruct (negb (v =? 0) && (v <? 16)) eqn:Hgap.
    + split; [invalid_argument | intros _; do 2 eexists; reflexivity].
    + split; [left; eexists; reflexivity|].
      unfold lgblock_in_range. intros H.
      apply orb_false_elim in H. destruct H as [H0 H].
      rewrite H0 in Hgap. cbn [negb andb] in Hgap.
      apply andb_false_elim in H. destruct H as [H|H]; lia.
  - destruct o as [v| |]; cbn [PyInt_Check negb].
    + rewrite Heq. cbn [Z.eqb orb].
      split; [invalid_argument | intros _; do 2 eexists; reflexivity].
    + split; [invalid_argument | intros _; do 2 eexists; reflexivity].
    + split; [invalid_argument | intros _; do 2 eexists; reflexivity].
Qed.

Lemma mode_convertor_sound (E : Encoder) :
  convertor_sound (mode_convertor E) (mode_in_range E).
Proof.
  intros a var py. destruct a as [o|]; cbn [convert acceptable].
  2:{ split; [left; eexists; reflexivity | discriminate]. }
  unfold mode_convertor.
  destruct (as_bounded_int_cases o (-1) 0 255 py) as
    [(v & -> & Hv & Heq) | (py' & Heq & Hlive & Hout)];
    try lia; try (unfold LONG_MAX, SIZE_WIDTH; lia).
  - cbn [PyInt_Check negb]. rewrite Heq. cbn [Z.eqb].
    destruct (negb (v =? BROTLI_MODE_GENERIC E)
              && negb (v =? BROTLI_MODE_TEXT E)
              && negb (v =? BROTLI_MODE_FONT E)) eqn:Hnone.
    + split; [invalid_argument | intros _; do 2 eexists; reflexivity].
    + split; [left; eexists; reflexivity|].
      unfold mode_in_range. intros H.
      apply orb_false_elim in H. destruct H as [H HF].
      apply orb_false_elim in H. destruct H as [HG HT].
      rewrite HG, HT, HF in Hnone. discriminate.
  - destruct o as [v| |]; cbn [PyInt_Check negb].
    + rewrite Heq. cbn [Z.eqb].
      split; [invalid_argument | intros _; do 2 eexists; reflexivity].
    + split; [invalid_argument | intros _; do 2 eexists; reflexivity].
    + split; [invalid_argument | intros _; do 2 eexists; reflexivity].
Qed.

Lemma init_rejects (E : Encoder) (self : brotli_Compressor E)
    (args : Compressor_args) (py : PyInterp) :
  args_in_range E args = false ->
  exists (py' : PyInterp) (msg : string),
    brotli_Compressor_init E self args py = (-1, self, py', []) /\
    err py' = Some (BrotliError msg) /\
    In msg invalid_argument_messages /\
    live_bytes py' = live_bytes py.
Proof.
  intros Hrange. unfold brotli_Compressor_init.
  destruct (mode_convertor_sound E (arg_mode args) (-1) py)
    as [[(v1 & Heq1) | (v1 & py1 & msg & Heq1 & Herr & Hmsg & Hlive)] Hc1].
  2:{ rewrite Heq1. cbn. exists py1, msg. repeat split; assumption. }
  rewrite Heq1. cbn [Z.eqb].
  destruct (quality_convertor_sound (arg_quality args) (-1) py)
    as [[(v2 & Heq2) | (v2 & py2 & msg & Heq2 & Herr & Hmsg & Hlive)] Hc2].
  2:{ rewrite Heq2. cbn. exists py2, msg. repeat split; assumption. }
  rewrite Heq2. cbn [Z.eqb].
  destruct (lgwin_convertor_sound (arg_lgwin args) (-1) py)
    as [[(v3 & Heq3) | (v3 & py3 & msg & Heq3 & Herr & Hmsg & Hlive)] Hc3].
  2:{ rewrite Heq3. cbn. exists py3, msg. repeat split; assumption. }
  rewrite Heq3. cbn [Z.eqb].
  destruct (lgblock_convertor_sound (arg_lgblock args) (-1) py)
    as [[(v4 & Heq4) | (v4 & py4 & msg & Heq4 & Herr & Hmsg & Hlive)] Hc4].
  2:{ rewrite Heq4. cbn. exists py4, msg. repeat split; assumption. }
  exfalso. unfold args_in_range in Hrange.
  apply andb_false_elim in Hrange. destruct Hrange as [Hrange | H4].
  2:{ destruct (Hc4 H4) as (v & py' & H). congruence. }
  apply andb_false_elim in Hrange. destruct Hrange as [Hrange | H3].
  2:{ destruct (Hc3 H3) as (v & py' & H). congruence. }
  apply andb_false_elim in Hrange. destruct Hrange as [H1 | H2].
  - destruct (Hc1 H1) as (v & py' & H). congruence.
  - destruct (Hc2 H2) as (v & py' & H). congruence.
Qed.

(** C5 (amended): constructing a compressor with a mode other than GENERIC,
    TEXT and FONT, a quality outside 0..11, an lgwin outside 10..24, an
    lgblock that is neither 0 nor in 16..24, or a value that is no [int],
    fails with an invalid-argument error.  The encoder instance was created
    before, by [tp_new]; no parameter is set on it, and it is destroyed when
    the construction fails. *)
Theorem invalid_arguments_are_rejected
    (E : Encoder) (args : Compressor_args) (py py1 : PyInterp) :
  args_in_range E args = false ->
  request 0 py = (true, py1) ->
  exists (py' : PyInterp) (msg : string),
    Compressor E args py
    = (None, py',
       [EvEncoderCreateInstance (is_some (BrotliEncoderCreateInstance E));
        EvEncoderDestroyInstance]) /\
    err py' = Some (BrotliError msg) /\
    In msg invalid_argument_messages.
Proof.
  intros Hrange Halloc. unfold Compressor, brotli_Compressor_new.
  rewrite Halloc.
  destruct (init_rejects E (mkCompressor (BrotliEncoderCreateInstance E))
              args py1 Hrange) as (py' & msg & Heq & Herr & Hmsg & _).
  rewrite Heq. cbn [Z.ltb Z.compare]. rewrite Herr.
  exists py', msg. repeat split; assumption.
Qed.

Lemma invalid_arguments_are_rejected_witness :
  exists (py' : PyInterp) (msg : string),
    Compressor Toy.encoder (mkArgs None None (Some (PyLong 9)) None) idle_py
    = (None, py',
       [EvEncoderCreateInstance
          (is_some (BrotliEncoderCreateInstance Toy.encoder));
        EvEncoderDestroyInstance]) /\
    err py' = Some (BrotliError msg) /\
    In msg invalid_argument_messages.
Proof.
  apply (invalid_arguments_are_rejected Toy.encoder
           (mkArgs None None (Some (PyLong 9)) None) idle_py idle_py).
  - reflexivity.
  - reflexivity.
Defined.

(** C5 as stated fails: for a quality of 12, an lgwin of 9 and an lgblock of
    5 the construction fails with an invalid-argument error, and the
    encoder instance has been created before the error. *)
Lemma encoder_is_created_before_the_arguments_are_checked :
  Compressor Toy.encoder (mkArgs None (Some (PyLong 12)) None None) idle_py
  = (None,
     mkPy [] 0 Byte.x00
       (Some (BrotliError "Invalid quality. Range is 0 to 11.")),
     [EvEncoderCreateInstance true; EvEncoderDestroyInstance]) /\
  Compressor Toy.encoder (mkArgs None None (Some (PyLong 9)) None) idle_py
  = (None,
     mkPy [] 0 Byte.x00
       (Some (BrotliError "Invalid lgwin. Range is 10 to 24.")),
     [EvEncoderCreateInstance true; EvEncoderDestroyInstance]) /\
  Compressor Toy.encoder (mkArgs None None None (Some (PyLong 5))) idle_py
  = (None,
     mkPy [] 0 Byte.x00
       (Some (BrotliError "Invalid lgblock. Can be 0 or in range 16 to 24.")),
     [EvEncoderCreateInstance true; EvEncoderDestroyInstance]).
Proof. repeat split. Qed.

(** ** The round trip *)

Lemma skipn_nil_firstn {A : Type} (l : list A) (n : nat) :
  skipn n l = [] -> firstn n l = l.
Proof.
  intros H. rewrite <- (firstn_skipn n l) at 2. rewrite H, app_nil_r.
  reflexivity.
Qed.

Lemma advance_in_nil (inp : list byte) (c : Z) :
  0 <= c <= Py_SIZE inp -> advance_in inp c = [] -> c = Py_SIZE inp.
Proof.
  unfold advance_in, Py_SIZE. intros Hc Hnil.
  assert (Hlen : length (skipn (Z.to_nat c) inp) = 0%nat)
    by (rewrite Hnil; reflexivity).
  rewrite length_skipn in Hlen. lia.
Qed.

Lemma Py_SIZE_zero {A : Type} (l : list A) : Py_SIZE l = 0 -> l = [].
Proof.
  destruct l; [reflexivity|]. unfold Py_SIZE. cbn [length]. lia.
Qed.

Lemma capacity_positive (n : nat) : 0 < capacity n.
Proof.
  rewrite capacity_scheduled. pose proof (scheduled_size_bounds n). lia.
Qed.

Section RoundTrip.

Variables (E : Encoder) (D : Decoder) (K : codec E D).
Hypothesis contract : step_contract E D K.

(** The loop of the spec on an encoder that keeps the contract: it ends,
    having read all its input, and its stream is what the encoder wrote. *)
Lemma StreamDriver_compress_total (n : nat) :
  forall (e : BrotliEncoderState E) (op : BrotliEncoderOperation)
         (inp : list byte) (ao : Z) (chunks : nat) (I O : list byte)
         (f : bool),
    Enc_inv K e I O f ->
    (f = true -> op = BROTLI_OPERATION_FINISH /\ inp = []) ->
    0 < ao ->
    (enc_measure K e inp <= n)%nat ->
    exists x : run_end (BrotliEncoderState E) bool,
      (forall fuel : nat,
         (n < fuel)%nat ->
         StreamDriver_compress E fuel e op inp ao chunks = Some x) /\
      re_status x = true /\
      Enc_inv K (re_state x) (I ++ inp) (O ++ re_stream x)
        (f || is_FINISH op) /\
      BrotliEncoderHasMoreOutput E (re_state x) = false.
Proof.
  induction n as [n IH] using lt_wf_ind.
  intros e op inp ao chunks I O f Henc Hallowed Hroom Hmeasure.
  pose proof (enc_step E D K contract e I O f op inp ao Henc Hallowed Hroom)
    as Hstep.
  pose proof (enc_progress E D K contract e I O f op inp ao Henc Hallowed
                Hroom) as Hprog.
  cbv zeta in Hstep, Hprog.
  remember (BrotliEncoderCompressStream E e op inp ao) as s eqn:Hs.
  destruct Hstep as (Hstatus & Hcons & Hwr & Henc1).
  assert (Hall : firstn (Z.to_nat ao) (written s) = written s)
    by (apply firstn_all2; unfold Py_SIZE in *; lia).
  set (inp0 := firstn (Z.to_nat (consumed s)) inp) in *.
  remember (advance_in inp (consumed s)) as inp1 eqn:Hinp1.
  assert (Hsplit : inp = inp0 ++ inp1)
    by (subst inp0 inp1; unfold advance_in; symmetry; apply firstn_skipn).
  set (f1 := f || (is_FINISH op && (consumed s =? Py_SIZE inp))) in *.
  assert (Hf1 : f1 = true -> op = BROTLI_OPERATION_FINISH /\ inp1 = []).
  { unfold f1. intros Hf. apply orb_prop in Hf. destruct Hf as [Hf | Hf].
    - destruct (Hallowed Hf) as [Hop Hnil]. split; [assumption|].
      subst inp1. rewrite Hnil. unfold advance_in. apply skipn_nil.
    - apply andb_prop in Hf. destruct Hf as [Hop Hall'].
      split; [destruct op; try discriminate; reflexivity|].
      apply Z.eqb_eq in Hall'. subst inp1. unfold advance_in.
      apply skipn_all2. unfold Py_SIZE in *. lia. }
  assert (Hflag : f1 || is_FINISH op = f || is_FINISH op)
    by (unfold f1; destruct f, (is_FINISH op),
          (consumed s =? Py_SIZE inp); reflexivity).
  set (left := ao - Py_SIZE (written s)).
  set (grown := if left =? 0 then (capacity chunks, S chunks, [EvGrow 0])
                else (left, chunks, @nil event)).
  assert (Hroom' : 0 < fst (fst grown)).
  { unfold grown. destruct (left =? 0) eqn:Hzero; cbn [fst].
    - apply capacity_positive.
    - apply Z.eqb_neq in Hzero. unfold left in *. lia. }
  assert (Hunfold : forall fuel : nat,
            StreamDriver_compress E (S fuel) e op inp ao chunks
            = let '(room, chunks1, evg) := grown in
              let ev := EvEncoderCompressStream op true (Py_SIZE inp1) left in
              if negb (Py_SIZE inp1 =? 0) then
                after_step (written s) (ev :: evg)
                  (StreamDriver_compress E fuel (next_state s) op inp1 room
                     chunks1)
              else if BrotliEncoderHasMoreOutput E (next_state s) then
                after_step (written s)
                  (ev :: evg ++ [EvEncoderHasMoreOutput true])
                  (StreamDriver_compress E fuel (next_state s) op inp1 room
                     chunks1)
              else
                Some (mkRunEnd true (next_state s) inp1 (written s) room
                        chunks1
                        (ev :: evg ++ [EvEncoderHasMoreOutput false]))).
  { intros fuel. cbn [StreamDriver_compress].
    rewrite <- Hs, Hall, <- Hinp1, Hstatus. cbn [negb]. reflexivity. }
  destruct grown as [[room chunks1] evg] eqn:Hgrown. cbn [fst] in Hroom'.
  assert (Hagain :
    inp1 <> [] \/ BrotliEncoderHasMoreOutput E (next_state s) = true ->
    forall evs : list event,
    exists x : run_end (BrotliEncoderState E) bool,
      (forall fuel : nat,
         (n < S fuel)%nat ->
         after_step (written s) evs
           (StreamDriver_compress E fuel (next_state s) op inp1 room chunks1)
         = Some x) /\
      re_status x = true /\
      Enc_inv K (re_state x) (I ++ inp) (O ++ re_stream x)
        (f || is_FINISH op) /\
      BrotliEncoderHasMoreOutput E (re_state x) = false).
  { intros Hmore evs. specialize (Hprog Hmore).
    destruct (IH (enc_measure K (next_state s) inp1) ltac:(lia)
                (next_state s) op inp1 room chunks1 (I ++ inp0)
                (O ++ written s) f1 Henc1 Hf1 Hroom' (Nat.le_refl _))
      as (x' & Hrun' & Hst' & Henc' & Hmore').
    eexists. split.
    - intros fuel Hfuel. rewrite (Hrun' fuel) by lia. reflexivity.
    - cbn [re_status re_state re_stream].
      split; [assumption|]. split; [|assumption].
      rewrite Hflag, <- !app_assoc, <- Hsplit in Henc'. assumption. }
  destruct (Py_SIZE inp1 =? 0) eqn:Hleft.
  - destruct (BrotliEncoderHasMoreOutput E (next_state s)) eqn:Hmore.
    + destruct (Hagain (or_intror eq_refl)
                  (EvEncoderCompressStream op true (Py_SIZE inp1) left
                   :: evg ++ [EvEncoderHasMoreOutput true]))
        as (x & Hrun & Hprops).
      exists x. split; [|exact Hprops].
      intros fuel Hfuel. destruct fuel as [|fuel]; [lia|].
      rewrite Hunfold. cbv zeta. cbn [negb]. apply Hrun. assumption.
    + eexists. split.
      * intros fuel Hfuel. destruct fuel as [|fuel]; [lia|].
        rewrite Hunfold. cbv zeta. cbn [negb]. reflexivity.
      * cbn [re_status re_state re_stream].
        split; [reflexivity|]. split; [|assumption].
        apply Z.eqb_eq in Hleft. apply Py_SIZE_zero in Hleft.
        assert (Hc : consumed s = Py_SIZE inp)
          by (apply advance_in_nil; [assumption | congruence]).
        assert (Hinp0 : inp0 = inp).
        { unfold inp0. apply firstn_all2. unfold Py_SIZE in Hc. lia. }
        rewrite Hinp0 in Henc1.
        replace (f || is_FINISH op) with f1; [assumption|].
        unfold f1. rewrite Hc, Z.eqb_refl, andb_true_r. reflexivity.
  - assert (Hmore : inp1 <> []).
    { intros Hnil. rewrite Hnil in Hleft. discriminate. }
    destruct (Hagain (or_introl Hmore)
                (EvEncoderCompressStream op true (Py_SIZE inp1) left :: evg))
      as (x & Hrun & Hprops).
    exists x. split; [|exact Hprops].
    intros fuel Hfuel. destruct fuel as [|fuel]; [lia|].
    rewrite Hunfold. cbv zeta. cbn [negb]. apply Hrun. assumption.
Qed.

(** The loop of the spec on a decoder that keeps the contract and is
    offered an encoding of [S]: it ends on SUCCESS with no input left, and
    its stream completes [S]. *)
Lemma StreamDriver_decompress_total (n : nat) :
  forall (d : BrotliDecoderState D) (rest : list byte) (ao : Z)
         (chunks : nat) (em S : list byte),
    Dec_inv K d rest em S ->
    0 < ao ->
    (Z.to_nat (Py_SIZE S - Py_SIZE em) <= n)%nat ->
    exists x : run_end (BrotliDecoderState D) BrotliDecoderResult,
      (forall fuel : nat,
         (n < fuel)%nat ->
         StreamDriver_decompress D fuel d rest ao chunks = Some x) /\
      re_status x = BROTLI_DECODER_RESULT_SUCCESS /\
      re_next_in x = [] /\
      em ++ re_stream x = S.
Proof.
  induction n as [n IH] using lt_wf_ind.
  intros d rest ao chunks em S Hdec Hroom Hmeasure.
  pose proof (dec_step E D K contract d rest em S ao Hdec Hroom) as Hstep.
  cbv zeta in Hstep.
  remember (BrotliDecoderDecompressStream D d rest ao) as s eqn:Hs.
  destruct Hstep as (Hcons & Hwr & Hcases).
  assert (Hall : firstn (Z.to_nat ao) (written s) = written s)
    by (apply firstn_all2; unfold Py_SIZE in *; lia).
  remember (advance_in rest (consumed s)) as rest1 eqn:Hrest1.
  set (left := ao - Py_SIZE (written s)).
  set (grown := if left =? 0 then (capacity chunks, Datatypes.S chunks, [EvGrow 0])
                else (left, chunks, @nil event)).
  assert (Hunfold : forall fuel : nat,
            StreamDriver_decompress D (Datatypes.S fuel) d rest ao chunks
            = let '(room, chunks1, evg) := grown in
              let ev := EvDecoderDecompressStream (status s) (Py_SIZE rest1)
                          left in
              if BrotliDecoderResult_eqb (status s)
                   BROTLI_DECODER_RESULT_NEEDS_MORE_OUTPUT
              then after_step (written s) (ev :: evg)
                     (StreamDriver_decompress D fuel (next_state s) rest1
                        room chunks1)
              else Some (mkRunEnd (status s) (next_state s) rest1
                           (written s) room chunks1 (ev :: evg))).
  { intros fuel. cbn [StreamDriver_decompress].
    rewrite <- Hs, Hall, <- Hrest1. reflexivity. }
  destruct Hcases as [(Hst & Hfull & Hdec1) | (Hst & Hread & Hdone)].
  - assert (Hzero : left = 0) by (unfold left; lia).
    unfold grown in Hunfold. rewrite Hzero in Hunfold. cbn [Z.eqb] in Hunfold.
    pose proof (dec_bound E D K contract _ _ _ _ Hdec1) as Hbound.
    rewrite Py_SIZE_app in Hbound.
    destruct (IH (Z.to_nat (Py_SIZE S - Py_SIZE (em ++ written s)))
                ltac:(rewrite Py_SIZE_app; lia)
                (next_state s) rest1 (capacity chunks) (Datatypes.S chunks)
                (em ++ written s) S Hdec1 (capacity_positive chunks)
                (Nat.le_refl _))
      as (x' & Hrun' & Hst' & Hnil' & Hdone').
    eexists. split.
    + intros fuel Hfuel. destruct fuel as [|fuel]; [lia|].
      rewrite Hunfold, Hst. cbn [BrotliDecoderResult_eqb].
      rewrite (Hrun' fuel) by (rewrite Py_SIZE_app; lia). reflexivity.
    + cbn [re_status re_next_in re_stream].
      split; [assumption|]. split; [assumption|].
      rewrite app_assoc. assumption.
  - destruct grown as [[room chunks1] evg].
    eexists. split.
    + intros fuel Hfuel. destruct fuel as [|fuel]; [lia|].
      rewrite Hunfold, Hst. cbn [BrotliDecoderResult_eqb]. reflexivity.
    + cbn [re_status re_next_in re_stream].
      split; [reflexivity|]. split; [|assumption].
      subst rest1. unfold advance_in. apply skipn_all2.
      unfold Py_SIZE in *. lia.
Qed.

Lemma set_if_given_new (p : BrotliEncoderParameter) (v : Z)
    (st : BrotliEncoderState E * list event) :
  Enc_inv K (fst st) [] [] false ->
  Enc_inv K (fst (set_if_given E p v st)) [] [] false.
Proof.
  intros H. unfold set_if_given. destruct (negb (v =? -1)); [|assumption].
  cbn [fst]. apply (enc_set_parameter E D K contract). assumption.
Qed.

(** A compressor that was constructed holds a new encoder. *)
Lemma Compressor_constructed (config : Compressor_args) (py py1 : PyInterp)
    (self : brotli_Compressor E) (evs : list event) :
  Compressor E config py = (Some self, py1, evs) ->
  exists e : BrotliEncoderState E,
    enc self = Some e /\ Enc_inv K e [] [] false.
Proof.
  unfold Compressor, brotli_Compressor_new. intros H.
  destruct (request 0 py) as [[|] py0]; [|discriminate].
  destruct (enc_create E D K contract) as (e0 & Hcreate & Hnew).
  rewrite Hcreate in H.
  unfold brotli_Compressor_init in H. cbn [enc] in H.
  destruct (convert (mode_convertor E) (arg_mode config) (-1) py0)
    as [[r1 m] p1].
  cbv beta iota zeta in H.
  destruct (r1 =? 0);
    [cbv beta iota zeta in H; cbn [Z.eqb Z.ltb Z.compare] in H;
     discriminate|].
  destruct (convert quality_convertor (arg_quality config) (-1) p1)
    as [[r2 q] p2].
  cbv beta iota zeta in H.
  destruct (r2 =? 0);
    [cbv beta iota zeta in H; cbn [Z.eqb Z.ltb Z.compare] in H;
     discriminate|].
  destruct (convert lgwin_convertor (arg_lgwin config) (-1) p2)
    as [[r3 lw] p3].
  cbv beta iota zeta in H.
  destruct (r3 =? 0);
    [cbv beta iota zeta in H; cbn [Z.eqb Z.ltb Z.compare] in H;
     discriminate|].
  destruct (convert lgblock_convertor (arg_lgblock config) (-1) p3)
    as [[r4 lb] p4].
  cbv beta iota zeta in H.
  destruct (r4 =? 0);
    [cbn [Z.ltb Z.compare] in H; discriminate|].
  destruct (set_if_given E BROTLI_PARAM_LGBLOCK lb
              (set_if_given E BROTLI_PARAM_LGWIN lw
                 (set_if_given E BROTLI_PARAM_QUALITY q
                    (set_if_given E BROTLI_PARAM_MODE m (e0, [])))))
    as [e1 evs1] eqn:Hset.
  cbn [Z.ltb Z.compare] in H. inversion H; subst. clear H.
  exists e1. split; [reflexivity|].
  change e1 with (fst (e1, evs1)). rewrite <- Hset.
  do 4 apply set_if_given_new. assumption.
Qed.

(** The one-shot compression of [S], on an interpreter that grants its
    requests, returns an encoding of [S]. *)
Lemma one_shot_total (config : Compressor_args) (S : list byte)
    (py py1 : PyInterp) (self : brotli_Compressor E) (evs : list event) :
  Compressor E config py = (Some self, py1, evs) ->
  exists (C : list byte) (fuel0 : nat),
    Encodes K S C /\
    forall (fuel : nat) (room : Z),
      (fuel0 <= fuel)%nat ->
      grants py1 room ->
      room_for (Py_SIZE C) <= room ->
      exists c : call_result unit block,
        compress_one_shot E fuel config S py = Returns c /\
        ret c = Some C /\ err (interp c) = err py1.
Proof.
  intros Hnew.
  destruct (Compressor_constructed config py py1 self evs Hnew)
    as (e & Henc & Hinv).
  destruct (StreamDriver_compress_total (enc_measure K e S) e
              BROTLI_OPERATION_FINISH S 32768 1 [] [] false Hinv
              ltac:(discriminate) ltac:(lia) (Nat.le_refl _))
    as (x & Hrun & Hst & Hinv' & Hmore).
  cbn [app orb is_FINISH] in Hinv'.
  destruct (enc_complete E D K contract _ _ _ Hinv' Hmore) as [_ Hencodes].
  exists (re_stream x), (Datatypes.S (enc_measure K e S)).
  split; [assumption|].
  intros fuel room Hfuel Hgr Hroom.
  destruct (compress_stream_exact E fuel e BROTLI_OPERATION_FINISH S py1 x
              room (Hrun fuel ltac:(lia)) Hgr Hroom)
    as (py' & Hstream & _ & Herr).
  unfold compress_one_shot. rewrite Hnew, Henc, Hstream, Hst.
  eexists. split; [reflexivity|]. split; [reflexivity | assumption].
Qed.

(** [brotli.decompress] of an encoding of [S], on an interpreter that
    grants its requests, returns [S]. *)
Lemma decompress_total (S C : list byte) (fuel : nat) (py : PyInterp)
    (room : Z) :
  Encodes K S C ->
  (length S < fuel)%nat ->
  grants py room ->
  room_for (Py_SIZE S) <= room ->
  exists c : call_result unit block,
    brotli_decompress D fuel (PyBytes C) py = Returns c /\
    ret c = Some S /\ err (interp c) = err py.
Proof.
  intros Henc Hfuel Hgr Hroom.
  destruct (dec_create E D K contract S C Henc) as (d0 & Hcreate & Hdec).
  destruct (StreamDriver_decompress_total (length S) d0 C 32768 1 [] S Hdec
              ltac:(lia))
    as (x & Hrun & Hst & Hnil & Hdone).
  { unfold Py_SIZE. cbn [length]. lia. }
  cbn [app] in Hdone.
  destruct (brotli_decompress_exact D fuel d0 C py x room Hcreate
              (Hrun fuel Hfuel) Hgr ltac:(rewrite Hdone; assumption))
    as (py' & Hcall & _ & Herr).
  rewrite Hst, Hnil in Hcall, Herr.
  cbn [BrotliDecoderResult_eqb Py_SIZE length Z.of_nat Z.eqb andb]
    in Hcall, Herr.
  rewrite Hdone in Hcall.
  eexists. split; [exact Hcall|]. split; [reflexivity | assumption].
Qed.

End RoundTrip.

(** C8: decompressing the output of the one-shot compression of [S] gives
    [S], for engines that keep the contract of a codec.  There is a stream
    [C] that encodes [S] such that, with fuel for the loops,
    - the one-shot compression of [S] returns [C] on every interpreter that
      grants its requests and has room for the run;
    - [brotli.decompress] of [C] returns [S] on every such interpreter. *)
Theorem one_shot_round_trip
    (E : Encoder) (D : Decoder) (K : codec E D)
    (config : Compressor_args) (S : list byte) (py py1 : PyInterp)
    (self : brotli_Compressor E) (evs : list event) :
  step_contract E D K ->
  Compressor E config py = (Some self, py1, evs) ->
  exists (C : list byte) (fuel0 : nat),
    Encodes K S C /\
    (forall (fuel : nat) (room : Z),
       (fuel0 <= fuel)%nat ->
       grants py1 room ->
       room_for (Py_SIZE C) <= room ->
       exists c : call_result unit block,
         compress_one_shot E fuel config S py = Returns c /\
         ret c = Some C) /\
    (forall (fuel : nat) (room : Z) (py' : PyInterp),
       (fuel0 <= fuel)%nat ->
       grants py' room ->
       room_for (Py_SIZE S) <= room ->
       exists c' : call_result unit block,
         brotli_decompress D fuel (PyBytes C) py' = Returns c' /\
         ret c' = Some S).
Proof.
  intros contract Hnew.
  destruct (one_shot_total E D K contract config S py py1 self evs Hnew)
    as (C & fuel1 & Hencodes & Hcompress).
  exists C, (Nat.max fuel1 (Datatypes.S (length S))).
  split; [assumption|]. split.
  - intros fuel room Hfuel Hgr Hroom.
    destruct (Hcompress fuel room ltac:(lia) Hgr Hroom) as (c & Hc & Hret & _).
    exists c. split; assumption.
  - intros fuel room py' Hfuel Hgr Hroom.
    destruct (decompress_total E D K contract S C fuel py' room Hencodes
                ltac:(lia) Hgr Hroom) as (c & Hc & Hret & _).
    exists c. split; assumption.
Qed.

(** ** The small codec keeps the contract *)

Lemma escape_app (l1 l2 : list byte) :
  Toy.escape (l1 ++ l2) = Toy.escape l1 ++ Toy.escape l2.
Proof.
  induction l1 as [|b l1 IH]; cbn; [reflexivity|]. rewrite IH. reflexivity.
Qed.

Lemma read_escape (S : list byte) :
  Toy.read false (Toy.escape S ++ [Byte.x00])
  = Toy.mkReading (Py_SIZE (Toy.escape S ++ [Byte.x00])) S false true false.
Proof.
  induction S as [|b S IH].
  - reflexivity.
  - cbn [Toy.escape app Toy.read]. cbn [Byte.eqb].
    change (Byte.eqb Byte.x01 Byte.x01) with true. cbv beta iota.
    rewrite IH. cbn [Toy.r_consumed Toy.r_out Toy.r_half Toy.r_done Toy.r_bad].
    f_equal. unfold Py_SIZE. cbn [length]. lia.
Qed.

Lemma is_nil_true {A : Type} (l : list A) : Toy.is_nil l = true -> l = [].
Proof. destruct l; [reflexivity | discriminate]. Qed.

Lemma is_nil_false {A : Type} (l : list A) : Toy.is_nil l = false -> l <> [].
Proof. destruct l; [discriminate | intros _ H; discriminate]. Qed.

Lemma skipn_not_nil {A : Type} (n : nat) (l : list A) :
  skipn n l <> [] -> (n < length l)%nat.
Proof.
  intros H. destruct (Nat.lt_ge_cases n (length l)) as [Hlt|Hge];
    [assumption|].
  exfalso. apply H. apply skipn_all2. assumption.
Qed.

Lemma toy_encoder_step (e : Toy.encoder_state) (I O : list byte) (f : bool)
    (op : BrotliEncoderOperation) (inp : list byte) (ao : Z) :
  Enc_inv toy_codec e I O f ->
  (f = true -> op = BROTLI_OPERATION_FINISH /\ inp = []) ->
  Toy.encoder_step e op inp ao
  = mkStep true
      (Toy.mkEnc
         (skipn (Z.to_nat ao)
            (Toy.pending e ++ Toy.escape inp
             ++ (if is_FINISH op && negb (Toy.closed e) then [Byte.x00]
                 else [])))
         (Toy.closed e || is_FINISH op))
      (Py_SIZE inp)
      (firstn (Z.to_nat ao)
         (Toy.pending e ++ Toy.escape inp
          ++ (if is_FINISH op && negb (Toy.closed e) then [Byte.x00]
              else []))).
Proof.
  intros [_ Hclosed] Hallowed. unfold Toy.encoder_step.
  replace (Toy.closed e && negb (Toy.is_nil inp)) with false.
  - destruct op; reflexivity.
  - destruct (Toy.closed e); [|reflexivity].
    destruct (Hallowed (eq_sym Hclosed)) as [_ ->]. reflexivity.
Qed.

Lemma toy_codec_contract : step_contract Toy.encoder Toy.decoder toy_codec.
Proof.
  constructor.
  - exists (Toy.mkEnc [] false). repeat split.
  - intros e p v H. exact H.
  - intros e I O f op inp ao Hinv Hallowed Hroom.
    cbn [BrotliEncoderCompressStream Toy.encoder].
    rewrite (toy_encoder_step e I O f op inp ao Hinv Hallowed).
    cbv zeta. cbn [status consumed written next_state].
    destruct Hinv as [Hout Hclosed].
    split; [reflexivity|]. split; [pose proof (Py_SIZE_nonneg inp); lia|].
    split; [unfold Py_SIZE; rewrite length_firstn; lia|].
    rewrite Z.eqb_refl, andb_true_r.
    replace (Z.to_nat (Py_SIZE inp)) with (length inp)
      by (unfold Py_SIZE; lia).
    rewrite firstn_all.
    cbn [Enc_inv toy_codec Toy.pending Toy.closed].
    split; [|rewrite Hclosed; reflexivity].
    rewrite <- app_assoc, firstn_skipn, app_assoc, Hout, escape_app.
    destruct (Toy.closed e) eqn:Hc.
    + destruct (Hallowed (eq_trans (eq_sym Hclosed) eq_refl)) as [-> ->].
      cbn. rewrite !app_nil_r. reflexivity.
    + cbn [orb negb]. rewrite andb_true_r, !app_nil_r, <- app_assoc.
      reflexivity.
  - intros e I O f op inp ao Hinv Hallowed Hroom.
    cbn [BrotliEncoderCompressStream BrotliEncoderHasMoreOutput Toy.encoder].
    rewrite (toy_encoder_step e I O f op inp ao Hinv Hallowed).
    cbv zeta. cbn [status consumed written next_state].
    unfold advance_in.
    replace (Z.to_nat (Py_SIZE inp)) with (length inp)
      by (unfold Py_SIZE; lia).
    rewrite skipn_all. intros [Hnil | Hmore]; [contradiction Hnil; reflexivity|].
    cbn [enc_measure toy_codec Toy.pending Toy.closed length] in *.
    apply negb_true_iff in Hmore. apply is_nil_false in Hmore.
    apply skipn_not_nil in Hmore.
    rewrite length_skipn.
    rewrite !length_app in *.
    assert (Hescape : forall l, length (Toy.escape l) = (2 * length l)%nat)
      by (induction l as [|b l IHl]; cbn [Toy.escape length]; lia).
    rewrite Hescape in *.
    destruct (Toy.closed e), op; cbn [is_FINISH negb andb orb length] in *;
      lia.
  - intros e I O [Hout Hclosed] Hmore.
    cbn [BrotliEncoderHasMoreOutput BrotliEncoderIsFinished Toy.encoder
         Encodes toy_codec] in *.
    apply negb_false_iff in Hmore. rewrite Hmore, Hclosed.
    split; [reflexivity|].
    apply is_nil_true in Hmore. rewrite Hmore, Hclosed, app_nil_r in Hout.
    assumption.
  - intros S C HC. cbn [Encodes toy_codec] in HC.
    exists (Toy.mkDec [] false false false).
    split; [reflexivity|]. left. repeat split. assumption.
  - intros d rest em S ao Hinv Hroom.
    cbn [BrotliDecoderDecompressStream Toy.decoder].
    cbv zeta. unfold Toy.decoder_step.
    destruct Hinv as [(-> & -> & ->) | (Hdone & Hbad & -> & HS)].
    + cbn [Toy.done Toy.bad Toy.half Toy.decoded orb app].
      rewrite read_escape.
      cbn [Toy.r_consumed Toy.r_out Toy.r_half Toy.r_done Toy.r_bad
           status consumed written next_state Toy.bad Toy.done].
      pose proof (Py_SIZE_nonneg (Toy.escape S ++ [Byte.x00])).
      split; [lia|].
      split; [unfold Py_SIZE; rewrite length_firstn; lia|].
      destruct (Toy.is_nil (skipn (Z.to_nat ao) S)) eqn:Hleft; cbn [negb].
      * right. split; [reflexivity|]. split; [reflexivity|].
        apply is_nil_true in Hleft. apply skipn_nil_firstn. assumption.
      * left. split; [reflexivity|].
        apply is_nil_false in Hleft. apply skipn_not_nil in Hleft.
        split; [unfold Py_SIZE; rewrite length_firstn; lia|].
        cbn [Dec_inv toy_codec]. right.
        cbn [Toy.done Toy.bad Toy.decoded]. repeat split.
        -- unfold advance_in. apply skipn_all2. unfold Py_SIZE. lia.
        -- apply firstn_skipn.
    + rewrite Hdone, Hbad.
      cbn [orb Toy.r_consumed Toy.r_out Toy.r_half Toy.r_done Toy.r_bad
           status consumed written next_state Toy.bad Toy.done].
      rewrite app_nil_r.
      split; [unfold Py_SIZE; cbn [length]; lia|].
      split; [unfold Py_SIZE; rewrite length_firstn; lia|].
      destruct (Toy.is_nil (skipn (Z.to_nat ao) (Toy.decoded d))) eqn:Hleft;
        cbn [negb].
      * right. split; [reflexivity|]. split; [reflexivity|].
        apply is_nil_true in Hleft.
        rewrite (skipn_nil_firstn _ _ Hleft). assumption.
      * left. split; [reflexivity|].
        apply is_nil_false in Hleft. apply skipn_not_nil in Hleft.
        split; [unfold Py_SIZE; rewrite length_firstn; lia|].
        cbn [Dec_inv toy_codec]. right.
        cbn [Toy.done Toy.bad Toy.decoded]. repeat split.
        rewrite <- app_assoc, firstn_skipn. assumption.
  - intros d rest em S [(_ & _ & ->) | (_ & _ & _ & HS)].
    + apply Py_SIZE_nonneg.
    + rewrite <- HS, Py_SIZE_app. pose proof (Py_SIZE_nonneg (Toy.decoded d)).
      lia.
Qed.

Lemma idle_py_grants (room : Z) :
  0 <= room <= PY_SSIZE_T_MAX -> grants idle_py room.
Proof.
  intros H. split; [reflexivity|].
  unfold idle_py. cbn [live_bytes Z.of_N]. lia.
Qed.

Lemma one_shot_round_trip_witness :
  exists (C : list byte) (fuel : nat),
    C = [Byte.x01; Byte.x2a; Byte.x01; Byte.x2b; Byte.x00] /\
    (exists c : call_result unit block,
       compress_one_shot Toy.encoder fuel no_args [Byte.x2a; Byte.x2b]
         idle_py = Returns c /\
       ret c = Some C) /\
    (exists c' : call_result unit block,
       brotli_decompress Toy.decoder fuel (PyBytes C) idle_py = Returns c' /\
       ret c' = Some [Byte.x2a; Byte.x2b]).
Proof.
  destruct (one_shot_round_trip Toy.encoder Toy.decoder toy_codec no_args
              [Byte.x2a; Byte.x2b] idle_py idle_py
              (@mkCompressor Toy.encoder (Some (Toy.mkEnc [] false)))
              [EvEncoderCreateInstance true] toy_codec_contract eq_refl)
    as (C & fuel0 & Hencodes & Hcompress & Hdecompress).
  cbn in Hencodes. subst C.
  exists [Byte.x01; Byte.x2a; Byte.x01; Byte.x2b; Byte.x00], fuel0.
  split; [reflexivity|]. split.
  - apply (Hcompress fuel0 32793 (Nat.le_refl _)).
    + apply idle_py_grants. vm_compute. split; discriminate.
    + vm_compute. discriminate.
  - apply (Hdecompress fuel0 32778 idle_py (Nat.le_refl _)).
    + apply idle_py_grants. vm_compute. split; discriminate.
    + vm_compute. discriminate.
Defined.

(** The round trip of one byte, computed. *)
Lemma round_trip_of_one_byte :
  compress_one_shot Toy.encoder 2 no_args [Byte.x2a] idle_py
  = Returns (mkCall (Some [Byte.x01; Byte.x2a; Byte.x00]) tt
               (mkPy [] 3 Byte.x00 None)
               [EvEncoderCreateInstance true; EvInitAndGrow 0;
                EvEncoderCompressStream BROTLI_OPERATION_FINISH true 0 32765;
                EvEncoderHasMoreOutput false; EvFinish 32765 true;
                EvEncoderDestroyInstance]) /\
  brotli_decompress Toy.decoder 2 (PyBytes [Byte.x01; Byte.x2a; Byte.x00])
    idle_py
  = Returns (mkCall (Some [Byte.x2a]) tt (mkPy [] 1 Byte.x00 None)
               [EvInitAndGrow 0; EvDecoderCreateInstance true;
                EvDecoderDecompressStream BROTLI_DECODER_RESULT_SUCCESS
                  0 32767;
                EvDecoderDestroyInstance; EvFinish 32767 true]).
Proof. split; vm_compute; reflexivity. Qed.

(** The round trip of the empty input, computed. *)
Lemma round_trip_of_the_empty_input :
  compress_one_shot Toy.encoder 2 no_args [] idle_py
  = Returns (mkCall (Some [Byte.x00]) tt (mkPy [] 1 Byte.x00 None)
               [EvEncoderCreateInstance true; EvInitAndGrow 0;
                EvEncoderCompressStream BROTLI_OPERATION_FINISH true 0 32767;
                EvEncoderHasMoreOutput false; EvFinish 32767 true;
                EvEncoderDestroyInstance]) /\
  brotli_decompress Toy.decoder 2 (PyBytes [Byte.x00]) idle_py
  = Returns (mkCall (Some []) tt (mkPy [] 0 Byte.x00 None)
               [EvInitAndGrow 0; EvDecoderCreateInstance true;
                EvDecoderDecompressStream BROTLI_DECODER_RESULT_SUCCESS
                  0 32768;
                EvDecoderDestroyInstance; EvFinish 32768 true]).
Proof. split; vm_compute; reflexivity. Qed.

Lemma Finish_on_NULL (buffer : BlocksOutputBuffer) (a : Z) (py : PyInterp) :
  list_ buffer = None ->
  BlocksOutputBuffer_Finish buffer a py = Undefined \/
  exists py1 : PyInterp,
    BlocksOutputBuffer_Finish buffer a py = Returns (None, buffer, py1).
Proof.
  intros Hnull. unfold BlocksOutputBuffer_Finish.
  destruct (PyBytes_FromStringAndSize _ py) as [[res|] py1].
  - left. rewrite Hnull. reflexivity.
  - right. unfold Py_CLEAR_list. rewrite Hnull. eexists. reflexivity.
Qed.


(** * Further properties *)

(** ** Memory held after a call *)

Lemma inv_accounted (buffer : BlocksOutputBuffer) (w : window)
    (py : PyInterp) (data : list byte) (base : Z) :
  buffer_inv buffer w py data ->
  (blocks_accounted buffer py base
   <-> Z.of_N (live_bytes py) = base + allocated buffer).
Proof.
  intros (l0 & b & Hlist & _ & Halloc & _).
  unfold blocks_accounted. rewrite Hlist, Halloc. reflexivity.
Qed.

Lemma store_allocated (buffer : BlocksOutputBuffer) (w : window)
    (out : list byte) :
  allocated (fst (store buffer w out)) = allocated buffer.
Proof. reflexivity. Qed.

(** A growth keeps the account: the new block is added to it, and a failed
    growth gives every block back. *)
Lemma Grow_accounted (buffer : BlocksOutputBuffer) (w : window)
    (py : PyInterp) (data : list byte) (base : Z) :
  buffer_inv buffer w py data -> avail_out w = 0 ->
  blocks_accounted buffer py base ->
  (exists (buffer' : BlocksOutputBuffer) (w' : window) (py' : PyInterp),
     BlocksOutputBuffer_Grow buffer w py = Returns (0, buffer', w', py') /\
     buffer_inv buffer' w' py' data /\ 0 < avail_out w' /\
     blocks_accounted buffer' py' base)
  \/
  (exists (buffer' : BlocksOutputBuffer) (py' : PyInterp),
     BlocksOutputBuffer_Grow buffer w py = Returns (-1, buffer', w, py') /\
     list_ buffer' = None /\ blocks_accounted buffer' py' base).
Proof.
  intros Hinv Hzero Hacc.
  apply (inv_accounted _ _ _ _ base Hinv) in Hacc.
  destruct (Grow_cases _ _ _ _ Hinv Hzero) as (l & Hl & [Hok | Hfail]).
  - destruct Hok as (nb & py1 & _ & Hlive & _ & _ & Heq & Hinv2).
    left. do 3 eexists. split; [exact Heq|]. split; [exact Hinv2|].
    pose proof (scheduled_size_bounds (length l)) as Hbs.
    split; [cbn [avail_out]; lia|].
    apply (inv_accounted _ _ _ _ base Hinv2). cbn [allocated]. lia.
  - destruct Hfail as (py1 & Hlive & _ & Heq).
    right. do 2 eexists. split; [exact Heq|]. split; [reflexivity|].
    unfold blocks_accounted. cbn [list_].
    destruct Hinv as (l0 & b & Hlist & _ & Halloc & _).
    rewrite Hlist in Hl. inversion Hl; subst l. lia.
Qed.

(** The end of a run gives the blocks back: the clean-up ... *)
Lemma CleanUp_accounted (buffer : BlocksOutputBuffer) (py : PyInterp)
    (base : Z) :
  0 <= base -> blocks_accounted buffer py base ->
  Z.of_N (live_bytes (snd (BlocksOutputBuffer_CleanUp buffer py))) = base.
Proof.
  unfold blocks_accounted, BlocksOutputBuffer_CleanUp. intros Hbase Hacc.
  destruct (list_ buffer) as [l|]; cbn [snd free_list live_bytes]; [|lia].
  pose proof (total_size_nonneg l). lia.
Qed.

(** ... and the final copy, after which the result alone is left. *)
Lemma Finish_accounted (buffer : BlocksOutputBuffer) (w : window)
    (py : PyInterp) (data : list byte) (base : Z) :
  0 <= base -> buffer_inv buffer w py data ->
  blocks_accounted buffer py base ->
  exists (out : option block) (buffer' : BlocksOutputBuffer)
         (py' : PyInterp),
    BlocksOutputBuffer_Finish buffer (avail_out w) py
    = Returns (out, buffer', py') /\
    (out = Some data \/ out = None) /\
    Z.of_N (live_bytes py') = base + returned_bytes out.
Proof.
  intros Hbase Hinv Hacc.
  destruct (Finish_inv _ _ _ _ Hinv) as (l & Hl & _ & _ & Hfinish).
  unfold blocks_accounted in Hacc. rewrite Hl in Hacc.
  pose proof (total_size_nonneg l) as Hl0.
  rewrite Hfinish.
  destruct (PyBytes_FromStringAndSize (Py_SIZE data) py) as [[res|] py1]
    eqn:Halloc.
  - apply PyBytes_allocated in Halloc. destruct Halloc as (Hn & _ & _ & Hreq).
    apply request_granted in Hreq. destruct Hreq as (_ & Hlive & _).
    do 3 eexists. split; [reflexivity|]. split; [left; reflexivity|].
    cbn [free_list live_bytes returned_bytes]. lia.
  - apply PyBytes_failed in Halloc. destruct Halloc as (Hlive & _).
    do 3 eexists. split; [reflexivity|]. split; [right; reflexivity|].
    cbn [PyErr_Set free_list live_bytes returned_bytes]. lia.
Qed.

Section CompressMemory.

Variable E : Encoder.

Lemma compress_loop_accounted (fuel : nat) :
  forall (enc : BrotliEncoderState E) (op : BrotliEncoderOperation)
         (next_in : list byte) (buffer : BlocksOutputBuffer) (w : window)
         (py : PyInterp) (data : list byte) (base : Z),
    buffer_inv buffer w py data ->
    blocks_accounted buffer py base ->
    match compress_loop E fuel enc op next_in buffer w py with
    | Returns e =>
        blocks_accounted (le_buffer e) (le_py e) base /\
        (le_status e = true ->
         exists data', buffer_inv (le_buffer e) (le_window e) (le_py e)
                         data')
    | Undefined => True
    | OutOfFuel => True
    end.
Proof.
  induction fuel as [|fuel IH];
    intros enc op next_in buffer w py data base Hinv Hacc; [exact I|].
  cbn [compress_loop].
  remember (BrotliEncoderCompressStream E enc op next_in (avail_out w))
    as s eqn:Hs.
  pose proof (store_inv buffer w py data (written s) Hinv) as Hinv1.
  assert (Hacc1 : blocks_accounted (fst (store buffer w (written s))) py base).
  { apply (inv_accounted _ _ _ _ base Hinv1). rewrite store_allocated.
    apply (inv_accounted _ _ _ _ base Hinv). assumption. }
  destruct (store buffer w (written s)) as [buffer1 w1].
  cbn [fst snd] in Hinv1, Hacc1.
  remember (advance_in next_in (consumed s)) as next_in1 eqn:Hnext.
  destruct (status s) eqn:Hstatus; cbn [negb].
  2:{ cbn. split; [assumption | discriminate]. }
  assert (Hgrown :
    (exists buffer2 w2 py2 evg,
       (if avail_out w1 =? 0
        then match threads_allowed (BlocksOutputBuffer_Grow buffer1 w1 py)
             with
             | Returns (rc, b2, w2', py2') =>
                 Returns (rc, b2, w2', py2', [EvGrow rc])
             | Undefined => Undefined
             | OutOfFuel => OutOfFuel
             end
        else Returns (0, buffer1, w1, py, []))
       = Returns (0, buffer2, w2, py2, evg) /\
       buffer_inv buffer2 w2 py2 (data ++ firstn (Z.to_nat (avail_out w))
                                            (written s)) /\
       blocks_accounted buffer2 py2 base)
    \/
    (if avail_out w1 =? 0
     then match threads_allowed (BlocksOutputBuffer_Grow buffer1 w1 py)
          with
          | Returns (rc, b2, w2', py2') =>
              Returns (rc, b2, w2', py2', [EvGrow rc])
          | Undefined => Undefined
          | OutOfFuel => OutOfFuel
          end
     else Returns (0, buffer1, w1, py, []))
    = Undefined).
  { destruct (avail_out w1 =? 0) eqn:Hroom.
    - apply Z.eqb_eq in Hroom.
      destruct (Grow_accounted _ _ _ _ base Hinv1 Hroom Hacc1)
        as [(b2 & w2 & py2 & Heq & Hinv2 & _ & Hacc2)
           | (b2 & py2 & Heq & _ & Hacc2)]; rewrite Heq;
        cbn [threads_allowed Z.ltb Z.compare].
      + left. do 4 eexists. split; [reflexivity|]. split; assumption.
      + right. reflexivity.
    - left. do 4 eexists. split; [reflexivity|]. split; assumption. }
  destruct Hgrown as [(buffer2 & w2 & py2 & evg & Heq & Hinv2 & Hacc2)
                     | Heq]; rewrite Heq;
    cbn [Z.ltb Z.compare].
  2:{ exact I. }
  specialize (IH (next_state s) op next_in1 _ _ _ _ base Hinv2 Hacc2).
  destruct (Py_SIZE next_in1 =? 0); cbn [negb].
  - destruct (BrotliEncoderHasMoreOutput E (next_state s)).
    + destruct (compress_loop E fuel (next_state s) op next_in1 _ _ _)
        as [e| |]; cbn [before]; try exact I. cbn. assumption.
    + cbn. split; [assumption | intros _; eexists; eassumption].
  - destruct (compress_loop E fuel (next_state s) op next_in1 _ _ _)
      as [e| |]; cbn [before]; try exact I. cbn. assumption.
Qed.

Lemma compress_stream_accounted (fuel : nat) (enc : BrotliEncoderState E)
    (op : BrotliEncoderOperation) (input : list byte) (py : PyInterp)
    (r : stream_result (BrotliEncoderState E)) :
  compress_stream E fuel enc op input py = Returns r ->
  Z.of_N (live_bytes (py_after r))
  = Z.of_N (live_bytes py) + returned_bytes (output r) /\
  (ok r = false -> output r = None).
Proof.
  unfold compress_stream.
  destruct (InitAndGrow_cases fresh_buffer fresh_window py)
    as [(buffer & w & py1 & Heq & Hinv & _ & Hlive)
       | (py1 & Heq & Hlive & _)];
    rewrite Heq; cbn [Z.ltb Z.compare].
  2:{ intros H. inversion H; subst; clear H. cbn. rewrite Hlive.
      split; [lia | reflexivity]. }
  assert (Hacc : blocks_accounted buffer py1 (Z.of_N (live_bytes py))).
  { apply (inv_accounted _ _ _ _ _ Hinv).
    destruct Hinv as (l0 & b & Hlist & _ & Halloc & _).
    apply InitAndGrow_success in Heq.
    destruct Heq as (b' & _ & -> & _). cbn [allocated]. lia. }
  pose proof (compress_loop_accounted fuel enc op input _ _ _ _ _ Hinv Hacc)
    as Hloop.
  destruct (compress_loop E fuel enc op input buffer w py1) as [e| |];
    try discriminate.
  destruct Hloop as [Hacc' Hdata].
  assert (Hbase : 0 <= Z.of_N (live_bytes py)) by lia.
  destruct (le_status e).
  - destruct (Hdata eq_refl) as (data' & Hinv').
    destruct (Finish_accounted _ _ _ _ _ Hbase Hinv' Hacc')
      as (out & b' & py' & Hfin & _ & Hlive').
    rewrite Hfin. intros H. inversion H; subst; clear H. cbn.
    split; [assumption|]. destruct out; [discriminate | reflexivity].
  - pose proof (CleanUp_accounted _ _ _ Hbase Hacc') as Hclean.
    destruct (BlocksOutputBuffer_CleanUp (le_buffer e) (le_py e))
      as [b2 py2].
    intros H. inversion H; subst; clear H. cbn. cbn [snd] in Hclean.
    split; [lia | reflexivity].
Qed.

End CompressMemory.

Section DecompressMemory.

Variable D : Decoder.

Lemma decompress_stream_loop_accounted (fuel : nat) :
  forall (dec : BrotliDecoderState D) (next_in : list byte)
         (buffer : BlocksOutputBuffer) (w : window) (py : PyInterp)
         (data : list byte) (base : Z),
    buffer_inv buffer w py data ->
    blocks_accounted buffer py base ->
    match decompress_stream_loop D fuel dec next_in buffer w py with
    | Returns e =>
        blocks_accounted (le_buffer e) (le_py e) base /\
        (le_status e <> BROTLI_DECODER_RESULT_ERROR ->
         exists data', buffer_inv (le_buffer e) (le_window e) (le_py e)
                         data')
    | Undefined => True
    | OutOfFuel => True
    end.
Proof.
  induction fuel as [|fuel IH];
    intros dec next_in buffer w py data base Hinv Hacc; [exact I|].
  cbn [decompress_stream_loop].
  remember (BrotliDecoderDecompressStream D dec next_in (avail_out w))
    as s eqn:Hs.
  pose proof (store_inv buffer w py data (written s) Hinv) as Hinv1.
  assert (Hacc1 : blocks_accounted (fst (store buffer w (written s))) py base).
  { apply (inv_accounted _ _ _ _ base Hinv1). rewrite store_allocated.
    apply (inv_accounted _ _ _ _ base Hinv). assumption. }
  destruct (store buffer w (written s)) as [buffer1 w1].
  cbn [fst snd] in Hinv1, Hacc1.
  remember (advance_in next_in (consumed s)) as next_in1 eqn:Hnext.
  destruct (avail_out w1 =? 0) eqn:Hroom.
  - apply Z.eqb_eq in Hroom.
    destruct (Grow_accounted _ _ _ _ base Hinv1 Hroom Hacc1)
      as [(b2 & w2 & py2 & Heq & Hinv2 & _ & Hacc2)
         | (b2 & py2 & Heq & _ & Hacc2)]; rewrite Heq;
      cbn [threads_allowed Z.ltb Z.compare].
    + specialize (IH (next_state s) next_in1 _ _ _ _ base Hinv2 Hacc2).
      destruct (BrotliDecoderResult_eqb (status s)
                  BROTLI_DECODER_RESULT_NEEDS_MORE_OUTPUT).
      * destruct (decompress_stream_loop D fuel (next_state s) next_in1 _ _ _)
          as [e| |]; cbn [before]; try exact I. cbn. assumption.
      * cbn. split; [assumption | intros _; eexists; eassumption].
    + exact I.
  - specialize (IH (next_state s) next_in1 _ _ _ _ base Hinv1 Hacc1).
    destruct (BrotliDecoderResult_eqb (status s)
                BROTLI_DECODER_RESULT_NEEDS_MORE_OUTPUT).
    + destruct (decompress_stream_loop D fuel (next_state s) next_in1 _ _ _)
        as [e| |]; cbn [before]; try exact I. cbn. assumption.
    + cbn. split; [assumption | intros _; eexists; eassumption].
Qed.

Lemma brotli_decompress_loop_accounted (fuel : nat) :
  forall (state : BrotliDecoderState D) (next_in : list byte)
         (buffer : BlocksOutputBuffer) (w : window) (py : PyInterp)
         (data : list byte) (base : Z),
    buffer_inv buffer w py data ->
    blocks_accounted buffer py base ->
    match brotli_decompress_loop D fuel state next_in buffer w py with
    | Returns e =>
        blocks_accounted (le_buffer e) (le_py e) base /\
        (list_ (le_buffer e) = None \/
         exists data', buffer_inv (le_buffer e) (le_window e) (le_py e)
                         data')
    | Undefined => True
    | OutOfFuel => True
    end.
Proof.
  induction fuel as [|fuel IH];
    intros state next_in buffer w py data base Hinv Hacc; [exact I|].
  cbn [brotli_decompress_loop].
  remember (BrotliDecoderDecompressStream D state next_in (avail_out w))
    as s eqn:Hs.
  pose proof (store_inv buffer w py data (written s) Hinv) as Hinv1.
  assert (Hacc1 : blocks_accounted (fst (store buffer w (written s))) py base).
  { apply (inv_accounted _ _ _ _ base Hinv1). rewrite store_allocated.
    apply (inv_accounted _ _ _ _ base Hinv). assumption. }
  destruct (store buffer w (written s)) as [buffer1 w1].
  cbn [fst snd] in Hinv1, Hacc1.
  remember (advance_in next_in (consumed s)) as next_in1 eqn:Hnext.
  destruct (avail_out w1 =? 0) eqn:Hroom.
  - apply Z.eqb_eq in Hroom.
    destruct (Grow_accounted _ _ _ _ base Hinv1 Hroom Hacc1)
      as [(b2 & w2 & py2 & Heq & Hinv2 & _ & Hacc2)
         | (b2 & py2 & Heq & Hnull & Hacc2)]; rewrite Heq;
      cbn [threads_allowed Z.ltb Z.compare].
    + specialize (IH (next_state s) next_in1 _ _ _ _ base Hinv2 Hacc2).
      destruct (BrotliDecoderResult_eqb (status s)
                  BROTLI_DECODER_RESULT_NEEDS_MORE_OUTPUT).
      * destruct (brotli_decompress_loop D fuel (next_state s) next_in1 _ _ _)
          as [e| |]; cbn [before]; try exact I. cbn. assumption.
      * cbn. split; [assumption | right; eexists; eassumption].
    + exact I.
  - specialize (IH (next_state s) next_in1 _ _ _ _ base Hinv1 Hacc1).
    destruct (BrotliDecoderResult_eqb (status s)
                BROTLI_DECODER_RESULT_NEEDS_MORE_OUTPUT).
    + destruct (brotli_decompress_loop D fuel (next_state s) next_in1 _ _ _)
        as [e| |]; cbn [before]; try exact I. cbn. assumption.
    + cbn. split; [assumption | right; eexists; eassumption].
Qed.

Lemma first_block_accounted (buffer : BlocksOutputBuffer) (w : window)
    (py py1 : PyInterp) :
  BlocksOutputBuffer_InitAndGrow fresh_buffer fresh_window py
  = (0, buffer, w, py1) ->
  blocks_accounted buffer py1 (Z.of_N (live_bytes py)).
Proof.
  intros Heq.
  apply (inv_accounted _ _ _ _ _ (InitAndGrow_inv _ _ _ _ _ _ Heq)).
  apply InitAndGrow_success in Heq.
  destruct Heq as (b' & _ & -> & _ & Hlive & _). cbn [allocated]. lia.
Qed.

Lemma decompress_stream_accounted (fuel : nat) (dec : BrotliDecoderState D)
    (input : list byte) (py : PyInterp)
    (r : stream_result (BrotliDecoderState D)) :
  decompress_stream D fuel dec input py = Returns r ->
  Z.of_N (live_bytes (py_after r))
  = Z.of_N (live_bytes py) + returned_bytes (output r) /\
  (ok r = false -> output r = None).
Proof.
  unfold decompress_stream.
  destruct (InitAndGrow_cases fresh_buffer fresh_window py)
    as [(buffer & w & py1 & Heq & Hinv & _ & Hlive)
       | (py1 & Heq & Hlive & _)];
    rewrite Heq; cbn [Z.ltb Z.compare].
  2:{ intros H. inversion H; subst; clear H. cbn. rewrite Hlive.
      split; [lia | reflexivity]. }
  pose proof (first_block_accounted _ _ _ _ Heq) as Hacc.
  pose proof (decompress_stream_loop_accounted fuel dec input _ _ _ _ _
                Hinv Hacc) as Hloop.
  destruct (decompress_stream_loop D fuel dec input buffer w py1) as [e| |];
    try discriminate.
  destruct Hloop as [Hacc' Hdata].
  assert (Hbase : 0 <= Z.of_N (live_bytes py)) by lia.
  destruct (negb (BrotliDecoderResult_eqb (le_status e)
                    BROTLI_DECODER_RESULT_ERROR)
            && (Py_SIZE (le_next_in e) =? 0)) eqn:Hcond.
  - apply andb_prop in Hcond. destruct Hcond as [Hst _].
    apply negb_true_iff, BrotliDecoderResult_eqb_neq in Hst.
    destruct (Hdata Hst) as (data' & Hinv').
    destruct (Finish_accounted _ _ _ _ _ Hbase Hinv' Hacc')
      as (out & b' & py' & Hfin & _ & Hlive').
    rewrite Hfin. intros H. inversion H; subst; clear H. cbn.
    split; [assumption|]. destruct out; [discriminate | reflexivity].
  - pose proof (CleanUp_accounted _ _ _ Hbase Hacc') as Hclean.
    destruct (BlocksOutputBuffer_CleanUp (le_buffer e) (le_py e))
      as [b2 py2].
    intros H. inversion H; subst; clear H. cbn. cbn [snd] in Hclean.
    split; [lia | reflexivity].
Qed.

Lemma brotli_decompress_accounted (fuel : nat) (string : PyObject)
    (py : PyInterp) (c : call_result unit block) :
  brotli_decompress D fuel string py = Returns c ->
  Z.of_N (live_bytes (interp c))
  = Z.of_N (live_bytes py) + returned_bytes (ret c).
Proof.
  unfold brotli_decompress.
  destruct string as [v|input|];
    try (intros H; inversion H; subst; cbn; lia).
  destruct (InitAndGrow_cases fresh_buffer fresh_window py)
    as [(buffer & w & py1 & Heq & Hinv & _ & Hlive)
       | (py1 & Heq & Hlive & _)];
    rewrite Heq; cbn [Z.ltb Z.compare].
  2:{ intros H. inversion H; subst; clear H. cbn. rewrite Hlive. lia. }
  pose proof (first_block_accounted _ _ _ _ Heq) as Hacc.
  destruct (BrotliDecoderCreateInstance D) as [state|]; [|discriminate].
  pose proof (brotli_decompress_loop_accounted fuel state input _ _ _ _ _
                Hinv Hacc) as Hloop.
  destruct (brotli_decompress_loop D fuel state input buffer w py1)
    as [e| |]; try discriminate.
  destruct Hloop as [Hacc' Hdata].
  assert (Hbase : 0 <= Z.of_N (live_bytes py)) by lia.
  destruct (BrotliDecoderResult_eqb (le_status e)
              BROTLI_DECODER_RESULT_SUCCESS
            && (Py_SIZE (le_next_in e) =? 0)).
  - destruct Hdata as [Hnull | (data' & Hinv')].
    + destruct (Finish_on_NULL (le_buffer e) (avail_out (le_window e))
                  (le_py e) Hnull) as [Hub | (py2 & Hnone)].
      * rewrite Hub. discriminate.
      * pose proof Hnone as Hdef.
        unfold BlocksOutputBuffer_Finish in Hdef.
        destruct (PyBytes_FromStringAndSize _ (le_py e)) as [[res|] py3]
          eqn:Halloc.
        -- rewrite Hnull in Hdef. discriminate.
        -- unfold Py_CLEAR_list in Hdef. rewrite Hnull in Hdef.
           inversion Hdef; subst py2; clear Hdef.
           apply PyBytes_failed in Halloc. destruct Halloc as (Hlive3 & _).
           rewrite Hnone. intros H. inversion H; subst; clear H. cbn.
           unfold blocks_accounted in Hacc'. rewrite Hnull in Hacc'.
           rewrite Hlive3. lia.
    + destruct (Finish_accounted _ _ _ _ _ Hbase Hinv' Hacc')
        as (out & b' & py' & Hfin & _ & Hlive').
      rewrite Hfin. intros H. inversion H; subst; clear H. cbn. assumption.
  - pose proof (CleanUp_accounted _ _ _ Hbase Hacc') as Hclean.
    destruct (BlocksOutputBuffer_CleanUp (le_buffer e) (le_py e))
      as [b2 py2].
    intros H. inversion H; subst; clear H. cbn. cbn [snd] in Hclean. lia.
Qed.

End DecompressMemory.

(** X1: when [process] or [flush] returns or raises, and when [finish]
    returns its output, every block of the output buffer has been released:
    the bytes objects alive are those that were alive before the call and
    the object returned. *)
Theorem Compressor_methods_release_the_buffer
    (E : Encoder) (op : BrotliEncoderOperation) (fuel : nat)
    (self : brotli_Compressor E) (input : list byte) (py : PyInterp)
    (c : call_result (brotli_Compressor E) block) :
  Compressor_method E op fuel self input py = Returns c ->
  op <> BROTLI_OPERATION_FINISH \/ ret c <> None ->
  Z.of_N (live_bytes (interp c))
  = Z.of_N (live_bytes py) + returned_bytes (ret c).
Proof.
  intros Hrun Hcase.
  destruct op; cbn [Compressor_method] in Hrun;
    [ unfold brotli_Compressor_process in Hrun
    | unfold brotli_Compressor_flush in Hrun
    | unfold brotli_Compressor_finish in Hrun ];
    unfold failed in Hrun;
    (destruct (enc self) as [e|];
     [|inversion Hrun; subst; cbn; lia]);
    match type of Hrun with
    | context [compress_stream E fuel e ?o ?i py] =>
        destruct (compress_stream E fuel e o i py) as [r| |] eqn:Hstream;
        try discriminate;
        destruct (compress_stream_accounted E fuel e o i py r Hstream)
          as [Hlive Hnone]
    end.
  - destruct (ok r); inversion Hrun; subst; clear Hrun; cbn.
    + assumption.
    + rewrite Hnone in Hlive by reflexivity. assumption.
  - destruct (ok r); inversion Hrun; subst; clear Hrun; cbn.
    + assumption.
    + rewrite Hnone in Hlive by reflexivity. assumption.
  - destruct Hcase as [Hop | Hret]; [exfalso; apply Hop; reflexivity|].
    destruct (ok r).
    + destruct (BrotliEncoderIsFinished E (engine r));
        inversion Hrun; subst; clear Hrun; cbn in *.
      * assumption.
      * exfalso. apply Hret. reflexivity.
    + inversion Hrun; subst; clear Hrun; cbn in *.
      exfalso. apply Hret. reflexivity.
Qed.

Lemma Compressor_methods_release_the_buffer_witness :
  exists c : call_result (brotli_Compressor Toy.encoder) block,
    Compressor_method Toy.encoder BROTLI_OPERATION_PROCESS 1
      (@mkCompressor Toy.encoder (Some (Toy.mkEnc [] false))) [Byte.x2a]
      idle_py = Returns c /\
    ret c = Some [Byte.x01; Byte.x2a] /\
    Z.of_N (live_bytes (interp c)) = Z.of_N (live_bytes idle_py) + 2.
Proof.
  eexists. split; [vm_compute; reflexivity|]. split; [reflexivity|].
  apply (Compressor_methods_release_the_buffer Toy.encoder
           BROTLI_OPERATION_PROCESS 1
           (@mkCompressor Toy.encoder (Some (Toy.mkEnc [] false)))
           [Byte.x2a] idle_py).
  - vm_compute. reflexivity.
  - left. discriminate.
Defined.

(** X2: when [finish] fails because the encoder does not report that it is
    finished after a run that succeeded, it raises [brotli.error] and
    returns nothing, and the output object of the run is not released: it
    stays among the bytes objects alive. *)
Theorem finish_keeps_the_output_of_an_unfinished_encoder
    (E : Encoder) (fuel : nat) (self : brotli_Compressor E)
    (e : BrotliEncoderState E) (py : PyInterp)
    (r : stream_result (BrotliEncoderState E)) (out : block) :
  enc self = Some e ->
  compress_stream E fuel e BROTLI_OPERATION_FINISH [] py = Returns r ->
  output r = Some out ->
  BrotliEncoderIsFinished E (engine r) = false ->
  exists c : call_result (brotli_Compressor E) block,
    brotli_Compressor_finish E fuel self py = Returns c /\
    ret c = None /\
    err (interp c)
    = Some (BrotliError
              "BrotliEncoderCompressStream failed while finishing the stream")
    /\
    Z.of_N (live_bytes (interp c)) = Z.of_N (live_bytes py) + Py_SIZE out.
Proof.
  intros Henc Hrun Hout Hunfinished.
  destruct (compress_stream_accounted E fuel e _ _ py r Hrun)
    as [Hlive Hnone].
  assert (Hok : ok r = true).
  { destruct (ok r); [reflexivity|].
    rewrite Hnone in Hout by reflexivity. discriminate. }
  unfold brotli_Compressor_finish, failed.
  rewrite Henc, Hrun, Hok, Hunfinished.
  eexists. split; [reflexivity|]. cbn.
  rewrite Hout in Hlive. repeat split. assumption.
Qed.

Lemma finish_keeps_the_output_of_an_unfinished_encoder_witness :
  exists c : call_result (brotli_Compressor unfinished_encoder) block,
    brotli_Compressor_finish unfinished_encoder 1
      (@mkCompressor unfinished_encoder (Some (Toy.mkEnc [] false))) idle_py
    = Returns c /\
    ret c = None /\
    err (interp c)
    = Some (BrotliError
              "BrotliEncoderCompressStream failed while finishing the stream")
    /\
    Z.of_N (live_bytes (interp c))
    = Z.of_N (live_bytes idle_py) + Py_SIZE [Byte.x00].
Proof.
  apply (finish_keeps_the_output_of_an_unfinished_encoder unfinished_encoder
           1 (@mkCompressor unfinished_encoder (Some (Toy.mkEnc [] false)))
           (Toy.mkEnc [] false) idle_py
           (mkResult true (Some [Byte.x00]) (Toy.mkEnc [] true)
              (mkPy [] 1 Byte.x00 None)
              [EvInitAndGrow 0;
               EvEncoderCompressStream BROTLI_OPERATION_FINISH true 0 32767;
               EvEncoderHasMoreOutput false;
               EvFinish 32767 true])
           [Byte.x00]).
  - reflexivity.
  - vm_compute. reflexivity.
  - reflexivity.
  - reflexivity.
Defined.

(** X3: when [Decompressor.process] or [brotli.decompress] returns or
    raises, every block of the output buffer has been released: the bytes
    objects alive are those that were alive before the call and the object
    returned. *)
Theorem decompression_releases_the_buffer
    (D : Decoder) (fuel : nat) (arg : PyObject) (py : PyInterp) :
  (forall (self : brotli_Decompressor D)
          (c : call_result (brotli_Decompressor D) block),
     brotli_Decompressor_process D fuel self arg py = Returns c ->
     Z.of_N (live_bytes (interp c))
     = Z.of_N (live_bytes py) + returned_bytes (ret c)) /\
  (forall c : call_result unit block,
     brotli_decompress D fuel arg py = Returns c ->
     Z.of_N (live_bytes (interp c))
     = Z.of_N (live_bytes py) + returned_bytes (ret c)).
Proof.
  split.
  - intros self c Hrun. unfold brotli_Decompressor_process in Hrun.
    destruct arg as [v|input|];
      try (inversion Hrun; subst; cbn; lia).
    destruct (dec self) as [d|]; [|inversion Hrun; subst; cbn; lia].
    destruct (decompress_stream D fuel d input py) as [r| |] eqn:Hstream;
      try discriminate.
    destruct (decompress_stream_accounted D fuel d input py r Hstream)
      as [Hlive Hnone].
    destruct (ok r); inversion Hrun; subst; clear Hrun; cbn.
    + assumption.
    + rewrite Hnone in Hlive by reflexivity. assumption.
  - intros c Hrun. eapply brotli_decompress_accounted. eassumption.
Qed.

Lemma decompression_releases_the_buffer_witness :
  (exists c : call_result (brotli_Decompressor Toy.decoder) block,
     brotli_Decompressor_process Toy.decoder 1
       (@mkDecompressor Toy.decoder (Some (Toy.mkDec [] false false false)))
       (PyBytes [Byte.x01; Byte.x2a; Byte.x00]) idle_py = Returns c /\
     ret c = Some [Byte.x2a] /\
     Z.of_N (live_bytes (interp c)) = Z.of_N (live_bytes idle_py) + 1) /\
  (exists c : call_result unit block,
     brotli_decompress Toy.decoder 1
       (PyBytes [Byte.x01; Byte.x2a; Byte.x00]) idle_py = Returns c /\
     ret c = Some [Byte.x2a] /\
     Z.of_N (live_bytes (interp c)) = Z.of_N (live_bytes idle_py) + 1).
Proof.
  split; eexists; (split; [vm_compute; reflexivity|]);
    (split; [reflexivity|]).
  - apply (proj1 (decompression_releases_the_buffer Toy.decoder 1
                    (PyBytes [Byte.x01; Byte.x2a; Byte.x00]) idle_py)
             (@mkDecompressor Toy.decoder
                (Some (Toy.mkDec [] false false false)))).
    vm_compute. reflexivity.
  - apply (proj2 (decompression_releases_the_buffer Toy.decoder 1
                    (PyBytes [Byte.x01; Byte.x2a; Byte.x00]) idle_py)).
    vm_compute. reflexivity.
Defined.

(** X4: the memory the buffer takes is at most four times the output
    written so far, or the 32 KiB of the first block when that is more. *)
Theorem buffer_takes_at_most_four_times_the_output
    (buffer : BlocksOutputBuffer) (w : window) (py : PyInterp)
    (data : list byte) :
  reachable buffer w py data ->
  allocated buffer <= Z.max 32768 (4 * Py_SIZE data).
Proof.
  intros Hreach. apply reachable_inv in Hreach.
  destruct Hreach as (l0 & b & _ & Hsched & Halloc & _ & Hwin & Hdata & _).
  apply blocks_scheduled_front in Hsched. destruct Hsched as [Hl0 Hb].
  rewrite Halloc, total_size_last, Hb, (total_size_scheduled l0 Hl0).
  assert (Hlen : scheduled_total (length l0) <= Py_SIZE data).
  { rewrite Hdata, Py_SIZE_app, Py_SIZE_concat, (total_size_scheduled l0 Hl0).
    pose proof (Py_SIZE_nonneg
                  (firstn (Z.to_nat (Py_SIZE b - avail_out w)) b)). lia. }
  destruct (length l0) as [|n] eqn:Hn.
  - change (scheduled_total 0) with 0. change (scheduled_size 0) with 32768.
    lia.
  - pose proof (block_within_three_times_the_blocks_before (S n)
                  ltac:(lia)). lia.
Qed.

Lemma buffer_takes_at_most_four_times_the_output_witness :
  allocated (grown_buffer 1)
  <= Z.max 32768 (4 * Py_SIZE (concat (filled_blocks 1))) /\
  allocated (grown_buffer 17)
  <= Z.max 32768 (4 * Py_SIZE (concat (filled_blocks 17))).
Proof.
  split.
  - apply (buffer_takes_at_most_four_times_the_output (grown_buffer 1)
             (grown_window 1) (grown_py 1) (concat (filled_blocks 1))).
    apply grown_reachable. vm_compute. discriminate.
  - apply (buffer_takes_at_most_four_times_the_output (grown_buffer 17)
             (grown_window 17) (grown_py 17) (concat (filled_blocks 17))).
    apply grown_reachable. vm_compute. discriminate.
Defined.

Lemma scheduled_total_flat (n : nat) :
  (17 <= n)%nat ->
  scheduled_total n = 813 * MB + 352 * KB + (Z.of_nat n - 17) * (256 * MB).
Proof.
  induction 1 as [|n Hle IH].
  - reflexivity.
  - rewrite scheduled_total_S, IH, scheduled_size_flat by lia.
    unfold MB, KB. lia.
Qed.

Lemma scheduled_total_table (n : nat) :
  (1 <= n <= 22)%nat ->
  scheduled_total n = nth (n - 1) growth_table 0.
Proof.
  intros Hn. destruct n as [|n]; [lia|].
  do 22 (destruct n as [|n]; [reflexivity|]). lia.
Qed.

(** X13: the table in the comment on [BUFFER_BLOCK_SIZE] is right.  A
    buffer that holds [n] blocks has allocated the sum of the first [n]
    sizes of the schedule, which is the entry [n] of the table for [n] up to
    22, and 813 MB + 352 KB + (n - 17) * 256 MB from 17 blocks on. *)
Theorem allocated_follows_the_growth_table
    (buffer : BlocksOutputBuffer) (w : window) (py : PyInterp)
    (data : list byte) (l : list block) :
  reachable buffer w py data ->
  list_ buffer = Some l ->
  (1 <= length l)%nat /\
  allocated buffer = scheduled_total (length l) /\
  ((length l <= 22)%nat ->
   allocated buffer = nth (length l - 1) growth_table 0) /\
  ((17 <= length l)%nat ->
   allocated buffer
   = 813 * MB + 352 * KB + (Z.of_nat (length l) - 17) * (256 * MB)).
Proof.
  intros Hreach Hl. apply reachable_inv in Hreach.
  destruct Hreach as (l0 & b & Hlist & Hsched & Halloc & _).
  rewrite Hlist in Hl. inversion Hl; subst l; clear Hl.
  assert (Hlen : (1 <= length (l0 ++ [b]))%nat)
    by (rewrite length_app; cbn [length]; lia).
  rewrite Halloc, (total_size_scheduled _ Hsched).
  split; [assumption|]. split; [reflexivity|]. split.
  - intros H22. apply scheduled_total_table. lia.
  - intros H17. apply scheduled_total_flat. assumption.
Qed.

Lemma allocated_follows_the_growth_table_witness :
  (1 <= length (filled_blocks 21 ++ [fresh_block 21]))%nat /\
  allocated (grown_buffer 21)
  = scheduled_total (length (filled_blocks 21 ++ [fresh_block 21])) /\
  ((length (filled_blocks 21 ++ [fresh_block 21]) <= 22)%nat ->
   allocated (grown_buffer 21)
   = nth (length (filled_blocks 21 ++ [fresh_block 21]) - 1) growth_table 0) /\
  ((17 <= length (filled_blocks 21 ++ [fresh_block 21]))%nat ->
   allocated (grown_buffer 21)
   = 813 * MB + 352 * KB
     + (Z.of_nat (length (filled_blocks 21 ++ [fresh_block 21])) - 17)
       * (256 * MB)).
Proof.
  apply (allocated_follows_the_growth_table (grown_buffer 21)
           (grown_window 21) (grown_py 21) (concat (filled_blocks 21))
           (filled_blocks 21 ++ [fresh_block 21])).
  - apply grown_reachable. vm_compute. discriminate.
  - reflexivity.
Defined.

Lemma the_buffer_of_22_blocks :
  length (filled_blocks 21 ++ [fresh_block 21]) = 22%nat /\
  allocated (grown_buffer 21) = 2093 * MB + 352 * KB /\
  nth 21 growth_table 0 = 2093 * MB + 352 * KB.
Proof.
  split; [rewrite length_app, length_filled_blocks; cbn [length]; lia|].
  unfold grown_buffer. cbn [allocated]. split; vm_compute; reflexivity.
Qed.

(** ** Constructing the objects *)

Lemma as_bounded_int_accepts (v result lo hi : Z) (py : PyInterp) :
  lo <= v <= hi -> hi <= LONG_MAX -> LONG_MIN <= lo ->
  as_bounded_int (PyLong v) result lo hi py = (1, v, py).
Proof.
  intros Hv Hhi Hlo. unfold as_bounded_int, PyInt_AsLong.
  replace ((LONG_MIN <=? v) && (v <=? LONG_MAX)) with true
    by (symmetry; apply andb_true_intro; split; apply Z.leb_le; lia).
  replace ((v <? lo) || (v >? hi)) with false; [reflexivity|].
  symmetry. apply orb_false_intro; [apply Z.ltb_ge; lia|].
  rewrite Z.gtb_ltb. apply Z.ltb_ge. lia.
Qed.

Ltac bounded_int_accepted :=
  rewrite as_bounded_int_accepts
    by (try (unfold LONG_MAX, LONG_MIN, SIZE_WIDTH; change (64 - 1) with 63);
        lia).

(** An argument that is acceptable is stored as it is, or left out; the
    interpreter is left as it was. *)
Lemma quality_convertor_accepts (a : option PyObject) (py : PyInterp) :
  acceptable quality_in_range a = true ->
  convert quality_convertor a (-1) py = (1, arg_value a, py) /\
  (a = None \/ 0 <= arg_value a <= 255).
Proof.
  destruct a as [[v| |]|]; cbn [acceptable]; try discriminate.
  - unfold quality_in_range. intros H. apply andb_prop in H.
    destruct H as [H1 H2]. apply Z.leb_le in H1, H2.
    cbn [convert arg_value]. unfold quality_convertor. cbn [PyInt_Check negb].
    bounded_int_accepted. cbn [Z.eqb]. split; [reflexivity | right; lia].
  - intros _. split; [reflexivity | left; reflexivity].
Qed.

Lemma lgwin_convertor_accepts (a : option PyObject) (py : PyInterp) :
  acceptable lgwin_in_range a = true ->
  convert lgwin_convertor a (-1) py = (1, arg_value a, py) /\
  (a = None \/ 0 <= arg_value a <= 255).
Proof.
  destruct a as [[v| |]|]; cbn [acceptable]; try discriminate.
  - unfold lgwin_in_range. intros H. apply andb_prop in H.
    destruct H as [H1 H2]. apply Z.leb_le in H1, H2.
    cbn [convert arg_value]. unfold lgwin_convertor. cbn [PyInt_Check negb].
    bounded_int_accepted. cbn [Z.eqb]. split; [reflexivity | right; lia].
  - intros _. split; [reflexivity | left; reflexivity].
Qed.

Lemma lgblock_convertor_accepts (a : option PyObject) (py : PyInterp) :
  acceptable lgblock_in_range a = true ->
  convert lgblock_convertor a (-1) py = (1, arg_value a, py) /\
  (a = None \/ 0 <= arg_value a <= 255).
Proof.
  destruct a as [[v| |]|]; cbn [acceptable]; try discriminate.
  - unfold lgblock_in_range. intros H.
    assert (Hv : v = 0 \/ 16 <= v <= 24).
    { apply orb_prop in H. destruct H as [H | H].
      - left. apply Z.eqb_eq. assumption.
      - right. apply andb_prop in H. destruct H as [H1 H2].
        apply Z.leb_le in H1, H2. lia. }
    cbn [convert arg_value]. unfold lgblock_convertor.
    cbn [PyInt_Check negb].
    bounded_int_accepted. cbn [Z.eqb orb].
    replace (negb (v =? 0) && (v <? 16)) with false;
      [split; [reflexivity | right; lia]|].
    symmetry. destruct Hv as [-> | Hv]; [reflexivity|].
    apply andb_false_intro2. apply Z.ltb_ge. lia.
  - intros _. split; [reflexivity | left; reflexivity].
Qed.

Lemma mode_convertor_accepts (E : Encoder) (a : option PyObject)
    (py : PyInterp) :
  0 <= BROTLI_MODE_GENERIC E <= 255 ->
  0 <= BROTLI_MODE_TEXT E <= 255 ->
  0 <= BROTLI_MODE_FONT E <= 255 ->
  acceptable (mode_in_range E) a = true ->
  convert (mode_convertor E) a (-1) py = (1, arg_value a, py) /\
  (a = None \/ 0 <= arg_value a <= 255).
Proof.
  intros Hg Ht Hf.
  destruct a as [[v| |]|]; cbn [acceptable]; try discriminate.
  - unfold mode_in_range. intros H.
    assert (Hv : 0 <= v <= 255).
    { apply orb_prop in H. destruct H as [H | H];
        [apply orb_prop in H; destruct H as [H | H]|];
        apply Z.eqb_eq in H; lia. }
    cbn [convert arg_value]. unfold mode_convertor. cbn [PyInt_Check negb].
    bounded_int_accepted. cbn [Z.eqb].
    replace (negb (v =? BROTLI_MODE_GENERIC E)
             && negb (v =? BROTLI_MODE_TEXT E)
             && negb (v =? BROTLI_MODE_FONT E)) with false;
      [split; [reflexivity | right; assumption]|].
    symmetry. rewrite <- !negb_orb. apply negb_false_iff. assumption.
  - intros _. split; [reflexivity | left; reflexivity].
Qed.

(** A variable that was filled in is passed to the encoder as it is, and one
    that kept its initial value is not passed. *)
Lemma set_if_given_arg (E : Encoder) (p : BrotliEncoderParameter)
    (a : option PyObject) (st : BrotliEncoderState E * list event) :
  (a = None \/ 0 <= arg_value a <= 255) ->
  (a = None \/ exists v : Z, a = Some (PyLong v)) ->
  set_if_given E p (arg_value a) st
  = (set_parameters E (fst st) (given p a),
     snd st ++ parameter_events (given p a)).
Proof.
  intros Hrange Hint. unfold set_if_given.
  destruct Hint as [-> | (v & ->)].
  - cbn. rewrite app_nil_r. destruct st; reflexivity.
  - destruct Hrange as [H | H]; [discriminate|]. cbn [arg_value] in *.
    replace (v =? -1) with false by (symmetry; apply Z.eqb_neq; lia).
    cbn [negb]. rewrite Z.mod_small by lia. reflexivity.
Qed.

Lemma acceptable_int (in_range : Z -> bool) (a : option PyObject) :
  acceptable in_range a = true ->
  a = None \/ exists v : Z, a = Some (PyLong v).
Proof.
  destruct a as [[v| |]|]; cbn; try discriminate.
  - intros _. right. exists v. reflexivity.
  - intros _. left. reflexivity.
Qed.

Lemma set_parameters_app (E : Encoder) (e : BrotliEncoderState E)
    (ps qs : list (BrotliEncoderParameter * Z)) :
  set_parameters E e (ps ++ qs) = set_parameters E (set_parameters E e ps) qs.
Proof. unfold set_parameters. apply fold_left_app. Qed.

Lemma init_accepts (E : Encoder) (self : brotli_Compressor E)
    (e : BrotliEncoderState E) (args : Compressor_args) (py : PyInterp) :
  0 <= BROTLI_MODE_GENERIC E <= 255 ->
  0 <= BROTLI_MODE_TEXT E <= 255 ->
  0 <= BROTLI_MODE_FONT E <= 255 ->
  enc self = Some e ->
  args_in_range E args = true ->
  brotli_Compressor_init E self args py
  = (0, mkCompressor (Some (set_parameters E e (given_parameters args))), py,
     parameter_events (given_parameters args)).
Proof.
  intros Hg Ht Hf Henc Hrange. unfold args_in_range in Hrange.
  apply andb_prop in Hrange. destruct Hrange as [Hrange H4].
  apply andb_prop in Hrange. destruct Hrange as [Hrange H3].
  apply andb_prop in Hrange. destruct Hrange as [H1 H2].
  destruct (mode_convertor_accepts E _ py Hg Ht Hf H1) as [Heq1 Hr1].
  destruct (quality_convertor_accepts _ py H2) as [Heq2 Hr2].
  destruct (lgwin_convertor_accepts _ py H3) as [Heq3 Hr3].
  destruct (lgblock_convertor_accepts _ py H4) as [Heq4 Hr4].
  unfold brotli_Compressor_init.
  rewrite Heq1. cbn [Z.eqb]. rewrite Heq2. cbn [Z.eqb].
  rewrite Heq3. cbn [Z.eqb]. rewrite Heq4. cbn [Z.eqb].
  rewrite Henc.
  rewrite (set_if_given_arg E BROTLI_PARAM_MODE _ _ Hr1
             (acceptable_int _ _ H1)).
  rewrite (set_if_given_arg E BROTLI_PARAM_QUALITY _ _ Hr2
             (acceptable_int _ _ H2)).
  rewrite (set_if_given_arg E BROTLI_PARAM_LGWIN _ _ Hr3
             (acceptable_int _ _ H3)).
  rewrite (set_if_given_arg E BROTLI_PARAM_LGBLOCK _ _ Hr4
             (acceptable_int _ _ H4)).
  cbn [fst snd app]. unfold given_parameters, parameter_events.
  rewrite !set_parameters_app, !map_app, !app_assoc. reflexivity.
Qed.

(** X5: a call of [Compressor] with arguments that are [int]s in range (or
    left out) succeeds when the object and its encoder can be created.  No
    error is set, and the encoder is given exactly the arguments that were
    passed, with their values, in the order mode, quality, lgwin, lgblock;
    a parameter that was left out is not set. *)
Theorem valid_arguments_are_accepted
    (E : Encoder) (e0 : BrotliEncoderState E) (args : Compressor_args)
    (py py1 : PyInterp) :
  0 <= BROTLI_MODE_GENERIC E <= 255 ->
  0 <= BROTLI_MODE_TEXT E <= 255 ->
  0 <= BROTLI_MODE_FONT E <= 255 ->
  request 0 py = (true, py1) ->
  BrotliEncoderCreateInstance E = Some e0 ->
  args_in_range E args = true ->
  Compressor E args py
  = (Some (mkCompressor
             (Some (set_parameters E e0 (given_parameters args)))),
     py1,
     EvEncoderCreateInstance true :: parameter_events (given_parameters args)).
Proof.
  intros Hg Ht Hf Hreq Hcreate Hrange.
  unfold Compressor, brotli_Compressor_new. rewrite Hreq, Hcreate.
  rewrite (init_accepts E (mkCompressor (Some e0)) e0 args py1 Hg Ht Hf
             eq_refl Hrange).
  reflexivity.
Qed.

Lemma valid_arguments_are_accepted_witness :
  Compressor Toy.encoder
    (mkArgs None (Some (PyLong 5)) None (Some (PyLong 16))) idle_py
  = (Some (@mkCompressor Toy.encoder (Some (Toy.mkEnc [] false))), idle_py,
     [EvEncoderCreateInstance true;
      EvEncoderSetParameter BROTLI_PARAM_QUALITY 5;
      EvEncoderSetParameter BROTLI_PARAM_LGBLOCK 16]).
Proof.
  apply (valid_arguments_are_accepted Toy.encoder (Toy.mkEnc [] false)
           (mkArgs None (Some (PyLong 5)) None (Some (PyLong 16)))
           idle_py idle_py).
  - cbn. lia.
  - cbn. lia.
  - cbn. lia.
  - reflexivity.
  - reflexivity.
  - reflexivity.
Defined.

Lemma init_needs_an_encoder (E : Encoder) (self self1 : brotli_Compressor E)
    (args : Compressor_args) (py py1 : PyInterp) (rc : Z)
    (evs : list event) :
  brotli_Compressor_init E self args py = (rc, self1, py1, evs) ->
  rc = -1 \/ (rc = 0 /\ exists e : BrotliEncoderState E, enc self1 = Some e).
Proof.
  unfold brotli_Compressor_init. intros H.
  destruct (convert (mode_convertor E) (arg_mode args) (-1) py)
    as [[r1 m] p1].
  cbv beta iota zeta in H.
  destruct (r1 =? 0);
    [cbv beta iota zeta in H; cbn [Z.eqb] in H; inversion H; left;
     reflexivity|].
  destruct (convert quality_convertor (arg_quality args) (-1) p1)
    as [[r2 q] p2].
  cbv beta iota zeta in H.
  destruct (r2 =? 0);
    [cbv beta iota zeta in H; cbn [Z.eqb] in H; inversion H; left;
     reflexivity|].
  destruct (convert lgwin_convertor (arg_lgwin args) (-1) p2)
    as [[r3 lw] p3].
  cbv beta iota zeta in H.
  destruct (r3 =? 0);
    [cbv beta iota zeta in H; cbn [Z.eqb] in H; inversion H; left;
     reflexivity|].
  destruct (convert lgblock_convertor (arg_lgblock args) (-1) p3)
    as [[r4 lb] p4].
  cbv beta iota zeta in H.
  destruct (r4 =? 0); [inversion H; left; reflexivity|].
  destruct (enc self) as [e|]; [|inversion H; left; reflexivity].
  destruct (set_if_given E BROTLI_PARAM_LGBLOCK lb _) as [e1 evs1].
  inversion H; subst. right. split; [reflexivity|]. exists e1. reflexivity.
Qed.

Lemma Decompressor_constructed (D : Decoder) (args : list PyObject)
    (keywds : list (string * PyObject)) (py py1 : PyInterp)
    (self : brotli_Decompressor D) (evs : list event) :
  Decompressor D args keywds py = (Some self, py1, evs) ->
  args = [] /\ keywds = [] /\
  exists d : BrotliDecoderState D,
    BrotliDecoderCreateInstance D = Some d /\ self = mkDecompressor (Some d).
Proof.
  intros H. unfold Decompressor, brotli_Decompressor_new in H.
  destruct (request 0 py) as [[|] py0]; [|discriminate].
  unfold brotli_Decompressor_init in H. cbn [dec] in H.
  destruct (length args + length keywds =? 0)%nat eqn:Hn;
    cbn [Z.eqb Z.ltb Z.compare] in H; [|discriminate].
  apply Nat.eqb_eq in Hn.
  destruct (BrotliDecoderCreateInstance D) as [d|] eqn:Hcreate;
    cbn [Z.ltb Z.compare] in H; [|discriminate].
  inversion H; subst; clear H.
  split; [destruct args; [reflexivity | cbn in Hn; lia]|].
  split; [destruct keywds; [reflexivity | cbn in Hn; lia]|].
  exists d. split; reflexivity.
Qed.

(** X6: an object obtained by calling the type holds an engine: a
    [Compressor] holds an encoder, and a [Decompressor], which takes no
    argument, holds the decoder that was created for it; [is_finished]
    then answers what the decoder says and sets no error.  The branches of
    the methods for a handle that is [NULL] are not taken on such
    objects. *)
Theorem constructed_objects_hold_an_engine (E : Encoder) (D : Decoder) :
  (forall (config : Compressor_args) (py py1 : PyInterp)
          (self : brotli_Compressor E) (evs : list event),
     Compressor E config py = (Some self, py1, evs) ->
     exists e : BrotliEncoderState E, enc self = Some e) /\
  (forall (args : list PyObject) (keywds : list (string * PyObject))
          (py py1 : PyInterp) (self : brotli_Decompressor D)
          (evs : list event),
     Decompressor D args keywds py = (Some self, py1, evs) ->
     args = [] /\ keywds = [] /\
     exists d : BrotliDecoderState D,
       BrotliDecoderCreateInstance D = Some d /\ dec self = Some d /\
       forall py' : PyInterp,
         brotli_Decompressor_is_finished D self py'
         = mkCall (Some (BrotliDecoderIsFinished D d)) self py'
             [EvDecoderIsFinished (BrotliDecoderIsFinished D d)]).
Proof.
  split.
  - intros config py py1 self evs H.
    unfold Compressor in H.
    destruct (brotli_Compressor_new E py) as [[[self0|] py0] evs0];
      [|discriminate].
    destruct (brotli_Compressor_init E self0 config py0)
      as [[[rc self1] py2] evs1] eqn:Hinit.
    apply init_needs_an_encoder in Hinit.
    destruct Hinit as [-> | (-> & e & He)]; cbn [Z.ltb Z.compare] in H.
    + discriminate.
    + inversion H; subst. exists e. assumption.
  - intros args keywds py py1 self evs H.
    apply Decompressor_constructed in H.
    destruct H as (Hargs & Hkw & d & Hcreate & ->).
    split; [assumption|]. split; [assumption|].
    exists d. repeat split. assumption.
Qed.

Lemma constructed_objects_hold_an_engine_witness :
  (exists e : Toy.encoder_state,
     enc (@mkCompressor Toy.encoder (Some (Toy.mkEnc [] false))) = Some e) /\
  (@nil PyObject = [] /\ @nil (string * PyObject) = [] /\
   exists d : Toy.decoder_state,
     BrotliDecoderCreateInstance Toy.decoder = Some d /\
     dec (@mkDecompressor Toy.decoder (Some (Toy.mkDec [] false false false)))
     = Some d /\
     forall py' : PyInterp,
       brotli_Decompressor_is_finished Toy.decoder
         (@mkDecompressor Toy.decoder
            (Some (Toy.mkDec [] false false false))) py'
       = mkCall (Some (BrotliDecoderIsFinished Toy.decoder d))
           (@mkDecompressor Toy.decoder
              (Some (Toy.mkDec [] false false false))) py'
           [EvDecoderIsFinished (BrotliDecoderIsFinished Toy.decoder d)]).
Proof.
  split.
  - apply (proj1 (constructed_objects_hold_an_engine Toy.encoder Toy.decoder)
             no_args idle_py idle_py
             (@mkCompressor Toy.encoder (Some (Toy.mkEnc [] false)))
             [EvEncoderCreateInstance true]).
    reflexivity.
  - apply (proj2 (constructed_objects_hold_an_engine Toy.encoder Toy.decoder)
             [] [] idle_py idle_py
             (@mkDecompressor Toy.decoder
                (Some (Toy.mkDec [] false false false)))
             [EvDecoderCreateInstance true]).
    reflexivity.
Defined.

(** ** The version string *)

Lemma substring_all (s : string) (n : nat) :
  (String.length s <= n)%nat -> substring 0 n s = s.
Proof.
  revert n. induction s as [|c s IH]; intros n H.
  - destruct n; reflexivity.
  - destruct n as [|n]; cbn in H; [lia|].
    cbn. rewrite IH by lia. reflexivity.
Qed.

Lemma length_append (s1 s2 : string) :
  String.length (s1 ++ s2) = (String.length s1 + String.length s2)%nat.
Proof. induction s1 as [|c s1 IH]; cbn; [reflexivity | rewrite IH; reflexivity]. Qed.

(** A number below 4096 is printed with no more than four digits. *)
Lemma decimal_short (n : Z) :
  0 <= n < 4096 -> (String.length (decimal n) <= 4)%nat.
Proof.
  intros Hn.
  assert (Hall : forallb (fun i => String.length (decimal (Z.of_nat i)) <=? 4)%nat
                   (seq 0 4096) = true) by (vm_compute; reflexivity).
  rewrite forallb_forall in Hall.
  specialize (Hall (Z.to_nat n)). rewrite Z2Nat.id in Hall by lia.
  apply Nat.leb_le, Hall, in_seq. lia.
Qed.

Lemma decimal_shorter (n : Z) :
  0 <= n < 128 -> (String.length (decimal n) <= 3)%nat.
Proof.
  intros Hn.
  assert (Hall : forallb (fun i => String.length (decimal (Z.of_nat i)) <=? 3)%nat
                   (seq 0 128) = true) by (vm_compute; reflexivity).
  rewrite forallb_forall in Hall.
  specialize (Hall (Z.to_nat n)). rewrite Z2Nat.id in Hall by lia.
  apply Nat.leb_le, Hall, in_seq. lia.
Qed.

(** The three fields of a packed version number. *)
Lemma version_fields (major minor patch : Z) :
  0 <= major -> 0 <= minor < 4096 -> 0 <= patch < 4096 ->
  let v := major * 2 ^ 24 + minor * 2 ^ 12 + patch in
  Z.shiftr v 24 = major /\
  Z.land (Z.shiftr v 12) 0xFFF = minor /\
  Z.land v 0xFFF = patch.
Proof.
  intros Hmajor Hminor Hpatch v.
  change 0xFFF with (Z.ones 12).
  rewrite !Z.land_ones, !Z.shiftr_div_pow2 by lia.
  assert (H12 : v / 2 ^ 12 = major * 2 ^ 12 + minor).
  { symmetry. apply (Z.div_unique v (2 ^ 12) _ patch); [lia|].
    unfold v. change (2 ^ 24) with (2 ^ 12 * 2 ^ 12). lia. }
  repeat split.
  - symmetry. apply (Z.div_unique v (2 ^ 24) _ (minor * 2 ^ 12 + patch));
      [|unfold v; lia].
    left. change (2 ^ 24) with 16777216. change (2 ^ 12) with 4096. lia.
  - rewrite H12. symmetry.
    apply (Z.mod_unique _ (2 ^ 12) major minor); [lia | lia].
  - symmetry. apply (Z.mod_unique v (2 ^ 12) (major * 2 ^ 12 + minor) patch);
      [lia|]. unfold v. change (2 ^ 24) with (2 ^ 12 * 2 ^ 12). lia.
Qed.

(** X7: for a version number that packs [major], [minor] and [patch] as
    [major << 24 | minor << 12 | patch], with [major] below 128 and [minor]
    and [patch] below 4096, the string exported as [__version__] is
    [major.minor.patch] in decimal; the 16 bytes of [version] hold it
    whole. *)
Theorem version_shows_the_three_fields (major minor patch : Z) :
  0 <= major < 128 -> 0 <= minor < 4096 -> 0 <= patch < 4096 ->
  version (major * 2 ^ 24 + minor * 2 ^ 12 + patch)
  = (decimal major ++ "." ++ decimal minor ++ "." ++ decimal patch)%string.
Proof.
  intros Hmajor Hminor Hpatch.
  destruct (version_fields major minor patch ltac:(lia) Hminor Hpatch)
    as (H1 & H2 & H3).
  unfold version. rewrite H1, H2, H3.
  unfold snprintf. apply substring_all.
  rewrite !length_append.
  pose proof (decimal_shorter major Hmajor).
  pose proof (decimal_short minor Hminor).
  pose proof (decimal_short patch Hpatch).
  cbn [String.length]. lia.
Qed.

Lemma version_shows_the_three_fields_witness :
  version (1 * 2 ^ 24 + 0 * 2 ^ 12 + 9) = "1.0.9"%string.
Proof.
  apply (version_shows_the_three_fields 1 0 9); lia.
Defined.

(** ** The two decompression loops *)

Section DecompressionLoops.

Variable D : Decoder.

(** X8: whenever [brotli.decompress] returns the decompressed bytes of an
    input, [process] of a new [Decompressor] returns the same bytes for that
    input and leaves the interpreter in the same state. *)
Theorem process_gives_what_decompress_gives
    (fuel : nat) (d0 : BrotliDecoderState D)
    (input : list byte) (py : PyInterp) (c : call_result unit block)
    (out : block) :
  BrotliDecoderCreateInstance D = Some d0 ->
  brotli_decompress D fuel (PyBytes input) py = Returns c ->
  ret c = Some out ->
  exists c' : call_result (brotli_Decompressor D) block,
    brotli_Decompressor_process D fuel (mkDecompressor (Some d0))
      (PyBytes input) py = Returns c' /\
    ret c' = Some out /\ interp c' = interp c.
Proof.
  intros Hcreate Hrun Hret.
  unfold brotli_decompress in Hrun.
  unfold brotli_Decompressor_process, decompress_stream. cbn [dec].
  destruct (BlocksOutputBuffer_InitAndGrow fresh_buffer fresh_window py)
    as [[[rc buffer] w] py1] eqn:Hinit.
  destruct (InitAndGrow_cases fresh_buffer fresh_window py)
    as [(buffer' & w' & py1' & Heq & _) | (py1' & Heq & _)];
    rewrite Hinit in Heq; inversion Heq; subst; clear Heq;
    cbn [Z.ltb Z.compare] in *.
  2:{ inversion Hrun; subst. discriminate. }
  rewrite Hcreate in Hrun.
  rewrite decompress_loops_agree.
  destruct (brotli_decompress_loop D fuel d0 input buffer' w' py1')
    as [e| |]; try discriminate.
  destruct (BrotliDecoderResult_eqb (le_status e)
              BROTLI_DECODER_RESULT_SUCCESS
            && (Py_SIZE (le_next_in e) =? 0)) eqn:Hcond.
  2:{ destruct (BlocksOutputBuffer_CleanUp (le_buffer e) (le_py e)).
      inversion Hrun; subst. discriminate. }
  apply andb_prop in Hcond. destruct Hcond as [Hst Hai].
  apply BrotliDecoderResult_eqb_eq in Hst.
  rewrite Hst, Hai. cbn [BrotliDecoderResult_eqb negb andb].
  destruct (BlocksOutputBuffer_Finish (le_buffer e)
              (avail_out (le_window e)) (le_py e))
    as [[[o b2] py2]| |]; try discriminate.
  inversion Hrun; subst; clear Hrun. cbn [ret] in Hret. subst o.
  cbn. eexists. split; [reflexivity|]. split; reflexivity.
Qed.

End DecompressionLoops.

Lemma process_gives_what_decompress_gives_witness :
  exists c' : call_result (brotli_Decompressor Toy.decoder) block,
    brotli_Decompressor_process Toy.decoder 1
      (@mkDecompressor Toy.decoder (Some (Toy.mkDec [] false false false)))
      (PyBytes [Byte.x01; Byte.x2a; Byte.x00]) idle_py = Returns c' /\
    ret c' = Some [Byte.x2a] /\
    interp c' = mkPy [] 1 Byte.x00 None.
Proof.
  apply (process_gives_what_decompress_gives Toy.decoder 1
           (Toy.mkDec [] false false false)
           [Byte.x01; Byte.x2a; Byte.x00] idle_py
           (mkCall (Some [Byte.x2a]) tt (mkPy [] 1 Byte.x00 None)
              [EvInitAndGrow 0; EvDecoderCreateInstance true;
               EvDecoderDecompressStream BROTLI_DECODER_RESULT_SUCCESS 0
                 32767;
               EvDecoderDestroyInstance; EvFinish 32767 true])
           [Byte.x2a]).
  - reflexivity.
  - vm_compute. reflexivity.
  - reflexivity.
Defined.

(** ** Round trips through the objects *)

Section ObjectRoundTrip.

Variables (E : Encoder) (D : Decoder) (K : codec E D).
Hypothesis contract : step_contract E D K.

(** [process] of a decompressor that holds a new decoder, on an encoding
    of [S]. *)
Lemma process_total (S C : list byte) (d0 : BrotliDecoderState D)
    (self : brotli_Decompressor D) (py : PyInterp) (fuel : nat) (room : Z) :
  dec self = Some d0 ->
  BrotliDecoderCreateInstance D = Some d0 ->
  Encodes K S C ->
  (length S < fuel)%nat ->
  grants py room ->
  room_for (Py_SIZE S) <= room ->
  exists c : call_result (brotli_Decompressor D) block,
    brotli_Decompressor_process D fuel self (PyBytes C) py = Returns c /\
    ret c = Some S /\ err (interp c) = err py /\
    grants (interp c) (room - Py_SIZE S).
Proof.
  intros Hself Hcreate Henc Hfuel Hgr Hroom.
  destruct (dec_create E D K contract S C Henc) as (d & Hcreate' & Hdec).
  rewrite Hcreate in Hcreate'. inversion Hcreate'; subst d; clear Hcreate'.
  destruct (StreamDriver_decompress_total E D K contract (length S) d0 C
              32768 1 [] S Hdec ltac:(lia))
    as (x & Hrun & Hst & Hnil & Hdone).
  { unfold Py_SIZE. cbn [length]. lia. }
  cbn [app] in Hdone.
  destruct (Decompressor_process_exact D fuel self d0 C py x room Hself
              (Hrun fuel Hfuel) Hgr ltac:(rewrite Hdone; assumption))
    as (c & Hcall & _ & Hret & Herr & Hgr' & _).
  rewrite Hst, Hnil, Hdone in *.
  cbn [BrotliDecoderResult_eqb negb Py_SIZE length Z.of_nat Z.eqb andb]
    in Hret, Herr, Hgr'.
  exists c. repeat (split; [assumption|]). assumption.
Qed.

End ObjectRoundTrip.

(** X9: for engines that keep the contract of a codec, [process] of a
    [Decompressor] that was just constructed, given a whole encoding of [S]
    and fuel for its loop, returns [S] and sets no error, on every
    interpreter that grants its requests and has room for the run. *)
Theorem Decompressor_round_trip
    (E : Encoder) (D : Decoder) (K : codec E D) (S C : list byte)
    (args : list PyObject) (keywds : list (string * PyObject))
    (py0 py1 py : PyInterp) (self : brotli_Decompressor D)
    (evs : list event) (fuel : nat) (room : Z) :
  step_contract E D K ->
  Encodes K S C ->
  Decompressor D args keywds py0 = (Some self, py1, evs) ->
  (length S < fuel)%nat ->
  grants py room ->
  room_for (Py_SIZE S) <= room ->
  exists c : call_result (brotli_Decompressor D) block,
    brotli_Decompressor_process D fuel self (PyBytes C) py = Returns c /\
    ret c = Some S /\ err (interp c) = err py.
Proof.
  intros contract Henc Hnew Hfuel Hgr Hroom.
  apply Decompressor_constructed in Hnew.
  destruct Hnew as (_ & _ & d & Hcreate & ->).
  destruct (process_total E D K contract S C d (mkDecompressor (Some d)) py
              fuel room eq_refl Hcreate Henc Hfuel Hgr Hroom)
    as (c & Hcall & Hret & Herr & _).
  exists c. repeat (split; [assumption|]). assumption.
Qed.

Lemma Decompressor_round_trip_witness :
  exists c : call_result (brotli_Decompressor Toy.decoder) block,
    brotli_Decompressor_process Toy.decoder 3
      (@mkDecompressor Toy.decoder (Some (Toy.mkDec [] false false false)))
      (PyBytes [Byte.x01; Byte.x2a; Byte.x01; Byte.x2b; Byte.x00]) idle_py
    = Returns c /\
    ret c = Some [Byte.x2a; Byte.x2b] /\ err (interp c) = err idle_py.
Proof.
  apply (Decompressor_round_trip Toy.encoder Toy.decoder toy_codec
           [Byte.x2a; Byte.x2b]
           [Byte.x01; Byte.x2a; Byte.x01; Byte.x2b; Byte.x00] [] []
           idle_py idle_py idle_py
           (@mkDecompressor Toy.decoder
              (Some (Toy.mkDec [] false false false)))
           [EvDecoderCreateInstance true] 3 32778).
  - exact toy_codec_contract.
  - reflexivity.
  - reflexivity.
  - cbn. lia.
  - apply idle_py_grants. vm_compute. split; discriminate.
  - vm_compute. discriminate.
Defined.

Section PiecewiseCompression.

Variables (E : Encoder) (D : Decoder) (K : codec E D).
Hypothesis contract : step_contract E D K.

(** One [process] or [flush] call on an open encoder: what it returns is
    what the encoder wrote for the input handed over, and the encoder stays
    open. *)
Lemma method_call_total (c0 : method_call) (e : BrotliEncoderState E)
    (I O : list byte) :
  Enc_inv K e I O false ->
  exists (out : list byte) (e' : BrotliEncoderState E) (fuel0 : nat),
    Enc_inv K e' (I ++ processed [c0]) (O ++ out) false /\
    forall (fuel : nat) (room : Z) (py : PyInterp),
      (fuel0 <= fuel)%nat ->
      grants py room ->
      room_for (Py_SIZE out) <= room ->
      exists c : call_result (brotli_Compressor E) block,
        match c0 with
        | call_process s =>
            brotli_Compressor_process E fuel (mkCompressor (Some e))
              (PyBytes s) py
        | call_flush =>
            brotli_Compressor_flush E fuel (mkCompressor (Some e)) py
        end = Returns c /\
        ret c = Some out /\
        self_after c = mkCompressor (Some e') /\
        grants (interp c) (room - Py_SIZE out) /\
        err (interp c) = err py.
Proof.
  intros Henc.
  set (op := match c0 with
             | call_process _ => BROTLI_OPERATION_PROCESS
             | call_flush => BROTLI_OPERATION_FLUSH
             end).
  set (inp := match c0 with call_process s => s | call_flush => [] end).
  assert (Hinp : processed [c0] = inp).
  { unfold processed, inp. cbn [map concat]. rewrite app_nil_r.
    reflexivity. }
  assert (Hop : is_FINISH op = false) by (destruct c0; reflexivity).
  destruct (StreamDriver_compress_total E D K contract (enc_measure K e inp)
              e op inp 32768 1 I O false Henc ltac:(discriminate)
              ltac:(lia) (Nat.le_refl _))
    as (x & Hrun & Hst & Hinv' & _).
  rewrite Hop in Hinv'. cbn [orb] in Hinv'.
  exists (re_stream x), (re_state x), (Datatypes.S (enc_measure K e inp)).
  rewrite Hinp. split; [assumption|].
  intros fuel room py Hfuel Hgr Hroom.
  destruct (compress_stream_exact E fuel e op inp py x room
              (Hrun fuel ltac:(lia)) Hgr Hroom)
    as (py' & Hstream & Hgr' & Herr).
  rewrite Hst in Hstream, Hgr'.
  subst op inp.
  destruct c0 as [s|];
    unfold brotli_Compressor_process, brotli_Compressor_flush;
    cbn [enc]; rewrite Hstream; cbn [ok output engine py_after trace];
    eexists; (split; [reflexivity|]);
    cbn [ret self_after interp];
    repeat (split; [reflexivity || assumption|]); assumption.
Qed.

(** A sequence of [process] and [flush] calls on an open encoder: with
    enough fuel every call returns, and the outputs joined are what the
    encoder wrote for the inputs joined. *)
Lemma Compressor_calls_total (cs : list method_call) :
  forall (e : BrotliEncoderState E) (I O : list byte),
    Enc_inv K e I O false ->
    exists (out : list byte) (e' : BrotliEncoderState E) (fuel0 : nat),
      Enc_inv K e' (I ++ processed cs) (O ++ out) false /\
      forall (fuel : nat) (room : Z) (py : PyInterp),
        (fuel0 <= fuel)%nat ->
        grants py room ->
        room_for (Py_SIZE out) <= room ->
        exists c : call_result (brotli_Compressor E) block,
          Compressor_calls E fuel (mkCompressor (Some e)) cs py = Returns c /\
          ret c = Some out /\
          self_after c = mkCompressor (Some e') /\
          grants (interp c) (room - Py_SIZE out) /\
          err (interp c) = err py.
Proof.
  induction cs as [|c0 cs IH]; intros e I O Henc.
  - exists [], e, 0%nat. cbn [processed map concat]. rewrite !app_nil_r.
    split; [assumption|].
    intros fuel room py _ Hgr _. eexists. split; [reflexivity|].
    cbn [ret self_after interp Py_SIZE length Z.of_nat].
    rewrite Z.sub_0_r. repeat (split; [reflexivity || assumption|]).
    reflexivity.
  - destruct (method_call_total c0 e I O Henc)
      as (out1 & e1 & fuel1 & Henc1 & Hfirst).
    destruct (IH e1 _ _ Henc1) as (out2 & e2 & fuel2 & Henc2 & Hrest).
    exists (out1 ++ out2), e2, (Nat.max fuel1 fuel2).
    assert (Hjoin : processed (c0 :: cs) = processed [c0] ++ processed cs).
    { unfold processed. cbn [map concat]. rewrite app_nil_r. reflexivity. }
    rewrite Hjoin, !app_assoc. split; [assumption|].
    intros fuel room py Hfuel Hgr Hroom.
    unfold room_for in Hroom. rewrite Py_SIZE_app in Hroom.
    pose proof (Py_SIZE_nonneg out1) as Hnn1.
    pose proof (Py_SIZE_nonneg out2) as Hnn2.
    destruct (Hfirst fuel room py ltac:(lia) Hgr
                ltac:(unfold room_for; lia))
      as (c1 & Hcall1 & Hret1 & Hself1 & Hgr1 & Herr1).
    destruct (Hrest fuel (room - Py_SIZE out1) (interp c1) ltac:(lia) Hgr1
                ltac:(unfold room_for; lia))
      as (c2 & Hcall2 & Hret2 & Hself2 & Hgr2 & Herr2).
    cbn [Compressor_calls]. rewrite Hcall1, Hret1, Hself1, Hcall2, Hret2.
    eexists. split; [reflexivity|]. cbn [ret self_after interp].
    split; [reflexivity|]. split; [assumption|]. split; [|congruence].
    rewrite Py_SIZE_app.
    replace (room - (Py_SIZE out1 + Py_SIZE out2))
      with (room - Py_SIZE out1 - Py_SIZE out2) by lia.
    assumption.
Qed.

(** The whole stream that the calls and [finish] give encodes the input
    handed over. *)
Lemma in_pieces_total (config : Compressor_args) (cs : list method_call)
    (py py1 : PyInterp) (self : brotli_Compressor E) (evs : list event) :
  Compressor E config py = (Some self, py1, evs) ->
  exists (C : list byte) (fuel0 : nat),
    Encodes K (processed cs) C /\
    forall (fuel : nat) (room : Z),
      (fuel0 <= fuel)%nat ->
      grants py1 room ->
      room_for (Py_SIZE C) <= room ->
      exists c : call_result unit block,
        compress_in_pieces E fuel config cs py = Returns c /\
        ret c = Some C /\ err (interp c) = err py1.
Proof.
  intros Hnew.
  destruct (Compressor_constructed E D K contract config py py1 self evs Hnew)
    as (e & Henc & Hinv).
  assert (Hself : self = mkCompressor (Some e))
    by (destruct self as [x]; cbn in Henc; rewrite Henc; reflexivity).
  subst self.
  destruct (Compressor_calls_total cs e [] [] Hinv)
    as (out1 & e1 & fuel1 & Hinv1 & Hcalls).
  cbn [app] in Hinv1.
  destruct (StreamDriver_compress_total E D K contract (enc_measure K e1 [])
              e1 BROTLI_OPERATION_FINISH [] 32768 1 (processed cs) out1
              false Hinv1 ltac:(discriminate) ltac:(lia) (Nat.le_refl _))
    as (x & Hrun & Hst & Hinv2 & Hmore).
  cbn [orb is_FINISH] in Hinv2. rewrite app_nil_r in Hinv2.
  destruct (enc_complete E D K contract _ _ _ Hinv2 Hmore)
    as [Hfinished Hencodes].
  exists (out1 ++ re_stream x),
         (Nat.max fuel1 (Datatypes.S (enc_measure K e1 []))).
  split; [assumption|].
  intros fuel room Hfuel Hgr Hroom.
  unfold room_for in Hroom. rewrite Py_SIZE_app in Hroom.
  pose proof (Py_SIZE_nonneg out1) as Hnn1.
  pose proof (Py_SIZE_nonneg (re_stream x)) as Hnn2.
  destruct (Hcalls fuel room py1 ltac:(lia) Hgr ltac:(unfold room_for; lia))
    as (c1 & Hcall1 & Hret1 & Hself1 & Hgr1 & Herr1).
  destruct (compress_stream_exact E fuel e1 BROTLI_OPERATION_FINISH []
              (interp c1) x (room - Py_SIZE out1) (Hrun fuel ltac:(lia)) Hgr1
              ltac:(unfold room_for; lia))
    as (py' & Hstream & _ & Herr2).
  rewrite Hst in Hstream.
  unfold compress_in_pieces, brotli_Compressor_finish.
  rewrite Hnew, Hcall1, Hret1, Hself1. cbn [enc].
  rewrite Hstream. cbn [ok output engine py_after trace].
  rewrite Hfinished. cbn [ret interp].
  eexists. split; [reflexivity|]. cbn [ret interp].
  split; [reflexivity | congruence].
Qed.

End PiecewiseCompression.

(** X10: compression in pieces.  For engines that keep the contract of a
    codec, any sequence of [process] and [flush] calls on a compressor,
    followed by [finish], gives outputs that, joined in the order of the
    calls, decompress to the inputs of the [process] calls joined in that
    order.  There is a stream [C] that encodes the inputs joined such that,
    with fuel for the loops,
    - the calls and [finish] return pieces that joined are [C], on every
      interpreter that grants the requests and has room for the run;
    - [brotli.decompress] of [C] returns the inputs joined on every such
      interpreter. *)
Theorem compression_in_pieces_round_trip
    (E : Encoder) (D : Decoder) (K : codec E D)
    (config : Compressor_args) (cs : list method_call)
    (py py1 : PyInterp) (self : brotli_Compressor E)
    (evs : list event) :
  step_contract E D K ->
  Compressor E config py = (Some self, py1, evs) ->
  exists (C : list byte) (fuel0 : nat),
    Encodes K (processed cs) C /\
    (forall (fuel : nat) (room : Z),
       (fuel0 <= fuel)%nat ->
       grants py1 room ->
       room_for (Py_SIZE C) <= room ->
       exists c : call_result unit block,
         compress_in_pieces E fuel config cs py = Returns c /\
         ret c = Some C) /\
    (forall (fuel : nat) (room : Z) (py' : PyInterp),
       (fuel0 <= fuel)%nat ->
       grants py' room ->
       room_for (Py_SIZE (processed cs)) <= room ->
       exists c' : call_result unit block,
         brotli_decompress D fuel (PyBytes C) py' = Returns c' /\
         ret c' = Some (processed cs)).
Proof.
  intros contract Hnew.
  destruct (in_pieces_total E D K contract config cs py py1 self evs Hnew)
    as (C & fuel1 & Hencodes & Hcompress).
  exists C, (Nat.max fuel1 (Datatypes.S (length (processed cs)))).
  split; [assumption|]. split.
  - intros fuel room Hfuel Hgr Hroom.
    destruct (Hcompress fuel room ltac:(lia) Hgr Hroom)
      as (c & Hcall & Hret & _).
    exists c. split; assumption.
  - intros fuel room py' Hfuel Hgr Hroom.
    destruct (decompress_total E D K contract (processed cs) C fuel py' room
                Hencodes ltac:(lia) Hgr Hroom)
      as (c' & Hcall & Hret & _).
    exists c'. split; assumption.
Qed.

(** Three calls and [finish] on the small codec, computed. *)
Lemma two_pieces_and_a_flush :
  compress_in_pieces Toy.encoder 2 no_args
    [call_process [Byte.x2a]; call_flush; call_process [Byte.x2b]] idle_py
  = Returns
      (mkCall (Some [Byte.x01; Byte.x2a; Byte.x01; Byte.x2b; Byte.x00]) tt
         (mkPy [] 5 Byte.x00 None)
         [EvEncoderCreateInstance true; EvInitAndGrow 0;
          EvEncoderCompressStream BROTLI_OPERATION_PROCESS true 0 32766;
          EvEncoderHasMoreOutput false; EvFinish 32766 true;
          EvInitAndGrow 0;
          EvEncoderCompressStream BROTLI_OPERATION_FLUSH true 0 32768;
          EvEncoderHasMoreOutput false; EvFinish 32768 true;
          EvInitAndGrow 0;
          EvEncoderCompressStream BROTLI_OPERATION_PROCESS true 0 32766;
          EvEncoderHasMoreOutput false; EvFinish 32766 true;
          EvInitAndGrow 0;
          EvEncoderCompressStream BROTLI_OPERATION_FINISH true 0 32767;
          EvEncoderHasMoreOutput false; EvFinish 32767 true;
          EvEncoderIsFinished true; EvEncoderDestroyInstance]) /\
  brotli_decompress Toy.decoder 3
    (PyBytes [Byte.x01; Byte.x2a; Byte.x01; Byte.x2b; Byte.x00]) idle_py
  = Returns (mkCall (Some [Byte.x2a; Byte.x2b]) tt (mkPy [] 2 Byte.x00 None)
               [EvInitAndGrow 0; EvDecoderCreateInstance true;
                EvDecoderDecompressStream BROTLI_DECODER_RESULT_SUCCESS
                  0 32766;
                EvDecoderDestroyInstance; EvFinish 32766 true]).
Proof. split; vm_compute; reflexivity. Qed.

Lemma compression_in_pieces_round_trip_witness :
  exists (C : list byte) (fuel : nat),
    C = [Byte.x01; Byte.x2a; Byte.x01; Byte.x2b; Byte.x00] /\
    (exists c : call_result unit block,
       compress_in_pieces Toy.encoder fuel no_args
         [call_process [Byte.x2a]; call_flush; call_process [Byte.x2b]]
         idle_py = Returns c /\
       ret c = Some C) /\
    (exists c' : call_result unit block,
       brotli_decompress Toy.decoder fuel (PyBytes C) idle_py = Returns c' /\
       ret c' = Some [Byte.x2a; Byte.x2b]).
Proof.
  destruct (compression_in_pieces_round_trip Toy.encoder Toy.decoder
              toy_codec no_args
              [call_process [Byte.x2a]; call_flush; call_process [Byte.x2b]]
              idle_py idle_py
              (@mkCompressor Toy.encoder (Some (Toy.mkEnc [] false)))
              [EvEncoderCreateInstance true] toy_codec_contract eq_refl)
    as (C & fuel0 & Hencodes & Hcompress & Hdecompress).
  cbn in Hencodes. subst C.
  exists [Byte.x01; Byte.x2a; Byte.x01; Byte.x2b; Byte.x00], fuel0.
  split; [reflexivity|]. split.
  - apply (Hcompress fuel0 32793 (Nat.le_refl _)).
    + apply idle_py_grants. vm_compute. split; discriminate.
    + vm_compute. discriminate.
  - apply (Hdecompress fuel0 32778 idle_py (Nat.le_refl _)).
    + apply idle_py_grants. vm_compute. split; discriminate.
    + vm_compute. discriminate.
Defined.

(** ** The room offered to the engines *)

Section OfferedRoom.

Variable E : Encoder.
Variable f : BrotliEncoderState E -> BrotliEncoderOperation -> list byte ->
             Z -> step (BrotliEncoderState E) bool.
Hypothesis f_with_room :
  forall (e : BrotliEncoderState E) (op : BrotliEncoderOperation)
         (inp : list byte) (ao : Z),
    0 < ao -> f e op inp ao = BrotliEncoderCompressStream E e op inp ao.

Lemma compress_loop_offers_room (fuel : nat) :
  forall (e : BrotliEncoderState E) (op : BrotliEncoderOperation)
         (next_in : list byte) (buffer : BlocksOutputBuffer) (w : window)
         (py : PyInterp) (data : list byte),
    buffer_inv buffer w py data ->
    0 < avail_out w ->
    compress_loop (with_encoder_step E f) fuel e op next_in buffer w py
    = compress_loop E fuel e op next_in buffer w py.
Proof.
  induction fuel as [|fuel IH];
    intros e op next_in buffer w py data Hinv Hroom; [reflexivity|].
  cbn [compress_loop].
  cbn [with_encoder_step BrotliEncoderState BrotliEncoderCompressStream
       BrotliEncoderHasMoreOutput].
  rewrite (f_with_room e op next_in (avail_out w) Hroom).
  remember (BrotliEncoderCompressStream E e op next_in (avail_out w))
    as s eqn:Hs.
  pose proof (store_inv buffer w py data (written s) Hinv) as Hinv1.
  destruct (store buffer w (written s)) as [buffer1 w1].
  cbn [fst snd] in Hinv1.
  destruct (negb (status s)); [reflexivity|].
  destruct (avail_out w1 =? 0) eqn:Hzero.
  - apply Z.eqb_eq in Hzero.
    destruct (Grow_cases _ _ _ _ Hinv1 Hzero) as (l & Hl & [Hok | Hfail]).
    + destruct Hok as (nb & py1 & _ & _ & _ & _ & Heq & Hinv2).
      rewrite Heq. cbn [threads_allowed Z.ltb Z.compare].
      pose proof (scheduled_size_bounds (length l)) as Hbs.
      rewrite (IH (next_state s) op _ _ _ _ _ Hinv2)
        by (cbn [avail_out]; lia).
      reflexivity.
    + destruct Hfail as (py1 & _ & _ & Heq). rewrite Heq. reflexivity.
  - apply Z.eqb_neq in Hzero. cbn [Z.ltb Z.compare].
    assert (Hroom1 : 0 < avail_out w1).
    { destruct Hinv1 as (l0 & b & _ & _ & _ & _ & Hwin & _). lia. }
    rewrite (IH (next_state s) op _ _ _ _ _ Hinv1 Hroom1). reflexivity.
Qed.

Lemma compress_stream_offers_room (fuel : nat) (e : BrotliEncoderState E)
    (op : BrotliEncoderOperation) (input : list byte) (py : PyInterp) :
  compress_stream (with_encoder_step E f) fuel e op input py
  = compress_stream E fuel e op input py.
Proof.
  unfold compress_stream.
  destruct (InitAndGrow_cases fresh_buffer fresh_window py)
    as [(buffer & w & py1 & Heq & Hinv & Hroom & _) | (py1 & Heq & _)];
    rewrite Heq; cbn [Z.ltb Z.compare]; [|reflexivity].
  rewrite (compress_loop_offers_room fuel e op input _ _ _ _ Hinv)
    by lia.
  reflexivity.
Qed.

End OfferedRoom.

Section OfferedRoomDecoder.

Variable D : Decoder.
Variable f : BrotliDecoderState D -> list byte -> Z ->
             step (BrotliDecoderState D) BrotliDecoderResult.
Hypothesis f_with_room :
  forall (d : BrotliDecoderState D) (inp : list byte) (ao : Z),
    0 < ao -> f d inp ao = BrotliDecoderDecompressStream D d inp ao.

Lemma decompress_stream_loop_offers_room (fuel : nat) :
  forall (d : BrotliDecoderState D) (next_in : list byte)
         (buffer : BlocksOutputBuffer) (w : window) (py : PyInterp)
         (data : list byte),
    buffer_inv buffer w py data ->
    0 < avail_out w ->
    decompress_stream_loop (with_decoder_step D f) fuel d next_in buffer w py
    = decompress_stream_loop D fuel d next_in buffer w py.
Proof.
  induction fuel as [|fuel IH];
    intros d next_in buffer w py data Hinv Hroom; [reflexivity|].
  cbn [decompress_stream_loop].
  cbn [with_decoder_step BrotliDecoderState BrotliDecoderDecompressStream].
  rewrite (f_with_room d next_in (avail_out w) Hroom).
  remember (BrotliDecoderDecompressStream D d next_in (avail_out w))
    as s eqn:Hs.
  pose proof (store_inv buffer w py data (written s) Hinv) as Hinv1.
  destruct (store buffer w (written s)) as [buffer1 w1].
  cbn [fst snd] in Hinv1.
  destruct (avail_out w1 =? 0) eqn:Hzero.
  - apply Z.eqb_eq in Hzero.
    destruct (Grow_cases _ _ _ _ Hinv1 Hzero) as (l & Hl & [Hok | Hfail]).
    + destruct Hok as (nb & py1 & _ & _ & _ & _ & Heq & Hinv2).
      rewrite Heq. cbn [threads_allowed Z.ltb Z.compare].
      pose proof (scheduled_size_bounds (length l)) as Hbs.
      rewrite (IH (next_state s) _ _ _ _ _ Hinv2) by (cbn [avail_out]; lia).
      reflexivity.
    + destruct Hfail as (py1 & _ & _ & Heq). rewrite Heq. reflexivity.
  - apply Z.eqb_neq in Hzero.
    assert (Hroom1 : 0 < avail_out w1).
    { destruct Hinv1 as (l0 & b & _ & _ & _ & _ & Hwin & _). lia. }
    rewrite (IH (next_state s) _ _ _ _ _ Hinv1 Hroom1). reflexivity.
Qed.

Lemma brotli_decompress_loop_offers_room (fuel : nat) :
  forall (d : BrotliDecoderState D) (next_in : list byte)
         (buffer : BlocksOutputBuffer) (w : window) (py : PyInterp)
         (data : list byte),
    buffer_inv buffer w py data ->
    0 < avail_out w ->
    brotli_decompress_loop (with_decoder_step D f) fuel d next_in buffer w py
    = brotli_decompress_loop D fuel d next_in buffer w py.
Proof.
  induction fuel as [|fuel IH];
    intros d next_in buffer w py data Hinv Hroom; [reflexivity|].
  cbn [brotli_decompress_loop].
  cbn [with_decoder_step BrotliDecoderState BrotliDecoderDecompressStream].
  rewrite (f_with_room d next_in (avail_out w) Hroom).
  remember (BrotliDecoderDecompressStream D d next_in (avail_out w))
    as s eqn:Hs.
  pose proof (store_inv buffer w py data (written s) Hinv) as Hinv1.
  destruct (store buffer w (written s)) as [buffer1 w1].
  cbn [fst snd] in Hinv1.
  destruct (avail_out w1 =? 0) eqn:Hzero.
  - apply Z.eqb_eq in Hzero.
    destruct (Grow_cases _ _ _ _ Hinv1 Hzero) as (l & Hl & [Hok | Hfail]).
    + destruct Hok as (nb & py1 & _ & _ & _ & _ & Heq & Hinv2).
      rewrite Heq. cbn [threads_allowed Z.ltb Z.compare].
      pose proof (scheduled_size_bounds (length l)) as Hbs.
      rewrite (IH (next_state s) _ _ _ _ _ Hinv2) by (cbn [avail_out]; lia).
      reflexivity.
    + destruct Hfail as (py1 & _ & _ & Heq). rewrite Heq. reflexivity.
  - apply Z.eqb_neq in Hzero.
    assert (Hroom1 : 0 < avail_out w1).
    { destruct Hinv1 as (l0 & b & _ & _ & _ & _ & Hwin & _). lia. }
    rewrite (IH (next_state s) _ _ _ _ _ Hinv1 Hroom1). reflexivity.
Qed.

Lemma decompress_stream_offers_room (fuel : nat) (d : BrotliDecoderState D)
    (input : list byte) (py : PyInterp) :
  decompress_stream (with_decoder_step D f) fuel d input py
  = decompress_stream D fuel d input py.
Proof.
  unfold decompress_stream.
  destruct (InitAndGrow_cases fresh_buffer fresh_window py)
    as [(buffer & w & py1 & Heq & Hinv & Hroom & _) | (py1 & Heq & _)];
    rewrite Heq; cbn [Z.ltb Z.compare]; [|reflexivity].
  rewrite (decompress_stream_loop_offers_room fuel d input _ _ _ _ Hinv)
    by lia.
  reflexivity.
Qed.

Lemma brotli_decompress_offers_room (fuel : nat) (string : PyObject)
    (py : PyInterp) :
  brotli_decompress (with_decoder_step D f) fuel string py
  = brotli_decompress D fuel string py.
Proof.
  unfold brotli_decompress. destruct string as [v|input|]; try reflexivity.
  destruct (InitAndGrow_cases fresh_buffer fresh_window py)
    as [(buffer & w & py1 & Heq & Hinv & Hroom & _) | (py1 & Heq & _)];
    rewrite Heq; cbn [Z.ltb Z.compare]; [|reflexivity].
  change (BrotliDecoderCreateInstance (with_decoder_step D f))
    with (BrotliDecoderCreateInstance D).
  destruct (BrotliDecoderCreateInstance D) as [state|]; [|reflexivity].
  rewrite (brotli_decompress_loop_offers_room fuel state input _ _ _ _ Hinv)
    by lia.
  reflexivity.
Qed.

End OfferedRoomDecoder.

(** X11: the drivers never step an engine on an empty output window: the
    room offered is positive at every call of
    [BrotliEncoderCompressStream] and [BrotliDecoderDecompressStream].
    What an engine would do when offered no room therefore has no effect on
    a run of [compress_stream], of [decompress_stream] or of
    [brotli.decompress]. *)
Theorem engines_are_offered_room :
  (forall (E : Encoder)
          (f : BrotliEncoderState E -> BrotliEncoderOperation -> list byte ->
               Z -> step (BrotliEncoderState E) bool),
     (forall (e : BrotliEncoderState E) (op : BrotliEncoderOperation)
             (inp : list byte) (ao : Z),
        0 < ao -> f e op inp ao = BrotliEncoderCompressStream E e op inp ao)
     ->
     forall (fuel : nat) (e : BrotliEncoderState E)
            (op : BrotliEncoderOperation) (input : list byte)
            (py : PyInterp),
       compress_stream (with_encoder_step E f) fuel e op input py
       = compress_stream E fuel e op input py) /\
  (forall (D : Decoder)
          (f : BrotliDecoderState D -> list byte -> Z ->
               step (BrotliDecoderState D) BrotliDecoderResult),
     (forall (d : BrotliDecoderState D) (inp : list byte) (ao : Z),
        0 < ao -> f d inp ao = BrotliDecoderDecompressStream D d inp ao) ->
     forall (fuel : nat) (input : list byte) (py : PyInterp),
       (forall d : BrotliDecoderState D,
          decompress_stream (with_decoder_step D f) fuel d input py
          = decompress_stream D fuel d input py) /\
       brotli_decompress (with_decoder_step D f) fuel (PyBytes input) py
       = brotli_decompress D fuel (PyBytes input) py).
Proof.
  split.
  - intros E f Hf fuel e op input py.
    apply compress_stream_offers_room. assumption.
  - intros D f Hf fuel input py. split.
    + intros d. apply decompress_stream_offers_room. assumption.
    + apply brotli_decompress_offers_room. assumption.
Qed.

Lemma needing_room_with_room :
  (forall (e : Toy.encoder_state) (op : BrotliEncoderOperation)
          (inp : list byte) (ao : Z),
     0 < ao ->
     encoder_step_needing_room e op inp ao = Toy.encoder_step e op inp ao) /\
  (forall (d : Toy.decoder_state) (inp : list byte) (ao : Z),
     0 < ao ->
     decoder_step_needing_room d inp ao = Toy.decoder_step d inp ao).
Proof.
  split; intros; unfold encoder_step_needing_room, decoder_step_needing_room;
    replace (0 <? ao) with true by (symmetry; apply Z.ltb_lt; assumption);
    reflexivity.
Qed.

Lemma engines_are_offered_room_witness :
  (forall (fuel : nat) (e : Toy.encoder_state) (op : BrotliEncoderOperation)
          (input : list byte) (py : PyInterp),
     compress_stream (with_encoder_step Toy.encoder encoder_step_needing_room)
       fuel e op input py
     = compress_stream Toy.encoder fuel e op input py) /\
  (forall (fuel : nat) (input : list byte) (py : PyInterp),
     (forall d : Toy.decoder_state,
        decompress_stream
          (with_decoder_step Toy.decoder decoder_step_needing_room)
          fuel d input py
        = decompress_stream Toy.decoder fuel d input py) /\
     brotli_decompress
       (with_decoder_step Toy.decoder decoder_step_needing_room)
       fuel (PyBytes input) py
     = brotli_decompress Toy.decoder fuel (PyBytes input) py).
Proof.
  split.
  - apply (proj1 engines_are_offered_room Toy.encoder
             encoder_step_needing_room).
    exact (proj1 needing_room_with_room).
  - apply (proj2 engines_are_offered_room Toy.decoder
             decoder_step_needing_room).
    exact (proj2 needing_room_with_room).
Defined.

(** ** Decompression in pieces *)

Section PiecewiseDecompression.

Variables (E : Encoder) (D : Decoder) (K : codec E D) (P : piecewise E D K).
Hypothesis contract : piecewise_contract E D K P.

Variables S C : list byte.

(** The loop of the spec on the next piece of the stream: it ends, having
    read the whole piece, without an error of the decoder. *)
Lemma StreamDriver_decompress_piece (n : nat) :
  forall (d : BrotliDecoderState D) (inp : list byte) (ao : Z)
         (chunks : nat) (R W rest : list byte),
    Read_inv P d R W S C ->
    C = R ++ inp ++ rest ->
    0 < ao ->
    (read_measure P d inp <= n)%nat ->
    exists x : run_end (BrotliDecoderState D) BrotliDecoderResult,
      (forall fuel : nat,
         (n < fuel)%nat ->
         StreamDriver_decompress D fuel d inp ao chunks = Some x) /\
      re_status x <> BROTLI_DECODER_RESULT_ERROR /\
      re_next_in x = [] /\
      Read_inv P (re_state x) (R ++ inp) (W ++ re_stream x) S C /\
      (rest = [] -> W ++ re_stream x = S).
Proof.
  induction n as [n IH] using lt_wf_ind.
  intros d inp ao chunks R W rest Hread Hsplit Hroom Hmeasure.
  pose proof (pw_step E D K P contract d R W S C inp rest ao Hread Hsplit
                Hroom) as Hstep.
  cbv zeta in Hstep.
  remember (BrotliDecoderDecompressStream D d inp ao) as s eqn:Hs.
  destruct Hstep as (Hcons & Hwr & Hread1 & Hcases).
  assert (Hall : firstn (Z.to_nat ao) (written s) = written s)
    by (apply firstn_all2; unfold Py_SIZE in *; lia).
  remember (advance_in inp (consumed s)) as inp1 eqn:Hinp1.
  assert (Hparts : inp = firstn (Z.to_nat (consumed s)) inp ++ inp1)
    by (subst inp1; unfold advance_in; symmetry; apply firstn_skipn).
  set (left := ao - Py_SIZE (written s)).
  set (grown := if left =? 0
                then (capacity chunks, Datatypes.S chunks, [EvGrow 0])
                else (left, chunks, @nil event)).
  assert (Hunfold : forall fuel : nat,
            StreamDriver_decompress D (Datatypes.S fuel) d inp ao chunks
            = let '(room, chunks1, evg) := grown in
              let ev := EvDecoderDecompressStream (status s) (Py_SIZE inp1)
                          left in
              if BrotliDecoderResult_eqb (status s)
                   BROTLI_DECODER_RESULT_NEEDS_MORE_OUTPUT
              then after_step (written s) (ev :: evg)
                     (StreamDriver_decompress D fuel (next_state s) inp1
                        room chunks1)
              else Some (mkRunEnd (status s) (next_state s) inp1
                           (written s) room chunks1 (ev :: evg))).
  { intros fuel. cbn [StreamDriver_decompress].
    rewrite <- Hs, Hall, <- Hinp1. reflexivity. }
  assert (Hgrown : 0 < fst (fst grown)).
  { unfold grown. destruct (left =? 0) eqn:Hzero; cbn [fst].
    - apply capacity_positive.
    - apply Z.eqb_neq in Hzero. unfold left in *. lia. }
  destruct grown as [[room chunks1] evg]. cbn [fst] in Hgrown.
  assert (Hwhole : consumed s = Py_SIZE inp ->
                   inp1 = [] /\ firstn (Z.to_nat (consumed s)) inp = inp).
  { intros Hc. assert (Hnil : inp1 = []).
    { subst inp1. unfold advance_in. apply skipn_all2.
      unfold Py_SIZE in Hc. lia. }
    split; [assumption|].
    rewrite Hparts at 2. rewrite Hnil, app_nil_r. reflexivity. }
  destruct Hcases as [(Hst & Hless)
                     | [(Hst & Hc & Hrest) | (Hst & Hc & Hrest & Hdone)]].
  - (* more output *)
    assert (Hsplit1 : C = (R ++ firstn (Z.to_nat (consumed s)) inp)
                          ++ inp1 ++ rest).
    { rewrite Hsplit. rewrite Hparts at 1. rewrite <- !app_assoc.
      reflexivity. }
    destruct (IH (read_measure P (next_state s) inp1) ltac:(lia)
                (next_state s) inp1 room chunks1
                (R ++ firstn (Z.to_nat (consumed s)) inp) (W ++ written s)
                rest Hread1 Hsplit1 Hgrown (Nat.le_refl _))
      as (x' & Hrun' & Hok & Hnil & Hread' & Hdone).
    eexists. split.
    + intros fuel Hfuel. destruct fuel as [|fuel]; [lia|].
      rewrite Hunfold, Hst. cbn [BrotliDecoderResult_eqb].
      rewrite (Hrun' fuel) by lia. reflexivity.
    + cbn [re_status re_next_in re_stream re_state].
      split; [assumption|]. split; [assumption|].
      replace ((R ++ firstn (Z.to_nat (consumed s)) inp) ++ inp1)
        with (R ++ inp) in Hread'
        by (rewrite <- app_assoc, <- Hparts; reflexivity).
      rewrite !app_assoc. split; assumption.
  - (* more input *)
    destruct (Hwhole Hc) as [Hnil Hinp]. rewrite Hinp in Hread1.
    eexists. split.
    + intros fuel Hfuel. destruct fuel as [|fuel]; [lia|].
      rewrite Hunfold, Hst. cbn [BrotliDecoderResult_eqb]. reflexivity.
    + cbn [re_status re_next_in re_stream re_state].
      split; [discriminate|].
      split; [assumption|]. split; [assumption|].
      intros Hno. contradiction.
  - (* the end of the stream *)
    destruct (Hwhole Hc) as [Hnil Hinp]. rewrite Hinp in Hread1.
    eexists. split.
    + intros fuel Hfuel. destruct fuel as [|fuel]; [lia|].
      rewrite Hunfold, Hst. cbn [BrotliDecoderResult_eqb]. reflexivity.
    + cbn [re_status re_next_in re_stream re_state].
      split; [discriminate|].
      split; [assumption|]. split; [assumption|].
      intros _. assumption.
Qed.

(** [process] on the next piece of the stream. *)
Lemma process_piece (d : BrotliDecoderState D) (inp : list byte)
    (R W rest : list byte) :
  Read_inv P d R W S C ->
  C = R ++ inp ++ rest ->
  exists (out : list byte) (d' : BrotliDecoderState D),
    Read_inv P d' (R ++ inp) (W ++ out) S C /\
    (rest = [] -> W ++ out = S) /\
    forall (fuel : nat) (room : Z) (py : PyInterp),
      (read_measure P d inp < fuel)%nat ->
      grants py room ->
      room_for (Py_SIZE out) <= room ->
      exists c : call_result (brotli_Decompressor D) block,
        brotli_Decompressor_process D fuel (mkDecompressor (Some d))
          (PyBytes inp) py = Returns c /\
        ret c = Some out /\
        self_after c = mkDecompressor (Some d') /\
        grants (interp c) (room - Py_SIZE out) /\
        err (interp c) = err py.
Proof.
  intros Hread Hsplit.
  destruct (StreamDriver_decompress_piece (read_measure P d inp) d inp 32768
              1 R W rest Hread Hsplit ltac:(lia) (Nat.le_refl _))
    as (x & Hrun & Hok & Hnil & Hread' & Hdone).
  exists (re_stream x), (re_state x).
  split; [assumption|]. split; [assumption|].
  intros fuel room py Hfuel Hgr Hroom.
  destruct (Decompressor_process_exact D fuel (mkDecompressor (Some d)) d inp
              py x room eq_refl (Hrun fuel Hfuel) Hgr Hroom)
    as (c & Hcall & Hself & Hret & Herr & Hgr' & _).
  assert (Hcond :
    negb (BrotliDecoderResult_eqb (re_status x) BROTLI_DECODER_RESULT_ERROR)
    && (Py_SIZE (re_next_in x) =? 0) = true).
  { rewrite Hnil. apply andb_true_intro. split; [|reflexivity].
    apply negb_true_iff, BrotliDecoderResult_eqb_neq. assumption. }
  rewrite Hcond in Hret, Herr, Hgr'.
  exists c. repeat (split; [assumption|]). assumption.
Qed.

Lemma Decompressor_calls_total (pieces : list (list byte)) :
  forall (d : BrotliDecoderState D) (R W : list byte),
    Read_inv P d R W S C ->
    C = R ++ concat pieces ->
    (pieces = [] -> W = S) ->
    exists (out : list byte) (d' : BrotliDecoderState D) (fuel0 : nat),
      W ++ out = S /\
      Read_inv P d' C S S C /\
      forall (fuel : nat) (room : Z) (py : PyInterp),
        (fuel0 <= fuel)%nat ->
        grants py room ->
        room_for (Py_SIZE out) <= room ->
        exists c : call_result (brotli_Decompressor D) block,
          Decompressor_calls D fuel (mkDecompressor (Some d)) pieces py
          = Returns c /\
          ret c = Some out /\
          self_after c = mkDecompressor (Some d') /\
          grants (interp c) (room - Py_SIZE out) /\
          err (interp c) = err py.
Proof.
  induction pieces as [|inp pieces IH]; intros d R W Hread Hsplit Hlast.
  - exists [], d, 0%nat. cbn in Hsplit. rewrite app_nil_r in Hsplit.
    rewrite (Hlast eq_refl) in *. subst R. rewrite app_nil_r.
    split; [reflexivity|]. split; [assumption|].
    intros fuel room py _ Hgr _. eexists. split; [reflexivity|].
    cbn [ret self_after interp Py_SIZE length Z.of_nat].
    rewrite Z.sub_0_r. repeat (split; [reflexivity || assumption|]).
    reflexivity.
  - cbn [concat] in Hsplit.
    destruct (process_piece d inp R W (concat pieces) Hread Hsplit)
      as (out1 & d1 & Hread1 & Hdone1 & Hfirst).
    destruct (IH d1 (R ++ inp) (W ++ out1) Hread1)
      as (out2 & d2 & fuel2 & Hout & Hread2 & Hrest).
    { rewrite <- app_assoc. assumption. }
    { intros Hnil. apply Hdone1. rewrite Hnil. reflexivity. }
    exists (out1 ++ out2), d2,
           (Nat.max (Datatypes.S (read_measure P d inp)) fuel2).
    rewrite app_assoc. split; [assumption|]. split; [assumption|].
    intros fuel room py Hfuel Hgr Hroom.
    unfold room_for in Hroom. rewrite Py_SIZE_app in Hroom.
    pose proof (Py_SIZE_nonneg out1) as Hnn1.
    pose proof (Py_SIZE_nonneg out2) as Hnn2.
    destruct (Hfirst fuel room py ltac:(lia) Hgr
                ltac:(unfold room_for; lia))
      as (c1 & Hcall1 & Hret1 & Hself1 & Hgr1 & Herr1).
    destruct (Hrest fuel (room - Py_SIZE out1) (interp c1) ltac:(lia) Hgr1
                ltac:(unfold room_for; lia))
      as (c2 & Hcall2 & Hret2 & Hself2 & Hgr2 & Herr2).
    cbn [Decompressor_calls]. rewrite Hcall1, Hret1, Hself1, Hcall2, Hret2.
    eexists. split; [reflexivity|]. cbn [ret self_after interp].
    split; [reflexivity|]. split; [assumption|]. split; [|congruence].
    rewrite Py_SIZE_app.
    replace (room - (Py_SIZE out1 + Py_SIZE out2))
      with (room - Py_SIZE out1 - Py_SIZE out2) by lia.
    assumption.
Qed.

(** The pieces of an encoding of [S], given in turn to a decompressor that
    holds a new decoder. *)
Lemma pieces_total (pieces : list (list byte)) (d : BrotliDecoderState D) :
  BrotliDecoderCreateInstance D = Some d ->
  Encodes K S C ->
  pieces <> [] ->
  concat pieces = C ->
  exists (d' : BrotliDecoderState D) (fuel0 : nat),
    BrotliDecoderIsFinished D d' = true /\
    forall (fuel : nat) (room : Z) (py : PyInterp),
      (fuel0 <= fuel)%nat ->
      grants py room ->
      room_for (Py_SIZE S) <= room ->
      exists c : call_result (brotli_Decompressor D) block,
        Decompressor_calls D fuel (mkDecompressor (Some d)) pieces py
        = Returns c /\
        ret c = Some S /\
        self_after c = mkDecompressor (Some d') /\
        grants (interp c) (room - Py_SIZE S) /\
        err (interp c) = err py.
Proof.
  intros Hcreate Henc Hpieces Hconcat.
  destruct (pw_create E D K P contract S C Henc) as (d0 & Hcreate' & Hread).
  rewrite Hcreate in Hcreate'. inversion Hcreate'; subst d0; clear Hcreate'.
  destruct (Decompressor_calls_total pieces d [] [] Hread (eq_sym Hconcat)
              ltac:(intros H; contradiction))
    as (out & d' & fuel0 & Hout & Hread' & Hcalls).
  cbn [app] in Hout. subst out.
  exists d', fuel0. split; [|assumption].
  apply (pw_finished E D K P contract d' C S S C Hread').
  split; reflexivity.
Qed.

End PiecewiseDecompression.

(** X12: decompression in pieces.  For a decoder that keeps the contract of
    decoding a stream given in pieces, [process] called in turn on the
    pieces of an encoding of [S] gives outputs that, joined in the order of
    the calls, are [S]; no call sets an error, and after the last piece
    [is_finished] answers [True].  This holds with fuel for the loops, on
    every interpreter that grants the requests and has room for the run. *)
Theorem decompression_in_pieces_round_trip
    (E : Encoder) (D : Decoder) (K : codec E D) (P : piecewise E D K)
    (S C : list byte) (pieces : list (list byte))
    (args : list PyObject) (keywds : list (string * PyObject))
    (py0 py1 : PyInterp) (self : brotli_Decompressor D)
    (evs : list event) :
  piecewise_contract E D K P ->
  Encodes K S C ->
  pieces <> [] ->
  concat pieces = C ->
  Decompressor D args keywds py0 = (Some self, py1, evs) ->
  exists fuel0 : nat,
    forall (fuel : nat) (room : Z) (py : PyInterp),
      (fuel0 <= fuel)%nat ->
      grants py room ->
      room_for (Py_SIZE S) <= room ->
      exists c : call_result (brotli_Decompressor D) block,
        Decompressor_calls D fuel self pieces py = Returns c /\
        ret c = Some S /\
        err (interp c) = err py /\
        forall py' : PyInterp,
          ret (brotli_Decompressor_is_finished D (self_after c) py')
          = Some true.
Proof.
  intros contract Henc Hpieces Hconcat Hnew.
  apply Decompressor_constructed in Hnew.
  destruct Hnew as (_ & _ & d & Hcreate & ->).
  destruct (pieces_total E D K P contract S C pieces d Hcreate Henc Hpieces
              Hconcat)
    as (d' & fuel0 & Hfinished & Hcalls).
  exists fuel0. intros fuel room py Hfuel Hgr Hroom.
  destruct (Hcalls fuel room py Hfuel Hgr Hroom)
    as (c & Hcall & Hret & Hself & _ & Herr).
  exists c. split; [assumption|]. split; [assumption|].
  split; [assumption|].
  intros py'. rewrite Hself. unfold brotli_Decompressor_is_finished.
  cbn [dec ret]. rewrite Hfinished. reflexivity.
Qed.

(** ** The small decoder reads a stream given in pieces *)

Lemma reading_eta (r : Toy.reading) :
  r = Toy.mkReading (Toy.r_consumed r) (Toy.r_out r) (Toy.r_half r)
        (Toy.r_done r) (Toy.r_bad r).
Proof. destruct r; reflexivity. Qed.

(** Reading two pieces one after the other is reading them joined. *)
Lemma read_app (a b : list byte) :
  forall h : bool,
    Toy.read h (a ++ b)
    = if Toy.r_done (Toy.read h a) || Toy.r_bad (Toy.read h a)
      then Toy.read h a
      else Toy.mkReading
             (Toy.r_consumed (Toy.read h a)
              + Toy.r_consumed (Toy.read (Toy.r_half (Toy.read h a)) b))
             (Toy.r_out (Toy.read h a)
              ++ Toy.r_out (Toy.read (Toy.r_half (Toy.read h a)) b))
             (Toy.r_half (Toy.read (Toy.r_half (Toy.read h a)) b))
             (Toy.r_done (Toy.read (Toy.r_half (Toy.read h a)) b))
             (Toy.r_bad (Toy.read (Toy.r_half (Toy.read h a)) b)).
Proof.
  induction a as [|x a IH]; intros h.
  - cbn. apply reading_eta.
  - cbn [app Toy.read]. destruct h.
    + rewrite (IH false).
      cbn [Toy.r_consumed Toy.r_out Toy.r_half Toy.r_done Toy.r_bad].
      destruct (Toy.r_done (Toy.read false a) || Toy.r_bad (Toy.read false a));
        [reflexivity|].
      cbn [Toy.r_consumed Toy.r_out Toy.r_half Toy.r_done Toy.r_bad].
      f_equal. lia.
    + destruct (Byte.eqb x Byte.x01).
      * rewrite (IH true).
        cbn [Toy.r_consumed Toy.r_out Toy.r_half Toy.r_done Toy.r_bad].
        destruct (Toy.r_done (Toy.read true a)
                  || Toy.r_bad (Toy.read true a)); [reflexivity|].
        cbn [Toy.r_consumed Toy.r_out Toy.r_half Toy.r_done Toy.r_bad].
        f_equal. lia.
      * destruct (Byte.eqb x Byte.x00); reflexivity.
Qed.

Lemma read_out_length (inp : list byte) :
  forall h : bool,
    (length (Toy.r_out (Toy.read h inp)) <= length inp)%nat.
Proof.
  induction inp as [|x inp IH]; intros h; [cbn; lia|].
  cbn [Toy.read]. destruct h.
  - cbn. specialize (IH false). lia.
  - destruct (Byte.eqb x Byte.x01).
    + cbn. specialize (IH true). lia.
    + destruct (Byte.eqb x Byte.x00); cbn; lia.
Qed.

(** Reading the start of a stream: all of it is read, without error; the
    end of the stream is met when the whole stream was given, and then what
    was decoded is the input of the encoder. *)
Lemma read_prefix (S : list byte) :
  forall R rest : list byte,
    Toy.escape S ++ [Byte.x00] = R ++ rest ->
    Toy.r_consumed (Toy.read false R) = Py_SIZE R /\
    Toy.r_bad (Toy.read false R) = false /\
    (Toy.r_done (Toy.read false R) = true <-> rest = []) /\
    (rest = [] -> Toy.r_out (Toy.read false R) = S).
Proof.
  induction S as [|b S IH]; intros R rest Hsplit.
  - cbn in Hsplit.
    destruct R as [|x R].
    + cbn in Hsplit. subst rest. cbn.
      repeat split; try discriminate.
    + cbn in Hsplit. inversion Hsplit as [[Hx Hrest]]. subst x.
      destruct R; [|discriminate]. cbn in Hrest. subst rest. cbn.
      repeat split.
  - cbn [Toy.escape app] in Hsplit.
    destruct R as [|x R].
    + cbn in Hsplit. subst rest. cbn.
      repeat split; try discriminate.
    + cbn in Hsplit. inversion Hsplit as [[Hx Hrest]]. subst x.
      destruct R as [|y R].
      * cbn in Hrest. subst rest. cbn.
        repeat split; try discriminate.
      * cbn in Hrest. inversion Hrest as [[Hy Hrest']]. subst y.
        destruct (IH R rest Hrest') as (Hc & Hb & Hd & Ho).
        cbn [Toy.read]. change (Byte.eqb Byte.x01 Byte.x01) with true.
        cbv beta iota.
        cbn [Toy.r_consumed Toy.r_out Toy.r_half Toy.r_done Toy.r_bad].
        split; [rewrite Hc; unfold Py_SIZE; cbn [length]; lia|].
        split; [assumption|]. split; [assumption|].
        intros Hnil. rewrite (Ho Hnil). reflexivity.
Qed.

Lemma app_nil_end_inv {A : Type} (l rest : list A) :
  l = l ++ rest -> rest = [].
Proof.
  intros H. apply (app_inv_head l). rewrite app_nil_r. symmetry. assumption.
Qed.

Lemma toy_piecewise_contract :
  piecewise_contract Toy.encoder Toy.decoder toy_codec toy_piecewise.
Proof.
  constructor.
  - intros S C HC. cbn [Encodes toy_codec] in HC.
    exists (Toy.mkDec [] false false false). split; [reflexivity|].
    cbn. repeat split; [assumption|]. exists C. reflexivity.
  - intros d R W S C inp rest ao (HC & (rest0 & Hrest0) & Hread & Hbad)
      Hsplit Hroom.
    cbn [BrotliDecoderDecompressStream Toy.decoder]. cbv zeta.
    cbn [Read_inv read_measure toy_piecewise].
    pose proof (read_prefix S R (inp ++ rest) ltac:(congruence))
      as (_ & _ & HdoneR & _).
    rewrite Hread in HdoneR. cbn [Toy.r_done] in HdoneR.
    pose proof (read_prefix S (R ++ inp) rest
                  ltac:(rewrite <- app_assoc; congruence))
      as (Hc2 & Hb2 & Hd2 & Ho2).
    assert (Hao : (1 <= Z.to_nat ao)%nat) by lia.
    unfold Toy.decoder_step. rewrite Hbad, orb_false_r.
    destruct (Toy.done d) eqn:Hdone.
    + (* the end of the stream was read before *)
      pose proof (proj1 HdoneR eq_refl) as Hnil0.
      apply app_eq_nil in Hnil0. destruct Hnil0 as [Hinp Hrest].
      subst inp rest.
      cbn [Toy.r_consumed Toy.r_out Toy.r_half Toy.r_done Toy.r_bad
           status consumed written next_state orb Toy.bad Toy.done
           Toy.decoded Toy.half].
      rewrite !app_nil_r in *.
      change (Py_SIZE (@nil byte)) with 0.
      split; [lia|].
      split; [unfold Py_SIZE; rewrite length_firstn; lia|].
      split.
      { split; [assumption|]. split; [exists []; rewrite app_nil_r;
                                       congruence|].
        split; [|reflexivity].
        rewrite Hread, <- app_assoc, firstn_skipn. reflexivity. }
      destruct (Toy.is_nil (skipn (Z.to_nat ao) (Toy.decoded d))) eqn:Hnil;
        cbn [negb].
      * right. right. apply is_nil_true in Hnil.
        rewrite (skipn_nil_firstn _ _ Hnil).
        repeat split.
        rewrite Hread in Ho2. cbn [Toy.r_out] in Ho2. apply Ho2. reflexivity.
      * left. apply is_nil_false, skipn_not_nil in Hnil.
        split; [reflexivity|].
        unfold advance_in. cbn [skipn length].
        rewrite length_skipn. destruct (Z.to_nat 0); cbn [skipn length]; lia.
    + (* the piece is read *)
      cbn [orb].
      rewrite read_app, Hread in Hc2, Hb2, Hd2, Ho2.
      cbn [Toy.r_consumed Toy.r_out Toy.r_half Toy.r_done Toy.r_bad orb]
        in Hc2, Hb2, Hd2, Ho2.
      remember (Toy.read (Toy.half d) inp) as r eqn:Hr.
      assert (Hcons : Toy.r_consumed r = Py_SIZE inp)
        by (rewrite Py_SIZE_app in Hc2; lia).
      pose proof (read_out_length inp (Toy.half d)) as Hlen.
      rewrite <- Hr in Hlen.
      cbn [status consumed written next_state Toy.bad Toy.done Toy.decoded
           Toy.half orb].
      rewrite Hb2, Hcons.
      replace (Z.to_nat (Py_SIZE inp)) with (length inp)
        by (unfold Py_SIZE; lia).
      rewrite firstn_all.
      pose proof (Py_SIZE_nonneg inp).
      split; [lia|].
      split; [unfold Py_SIZE; rewrite length_firstn; lia|].
      split.
      { split; [assumption|].
        split; [exists rest; rewrite <- app_assoc; congruence|].
        split; [|reflexivity].
        rewrite read_app, Hread.
        cbn [Toy.r_consumed Toy.r_out Toy.r_half Toy.r_done Toy.r_bad orb].
        rewrite <- Hr, Hb2, Hcons.
        f_equal; [rewrite Py_SIZE_app; reflexivity|].
        rewrite <- !app_assoc. f_equal. symmetry. apply firstn_skipn. }
      destruct (Toy.is_nil (skipn (Z.to_nat ao) (Toy.decoded d ++ Toy.r_out r)))
        eqn:Hnil; cbn [negb].
      * apply is_nil_true in Hnil.
        rewrite (skipn_nil_firstn _ _ Hnil).
        destruct (Toy.r_done r) eqn:Hdone2.
        -- right. right. pose proof (proj1 Hd2 eq_refl) as Hrest.
           repeat split; try assumption.
           rewrite app_assoc. apply Ho2. assumption.
        -- right. left. repeat split.
           intros Hrest. apply Hd2 in Hrest. discriminate.
      * left. apply is_nil_false, skipn_not_nil in Hnil.
        split; [reflexivity|].
        unfold advance_in.
        replace (Z.to_nat (Py_SIZE inp)) with (length inp)
          by (unfold Py_SIZE; lia).
        rewrite skipn_all, length_skipn. rewrite length_app in *.
        cbn [length]. lia.
  - intros d R W S C (HC & (rest0 & Hrest0) & Hread & Hbad).
    cbn [BrotliDecoderIsFinished Toy.decoder].
    pose proof (read_prefix S R rest0 ltac:(congruence))
      as (_ & _ & Hd & Ho).
    rewrite Hread in Hd, Ho. cbn [Toy.r_done Toy.r_out] in Hd, Ho.
    split.
    + intros Hfin. apply andb_prop in Hfin. destruct Hfin as [Hdone Hnil].
      apply is_nil_true in Hnil. apply Hd in Hdone. subst rest0.
      rewrite app_nil_r in Hrest0.
      split; [congruence|].
      rewrite Hnil, app_nil_r in Ho. apply Ho. reflexivity.
    + intros [HR HW]. subst R W.
      apply app_nil_end_inv in Hrest0.
      rewrite (proj2 Hd Hrest0). cbn [andb].
      specialize (Ho Hrest0).
      symmetry in Ho. apply app_nil_end_inv in Ho. rewrite Ho. reflexivity.
Qed.

(** A stream given in three pieces to the small decoder, computed. *)
Lemma three_pieces :
  Decompressor_calls Toy.decoder 2
    (@mkDecompressor Toy.decoder (Some (Toy.mkDec [] false false false)))
    [[Byte.x01]; [Byte.x2a; Byte.x01]; [Byte.x2b; Byte.x00]] idle_py
  = Returns
      (mkCall (Some [Byte.x2a; Byte.x2b])
         (@mkDecompressor Toy.decoder (Some (Toy.mkDec [] false true false)))
         (mkPy [] 2 Byte.x00 None)
         [EvInitAndGrow 0;
          EvDecoderDecompressStream BROTLI_DECODER_RESULT_NEEDS_MORE_INPUT
            0 32768;
          EvFinish 32768 true; EvInitAndGrow 0;
          EvDecoderDecompressStream BROTLI_DECODER_RESULT_NEEDS_MORE_INPUT
            0 32767;
          EvFinish 32767 true; EvInitAndGrow 0;
          EvDecoderDecompressStream BROTLI_DECODER_RESULT_SUCCESS 0 32767;
          EvFinish 32767 true]).
Proof. vm_compute. reflexivity. Qed.


Lemma decompression_in_pieces_round_trip_witness :
  exists (fuel : nat)
         (c : call_result (brotli_Decompressor Toy.decoder) block),
    Decompressor_calls Toy.decoder fuel
      (@mkDecompressor Toy.decoder
         (Some (Toy.mkDec [] false false false)))
      [[Byte.x01]; [Byte.x2a; Byte.x01]; [Byte.x2b; Byte.x00]] idle_py
    = Returns c /\
    ret c = Some [Byte.x2a; Byte.x2b] /\
    err (interp c) = err idle_py /\
    forall py' : PyInterp,
      ret (brotli_Decompressor_is_finished Toy.decoder (self_after c) py')
      = Some true.
Proof.
  destruct (decompression_in_pieces_round_trip Toy.encoder Toy.decoder
              toy_codec toy_piecewise [Byte.x2a; Byte.x2b]
              [Byte.x01; Byte.x2a; Byte.x01; Byte.x2b; Byte.x00]
              [[Byte.x01]; [Byte.x2a; Byte.x01]; [Byte.x2b; Byte.x00]]
              [] [] idle_py idle_py
              (@mkDecompressor Toy.decoder
                 (Some (Toy.mkDec [] false false false)))
              [EvDecoderCreateInstance true]
              toy_piecewise_contract eq_refl ltac:(discriminate) eq_refl
              eq_refl)
    as (fuel0 & Hcalls).
  exists fuel0.
  apply (Hcalls fuel0 32778 idle_py (Nat.le_refl _)).
  - apply idle_py_grants. vm_compute. split; discriminate.
  - vm_compute. discriminate.
Defined.

(** X14: a stream through both objects.  For engines that keep the contract
    of a codec and the contract of decoding in pieces, there is a stream [C]
    that encodes the input handed to the compressor such that, with fuel for
    the loops and on every interpreter that grants the requests and has room
    for the run,
    - a sequence of [process] and [flush] calls and [finish] return pieces
      that joined are [C];
    - [C], cut into pieces in any way and given to [process] of a
      [Decompressor] piece by piece, comes back as the input handed to the
      compressor. *)
Theorem stream_through_both_objects
    (E : Encoder) (D : Decoder) (K : codec E D) (P : piecewise E D K)
    (config : Compressor_args) (cs : list method_call)
    (py py1 : PyInterp) (self : brotli_Compressor E) (evs : list event)
    (args : list PyObject) (keywds : list (string * PyObject))
    (py2 py3 : PyInterp) (self' : brotli_Decompressor D)
    (evs' : list event) :
  step_contract E D K ->
  piecewise_contract E D K P ->
  Compressor E config py = (Some self, py1, evs) ->
  Decompressor D args keywds py2 = (Some self', py3, evs') ->
  exists (C : list byte) (fuel0 : nat),
    Encodes K (processed cs) C /\
    (forall (fuel : nat) (room : Z),
       (fuel0 <= fuel)%nat ->
       grants py1 room ->
       room_for (Py_SIZE C) <= room ->
       exists c : call_result unit block,
         compress_in_pieces E fuel config cs py = Returns c /\
         ret c = Some C) /\
    (forall pieces : list (list byte),
       pieces <> [] ->
       concat pieces = C ->
       exists fuel1 : nat,
         forall (fuel : nat) (room : Z) (py' : PyInterp),
           (fuel1 <= fuel)%nat ->
           grants py' room ->
           room_for (Py_SIZE (processed cs)) <= room ->
           exists c' : call_result (brotli_Decompressor D) block,
             Decompressor_calls D fuel self' pieces py' = Returns c' /\
             ret c' = Some (processed cs)).
Proof.
  intros contract pieces_contract Hnew Hnew'.
  destruct (in_pieces_total E D K contract config cs py py1 self evs Hnew)
    as (C & fuel0 & Hencodes & Hcompress).
  exists C, fuel0. split; [assumption|]. split.
  - intros fuel room Hfuel Hgr Hroom.
    destruct (Hcompress fuel room Hfuel Hgr Hroom) as (c & Hcall & Hret & _).
    exists c. split; assumption.
  - intros pieces Hpieces Hconcat.
    apply Decompressor_constructed in Hnew'.
    destruct Hnew' as (_ & _ & d & Hcreate & ->).
    destruct (pieces_total E D K P pieces_contract (processed cs) C pieces d
                Hcreate Hencodes Hpieces Hconcat)
      as (d' & fuel1 & _ & Hcalls).
    exists fuel1. intros fuel room py' Hfuel Hgr Hroom.
    destruct (Hcalls fuel room py' Hfuel Hgr Hroom)
      as (c' & Hcall & Hret & _).
    exists c'. split; assumption.
Qed.

Lemma stream_through_both_objects_witness :
  exists (C : list byte) (fuel : nat),
    C = [Byte.x01; Byte.x2a; Byte.x01; Byte.x2b; Byte.x00] /\
    (exists c : call_result unit block,
       compress_in_pieces Toy.encoder fuel no_args
         [call_process [Byte.x2a]; call_flush; call_process [Byte.x2b]]
         idle_py = Returns c /\
       ret c = Some C) /\
    (exists (fuel1 : nat)
            (c' : call_result (brotli_Decompressor Toy.decoder) block),
       Decompressor_calls Toy.decoder fuel1
         (@mkDecompressor Toy.decoder
            (Some (Toy.mkDec [] false false false)))
         [[Byte.x01; Byte.x2a; Byte.x01]; [Byte.x2b; Byte.x00]] idle_py
       = Returns c' /\
       ret c' = Some [Byte.x2a; Byte.x2b]).
Proof.
  destruct (stream_through_both_objects Toy.encoder Toy.decoder toy_codec
              toy_piecewise no_args
              [call_process [Byte.x2a]; call_flush; call_process [Byte.x2b]]
              idle_py idle_py
              (@mkCompressor Toy.encoder (Some (Toy.mkEnc [] false)))
              [EvEncoderCreateInstance true]
              [] [] idle_py idle_py
              (@mkDecompressor Toy.decoder
                 (Some (Toy.mkDec [] false false false)))
              [EvDecoderCreateInstance true]
              toy_codec_contract toy_piecewise_contract eq_refl eq_refl)
    as (C & fuel0 & Hencodes & Hcompress & Hpieces).
  cbn in Hencodes. subst C.
  exists [Byte.x01; Byte.x2a; Byte.x01; Byte.x2b; Byte.x00], fuel0.
  split; [reflexivity|]. split.
  - apply (Hcompress fuel0 32793 (Nat.le_refl _)).
    + apply idle_py_grants. vm_compute. split; discriminate.
    + vm_compute. discriminate.
  - destruct (Hpieces [[Byte.x01; Byte.x2a; Byte.x01]; [Byte.x2b; Byte.x00]]
                ltac:(discriminate) eq_refl) as (fuel1 & Hcalls).
    exists fuel1.
    apply (Hcalls fuel1 32778 idle_py (Nat.le_refl _)).
    + apply idle_py_grants. vm_compute. split; discriminate.
    + vm_compute. discriminate.
Defined.

(** ** The driver of compression and the algorithm of the spec *)

(** X15: [compress_stream] does what the algorithm of the spec does.
    - On every interpreter, [compress_stream] hands back an output only
      when the loop of the spec, started on a first chunk of 32768 bytes,
      ends with a true status, and the output is the whole stream that loop
      wrote; otherwise it reports a failure.
    - When the loop of the spec ends on an input, then on every interpreter
      that grants the requests and has room for the run [compress_stream]
      returns: the status and the encoder the loop of the spec ends with,
      the stream it wrote when the status is true and nothing otherwise, and
      its calls in the same order, between the call of
      [BlocksOutputBuffer_InitAndGrow] and the call of
      [BlocksOutputBuffer_Finish] with the room left in the last chunk (of
      [BlocksOutputBuffer_CleanUp] when a step failed).  It sets no
      error. *)
Theorem compress_stream_follows_the_algorithm
    (E : Encoder) (fuel : nat) (e : BrotliEncoderState E)
    (op : BrotliEncoderOperation) (inp : list byte) (py : PyInterp) :
  (forall r : stream_result (BrotliEncoderState E),
     compress_stream E fuel e op inp py = Returns r ->
     match output r with
     | Some out =>
         ok r = true /\
         exists x : run_end (BrotliEncoderState E) bool,
           StreamDriver_compress E fuel e op inp 32768 1 = Some x /\
           re_status x = true /\ out = re_stream x /\ engine r = re_state x
     | None => ok r = false
     end) /\
  (forall (x : run_end (BrotliEncoderState E) bool) (room : Z),
     StreamDriver_compress E fuel e op inp 32768 1 = Some x ->
     grants py room ->
     room_for (Py_SIZE (re_stream x)) <= room ->
     exists py' : PyInterp,
       compress_stream E fuel e op inp py
       = Returns
           (mkResult (re_status x)
              (if re_status x then Some (re_stream x) else None)
              (re_state x) py'
              (EvInitAndGrow 0
               :: re_trace x
                  ++ [if re_status x then EvFinish (re_avail_out x) true
                      else EvCleanUp])) /\
       err py' = err py).
Proof.
  split.
  - intros r Hcall. exact (compress_stream_sound E fuel e op inp py r Hcall).
  - intros x room Hrun Hgr Hroom.
    destruct (compress_stream_exact E fuel e op inp py x room Hrun Hgr Hroom)
      as (py' & Hstream & _ & Herr).
    exists py'. split; assumption.
Qed.

(** The run of the spec on [half_block_input] asks for a second chunk. *)
Lemma half_block_run_grows :
  StreamDriver_compress Toy.encoder 1 (Toy.mkEnc [] false)
    BROTLI_OPERATION_PROCESS half_block_input 32768 1
  = Some half_block_run /\
  re_status half_block_run = true /\
  Py_SIZE (re_stream half_block_run) = 32768 /\
  re_chunks half_block_run = 2%nat /\
  re_avail_out half_block_run = 65536 /\
  re_trace half_block_run
  = [EvEncoderCompressStream BROTLI_OPERATION_PROCESS true 0 0; EvGrow 0;
     EvEncoderHasMoreOutput false].
Proof.
  split.
  - assert (H : is_some (StreamDriver_compress Toy.encoder 1
                           (Toy.mkEnc [] false) BROTLI_OPERATION_PROCESS
                           half_block_input 32768 1) = true)
      by (vm_compute; reflexivity).
    unfold half_block_run.
    destruct (StreamDriver_compress Toy.encoder 1 (Toy.mkEnc [] false)
                BROTLI_OPERATION_PROCESS half_block_input 32768 1);
      [reflexivity | discriminate].
  - repeat split; vm_compute; reflexivity.
Qed.

Lemma compress_stream_follows_the_algorithm_witness :
  exists py' : PyInterp,
    compress_stream Toy.encoder 1 (Toy.mkEnc [] false)
      BROTLI_OPERATION_PROCESS half_block_input idle_py
    = Returns
        (mkResult (re_status half_block_run)
           (if re_status half_block_run
            then Some (re_stream half_block_run) else None)
           (re_state half_block_run) py'
           (EvInitAndGrow 0
            :: re_trace half_block_run
               ++ [if re_status half_block_run
                   then EvFinish (re_avail_out half_block_run) true
                   else EvCleanUp])) /\
    err py' = err idle_py.
Proof.
  destruct (compress_stream_follows_the_algorithm Toy.encoder 1
              (Toy.mkEnc [] false) BROTLI_OPERATION_PROCESS half_block_input
              idle_py) as [_ Hexact].
  apply (Hexact half_block_run 196608).
  - exact (proj1 half_block_run_grows).
  - apply idle_py_grants. vm_compute. split; discriminate.
  - destruct half_block_run_grows as (_ & _ & Hsize & _).
    change (room_for (Py_SIZE (re_stream half_block_run)) <= 196608).
    rewrite Hsize. vm_compute. discriminate.
Defined.
